(* ===== verification/_CoqProject ===== *)
-Q . S2P
Prelude.v
Prog.v
Slots.v
Rely.v
GoStrings.v
GoRegexp.v
GoPath.v
GoMux.v
GoJson.v
GoCodec.v
GoSha256.v
GoTime.v
GoHeap.v
ApiTypes.v
DeepCopy.v
ApiCodec.v
Errors.v
Validate.v
NsjailConfig.v
Output.v
AdapterConfig.v
Adapter.v
AdapterRace.v
CtrlMetrics.v
Controller.v
CtrlAccounting.v
Kube.v
CtrlClient.v
Wire.v
Process.v
SessionReconciler.v
SessionProofs.v
Lifecycle.v
PoolReconciler.v
Auth.v
EnvConfig.v
RouterServer.v
Mcp.v
RouterProofs.v
RouterAccess.v
RouterWire.v
RouterHttp.v
SessionTypes.v
Cluster.v
ClusterProps.v
ExecChain.v
StreamChain.v
Startup.v
EndToEnd.v
Findings.v
