(* ===== verification/Prelude.v ===== *)
(** * Boxy: sandboxes for untrusted commands on Kubernetes

    Boxy runs shell commands of agents and users in nsjail process jails.  It
    consists of three programs and the objects they share.

    - The ROUTER ([cmd/boxy-router], [internal/router]) is the public HTTP and
      MCP endpoint.  It authenticates bearer tokens, asks the API server for
      access, stores Sandbox (configuration) and Session objects, waits for a
      session to run and forwards commands and file operations to the controller
      that holds it.
    - The OPERATOR ([cmd/boxy-operator], [internal/operator]) reconciles these
      objects: it places a session on a controller pod, has the sandbox created
      there, expires and releases it, scales the controllers' StatefulSet and
      reports the state of the pool.
    - A CONTROLLER ([cmd/boxy-controller], [internal/nsjail]) keeps a registry of
      sandboxes and runs each command in a jail it describes to nsjail in a text
      file.

    The development translates this code into executable definitions with the
    names of the source and proves what the components promise.

    ** Effects

    [Prog] has the embedding: a function that calls the operating system, the
    Kubernetes API, a controller or the clock is a [prog], a tree of events and
    continuations.  There are three signatures of events: the system calls of a
    controller ([Adapter.ASig]), the calls of operator and router ([Kube.KSig])
    and those of a process that starts and stops ([Process.PSig]).  Nothing is
    assumed about the answers.  [wp R p s Q] says that every run of [p] whose
    answers the environment [R] allows ends in [Q]; [run] executes a program
    against a concrete world, [run_pool] several at once under a schedule;
    [only P p] says which events [p] can perform, [results Q p] what it can
    return.  [Slots] runs any number of programs interleaved that share a
    counting semaphore: if each keeps the discipline of the semaphore, its
    capacity bounds how many work at a time, and no slot is lost.  [Rely] runs one
    worker among any number of neighbours that change the same state between its
    steps: an invariant that the neighbours respect whatever they do, and the
    worker under their interference, holds of everything that can be reached.
    Most environments are monitors: they let any answer through and record what the
    program did (writes, locks, slots, grants), and the theorem is about the
    record.  The environments that do restrict answers say so: a store that
    returns what it holds, a clock that does not go back, a read by name that
    returns the object of that name.  Two environments join the programs:
    [Cluster.world_env] is an API server with resource versions, merge patches and
    finalizers, and the controllers by the contract they keep
    ([EndToEnd.controllers_honour_contract]); [ExecChain.linked] answers a call of
    a controller by running the controller's own handler.

    ** Go

    [GoStrings] ([strings], [unicode/utf8], the numbers of [strconv]), [GoRegexp]
    ([regexp] for the patterns used), [GoPath] ([path/filepath]), [GoMux]
    ([http.ServeMux] and the paths of [net/url]), [GoJson] and [GoCodec]
    ([encoding/json], as text and on Go types, with its round trip), [GoSha256]
    ([crypto/sha256], [encoding/hex]), [GoTime] (RFC 3339 dates) and [GoHeap]
    (pointers, slices and maps in memory) model what the code uses of the
    standard library.  Strings are byte strings; [int32], [int64] and the
    unsigned types are [Z] with the wrap-around written out where the code
    converts or computes at that width; a Go map that is ranged over is the list
    of its entries in iteration order; an [error] is an [option Err]; formatted
    messages keep the values of their [%q] and [%v] verbs.  Times are
    nanoseconds.

    ** The files

    - [ApiTypes]: the types of [internal/api/types.go], [api/v1alpha1] and of
      [internal/controller/client.go]; errors.  [ApiCodec]: their JSON.  [Errors]:
      the text of errors.
    - [DeepCopy]: [api/v1alpha1/zz_generated.deepcopy.go] over a heap.  A copy has
      the original's value, and neither sees a later change of the other; so the
      other files treat objects as values.
    - [Validate]: [internal/api/validate.go].  Validation accepts exactly the
      requests it should; an accepted id is a Kubernetes label value; reserved
      variables cannot be set under any spelling.
    - [NsjailConfig]: [nsjail_config.go].  Reading the printed configuration back
      gives the configuration, so no string can forge a field.
    - [Output]: [limitWriter], [io.Copy] into it, and the [drain] goroutines of
      [ExecStream].  What is captured and what is streamed, for every
      interleaving of the two pipes.
    - [AdapterConfig]: [validateCreateRequest], [buildNsjailConfig],
      [buildExecResponse].  Which requests are accepted, that accepted mounts stay
      inside the sandbox root, what the jail consists of.
    - [Adapter], [AdapterRace]: the rest of [adapter.go], [pty_linux.go] and
      [pty_stub.go] as programs over system calls.  The adapter implements a map
      of sandboxes, keeps its lock discipline, cleans up after a failed create and
      edits files correctly; two concurrent creates with a setup script can
      collide.
    - [Controller]: [cmd/boxy-controller/server.go] against the interface
      [AdapterOps] with the laws [AdapterLaws], which the nsjail adapter
      satisfies, also where it is built without terminals.  Contract of the create endpoint, token check, reading of files
      cut in the middle of a rune, output over the limit.
    - [CtrlMetrics], [CtrlAccounting]: [cmd/boxy-controller/metrics.go].  The
      gauge of active sandboxes follows the registry, the exec counters follow the
      commands, and concurrent requests never run more commands than there are
      slots.
    - [Kube]: the calls of operator and router.  [CtrlClient]:
      [internal/controller/client.go].
    - [Wire]: the text between that client and the controller.  A request reaches
      the handler it is meant for; what the handler returns, and every event of a
      stream, is what the client's caller gets.
    - [Process]: [internal/telemetry], [internal/kube], [internal/router/k8s.go],
      [groupversion_info.go], [controller_client.go], the instruments of the three
      programs and both sides of mutual TLS.
    - [SessionReconciler], [SessionProofs]: [session_reconciler.go] and
      [session_scaler.go].  The session state machine ([phase_step]), finalizers,
      best-fit placement, capacity, replica bounds, expiry.  [Lifecycle]: in a
      cluster whose calls succeed a session comes up and an expired one is torn
      down.
    - [PoolReconciler]: [pool_reconciler.go], [sandbox_config_reconciler.go].
    - [Auth]: [internal/router/auth.go].  Whom the router believes a token to be,
      with a cache that other requests use at the same time.
    - [EnvConfig]: the configuration of the three programs.
    - [RouterServer], [Mcp]: [internal/router/server.go] and [mcp.go], for decoded
      requests.  [RouterProofs]: the polling loop ends, each request gives back
      its slot, made-up ids are valid.  [RouterAccess]: every effect of a request
      is for a user that was vouched for and granted it.
    - [RouterWire]: the headers and the text of the router's responses.  Decoding
      the text gives what the handler answered.
    - [RouterHttp]: [Server.Handler] and [internal/router/metrics.go].  Which
      pattern serves which path; the access, slot and metrics theorems for
      requests as they arrive, the slots for any number of concurrent ones.
    - [SessionTypes]: every session that operator and router write is well-formed.
    - [Cluster], [ClusterProps]: operator, router, API server and controllers
      together, the session reconciler among any number of requests, loops and
      other reconcilers, with lost requests and restarting controllers.  In every
      state that can be reached no pod has more sessions than it may, the stored
      sessions are well-formed and a running one has had its sandbox created, and
      a sandbox on a controller has a session that will release it, but for
      requests without an answer and for sessions deleted while in phase Deleting.
      [ClusterProps.simulate] runs such a cluster.
    - [ExecChain], [StreamChain]: one exec, captured or streamed, from the text of
      the request to the jail and back.  It runs at most one command, the posted
      one in the jail of its session, and the text of the response decodes to that
      command's result, or to its events and its end.
    - [Startup]: the three [main] functions and their goroutines.  A program
      serves and later shuts down what it started, or a step it needs failed and
      it exits without having served (the router alone goes on without its
      instruments); with mutual TLS nobody without a certificate of the configured
      authority reaches the controller's API; a request of the router or the
      operator reaches the controller's handler.
    - [EndToEnd]: the posted configuration is the one that is jailed; the
      controllers keep the contract the cluster counts on.
    - [Findings]: behaviours that differ from what is documented or meant.

    ** Bounds

    All recursion is structural but for three cases.  The polling loop of
    [createAndWaitForSession] has [wait_rounds] rounds, the timeout divided by
    the interval plus two, which [RouterProofs.waiting_terminates] shows to be
    enough.  The loops that run until their context ends ([evictLoop],
    [RunScaleDownLoop]) are cut off after a number of rounds, and their theorems
    hold for every such number.  The JSON parser has fuel linear in the text
    ([parse_fuel]), and [GoJson.parse_fuel_enough] shows that more would read
    nothing more.  The regular expressions are matched by derivatives, without
    fuel.

    ** Not modelled

    The insides of libraries the repository only calls: parsing of PEM and X.509,
    the TLS handshake beyond which certificates it accepts, OpenTelemetry,
    Prometheus, client-go, controller-runtime and the MCP library, which is given
    by the tool it calls.  The bytes of HTTP messages other than paths, bodies and
    the headers the code reads or sets.  Delivery of signals: a process is told
    that one arrived.  The lag of the cache the operator reads from: in [Cluster]
    a read sees the current state, which others may change before the next call;
    [Findings.lagging_cache_overfills] shows what a lagging list does.  The
    Landlock files, which hold no code; Helm charts and test programs.  nsjail,
    the kernel and the API server are the environment. *)
From stdpp Require Export base tactics list list_numbers option strings gmap pretty.
From Stdlib Require Export ZArith Lia Ascii.
#[export] Set Default Goal Selector "!".

Open Scope Z_scope.

(** Go strings are byte strings; [+] on them is [+:+] and computes. *)
#[global] Arguments String.append !_ _ / : simpl nomatch.

(** ** Notations of the development *)

Declare Scope boxy_scope.
Delimit Scope boxy_scope with boxy.

(** Go's [==] on strings, as a boolean. *)
Notation "s =?s t" := (String.eqb s t) (at level 70, no associativity) : boxy_scope.

(** Go's [len] of a string or byte slice, an [int]. *)
Definition slen (s : string) : Z := Z.of_nat (String.length s).

(** Go's [len] of a slice. *)
Definition llen {A} (l : list A) : Z := Z.of_nat (length l).

(** The numeric value of a byte. *)
Definition byte_val (c : ascii) : Z := Z.of_N (N_of_ascii c).

(** Single bytes that have no literal of their own. *)
Definition NL : string := String "010" "".

Definition CR : string := String "013" "".

Definition DQ : string := String "034" "".

Definition BSL : string := String "092" "".

(** ** Machine integers: Go wraps at the width of the type *)

Definition wrap_u (w z : Z) : Z := z mod 2 ^ w.

Definition wrap_s (w z : Z) : Z := (z + 2 ^ (w - 1)) mod 2 ^ w - 2 ^ (w - 1).

Definition to_int32 (z : Z) : Z := wrap_s 32 z.

Definition to_int64 (z : Z) : Z := wrap_s 64 z.

Definition to_uint32 (z : Z) : Z := wrap_u 32 z.

Definition to_uint64 (z : Z) : Z := wrap_u 64 z.

(** ** Durations and instants

    [time.Duration] is a signed 64-bit count of nanoseconds; an instant is a
    number of nanoseconds on the same axis. *)

Definition Second : Z := 1000000000.

Definition Minute : Z := 60 * Second.

Definition Millisecond : Z := 1000000.

(** [time.Duration(n) * time.Second], which wraps. *)
Definition seconds (n : Z) : Z := to_int64 (n * Second).

(** ** Strings as lists of bytes *)

Fixpoint str_rev_app (s acc : string) : string :=
  match s with
  | EmptyString => acc
  | String c s' => str_rev_app s' (String c acc)
  end.

Definition str_rev (s : string) : string := str_rev_app s "".

Fixpoint str_take (n : nat) (s : string) : string :=
  match n, s with
  | S n', String c s' => String c (str_take n' s')
  | _, _ => ""
  end.

Fixpoint str_drop (n : nat) (s : string) : string :=
  match n, s with
  | S n', String _ s' => str_drop n' s'
  | _, _ => s
  end.

Fixpoint str_forall (f : ascii -> bool) (s : string) : bool :=
  match s with
  | EmptyString => true
  | String c s' => f c && str_forall f s'
  end.

(** [strings.Join]. *)
Fixpoint str_join (sep : string) (l : list string) : string :=
  match l with
  | [] => ""
  | [x] => x
  | x :: l' => x +:+ sep +:+ str_join sep l'
  end.

(** Concatenation of the pieces a [strings.Builder] received. *)
Definition str_concat (l : list string) : string := foldr String.append "" l.

(** ** Automation *)

Create HintDb boxy.
Create Rewrite HintDb boxy.

(** Splits the conjunctions of a boolean guard into propositions. *)
Ltac bool_hyps :=
  repeat match goal with
  | H : (_ && _)%bool = true |- _ => apply andb_true_iff in H; destruct H
  | H : (_ || _)%bool = false |- _ => apply orb_false_iff in H; destruct H
  | H : negb _ = true |- _ => apply negb_true_iff in H
  | H : negb _ = false |- _ => apply negb_false_iff in H
  | H : String.eqb _ _ = true |- _ => apply String.eqb_eq in H
  | H : String.eqb _ _ = false |- _ => apply String.eqb_neq in H
  | H : Z.ltb _ _ = true |- _ => apply Z.ltb_lt in H
  | H : Z.ltb _ _ = false |- _ => apply Z.ltb_ge in H
  | H : Z.leb _ _ = true |- _ => apply Z.leb_le in H
  | H : Z.leb _ _ = false |- _ => apply Z.leb_gt in H
  | H : Z.eqb _ _ = true |- _ => apply Z.eqb_eq in H
  | H : Z.eqb _ _ = false |- _ => apply Z.eqb_neq in H
  end.

(** Case analysis on the first conditional or match of the goal. *)
Ltac case_goal :=
  match goal with
  | |- context [if ?b then _ else _] => destruct b eqn:?
  | |- context [match ?x with _ => _ end] => destruct x eqn:?
  end.

(** Case analysis on the first conditional or match of a hypothesis. *)
Ltac case_hyp H :=
  match type of H with
  | context [if ?b then _ else _] => destruct b eqn:?
  | context [match ?x with _ => _ end] => destruct x eqn:?
  end.

(** ** Lemmas on strings *)

Lemma str_app_nil_r (s : string) : s +:+ "" = s.
Proof. induction s as [|c s IH]; simpl; [done|by rewrite IH]. Qed.

Lemma str_app_assoc (s t u : string) : (s +:+ t) +:+ u = s +:+ (t +:+ u).
Proof. induction s as [|c s IH]; simpl; [done|by rewrite IH]. Qed.

Lemma str_app_length (s t : string) :
  String.length (s +:+ t) = (String.length s + String.length t)%nat.
Proof. induction s as [|c s IH]; simpl; [done|by rewrite IH]. Qed.

Lemma slen_app (s t : string) : slen (s +:+ t) = slen s + slen t.
Proof. unfold slen. rewrite str_app_length. lia. Qed.

Lemma slen_nonneg (s : string) : 0 <= slen s.
Proof. unfold slen. lia. Qed.

Lemma str_app_inv_l (s t u : string) : s +:+ t = s +:+ u -> t = u.
Proof. induction s as [|c s IH]; simpl; [done|]. intros [= H]. auto. Qed.

Lemma str_rev_app_spec (s acc : string) : str_rev_app s acc = str_rev s +:+ acc.
Proof.
  unfold str_rev. revert acc. induction s as [|c s IH]; intros acc; simpl; [done|].
  rewrite IH, (IH (String c "")), str_app_assoc. done.
Qed.

Lemma str_rev_cons (c : ascii) (s : string) : str_rev (String c s) = str_rev s +:+ String c "".
Proof. unfold str_rev at 1. simpl. apply str_rev_app_spec. Qed.

Lemma str_rev_app_distr (s t : string) : str_rev (s +:+ t) = str_rev t +:+ str_rev s.
Proof.
  induction s as [|c s IH]; simpl.
  - by rewrite str_app_nil_r.
  - by rewrite !str_rev_cons, IH, str_app_assoc.
Qed.

Lemma str_rev_involutive (s : string) : str_rev (str_rev s) = s.
Proof.
  induction s as [|c s IH]; [done|].
  rewrite str_rev_cons, str_rev_app_distr, IH. done.
Qed.

Lemma str_app_inj_r (s t u : string) : s +:+ u = t +:+ u -> s = t.
Proof.
  intros H%(f_equal str_rev). rewrite !str_rev_app_distr in H.
  assert (forall v a b : string, v +:+ a = v +:+ b -> a = b) as Hl
    by (intros v; induction v as [|c v IH]; intros a b Hv; simpl in Hv; [done|by simplify_eq; apply IH]).
  apply Hl in H. by rewrite <- (str_rev_involutive s), H, str_rev_involutive.
Qed.

Lemma str_rev_length (s : string) : String.length (str_rev s) = String.length s.
Proof.
  induction s as [|c s IH]; [done|].
  rewrite str_rev_cons, str_app_length, IH. simpl. lia.
Qed.

Lemma str_take_drop (n : nat) (s : string) : str_take n s +:+ str_drop n s = s.
Proof. revert s. induction n as [|n IH]; intros [|c s]; simpl; [done..|]. by rewrite IH. Qed.

Lemma str_take_length (n : nat) (s : string) :
  String.length (str_take n s) = Nat.min n (String.length s).
Proof. revert s. induction n as [|n IH]; intros [|c s]; simpl; [done..|]. by rewrite IH. Qed.

Lemma str_drop_length (n : nat) (s : string) :
  String.length (str_drop n s) = (String.length s - n)%nat.
Proof. revert s. induction n as [|n IH]; intros [|c s]; simpl; [done..|]. by rewrite IH. Qed.

Lemma str_take_ge (n : nat) (s : string) : (String.length s <= n)%nat -> str_take n s = s.
Proof.
  revert s. induction n as [|n IH]; intros [|c s]; simpl; [done|lia|done|].
  intros H. rewrite IH; [done|lia].
Qed.

Lemma str_drop_app (s t : string) : str_drop (String.length s) (s +:+ t) = t.
Proof. induction s as [|c s IH]; simpl; [by destruct t|done]. Qed.

Lemma str_take_app (s t : string) : str_take (String.length s) (s +:+ t) = s.
Proof. induction s as [|c s IH]; simpl; [done|by rewrite IH]. Qed.

Lemma str_forall_app (f : ascii -> bool) (s t : string) :
  str_forall f (s +:+ t) = str_forall f s && str_forall f t.
Proof. induction s as [|c s IH]; simpl; [done|]. by rewrite IH, andb_assoc. Qed.

Lemma str_forall_rev (f : ascii -> bool) (s : string) :
  str_forall f (str_rev s) = str_forall f s.
Proof.
  induction s as [|c s IH]; [done|].
  rewrite str_rev_cons, str_forall_app, IH. simpl. rewrite andb_true_r. apply andb_comm.
Qed.

Lemma str_forall_impl (f g : ascii -> bool) (s : string) :
  (forall c, f c = true -> g c = true) -> str_forall f s = true -> str_forall g s = true.
Proof.
  intros Hfg. induction s as [|c s IH]; simpl; [done|].
  intros H. bool_hyps. rewrite Hfg, IH; auto.
Qed.

Lemma str_concat_app (l k : list string) : str_concat (l ++ k) = str_concat l +:+ str_concat k.
Proof. induction l as [|x l IH]; simpl; [done|]. by rewrite IH, str_app_assoc. Qed.

Lemma llen_nonneg {A} (l : list A) : 0 <= llen l.
Proof. unfold llen. lia. Qed.

#[export] Hint Resolve slen_nonneg : boxy.
#[export] Hint Rewrite @str_app_nil_r @str_app_assoc @slen_app @str_rev_involutive : boxy.

(** ** Lemmas on machine integers *)

Lemma wrap_u_range (w z : Z) : 0 <= w -> 0 <= wrap_u w z < 2 ^ w.
Proof. intros Hw. unfold wrap_u. apply Z.mod_pos_bound. by apply Z.pow_pos_nonneg. Qed.

Lemma wrap_u_small (w z : Z) : 0 <= z < 2 ^ w -> wrap_u w z = z.
Proof. intros Hz. unfold wrap_u. by apply Z.mod_small. Qed.

Lemma wrap_s_small (w z : Z) : 0 < w -> - 2 ^ (w - 1) <= z < 2 ^ (w - 1) -> wrap_s w z = z.
Proof.
  intros Hw Hz. unfold wrap_s.
  assert (2 ^ w = 2 * 2 ^ (w - 1)) as Hp.
  { rewrite <- Z.pow_succ_r by lia. f_equal. lia. }
  rewrite Z.mod_small; lia.
Qed.

Lemma seconds_small (n : Z) : 0 <= n <= 9223372036 -> seconds n = n * Second.
Proof.
  intros Hn. unfold seconds, to_int64. apply wrap_s_small; [lia|].
  unfold Second. lia.
Qed.

(** ** Lemmas on chains of guards: [if err := ...; err != nil { return err }] *)

Lemma option_chain_None {A} (o : option A) (k : option A) :
  match o with Some e => Some e | None => k end = None <-> o = None /\ k = None.
Proof. destruct o; naive_solver. Qed.

Lemma guard_None {A} (b : bool) (e : A) (k : option A) :
  (if b then Some e else k) = None <-> b = false /\ k = None.
Proof. destruct b; naive_solver. Qed.
