(* ===== verification/Prog.v ===== *)
(** * Effectful programs

    The Go components call code this repository does not contain: the
    Kubernetes API server, the HTTP transport, the operating system, the
    clock.  A function that performs such calls is a value of [prog]: either
    a result, or an event together with the continuation that receives its
    answer.  Nothing is assumed about the answers; a theorem on a [prog]
    quantifies over them, through the weakest precondition [wp] of the
    program under a relation [R] that says which answers the environment may
    give, and [run] executes a program against a concrete environment. *)
From S2P Require Import Prelude.

(** An interface: the events of a component and the type of each answer. *)
Class Sig := {
  event : Type;
  answer : event -> Type;
}.

Inductive prog `{!Sig} (A : Type) : Type :=
| Ret (a : A)
| Vis (e : event) (k : answer e -> prog A).

Arguments Ret {_ A} a.
Arguments Vis {_ A} e k.

Fixpoint bind `{!Sig} {A B} (p : prog A) (f : A -> prog B) : prog B :=
  match p with
  | Ret a => f a
  | Vis e k => Vis e (fun x => bind (k x) f)
  end.

Definition trigger `{!Sig} (e : event) : prog (answer e) := Vis e Ret.

Declare Scope prog_scope.
Delimit Scope prog_scope with prog.
Open Scope prog_scope.

Notation "x <- p ;; q" := (bind p (fun x => q))
  (at level 100, p at next level, right associativity) : prog_scope.
Notation "p ;;; q" := (bind p (fun _ => q))
  (at level 100, right associativity) : prog_scope.

(** One performed event with the answer it received. *)
Inductive io `{!Sig} : Type :=
| IO (e : event) (a : answer e).

(** Execution against a concrete environment with state [W]. *)
Fixpoint run `{!Sig} {A W} (h : forall e : event, W -> answer e * W) (p : prog A) (w : W) : A * W :=
  match p with
  | Ret a => (a, w)
  | Vis e k => let '(x, w') := h e w in run h (k x) w'
  end.

(** [R e s a s']: in state [s] the environment may answer [e] with [a] and go to [s']. *)
Definition env `{!Sig} (S : Type) : Type := forall e : event, S -> answer e -> S -> Prop.

Fixpoint wp `{!Sig} {A S} (R : env S) (p : prog A) (s : S) (Q : A -> S -> Prop) : Prop :=
  match p with
  | Ret a => Q a s
  | Vis e k => forall x s', R e s x s' -> wp R (k x) s' Q
  end.

(** The environment that answers anything; its state is the trace, latest event first. *)
Definition any_env `{!Sig} : env (list io) := fun e t a t' => t' = IO e a :: t.

(** Every run of [p] after the trace [t], whatever the answers. *)
Definition always `{!Sig} {A} (p : prog A) (t : list io) (Q : A -> list io -> Prop) : Prop :=
  wp any_env p t Q.

(** A possible run: [runs p t a] when [p] can perform the events [t], in
    this order, with the answers recorded there, and return [a]. *)
Fixpoint runs `{!Sig} {A} (p : prog A) (t : list io) (a : A) : Prop :=
  match p with
  | Ret b => t = [] /\ a = b
  | Vis e k => exists x t', t = IO e x :: t' /\ runs (k x) t' a
  end.

(** A possible run under [R]: from [s] it returns [a] and ends in [s']. *)
Fixpoint ends `{!Sig} {A S} (R : env S) (p : prog A) (s : S) (a : A) (s' : S) : Prop :=
  match p with
  | Ret b => a = b /\ s' = s
  | Vis e k => exists x s1, R e s x s1 /\ ends R (k x) s1 a s'
  end.

(** The loop [for ...  { body }] whose body either continues with a new
    state or leaves with a result, cut off after [fuel] iterations. *)
Fixpoint loop `{!Sig} {I A} (fuel : nat) (body : I -> prog (I + A)) (i : I) : prog (option A) :=
  match fuel with
  | O => Ret None
  | S fuel' =>
      r <- body i ;;
      match r with
      | inl i' => loop fuel' body i'
      | inr a => Ret (Some a)
      end
  end.

(** [for _, x := range l { acc = body(acc, x) }]. *)
Fixpoint for_each `{!Sig} {A B} (l : list A) (body : B -> A -> prog B) (acc : B) : prog B :=
  match l with
  | [] => Ret acc
  | x :: l' => acc' <- body acc x ;; for_each l' body acc'
  end.

(** Several programs sharing an environment: [h] answers an event, or blocks
    it ([None]); each entry of the schedule lets one program perform one event. *)
Fixpoint run_pool `{!Sig} {A W} (h : forall e : event, W -> option (answer e * W)) (sched : list nat)
    (pool : list (prog A)) (w : W) : list (prog A) * W :=
  match sched with
  | [] => (pool, w)
  | i :: sched' =>
      match pool !! i with
      | Some (Vis e k) =>
          match h e w with
          | Some (x, w') => run_pool h sched' (<[i := k x]> pool) w'
          | None => run_pool h sched' pool w
          end
      | _ => run_pool h sched' pool w
      end
  end.

(** Every event [p] can perform, whatever the answers, satisfies [P]. *)
Fixpoint only `{!Sig} {A} (P : event -> Prop) (p : prog A) : Prop :=
  match p with
  | Ret _ => True
  | Vis e k => P e /\ forall x, only P (k x)
  end.

(** The environment does not change state on [e]. *)
Definition inert `{!Sig} {S} (R : env S) (e : event) : Prop := forall s x s', R e s x s' -> s' = s.

(** Whatever is answered, the result is in [Q]. *)
Fixpoint results `{!Sig} {A} (Q : A -> Prop) (p : prog A) : Prop :=
  match p with
  | Ret a => Q a
  | Vis e k => forall x, results Q (k x)
  end.

Section laws.
Context {SG : Sig}.

Lemma results_bind {A B} (P : A -> Prop) (Q : B -> Prop) (p : prog A) (f : A -> prog B) :
  results P p -> (forall a, P a -> results Q (f a)) -> results Q (bind p f).
Proof. intros Hp Hf. induction p as [a|e k IH]; simpl in *; eauto. Qed.

Lemma results_any {A} (p : prog A) : results (fun _ => True) p.
Proof. induction p; simpl; eauto. Qed.

Lemma results_mono {A} (P Q : A -> Prop) (p : prog A) : (forall a, P a -> Q a) -> results P p -> results Q p.
Proof. intros HPQ. induction p; simpl; eauto. Qed.

Lemma only_bind {A B} (P : event -> Prop) (p : prog A) (f : A -> prog B) :
  only P p -> (forall a, only P (f a)) -> only P (bind p f).
Proof. intros Hp Hf. induction p as [a|e k IH]; simpl in *; [done|]. destruct Hp. eauto. Qed.

Lemma only_mono {A} (P P' : event -> Prop) (p : prog A) :
  (forall e, P e -> P' e) -> only P p -> only P' p.
Proof. intros HP. induction p as [a|e k IH]; simpl; [done|]. intros [? ?]. eauto. Qed.

Lemma only_loop {I A} (P : event -> Prop) (n : nat) (body : I -> prog (I + A)) (i : I) :
  (forall i, only P (body i)) -> only P (loop n body i).
Proof.
  intros Hb. revert i. induction n as [|n IH]; intros i; [done|]. apply only_bind; [apply Hb|]. by intros [i'|a]; [apply IH|].
Qed.

Lemma only_for_each {A B} (P : event -> Prop) (l : list A) (body : B -> A -> prog B) (acc : B) :
  (forall b x, only P (body b x)) -> only P (for_each l body acc).
Proof. intros Hb. revert acc. induction l as [|x l IH]; intros acc; [done|]. by apply only_bind; [apply Hb|]. Qed.

(** A program whose events keep an invariant. *)
Lemma wp_within {A S} (R : env S) (P : event -> Prop) (Inv : S -> Prop) (p : prog A) (s : S) :
  only P p -> (forall e s x s', P e -> Inv s -> R e s x s' -> Inv s') -> Inv s -> wp R p s (fun _ s' => Inv s').
Proof.
  intros Hp HR. revert s. induction p as [a|e k IH]; intros s Hs; simpl in *; [done|].
  destruct Hp as [He Hk]. intros x s' Hs'. eauto.
Qed.

(** A program whose events do not lead out of the state [s] stays there. *)
Lemma wp_stay {A S} (R : env S) (P : event -> Prop) (p : prog A) (s : S) :
  only P p -> (forall e x s', P e -> R e s x s' -> s' = s) -> wp R p s (fun _ s' => s' = s).
Proof. intros Hp HR. apply (wp_within R P (fun s' => s' = s)); [done| |done]. intros e s0 x s' He ->. eauto. Qed.

Lemma wp_only {A S} (R : env S) (P : event -> Prop) (p : prog A) (s : S) :
  only P p -> (forall e, P e -> inert R e) -> wp R p s (fun _ s' => s' = s).
Proof. intros Hp HR. apply (wp_stay R P); [done|]. intros e x s' He. by apply HR. Qed.

Lemma bind_ret_l {A B} (a : A) (f : A -> prog B) : bind (Ret a) f = f a.
Proof. done. Qed.

Lemma wp_mono {A S} (R : env S) (p : prog A) (s : S) (Q Q' : A -> S -> Prop) :
  (forall a s', Q a s' -> Q' a s') -> wp R p s Q -> wp R p s Q'.
Proof.
  intros HQ. revert s. induction p as [a|e k IH]; intros s Hp; simpl in *; eauto.
Qed.

Lemma wp_bind {A B S} (R : env S) (p : prog A) (f : A -> prog B) (s : S) (Q : B -> S -> Prop) :
  wp R (bind p f) s Q <-> wp R p s (fun a s' => wp R (f a) s' Q).
Proof.
  revert s. induction p as [a|e k IH]; intros s; simpl; [done|].
  split; intros H x s' Hs'; apply IH; eauto.
Qed.

Lemma wp_trigger {S} (R : env S) (e : event) (s : S) (Q : answer e -> S -> Prop) :
  wp R (trigger e) s Q <-> forall x s', R e s x s' -> Q x s'.
Proof. done. Qed.

Lemma wp_conj {A S} (R : env S) (p : prog A) (s : S) (Q Q' : A -> S -> Prop) :
  wp R p s Q -> wp R p s Q' -> wp R p s (fun a s' => Q a s' /\ Q' a s').
Proof. revert s. induction p as [a|e k IH]; intros s Hp Hp'; simpl in *; eauto. Qed.

(** A view [f] of the state that follows a simpler environment. *)
Lemma wp_project {A S T} (R : env S) (R' : env T) (f : S -> T) (p : prog A) (s : S) (Q : A -> T -> Prop) :
  (forall e s x s', R e s x s' -> R' e (f s) x (f s')) ->
  wp R' p (f s) Q -> wp R p s (fun a s' => Q a (f s')).
Proof. intros HR. revert s. induction p as [a|e k IH]; intros s Hp; simpl in *; eauto. Qed.

(** An environment with fewer answers. *)
Lemma wp_weaken {A S} (R R' : env S) (p : prog A) (s : S) (Q : A -> S -> Prop) :
  (forall e s x s', R e s x s' -> R' e s x s') -> wp R' p s Q -> wp R p s Q.
Proof. intros HR. by apply (wp_project R R' (fun s => s)). Qed.

(** An invariant of the environment holds at the end of every run. *)
Lemma wp_invariant {A S} (R : env S) (Inv : S -> Prop) (p : prog A) (s : S) :
  (forall e s x s', Inv s -> R e s x s' -> Inv s') ->
  Inv s -> wp R p s (fun _ s' => Inv s').
Proof. intros HR. revert s. induction p as [a|e k IH]; intros s Hs; simpl in *; eauto. Qed.

(** A concrete environment allowed by [R] gives a result the [wp] predicts. *)
Lemma wp_run {A S} (R : env S) (h : forall e : event, S -> answer e * S) (p : prog A) (s : S)
    (Q : A -> S -> Prop) :
  (forall e s, R e s (h e s).1 (h e s).2) ->
  wp R p s Q -> Q (run h p s).1 (run h p s).2.
Proof.
  intros Hh. revert s. induction p as [a|e k IH]; intros s Hp; simpl in *; [done|].
  specialize (Hh e s). destruct (h e s) as [x s'] eqn:Hx. simpl in Hh. apply IH. by apply Hp.
Qed.

Lemma run_bind {A B W} (h : forall e : event, W -> answer e * W) (p : prog A) (f : A -> prog B) (w : W) :
  run h (bind p f) w = let '(a, w') := run h p w in run h (f a) w'.
Proof.
  revert w. induction p as [a|e k IH]; intros w; simpl; [done|]. destruct (h e w) as [x w']. apply IH.
Qed.

(** [always] speaks of exactly the possible runs. *)
Lemma always_runs {A} (p : prog A) (t0 : list io) (Q : A -> list io -> Prop) :
  always p t0 Q <-> forall t a, runs p t a -> Q a (rev t ++ t0).
Proof.
  unfold always. revert t0. induction p as [a|e k IH]; intros t0; simpl.
  - split; [by intros HQ t b [-> ->]|]. intros H. by apply (H [] a).
  - split.
    + intros Hwp t a (x & t' & -> & Hr). simpl. rewrite <- app_assoc. simpl.
      eapply IH; [|done]. by apply Hwp.
    + intros H x s' ->. apply IH. intros t a Hr.
      specialize (H (IO e x :: t) a). simpl in H. rewrite <- app_assoc in H.
      apply H. eauto.
Qed.

Lemma wp_results {A S} (R : env S) (P : A -> Prop) (p : prog A) (s : S) : results P p -> wp R p s (fun a _ => P a).
Proof. revert s. induction p as [a|e k IH]; intros s Hp; simpl in *; [done|]. intros x s' _. by apply IH. Qed.

(** What [wp] promises holds at the end of every run. *)
Lemma wp_ends {A S} (R : env S) (p : prog A) (s : S) (Q : A -> S -> Prop) (a : A) (s' : S) :
  wp R p s Q -> ends R p s a s' -> Q a s'.
Proof.
  revert s. induction p as [b|e k IH]; intros s; simpl; [by intros HQ [-> ->]|].
  intros Hwp (x & s1 & HR & He). eauto.
Qed.

(** A run against a concrete environment is a possible one. *)
Lemma run_ends {A S} (R : env S) (h : forall e : event, S -> answer e * S) (p : prog A) (s : S) :
  (forall e s, R e s (h e s).1 (h e s).2) -> ends R p s (run h p s).1 (run h p s).2.
Proof.
  intros Hh. revert s. induction p as [a|e k IH]; intros s; simpl; [done|].
  specialize (Hh e s). destruct (h e s) as [x s1]. eauto.
Qed.

(** Replacing a subprogram by its specification. *)
Lemma wp_bind_spec {A B S} (R : env S) (p : prog A) (f : A -> prog B) (s : S)
    (P : A -> S -> Prop) (Q : B -> S -> Prop) :
  wp R p s P -> (forall a s', P a s' -> wp R (f a) s' Q) -> wp R (bind p f) s Q.
Proof. intros Hp Hf. apply wp_bind. eapply wp_mono; [|exact Hp]. done. Qed.

(** The invariant rule of [loop], with a bound on the rounds still needed. *)
Lemma wp_loop {I A S} (R : env S) (body : I -> prog (I + A)) (Inv : nat -> I -> S -> Prop)
    (Q : A -> S -> Prop) (fuel : nat) (i : I) (s : S) :
  Inv fuel i s -> (forall i s, ~ Inv 0%nat i s) ->
  (forall n i s, Inv (Datatypes.S n) i s ->
     wp R (body i) s (fun r s' => match r with inl i' => Inv n i' s' | inr a => Q a s' end)) ->
  wp R (loop fuel body i) s (fun r s' => match r with Some a => Q a s' | None => False end).
Proof.
  intros Hi H0 Hstep. revert i s Hi. induction fuel as [|n IH]; intros i s Hi; simpl; [by destruct (H0 i s)|].
  eapply wp_bind_spec; [by apply Hstep|]. intros [i'|a] s' H; [by apply IH|done].
Qed.

(** The invariant rule of a loop that need not end: it holds after any number
    of rounds. *)
Lemma wp_rounds {I A S} (R : env S) (body : I -> prog (I + A)) (Inv : I -> S -> Prop) (Q : A -> S -> Prop)
    (fuel : nat) (i : I) (s : S) :
  Inv i s ->
  (forall i s, Inv i s -> wp R (body i) s (fun r s' => match r with inl i' => Inv i' s' | inr a => Q a s' end)) ->
  wp R (loop fuel body i) s (fun r s' => match r with Some a => Q a s' | None => exists i', Inv i' s' end).
Proof.
  intros Hi Hstep. revert i s Hi. induction fuel as [|n IH]; intros i s Hi; simpl; [by exists i|].
  eapply wp_bind_spec; [by apply Hstep|]. intros [i'|a] s' H; [by apply IH|done].
Qed.

(** The invariant rule of [for_each]. *)
Lemma wp_for_each {A B S} (R : env S) (l : list A) (body : B -> A -> prog B)
    (I : list A -> B -> S -> Prop) (acc : B) (s : S) :
  I [] acc s ->
  (forall done x rest b s', l = done ++ x :: rest -> I done b s' ->
     wp R (body b x) s' (fun b' s'' => I (done ++ [x]) b' s'')) ->
  wp R (for_each l body acc) s (fun b s' => I l b s').
Proof.
  intros H0 Hstep.
  assert (forall d acc s, I d acc s -> forall l', l = d ++ l' ->
    wp R (for_each l' body acc) s (fun b s' => I l b s')) as Hgen.
  { intros d acc' s' Hd l'. revert d acc' s' Hd.
    induction l' as [|x l' IH]; intros d acc' s' Hd Hl; simpl.
    - rewrite app_nil_r in Hl. by subst.
    - apply wp_bind. eapply wp_mono; [|by eapply Hstep]. simpl. intros b s'' Hb.
      apply (IH (d ++ [x])); [done|]. by rewrite <- app_assoc. }
  by eapply Hgen.
Qed.

End laws.

(** Evaluates a program under [wp]/[always] up to its next event or branch. *)
Ltac wp_simpl := unfold always; repeat (cbn [wp bind trigger] || unfold trigger).
