(* ===== verification/Slots.v ===== *)
(** * Programs that share a counting semaphore

    The router and the controller bound their work with a buffered channel that a
    request tries to send to, and receives from when it is done.  Here any number
    of requests run interleaved, new ones arrive at any time, and the answers of
    everything but the semaphore are arbitrary.  If each request on its own keeps
    the discipline (works only while it holds a slot, takes at most one, gives it
    back before it ends), then never more than the capacity work at a time, and no
    slot is lost. *)
From stdpp Require Import relations.
From S2P Require Import Prelude Prog.
Open Scope boxy_scope.

(** What an event has to do with the semaphore. *)
Inductive SlotKind : Type := Acquire | Release | Work | Other.

Class Slots (SG : Sig) := {
  slot_kind : event -> SlotKind;
  got_slot : forall e : event, answer e -> bool;
  some_answer : forall e : event, answer e;
}.

Section slots.
Context {SG : Sig} {SL : Slots SG} {A : Type}.

(** One request: whether it holds a slot, [None] after a breach. *)
Definition discipline : env (option bool) := fun e s x s' =>
  s' = match slot_kind e with
       | Acquire => match s with Some false => Some (got_slot e x) | _ => None end
       | Release => match s with Some true => Some false | _ => None end
       | Work => match s with Some true => Some true | _ => None end
       | Other => s
       end.

Definition disciplined (p : prog A) (b : bool) : Prop := wp discipline p (Some b) (fun _ s => s = Some false).

(** [select { case sem <- struct{}{}: ... default: ... }] and [<-sem], on a
    channel with [cap] places. *)
Definition sem_step (cap : Z) (e : event) (x : answer e) (held held' : Z) : Prop :=
  match slot_kind e with
  | Acquire => got_slot e x = (held <? cap) /\ held' = if got_slot e x then held + 1 else held
  | Release => held' = held - 1
  | _ => held' = held
  end.

(** Requests and the number of slots taken. *)
Definition Pool : Type := list (prog A) * Z.

Inductive pool_step (cap : Z) (allowed : prog A -> Prop) : Pool -> Pool -> Prop :=
| arrives (p : prog A) (l : list (prog A)) (held : Z) :
    allowed p -> pool_step cap allowed (l, held) (l ++ [p], held)
| proceeds (i : nat) (e : event) (k : answer e -> prog A) (x : answer e) (l : list (prog A)) (held held' : Z) :
    l !! i = Some (Vis e k) -> sem_step cap e x held held' -> pool_step cap allowed (l, held) (<[i := k x]> l, held').

(** A request in the middle of its work, and one that has ended. *)
Definition working (p : prog A) : bool :=
  match p with
  | Vis e _ => match slot_kind e with Work => true | _ => false end
  | Ret _ => false
  end.

Definition ended (p : prog A) : bool := match p with Ret _ => true | Vis _ _ => false end.

Definition count {B} (f : B -> bool) (l : list B) : Z := Z.of_nat (length (List.filter f l)).

Lemma count_app {B} (f : B -> bool) (l l' : list B) : count f (l ++ l') = count f l + count f l'.
Proof. unfold count. rewrite List.filter_app, length_app. lia. Qed.

Lemma count_one {B} (f : B -> bool) (x : B) : count f [x] = if f x then 1 else 0.
Proof. unfold count. simpl. by destruct (f x). Qed.

Lemma count_insert {B} (f : B -> bool) (l : list B) (i : nat) (x y : B) :
  l !! i = Some x -> count f (<[i := y]> l) = count f l - (if f x then 1 else 0) + (if f y then 1 else 0).
Proof.
  intros Hx. rewrite insert_take_drop by (by eapply lookup_lt_Some). rewrite <- (take_drop_middle l i x Hx) at 3.
  change (y :: drop (S i) l) with ([y] ++ drop (S i) l). change (x :: drop (S i) l) with ([x] ++ drop (S i) l).
  rewrite !count_app, !count_one. lia.
Qed.

(** The slots the requests hold are the slots taken. *)
Definition pool_ok (cap : Z) (s : Pool) : Prop :=
  exists bs, Forall2 disciplined s.1 bs /\ s.2 = count id bs /\ s.2 <= cap.

Lemma breach_stays (p : prog A) : ~ wp discipline p None (fun _ s => s = Some false).
Proof.
  induction p as [a|e k IH]; cbn [wp]; [done|]. intros H. apply (IH (some_answer e)), H.
  unfold discipline. by destruct (slot_kind e).
Qed.

(** A step of a request that keeps the discipline. *)
Lemma discipline_step (e : event) (k : answer e -> prog A) (x : answer e) (b : bool) :
  disciplined (Vis e k) b ->
  match slot_kind e with
  | Acquire => b = false /\ disciplined (k x) (got_slot e x)
  | Release => b = true /\ disciplined (k x) false
  | Work => b = true /\ disciplined (k x) true
  | Other => disciplined (k x) b
  end.
Proof.
  unfold disciplined. cbn [wp]. intros H. specialize (H x _ eq_refl). pose proof (breach_stays (k x)).
  destruct (slot_kind e), b; done.
Qed.

Lemma pool_step_ok (cap : Z) (allowed : prog A -> Prop) (s s' : Pool) :
  (forall p, allowed p -> disciplined p false) -> pool_step cap allowed s s' -> pool_ok cap s -> pool_ok cap s'.
Proof.
  intros Hall Hs (bs & Hd & Hc & Hcap). destruct Hs as [p l held Hp|i e k x l held held' Hi Hsem]; simpl in *.
  - exists (bs ++ [false]). split_and!; [apply Forall2_app; [done|]|simpl|done].
    + apply Forall2_cons. split; [by apply Hall|constructor].
    + rewrite count_app, count_one. simpl. lia.
  - destruct (Forall2_lookup_l _ _ _ _ _ Hd Hi) as (b & Hb & Hp).
    pose proof (discipline_step e k x b Hp) as Hstep. unfold sem_step in Hsem.
    assert (forall b', disciplined (k x) b' -> Forall2 disciplined (<[i := k x]> l) (<[i := b']> bs)) as Hnew.
    { intros b' Hb'. by apply Forall2_insert. }
    assert (forall b' : bool, count id (<[i := b']> bs) = count id bs - (if b then 1 else 0) + (if b' then 1 else 0)) as Hcount
      by exact (fun b' => count_insert id bs i b b' Hb).
    destruct (slot_kind e).
    + destruct Hstep as [-> Hk], Hsem as [Hg ->]. exists (<[i := got_slot e x]> bs).
      split_and!; [by apply Hnew| |]; simpl; rewrite ?Hcount; rewrite Hg; destruct (held <? cap) eqn:Hlt; bool_hyps; lia.
    + destruct Hstep as [-> Hk]. subst. exists (<[i := false]> bs). split_and!; [by apply Hnew| |]; simpl; rewrite ?Hcount; lia.
    + destruct Hstep as [-> Hk]. subst. exists (<[i := true]> bs). split_and!; [by apply Hnew| |]; simpl; rewrite ?Hcount; lia.
    + subst. exists (<[i := b]> bs). split_and!; [by apply Hnew| |]; simpl; rewrite ?Hcount; destruct b; lia.
Qed.

Lemma working_held (l : list (prog A)) (bs : list bool) :
  Forall2 disciplined l bs -> count working l <= count id bs /\ (forallb ended l = true -> count id bs = 0).
Proof.
  induction 1 as [|p b l bs Hp _ [IH1 IH2]]; [done|].
  change (p :: l) with ([p] ++ l). change (b :: bs) with ([b] ++ bs). rewrite !count_app, !count_one. unfold id at 1 3. split.
  - assert (working p = true -> b = true) as Hw.
    { destruct p as [a|e k]; [done|]. cbn [working]. pose proof (discipline_step e k (some_answer e) b Hp).
      destruct (slot_kind e); naive_solver. }
    destruct (working p), b; lia.
  - cbn [forallb app]. intros [He Hl]%andb_true_iff. specialize (IH2 Hl). destruct p; [|done].
    unfold disciplined in Hp. cbn [wp] in Hp. injection Hp as ->. lia.
Qed.

(** Whatever the interleaving. *)
Lemma pool_bounded (cap : Z) (allowed : prog A -> Prop) (s : Pool) :
  0 <= cap -> (forall p, allowed p -> disciplined p false) -> rtc (pool_step cap allowed) ([], 0) s ->
  count working s.1 <= s.2 /\ s.2 <= cap /\ (forallb ended s.1 = true -> s.2 = 0).
Proof.
  intros Hcap Hall Hr.
  assert (pool_ok cap s) as (bs & Hd & Hc & Hle).
  { eapply (rtc_ind_r (pool_ok cap) ([], 0)); [exists []; split_and!; [constructor|done|done]| |exact Hr].
    intros s1 s2 _ Hs Hok. by eapply pool_step_ok. }
  destruct (working_held _ _ Hd) as [Hw He]. rewrite Hc in *. auto.
Qed.

End slots.
