(* ===== verification/Rely.v ===== *)
(** * A worker and its neighbours on a shared state

    One process works through its jobs one after the other; any number of other
    programs run next to it, and every call of theirs may come between two calls
    of the worker.  A job is verified on its own, against all that the others can
    do ([upheld]); what the others can do follows from the calls they perform
    ([performs]).  [system_upheld] puts the two together: an invariant that every
    job upholds and that the others' calls keep holds in every state the system
    reaches. *)
From stdpp Require Import relations.
From S2P Require Import Prelude Prog.

(** Every call of [p] is in [P], as long as the answers are [allowed]. *)
Fixpoint performs `{!Sig} {A} (allowed : forall e : event, answer e -> Prop) (P : event -> Prop) (p : prog A) : Prop :=
  match p with
  | Ret _ => True
  | Vis e k => P e /\ forall x, allowed e x -> performs allowed P (k x)
  end.

Section performs.
Context {SG : Sig} (allowed : forall e : event, answer e -> Prop).

Lemma performs_bind {A B} (P : event -> Prop) (p : prog A) (f : A -> prog B) :
  performs allowed P p -> (forall a, performs allowed P (f a)) -> performs allowed P (bind p f).
Proof. intros Hp Hf. induction p as [a|e k IH]; simpl in *; [done|]. destruct Hp. eauto. Qed.

Lemma performs_only {A} (P : event -> Prop) (p : prog A) : only P p -> performs allowed P p.
Proof. induction p as [a|e k IH]; simpl; [done|]. intros [? ?]. eauto. Qed.

(** What is shown of every complete trace holds of every call. *)
Lemma performs_of_trace {A} (P : event -> Prop) (p : prog A)
    (R : env (list io)) (Q : list io -> Prop) :
  (forall e t x t', R e t x t' <-> t' = IO e x :: t /\ allowed e x) ->
  (forall e, exists x, allowed e x) ->
  (forall e x t, Q (IO e x :: t) -> Q t /\ P e) ->
  forall t, wp R p t (fun _ t' => Q t') -> performs allowed P p.
Proof.
  intros HR Hsome HQ.
  assert (forall A (p : prog A) t, wp R p t (fun _ t' => Q t') -> Q t) as Hback.
  { clear p A. intros A p. induction p as [a|e k IH]; intros t Hp; cbn [wp] in *; [done|].
    destruct (Hsome e) as [x Hx]. apply (HQ e x t), (IH x). apply Hp, HR. done. }
  induction p as [a|e k IH]; intros t Hp; cbn [wp performs] in *; [done|].
  assert (forall x, allowed e x -> wp R (k x) (IO e x :: t) (fun _ t' => Q t')) as Hk by (intros x Hx; apply Hp, HR; done).
  split; [|intros x Hx; eapply IH; eauto].
  destruct (Hsome e) as [x Hx]. apply (HQ e x t), (Hback _ (k x)), Hk, Hx.
Qed.

End performs.

Section rely.
Context {SG : Sig} {S : Type} (R : env S) (rely : S -> S -> Prop) (I : S -> Prop).

(** Every state in which [p] is, from [s] on, satisfies [I], whatever the others
    do between its calls; and it ends in [Q]. *)
Fixpoint upheld {A} (p : prog A) (s : S) (Q : A -> S -> Prop) : Prop :=
  I s /\
  match p with
  | Ret a => Q a s
  | Vis e k => forall s1 x s', rtc rely s s1 -> R e s1 x s' -> upheld (k x) s' Q
  end.

Hypothesis kept : forall s s', I s -> rely s s' -> I s'.

Lemma kept_rtc (s s' : S) : rtc rely s s' -> I s -> I s'.
Proof. induction 1; eauto. Qed.

Lemma upheld_ret {A} (a : A) (s : S) (Q : A -> S -> Prop) : I s -> Q a s -> upheld (Ret a) s Q.
Proof. done. Qed.

Lemma upheld_vis {A} (e : event) (k : answer e -> prog A) (s : S) (Q : A -> S -> Prop) :
  I s -> (forall s1 x s', rtc rely s s1 -> I s1 -> R e s1 x s' -> upheld (k x) s' Q) -> upheld (Vis e k) s Q.
Proof. intros Hs Hk. split; [done|]. intros s1 x s' Hr Hx. apply (Hk s1); [done| |done]. by eapply kept_rtc. Qed.

Lemma upheld_start {A} (p : prog A) (s : S) (Q : A -> S -> Prop) : upheld p s Q -> I s.
Proof. by destruct p; intros [? _]. Qed.

Lemma upheld_bind {A B} (p : prog A) (f : A -> prog B) (s : S) (P : A -> S -> Prop) (Q : B -> S -> Prop) :
  upheld p s P -> (forall a s', I s' -> P a s' -> upheld (f a) s' Q) -> upheld (bind p f) s Q.
Proof.
  revert s. induction p as [a|e k IH]; intros s; cbn [upheld bind].
  - intros [Hs Ha] Hf. by apply Hf.
  - intros [Hs Hk] Hf. split; [done|]. eauto.
Qed.

Lemma upheld_mono {A} (p : prog A) (s : S) (Q Q' : A -> S -> Prop) :
  (forall a s', I s' -> Q a s' -> Q' a s') -> upheld p s Q -> upheld p s Q'.
Proof.
  intros HQ. revert s. induction p as [a|e k IH]; intros s; cbn [upheld]; [|intros [Hs Hk]; split; eauto].
  intros [Hs Ha]. eauto.
Qed.

(** Calls that leave the state alone: what happens is up to the others. *)
Lemma upheld_quiet {A} (P : event -> Prop) (p : prog A) (s : S) :
  only P p -> (forall e, P e -> inert R e) -> I s -> upheld p s (fun _ s' => rtc rely s s').
Proof.
  intros Hp HP. revert s. induction p as [a|e k IH]; intros s Hs; cbn [only upheld] in *; [by split|].
  destruct Hp as [He Hk]. split; [done|]. intros s1 x s' Hr Hx. apply HP in Hx as ->; [|done].
  eapply upheld_mono; [|apply IH; [apply Hk|by eapply kept_rtc]]. intros a s2 _ H2. by etrans.
Qed.

(** The others may be at work before the program is. *)
Lemma upheld_later {A} (p : prog A) (s s' : S) :
  rtc rely s s' -> upheld p s (fun _ _ => True) -> upheld p s' (fun _ _ => True).
Proof.
  intros Hr Hp. pose proof (kept_rtc _ _ Hr (upheld_start _ _ _ Hp)) as Hs'.
  destruct p as [a|e k]; cbn [upheld] in *; [done|]. split; [done|]. intros s1 x s2 H1 Hx.
  eapply (proj2 Hp); [|done]. by etrans.
Qed.

(** ** The system *)

Record System := { sy_worker : option (prog unit); sy_others : list (prog unit); sy_state : S }.

Inductive system_step (jobs guests : prog unit -> Prop) (drift : S -> S -> Prop) : System -> System -> Prop :=
| job_starts (p : prog unit) l s :
    jobs p -> system_step jobs guests drift {| sy_worker := None; sy_others := l; sy_state := s |}
                                            {| sy_worker := Some p; sy_others := l; sy_state := s |}
| job_proceeds (e : event) (k : answer e -> prog unit) (x : answer e) l s s' :
    R e s x s' -> system_step jobs guests drift {| sy_worker := Some (Vis e k); sy_others := l; sy_state := s |}
                                                {| sy_worker := Some (k x); sy_others := l; sy_state := s' |}
| job_ends l s :
    system_step jobs guests drift {| sy_worker := Some (Ret tt); sy_others := l; sy_state := s |}
                                  {| sy_worker := None; sy_others := l; sy_state := s |}
| other_arrives (p : prog unit) w l s :
    guests p -> system_step jobs guests drift {| sy_worker := w; sy_others := l; sy_state := s |}
                                              {| sy_worker := w; sy_others := l ++ [p]; sy_state := s |}
| other_proceeds (i : nat) (e : event) (k : answer e -> prog unit) (x : answer e) w l s s' :
    l !! i = Some (Vis e k) -> R e s x s' ->
    system_step jobs guests drift {| sy_worker := w; sy_others := l; sy_state := s |}
                                  {| sy_worker := w; sy_others := <[i := k x]> l; sy_state := s' |}
| drifts w l s s' :
    drift s s' -> system_step jobs guests drift {| sy_worker := w; sy_others := l; sy_state := s |}
                                                {| sy_worker := w; sy_others := l; sy_state := s' |}.

Context (allowed : forall e : event, answer e -> Prop) (P : event -> Prop) (drift : S -> S -> Prop).
Hypothesis answered : forall e s x s', R e s x s' -> allowed e x.
Hypothesis others_rely : forall e s x s', P e -> R e s x s' -> rely s s'.
Hypothesis drift_rely : forall s s', drift s s' -> rely s s'.

Definition system_ok (sy : System) : Prop :=
  I (sy_state sy) /\ Forall (performs allowed P) (sy_others sy) /\
  match sy_worker sy with Some p => upheld p (sy_state sy) (fun _ _ => True) | None => True end.

Lemma system_step_ok (jobs guests : prog unit -> Prop) (sy sy' : System) :
  (forall p s, jobs p -> I s -> upheld p s (fun _ _ => True)) -> (forall p, guests p -> performs allowed P p) ->
  system_step jobs guests drift sy sy' -> system_ok sy -> system_ok sy'.
Proof.
  intros Hj Hg Hs (HI & Ho & Hw). unfold system_ok.
  destruct Hs as [p l s Hp|e k x l s s' Hx|l s|p w l s Hp|i e k x w l s s' Hi Hx|w l s s' Hd]; simpl in *.
  - auto.
  - destruct Hw as [_ Hk]. assert (upheld (k x) s' (fun _ _ => True)) as Hu by (apply (Hk s); [apply rtc_refl|done]).
    split_and!; [by eapply upheld_start|done|done].
  - auto.
  - split_and!; [done| |done]. apply Forall_app. auto.
  - assert (performs allowed P (Vis e k)) as [He Hk] by (by eapply Forall_lookup_1).
    assert (rely s s') as Hr by eauto. split_and!; [by eapply kept|apply Forall_insert; eauto|].
    destruct w; [|done]. by eapply upheld_later; [apply rtc_once|].
  - assert (rely s s') as Hr by eauto. split_and!; [by eapply kept|done|].
    destruct w; [|done]. by eapply upheld_later; [apply rtc_once|].
Qed.

Lemma system_upheld (jobs guests : prog unit -> Prop) (s0 : S) (sy : System) :
  (forall p s, jobs p -> I s -> upheld p s (fun _ _ => True)) -> (forall p, guests p -> performs allowed P p) ->
  I s0 -> rtc (system_step jobs guests drift) {| sy_worker := None; sy_others := []; sy_state := s0 |} sy ->
  I (sy_state sy).
Proof.
  intros Hj Hg H0 Hr. assert (system_ok sy) as [? _]; [|done].
  eapply (rtc_ind_r system_ok); [|intros; by eapply system_step_ok|exact Hr]. by split_and!.
Qed.

End rely.
