(* ===== verification/GoStrings.v ===== *)
(** * The parts of Go's [strings] and [unicode/utf8] packages the code uses

    A Go string is a byte string.  [TrimSpace] strips the UTF-8 encodings of
    the code points of [unicode.White_Space]; [ToUpper] and [ToLower] are
    only ever compared with ASCII constants here, so they map the code points
    whose image is ASCII (letters, and the two non-ASCII code points whose
    upper case is an ASCII letter) and leave the others, whose images are not
    ASCII, alone. *)
From S2P Require Import Prelude.
Open Scope boxy_scope.

(** ** Prefixes, substrings *)

Fixpoint HasPrefix (s prefix : string) {struct prefix} : bool :=
  match prefix, s with
  | EmptyString, _ => true
  | String p prefix', String c s' => Ascii.eqb c p && HasPrefix s' prefix'
  | _, EmptyString => false
  end.

Definition TrimPrefix (s prefix : string) : string :=
  if HasPrefix s prefix then str_drop (String.length prefix) s else s.

Fixpoint Contains (s substr : string) : bool :=
  HasPrefix s substr ||
  match s with
  | EmptyString => false
  | String _ s' => Contains s' substr
  end.

(** [strings.Split(s, sep)] for a non-empty [sep]; [skip] counts the bytes of
    a separator that are still to be passed over. *)
Definition cons_head (c : ascii) (l : list string) : list string :=
  match l with
  | x :: l' => String c x :: l'
  | [] => [String c ""]
  end.

Fixpoint split_from (sep : string) (skip : nat) (s : string) : list string :=
  match s with
  | EmptyString => [""]
  | String c s' =>
      match skip with
      | S k => split_from sep k s'
      | O => if HasPrefix s sep then "" :: split_from sep (pred (String.length sep)) s'
             else cons_head c (split_from sep 0 s')
      end
  end.

Definition Split (s sep : string) : list string := split_from sep 0 s.

(** [strings.Count(s, substr)] for a non-empty [substr]: non-overlapping
    occurrences, from the left. *)
Fixpoint count_from (substr : string) (skip : nat) (s : string) : Z :=
  match s with
  | EmptyString => 0
  | String _ s' =>
      match skip with
      | S k => count_from substr k s'
      | O => if HasPrefix s substr then 1 + count_from substr (pred (String.length substr)) s'
             else count_from substr 0 s'
      end
  end.

Definition Count (s substr : string) : Z := count_from substr 0 s.

(** [strings.Replace(s, old, new, n)] for a non-empty [old]; [None] stands
    for a negative [n], no limit. *)
Fixpoint replace_from (old new : string) (n : option nat) (skip : nat) (s : string) : string :=
  match s with
  | EmptyString => ""
  | String c s' =>
      match skip with
      | S k => replace_from old new n k s'
      | O =>
          match n with
          | Some O => s
          | _ => if HasPrefix s old
                 then new +:+ replace_from old new (option_map pred n) (pred (String.length old)) s'
                 else String c (replace_from old new n 0 s')
          end
      end
  end.

Definition Replace (s old new : string) (n : nat) : string := replace_from old new (Some n) 0 s.

Definition ReplaceAll (s old new : string) : string := replace_from old new None 0 s.

(** ** White space and case *)

Definition in_range (lo hi : Z) (c : ascii) : bool := (lo <=? byte_val c) && (byte_val c <=? hi).

Definition is_byte (b : Z) (c : ascii) : bool := byte_val c =? b.

(** One-byte white space: [\t \n \v \f \r] and space. *)
Definition space1 (c : ascii) : bool := in_range 9 13 c || is_byte 32 c.

(** U+0085 and U+00A0. *)
Definition space2 (c0 c1 : ascii) : bool := is_byte 194 c0 && (is_byte 133 c1 || is_byte 160 c1).

(** U+1680, U+2000 to U+200A, U+2028, U+2029, U+202F, U+205F, U+3000. *)
Definition space3 (c0 c1 c2 : ascii) : bool :=
  (is_byte 225 c0 && is_byte 154 c1 && is_byte 128 c2) ||
  (is_byte 226 c0 && is_byte 128 c1 &&
     (in_range 128 138 c2 || is_byte 168 c2 || is_byte 169 c2 || is_byte 175 c2)) ||
  (is_byte 226 c0 && is_byte 129 c1 && is_byte 159 c2) ||
  (is_byte 227 c0 && is_byte 128 c1 && is_byte 128 c2).

Fixpoint trim_left (s : string) : string :=
  match s with
  | EmptyString => ""
  | String c0 s1 =>
      if space1 c0 then trim_left s1 else
      match s1 with
      | EmptyString => s
      | String c1 s2 =>
          if space2 c0 c1 then trim_left s2 else
          match s2 with
          | EmptyString => s
          | String c2 s3 => if space3 c0 c1 c2 then trim_left s3 else s
          end
      end
  end.

(** The same from the right end, on the reversed string. *)
Fixpoint trim_right_rev (s : string) : string :=
  match s with
  | EmptyString => ""
  | String c0 s1 =>
      if space1 c0 then trim_right_rev s1 else
      match s1 with
      | EmptyString => s
      | String c1 s2 =>
          if space2 c1 c0 then trim_right_rev s2 else
          match s2 with
          | EmptyString => s
          | String c2 s3 => if space3 c2 c1 c0 then trim_right_rev s3 else s
          end
      end
  end.

Definition TrimSpace (s : string) : string := str_rev (trim_right_rev (str_rev (trim_left s))).

Definition upper_byte (c : ascii) : ascii :=
  if in_range 97 122 c then ascii_of_N (N_of_ascii c - 32) else c.

Definition lower_byte (c : ascii) : ascii :=
  if in_range 65 90 c then ascii_of_N (N_of_ascii c + 32) else c.

(** U+017F (C5 BF) has upper case S, U+0131 (C4 B1) has upper case I. *)
Fixpoint ToUpper (s : string) : string :=
  match s with
  | EmptyString => ""
  | String c0 s1 =>
      match s1 with
      | String c1 s2 =>
          if is_byte 197 c0 && is_byte 191 c1 then String "S" (ToUpper s2)
          else if is_byte 196 c0 && is_byte 177 c1 then String "I" (ToUpper s2)
          else String (upper_byte c0) (ToUpper s1)
      | EmptyString => String (upper_byte c0) ""
      end
  end.

Fixpoint ToLower (s : string) : string :=
  match s with
  | EmptyString => ""
  | String c s' => String (lower_byte c) (ToLower s')
  end.

(** ** UTF-8 *)

Definition rune_self (c : ascii) : bool := byte_val c <? 128.

Definition cont_byte (c : ascii) : bool := in_range 128 191 c.

(** The legal first two bytes of a sequence of two, three and four bytes. *)
Definition lead2 (c0 c1 : ascii) : bool := in_range 194 223 c0 && cont_byte c1.

Definition lead3 (c0 c1 : ascii) : bool :=
  (is_byte 224 c0 && in_range 160 191 c1) ||
  ((in_range 225 236 c0 || in_range 238 239 c0) && cont_byte c1) ||
  (is_byte 237 c0 && in_range 128 159 c1).

Definition lead4 (c0 c1 : ascii) : bool :=
  (is_byte 240 c0 && in_range 144 191 c1) ||
  (in_range 241 243 c0 && cont_byte c1) ||
  (is_byte 244 c0 && in_range 128 143 c1).

(** [utf8.Valid]. *)
Fixpoint Valid (s : string) : bool :=
  match s with
  | EmptyString => true
  | String c0 s1 =>
      if rune_self c0 then Valid s1 else
      match s1 with
      | EmptyString => false
      | String c1 s2 =>
          if lead2 c0 c1 then Valid s2 else
          match s2 with
          | EmptyString => false
          | String c2 s3 =>
              if lead3 c0 c1 && cont_byte c2 then Valid s3 else
              match s3 with
              | EmptyString => false
              | String c3 s4 =>
                  if lead4 c0 c1 && cont_byte c2 && cont_byte c3 then Valid s4 else false
              end
          end
      end
  end.

(** [utf8.RuneCountInString]: an invalid byte counts for one rune. *)
Fixpoint RuneCountInString (s : string) : Z :=
  match s with
  | EmptyString => 0
  | String c0 s1 =>
      if rune_self c0 then 1 + RuneCountInString s1 else
      match s1 with
      | EmptyString => 1
      | String c1 s2 =>
          if lead2 c0 c1 then 1 + RuneCountInString s2 else
          match s2 with
          | EmptyString => 1 + RuneCountInString s1
          | String c2 s3 =>
              if lead3 c0 c1 && cont_byte c2 then 1 + RuneCountInString s3 else
              match s3 with
              | EmptyString => 1 + RuneCountInString s1
              | String c3 s4 =>
                  if lead4 c0 c1 && cont_byte c2 && cont_byte c3 then 1 + RuneCountInString s4
                  else 1 + RuneCountInString s1
              end
          end
      end
  end.

(** ** Numbers *)

(** [strconv.Atoi] of a 64-bit [int]; [None] is an error. *)
Fixpoint dec_value (acc : Z) (s : string) : Z :=
  match s with
  | EmptyString => acc
  | String c s' => dec_value (acc * 10 + (byte_val c - 48)) s'
  end.

Definition Atoi (s : string) : option Z :=
  let '(neg, ds) := match s with
                    | String "-" r => (true, r)
                    | String "+" r => (false, r)
                    | _ => (false, s)
                    end in
  if (ds =?s "") || negb (str_forall (in_range 48 57) ds) then None
  else
    let v := if neg then - dec_value 0 ds else dec_value 0 ds in
    if (- 2 ^ 63 <=? v) && (v <? 2 ^ 63) then Some v else None.

(** [strconv.ParseUint] with base 10 and 64 bits. *)
Definition ParseUint (s : string) : option Z :=
  if (s =?s "") || negb (str_forall (in_range 48 57) s) then None
  else let v := dec_value 0 s in if v <? 2 ^ 64 then Some v else None.

(** [strings.Fields]: [field] is the field being read, reversed. *)
Definition end_field (field : string) (rest : list string) : list string :=
  if field =?s "" then rest else str_rev field :: rest.

Fixpoint fields_from (field : string) (s : string) : list string :=
  match s with
  | EmptyString => end_field field []
  | String c0 s1 =>
      if space1 c0 then end_field field (fields_from "" s1) else
      match s1 with
      | EmptyString => fields_from (String c0 field) s1
      | String c1 s2 =>
          if space2 c0 c1 then end_field field (fields_from "" s2) else
          match s2 with
          | EmptyString => fields_from (String c0 field) s1
          | String c2 s3 =>
              if space3 c0 c1 c2 then end_field field (fields_from "" s3) else fields_from (String c0 field) s1
          end
      end
  end.

Definition Fields (s : string) : list string := fields_from "" s.

(** ** Lemmas *)

Lemma HasPrefix_app (p r : string) : HasPrefix (p +:+ r) p = true.
Proof. induction p as [|c p IH]; simpl; [by destruct r|]. by rewrite Ascii.eqb_refl, IH. Qed.

Lemma HasPrefix_spec (s p : string) : HasPrefix s p = true <-> exists r, s = p +:+ r.
Proof.
  split; [|intros [r ->]; apply HasPrefix_app].
  revert s. induction p as [|c p IH]; intros s; simpl; [by eexists|].
  destruct s as [|d s]; [done|]. simpl. intros [Hc Hs]%andb_true_iff.
  apply Ascii.eqb_eq in Hc as ->. destruct (IH s Hs) as [r ->]. by exists r.
Qed.

Lemma HasPrefix_refl (s : string) : HasPrefix s s = true.
Proof. apply HasPrefix_spec. exists "". by rewrite str_app_nil_r. Qed.

Lemma Contains_spec (s sub : string) :
  Contains s sub = true <-> exists a b, s = a +:+ sub +:+ b.
Proof.
  split.
  - induction s as [|c s IH]; simpl; intros H; apply orb_true_iff in H as [H|H]; try done.
    + apply HasPrefix_spec in H as [r ->]. by exists "", r.
    + apply HasPrefix_spec in H as [r Hr]. exists "", r. done.
    + destruct (IH H) as (a & b & ->). by exists (String c a), b.
  - intros (a & b & ->). induction a as [|c a IH]; simpl.
    + destruct (sub +:+ b) eqn:Hs; simpl; rewrite <- Hs, HasPrefix_app; done.
    + rewrite IH. by rewrite orb_true_r.
Qed.

Lemma Contains_false_no_occurrence (s sub a b : string) :
  Contains s sub = false -> s <> a +:+ sub +:+ b.
Proof.
  intros H ->. assert (Contains (a +:+ sub +:+ b) sub = true); [|congruence].
  apply Contains_spec. eauto.
Qed.

(** Visible ASCII is untouched by [TrimSpace]. *)
Definition visible (c : ascii) : bool := in_range 33 126 c.

Lemma visible_not_space (c : ascii) :
  visible c = true ->
  space1 c = false /\ (forall d, space2 c d = false) /\ (forall d, space2 d c = false) /\
  (forall d e, space3 c d e = false) /\ (forall d e, space3 d e c = false).
Proof.
  unfold visible, space1, space2, space3, in_range, is_byte. intros H. bool_hyps.
  assert (forall b, b < 33 \/ 126 < b -> (byte_val c =? b) = false) as Hb.
  { intros b Hb. apply Z.eqb_neq. lia. }
  rewrite !(Hb 194), !(Hb 133), !(Hb 160), !(Hb 32), !(Hb 225), !(Hb 226), !(Hb 227), !(Hb 128),
    !(Hb 168), !(Hb 169), !(Hb 175), !(Hb 159) by lia.
  replace (byte_val c <=? 13) with false by (symmetry; apply Z.leb_gt; lia).
  replace (128 <=? byte_val c) with false by (symmetry; apply Z.leb_gt; lia).
  rewrite ?andb_false_r, ?andb_false_l.
  repeat split; intros; rewrite ?andb_false_r, ?andb_false_l; done.
Qed.

Lemma trim_left_visible (c : ascii) (s : string) :
  visible c = true -> trim_left (String c s) = String c s.
Proof.
  intros Hc. destruct (visible_not_space c Hc) as (H1 & H2 & _ & H3 & _).
  simpl. rewrite H1. destruct s as [|d s]; [done|]. rewrite H2.
  destruct s as [|e s]; [done|]. by rewrite H3.
Qed.

Lemma trim_right_rev_visible (c : ascii) (s : string) :
  visible c = true -> trim_right_rev (String c s) = String c s.
Proof.
  intros Hc. destruct (visible_not_space c Hc) as (H1 & _ & H2 & _ & H3).
  simpl. rewrite H1. destruct s as [|d s]; [done|]. rewrite H2.
  destruct s as [|e s]; [done|]. by rewrite H3.
Qed.

Lemma TrimSpace_visible (s : string) : str_forall visible s = true -> TrimSpace s = s.
Proof.
  intros Hs. unfold TrimSpace.
  assert (trim_left s = s) as ->.
  { destruct s as [|c s]; [done|]. simpl in Hs. bool_hyps. by apply trim_left_visible. }
  assert (trim_right_rev (str_rev s) = str_rev s) as ->; [|apply str_rev_involutive].
  rewrite <- str_forall_rev in Hs. destruct (str_rev s) as [|c r]; [done|].
  simpl in Hs. bool_hyps. by apply trim_right_rev_visible.
Qed.

(** ** Split, Count and Replace agree *)

Lemma split_from_skip (sep : string) (k : nat) (s : string) :
  split_from sep k s = split_from sep 0 (str_drop k s).
Proof. revert s. induction k as [|k IH]; intros [|c s]; simpl; auto. Qed.

Lemma count_from_skip (sub : string) (k : nat) (s : string) :
  count_from sub k s = count_from sub 0 (str_drop k s).
Proof. revert s. induction k as [|k IH]; intros [|c s]; simpl; auto. Qed.

Lemma replace_from_skip (old new : string) (n : option nat) (k : nat) (s : string) :
  replace_from old new n k s = replace_from old new n 0 (str_drop k s).
Proof. revert s. induction k as [|k IH]; intros [|c s]; simpl; auto. Qed.

Lemma split_from_nonempty (sep : string) (k : nat) (s : string) : split_from sep k s <> [].
Proof.
  revert k. induction s as [|c s IH]; intros k; simpl; [done|].
  destruct k as [|k]; [|done]. case_goal; [done|].
  by destruct (split_from sep 0 s).
Qed.

Lemma str_join_cons (sep x : string) (l : list string) :
  l <> [] -> str_join sep (x :: l) = x +:+ sep +:+ str_join sep l.
Proof. by destruct l. Qed.

Lemma str_join_cons_head (sep : string) (c : ascii) (l : list string) :
  l <> [] -> str_join sep (cons_head c l) = String c (str_join sep l).
Proof. destruct l as [|x l]; [done|]. intros _. by destruct l. Qed.

(** The bytes after an occurrence at the head of the string. *)
Lemma drop_after_prefix (d : ascii) (sep r s : string) (c : ascii) :
  String c s = String d sep +:+ r -> str_drop (pred (String.length (String d sep))) s = r.
Proof. simpl. intros [= -> ->]. apply str_drop_app. Qed.

(** The three functions on a string that starts with an occurrence. *)
Lemma scan_match (d : ascii) (sub r : string) :
  let old := String d sub in
  split_from old 0 (old +:+ r) = "" :: split_from old 0 r /\
  count_from old 0 (old +:+ r) = 1 + count_from old 0 r /\
  (forall new n, n <> Some O ->
    replace_from old new n 0 (old +:+ r) = new +:+ replace_from old new (option_map pred n) 0 r).
Proof.
  simpl. rewrite Ascii.eqb_refl, HasPrefix_app. simpl.
  rewrite split_from_skip, count_from_skip, str_drop_app.
  split; [done|]. split; [done|].
  intros new n Hn. rewrite replace_from_skip, str_drop_app. by destruct n as [[|n]|].
Qed.

(** Splitting loses nothing: joining the pieces with the separator gives the
    string back, joining them with another string is [ReplaceAll], and there
    is one occurrence fewer than there are pieces. *)
Lemma split_spec (d : ascii) (sub : string) (s : string) :
  let old := String d sub in
  str_join old (split_from old 0 s) = s /\
  count_from old 0 s = llen (split_from old 0 s) - 1 /\
  (forall new, replace_from old new None 0 s = str_join new (split_from old 0 s)).
Proof.
  cbv zeta. remember (String.length s) as n eqn:Hn. revert s Hn.
  induction (lt_wf n) as [n _ IH]. intros s ->.
  destruct s as [|c s]; [done|].
  destruct (HasPrefix (String c s) (String d sub)) eqn:Hp.
  - apply HasPrefix_spec in Hp as [r Hr]. rewrite Hr.
    destruct (scan_match d sub r) as (Hs & Hc & Hrep). rewrite Hs, Hc.
    assert (String.length r < String.length (String c s))%nat as Hlt.
    { rewrite Hr, str_app_length. simpl. lia. }
    destruct (IH _ Hlt r eq_refl) as (H1 & H2 & H3).
    pose proof (split_from_nonempty (String d sub) 0 r) as Hne.
    split; [|split].
    + rewrite str_join_cons by done. by rewrite H1.
    + rewrite H2. unfold llen. simpl. lia.
    + intros new. rewrite Hrep by done. rewrite str_join_cons by done. simpl. by rewrite H3.
  - assert (String.length s < String.length (String c s))%nat as Hlt by (simpl; lia).
    destruct (IH _ Hlt s eq_refl) as (H1 & H2 & H3).
    pose proof (split_from_nonempty (String d sub) 0 s) as Hne.
    change (split_from (String d sub) 0 (String c s)) with
      (if HasPrefix (String c s) (String d sub)
       then "" :: split_from (String d sub) (pred (String.length (String d sub))) s
       else cons_head c (split_from (String d sub) 0 s)).
    rewrite Hp. split; [|split].
    + rewrite str_join_cons_head by done. by rewrite H1.
    + change (count_from (String d sub) 0 (String c s)) with
        (if HasPrefix (String c s) (String d sub)
         then 1 + count_from (String d sub) (pred (String.length (String d sub))) s
         else count_from (String d sub) 0 s).
      rewrite Hp, H2. unfold llen. by destruct (split_from (String d sub) 0 s).
    + intros new. change (replace_from (String d sub) new None 0 (String c s)) with
        (if HasPrefix (String c s) (String d sub)
         then new +:+ replace_from (String d sub) new None (pred (String.length (String d sub))) s
         else String c (replace_from (String d sub) new None 0 s)).
      rewrite Hp, str_join_cons_head by done. by rewrite H3.
Qed.

(** Replacing once rewrites the leftmost occurrence. *)
Lemma replace_once_spec (d : ascii) (sub new : string) (s : string) :
  let old := String d sub in
  0 < count_from old 0 s ->
  exists a b, s = a +:+ old +:+ b /\ replace_from old new (Some 1%nat) 0 s = a +:+ new +:+ b /\
    count_from old 0 s = 1 + count_from old 0 b.
Proof.
  cbv zeta. induction s as [|c s IH]; [done|].
  destruct (HasPrefix (String c s) (String d sub)) eqn:Hp.
  - apply HasPrefix_spec in Hp as [r Hr]. rewrite Hr. intros _.
    destruct (scan_match d sub r) as (_ & Hc & Hrep). exists "", r.
    rewrite Hc, Hrep by done. split; [done|]. split; [|done]. simpl. f_equal. by destruct r.
  - change (count_from (String d sub) 0 (String c s)) with
      (if HasPrefix (String c s) (String d sub)
       then 1 + count_from (String d sub) (pred (String.length (String d sub))) s
       else count_from (String d sub) 0 s).
    rewrite Hp. intros H. destruct (IH H) as (a & b & -> & Hr & Hc).
    exists (String c a), b. split; [done|]. split; [|done].
    change (replace_from (String d sub) new (Some 1%nat) 0 (String c ?s)) with
      (if HasPrefix (String c s) (String d sub)
       then new +:+ replace_from (String d sub) new (Some 0%nat) (pred (String.length (String d sub))) s
       else String c (replace_from (String d sub) new (Some 1%nat) 0 s)).
    rewrite Hp, Hr. done.
Qed.

(** No piece of a split contains the separator. *)
Lemma split_pieces_free (d : ascii) (sub s : string) :
  Forall (fun p => Contains p (String d sub) = false) (split_from (String d sub) 0 s).
Proof.
  remember (String.length s) as n eqn:Hn. revert s Hn.
  induction (lt_wf n) as [n _ IH]. intros s ->. destruct s as [|c s]; [by repeat constructor|].
  destruct (HasPrefix (String c s) (String d sub)) eqn:Hp.
  - apply HasPrefix_spec in Hp as [r Hr]. rewrite Hr. destruct (scan_match d sub r) as (-> & _ & _).
    constructor; [done|]. apply (IH (String.length r)); [|done].
    rewrite Hr, str_app_length. simpl. lia.
  - change (split_from (String d sub) 0 (String c s)) with
      (if HasPrefix (String c s) (String d sub)
       then "" :: split_from (String d sub) (pred (String.length (String d sub))) s
       else cons_head c (split_from (String d sub) 0 s)).
    rewrite Hp. specialize (IH (String.length s) ltac:(simpl; lia) s eq_refl).
    destruct (split_spec d sub s) as (Hj & _ & _).
    destruct (split_from (String d sub) 0 s) as [|x l] eqn:Hs; [by apply split_from_nonempty in Hs|].
    apply Forall_cons in IH as [Hx Hl]. constructor; [|done].
    change (HasPrefix (String c x) (String d sub) || Contains x (String d sub) = false).
    rewrite Hx, orb_false_r. apply not_true_is_false. intros Hpx.
    apply HasPrefix_spec in Hpx as [r Hr]. rewrite <- Hj in Hp.
    assert (exists y, str_join (String d sub) (x :: l) = x +:+ y) as [y Hy].
    { destruct l; [exists ""; by rewrite str_app_nil_r|eauto]. }
    rewrite Hy in Hp. change (String c (x +:+ y)) with (String c x +:+ y) in Hp.
    rewrite Hr, str_app_assoc, HasPrefix_app in Hp. done.
Qed.

(** With a single occurrence, replacing once replaces all. *)
Lemma replace_once_all (d : ascii) (sub new s : string) :
  count_from (String d sub) 0 s = 1 ->
  replace_from (String d sub) new (Some 1%nat) 0 s = replace_from (String d sub) new None 0 s.
Proof.
  intros H. induction s as [|c s IH]; [done|].
  destruct (HasPrefix (String c s) (String d sub)) eqn:Hp.
  - apply HasPrefix_spec in Hp as [r Hr]. rewrite Hr in *.
    destruct (scan_match d sub r) as (_ & Hc & Hrep). rewrite !Hrep by done.
    destruct (split_spec d sub r) as (Hj & Hn & Hall). simpl. rewrite Hall.
    rewrite Hc in H. unfold llen in Hn. f_equal.
    destruct (split_from (String d sub) 0 r) as [|x [|y l]]; simpl in Hn; [lia| |lia].
    simpl in Hj |- *. subst. by destruct r.
  - change (count_from (String d sub) 0 (String c s)) with
      (if HasPrefix (String c s) (String d sub)
       then 1 + count_from (String d sub) (pred (String.length (String d sub))) s
       else count_from (String d sub) 0 s) in H.
    rewrite Hp in H.
    change (replace_from (String d sub) new (Some 1%nat) 0 (String c s)) with
      (if HasPrefix (String c s) (String d sub)
       then new +:+ replace_from (String d sub) new (Some 0%nat) (pred (String.length (String d sub))) s
       else String c (replace_from (String d sub) new (Some 1%nat) 0 s)).
    change (replace_from (String d sub) new None 0 (String c s)) with
      (if HasPrefix (String c s) (String d sub)
       then new +:+ replace_from (String d sub) new None (pred (String.length (String d sub))) s
       else String c (replace_from (String d sub) new None 0 s)).
    rewrite Hp, IH by done. done.
Qed.

(** A string with an occurrence has a positive count. *)
Lemma count_zero_no_occurrence (d : ascii) (sub s : string) :
  count_from (String d sub) 0 s = 0 <-> Contains s (String d sub) = false.
Proof.
  assert (forall s k, 0 <= count_from (String d sub) k s) as Hnn.
  { clear s. induction s as [|c s IH]; intros k; simpl; [done|].
    destruct k; [|done]. case_goal; [|done]. specialize (IH (String.length sub)). lia. }
  induction s as [|c s IH]; [done|].
  change (Contains (String c s) (String d sub)) with
    (HasPrefix (String c s) (String d sub) || Contains s (String d sub)).
  change (count_from (String d sub) 0 (String c s)) with
    (if HasPrefix (String c s) (String d sub)
     then 1 + count_from (String d sub) (String.length sub) s
     else count_from (String d sub) 0 s).
  destruct (HasPrefix (String c s) (String d sub)); simpl; [|done].
  specialize (Hnn s (String.length sub)). split; [lia|done].
Qed.

Lemma count_nonneg (d : ascii) (sub s : string) (k : nat) : 0 <= count_from (String d sub) k s.
Proof.
  revert k. induction s as [|c s IH]; intros k; simpl; [done|].
  destruct k; [|done]. case_goal; [|done]. specialize (IH (String.length sub)). lia.
Qed.

(** ** UTF-8 lemmas *)

(** A prefix of a valid string is valid up to at most three bytes at its end. *)
Lemma valid_prefix (s x : string) :
  Valid (s +:+ x) = true ->
  exists k, (k <= 3)%nat /\ (k <= String.length s)%nat /\
    Valid (str_take (String.length s - k) s) = true.
Proof.
  remember (String.length s) as n eqn:Hn. revert s Hn.
  induction (lt_wf n) as [n _ IH]. intros s ->.
  assert (forall pre r, s = pre +:+ r -> (0 < String.length pre)%nat ->
    (forall t, Valid (pre +:+ t) = Valid t) -> Valid (r +:+ x) = true ->
    exists k, (k <= 3)%nat /\ (k <= String.length s)%nat /\
      Valid (str_take (String.length s - k) s) = true) as Hgo.
  { intros pre r -> Hpre Hval Hr.
    destruct (IH (String.length r)) with (s := r) as (k & Hk3 & Hk & Hv); [|done..|].
    { rewrite str_app_length. lia. }
    exists k. rewrite str_app_length. split; [done|]. split; [lia|].
    replace (String.length pre + String.length r - k)%nat with
      (String.length pre + (String.length r - k))%nat by lia.
    assert (forall p m t, str_take (String.length p + m) (p +:+ t) = p +:+ str_take m t) as ->.
    { clear. induction p as [|c p IH]; intros m t; simpl; [done|]. by rewrite IH. }
    by rewrite Hval. }
  assert (forall m, (m <= 3)%nat -> String.length s = m ->
    exists k, (k <= 3)%nat /\ (k <= String.length s)%nat /\
      Valid (str_take (String.length s - k) s) = true) as Hstop.
  { intros m Hm Hlen. exists m. split; [done|]. split; [lia|].
    replace (String.length s - m)%nat with 0%nat by lia. done. }
  destruct s as [|c0 s1]; [intros; by apply (Hstop 0%nat); [lia|]|].
  simpl. destruct (rune_self c0) eqn:H0.
  { intros H. apply (Hgo (String c0 "") s1); [done|simpl; lia| |done].
    intros t. simpl. by rewrite H0. }
  destruct s1 as [|c1 s2]; [intros; by apply (Hstop 1%nat); [lia|]|].
  simpl. destruct (lead2 c0 c1) eqn:H1.
  { intros H. apply (Hgo (String c0 (String c1 "")) s2); [done|simpl; lia| |done].
    intros t. simpl. by rewrite H0, H1. }
  destruct s2 as [|c2 s3]; [intros; by apply (Hstop 2%nat); [lia|]|].
  simpl. destruct (lead3 c0 c1 && cont_byte c2) eqn:H2.
  { intros H. apply (Hgo (String c0 (String c1 (String c2 ""))) s3); [done|simpl; lia| |done].
    intros t. simpl. by rewrite H0, H1, H2. }
  destruct s3 as [|c3 s4]; [intros; by apply (Hstop 3%nat); [lia|]|].
  simpl. destruct (lead4 c0 c1 && cont_byte c2 && cont_byte c3) eqn:H3; [|done].
  intros H. apply (Hgo (String c0 (String c1 (String c2 (String c3 "")))) s4);
    [done|simpl; lia| |done].
  intros t. simpl. by rewrite H0, H1, H2, H3.
Qed.
