(* ===== verification/GoRegexp.v ===== *)
(** * Regular expressions of Go's [regexp] package

    The anchored patterns of the code are language membership tests.  A
    pattern is a value of [regex]; [MatchString] decides membership with
    Brzozowski derivatives; [lang] is the language it denotes.  Matching is
    per byte: the classes of the patterns are ASCII, and no byte of a
    multi-byte rune is in an ASCII class. *)
From S2P Require Import Prelude.

Inductive regex : Type :=
| RNone
| REps
| RClass (f : ascii -> bool)
| RCat (r1 r2 : regex)
| RAlt (r1 r2 : regex)
| RStar (r : regex).

Definition ROpt (r : regex) : regex := RAlt r REps.

Fixpoint nullable (r : regex) : bool :=
  match r with
  | RNone | RClass _ => false
  | REps | RStar _ => true
  | RCat r1 r2 => nullable r1 && nullable r2
  | RAlt r1 r2 => nullable r1 || nullable r2
  end.

Fixpoint deriv (c : ascii) (r : regex) : regex :=
  match r with
  | RNone | REps => RNone
  | RClass f => if f c then REps else RNone
  | RCat r1 r2 =>
      if nullable r1 then RAlt (RCat (deriv c r1) r2) (deriv c r2) else RCat (deriv c r1) r2
  | RAlt r1 r2 => RAlt (deriv c r1) (deriv c r2)
  | RStar r' => RCat (deriv c r') (RStar r')
  end.

Fixpoint MatchString (r : regex) (s : string) : bool :=
  match s with
  | EmptyString => nullable r
  | String c s' => MatchString (deriv c r) s'
  end.

Inductive lang : regex -> string -> Prop :=
| lang_eps : lang REps ""
| lang_class f c : f c = true -> lang (RClass f) (String c "")
| lang_cat r1 r2 s1 s2 : lang r1 s1 -> lang r2 s2 -> lang (RCat r1 r2) (s1 +:+ s2)
| lang_alt_l r1 r2 s : lang r1 s -> lang (RAlt r1 r2) s
| lang_alt_r r1 r2 s : lang r2 s -> lang (RAlt r1 r2) s
| lang_star_nil r : lang (RStar r) ""
| lang_star_cons r s1 s2 : lang r s1 -> lang (RStar r) s2 -> lang (RStar r) (s1 +:+ s2).

#[export] Hint Constructors lang : boxy.

Lemma str_app_eq_nil (s t : string) : s +:+ t = "" -> s = "" /\ t = "".
Proof. by destruct s. Qed.

Lemma nullable_spec (r : regex) : nullable r = true <-> lang r "".
Proof.
  induction r as [| |f|r1 IH1 r2 IH2|r1 IH1 r2 IH2|r IH]; simpl.
  - split; [done|inversion 1].
  - split; [constructor|done].
  - split; [done|inversion 1].
  - rewrite andb_true_iff, IH1, IH2. split.
    + intros [H1 H2]. apply (lang_cat _ _ "" ""); done.
    + inversion 1 as [| |? ? s1 s2 H1 H2 H3 H4| | | |]. apply str_app_eq_nil in H4 as [-> ->]. done.
  - rewrite orb_true_iff, IH1, IH2. split; [intros [H|H]; auto with boxy|].
    inversion 1; auto.
  - split; [constructor|done].
Qed.

(** A star that accepts a non-empty string consumes a non-empty prefix first. *)
Lemma lang_star_inv (r : regex) (c : ascii) (s : string) :
  lang (RStar r) (String c s) ->
  exists s1 s2, s = s1 +:+ s2 /\ lang r (String c s1) /\ lang (RStar r) s2.
Proof.
  intros H. remember (RStar r) as rs eqn:Hr. remember (String c s) as cs eqn:Hcs.
  induction H as [| | | | | |r' s1 s2 H1 _ H2 IH]; simplify_eq.
  destruct s1 as [|d s1]; simpl in *; [by apply IH|]. simplify_eq. eauto.
Qed.

Lemma deriv_spec (r : regex) (c : ascii) (s : string) :
  lang (deriv c r) s <-> lang r (String c s).
Proof.
  revert s. induction r as [| |f|r1 IH1 r2 IH2|r1 IH1 r2 IH2|r IH]; intros s; simpl.
  - split; inversion 1.
  - split; inversion 1.
  - destruct (f c) eqn:Hf.
    + split; [inversion 1; by constructor|]. inversion 1; subst. constructor.
    + split; [inversion 1|]. inversion 1; congruence.
  - assert (lang (RCat (deriv c r1) r2) s <->
      exists s1 s2, s = s1 +:+ s2 /\ lang r1 (String c s1) /\ lang r2 s2) as Hcat.
    { split.
      - inversion 1; subst. eexists _, _. split; [done|]. by rewrite <- IH1.
      - intros (s1 & s2 & -> & H1 & H2). constructor; [by apply IH1|done]. }
    split.
    + intros H. destruct (nullable r1) eqn:Hn.
      * inversion H as [| | |? ? ? H'|? ? ? H'| |]; subst.
        { apply Hcat in H' as (s1 & s2 & -> & H1 & H2). apply (lang_cat _ _ (String c s1)); done. }
        { apply nullable_spec in Hn. apply IH2 in H'. apply (lang_cat _ _ "" (String c s)); done. }
      * apply Hcat in H as (s1 & s2 & -> & H1 & H2). apply (lang_cat _ _ (String c s1)); done.
    + inversion 1 as [| |? ? s1 s2 H1 H2 H3 H4| | | |]; subst.
      destruct s1 as [|d s1]; simpl in H4; simplify_eq.
      * assert (nullable r1 = true) as -> by by apply nullable_spec.
        apply lang_alt_r. by apply IH2.
      * destruct (nullable r1); [apply lang_alt_l|]; apply Hcat; eauto.
  - split; inversion 1; subst; (apply lang_alt_l + apply lang_alt_r); (by apply IH1) || (by apply IH2).
  - split.
    + inversion 1; subst. rewrite IH in *.
      match goal with H : lang r (String c ?s1) |- _ => apply (lang_star_cons r (String c s1)); done end.
    + intros (s1 & s2 & -> & H1 & H2)%lang_star_inv. constructor; [by apply IH|done].
Qed.

(** The matcher decides the language. *)
Lemma MatchString_lang (r : regex) (s : string) : MatchString r s = true <-> lang r s.
Proof.
  revert r. induction s as [|c s IH]; intros r; simpl; [apply nullable_spec|].
  by rewrite IH, deriv_spec.
Qed.

(** ** Inversion of the shapes the patterns use *)

Lemma lang_class_inv (f : ascii -> bool) (s : string) :
  lang (RClass f) s <-> exists c, f c = true /\ s = String c "".
Proof. split; [inversion 1; eauto|]. intros (c & Hc & ->). by constructor. Qed.

Lemma lang_cat_inv (r1 r2 : regex) (s : string) :
  lang (RCat r1 r2) s <-> exists s1 s2, s = s1 +:+ s2 /\ lang r1 s1 /\ lang r2 s2.
Proof. split; [inversion 1; eauto 6|]. intros (s1 & s2 & -> & H1 & H2). by constructor. Qed.

Lemma lang_opt_inv (r : regex) (s : string) : lang (ROpt r) s <-> lang r s \/ s = "".
Proof.
  unfold ROpt. split.
  - inversion 1 as [| | | |? ? ? H'| |]; subst; [auto|]. right. by inversion H'.
  - intros [H| ->]; [by apply lang_alt_l|]. apply lang_alt_r. constructor.
Qed.

Lemma lang_star_class (f : ascii -> bool) (s : string) :
  lang (RStar (RClass f)) s <-> str_forall f s = true.
Proof.
  induction s as [|c s IH]; [split; [done|constructor]|]. simpl. rewrite andb_true_iff. split.
  - intros (s1 & s2 & -> & H1 & H2)%lang_star_inv. apply lang_class_inv in H1 as (d & Hd & ?).
    simplify_eq. simpl in *. split; [done|]. by apply IH.
  - intros [Hc Hs]. apply (lang_star_cons _ (String c "")); [by constructor|]. by apply IH.
Qed.
