(* ===== verification/GoPath.v ===== *)
(** * The parts of Go's [path/filepath] (Unix) the adapter uses

    A cleaned path is a flag (absolute or not) and a list of elements; the
    string functions are the concatenation of those elements. *)
From S2P Require Import Prelude GoStrings.
Open Scope boxy_scope.

Definition rooted (p : string) : bool := HasPrefix p "/".

(** One element of [filepath.Clean]; [stack] holds the output, last element first. *)
Definition clean_step (root : bool) (stack : list string) (e : string) : list string :=
  if (e =?s "") || (e =?s ".") then stack
  else if e =?s ".." then
    match stack with
    | x :: stack' => if x =?s ".." then e :: stack else stack'
    | [] => if root then [] else [e]
    end
  else e :: stack.

(** The elements of the cleaned path. *)
Definition clean_elems (p : string) : list string :=
  rev (fold_left (clean_step (rooted p)) (Split p "/") []).

Definition path_string (root : bool) (elems : list string) : string :=
  if root then "/" +:+ str_join "/" elems
  else match elems with
       | [] => "."
       | _ => str_join "/" elems
       end.

Definition Clean (p : string) : string := path_string (rooted p) (clean_elems p).

(** [filepath.Join(a, b)]. *)
Definition Join (a b : string) : string :=
  if a =?s "" then (if b =?s "" then "" else Clean b)
  else Clean (a +:+ "/" +:+ b).

(** The path up to and including its last slash. *)
Fixpoint upto_last_slash (p : string) : string :=
  match p with
  | EmptyString => ""
  | String c p' =>
      if Contains p "/" then String c (upto_last_slash p') else ""
  end.

Definition Dir (p : string) : string := Clean (upto_last_slash p).

(** Strips the common leading elements. *)
Fixpoint strip_common (base targ : list string) : list string * list string :=
  match base, targ with
  | b :: base', t :: targ' => if b =?s t then strip_common base' targ' else (base, targ)
  | _, _ => (base, targ)
  end.

(** [filepath.Rel(basepath, targpath)]; [None] is an error. *)
Definition Rel (basepath targpath : string) : option string :=
  if Clean targpath =?s Clean basepath then Some "."
  else if negb (Bool.eqb (rooted basepath) (rooted targpath)) then None
  else
    let targ := match clean_elems targpath with
                | [] => if rooted targpath then [] else ["."]
                | es => es
                end in
    let '(brest, trest) := strip_common (clean_elems basepath) targ in
    match brest, trest with
    | b :: _, _ :: _ => if b =?s ".." then None
                        else Some (str_join "/" (replicate (length brest) ".." ++ trest))
    | _, _ => Some (str_join "/" (replicate (length brest) ".." ++ trest))
    end.

(** ** Lemmas *)

Lemma strip_common_spec (base targ brest trest : list string) :
  strip_common base targ = (brest, trest) ->
  exists common, base = common ++ brest /\ targ = common ++ trest.
Proof.
  revert targ. induction base as [|b base IH]; intros targ; simpl.
  - intros [= <- <-]. by exists [].
  - destruct targ as [|t targ]; [intros [= <- <-]; by exists []|].
    destruct (b =?s t) eqn:Hbt; [|intros [= <- <-]; by exists []].
    bool_hyps. subst. intros H. destruct (IH _ H) as (common & -> & ->). by exists (t :: common).
Qed.

Lemma join_dotdot_prefix (n : nat) (l : list string) :
  HasPrefix (str_join "/" (replicate (S n) ".." ++ l)) ".." = true.
Proof.
  simpl. by destruct (replicate n ".." ++ l).
Qed.

(** When the relative path of [targ] from [base] does not climb, the elements
    of [base] are the first elements of [targ]. *)
Lemma Rel_down (base targ rel : string) :
  Rel base targ = Some rel -> HasPrefix rel ".." = false ->
  Clean targ = Clean base \/
  (rooted base = rooted targ /\ exists rest,
    match clean_elems targ with [] => if rooted targ then [] else ["."] | es => es end =
      clean_elems base ++ rest).
Proof.
  unfold Rel. destruct (Clean targ =?s Clean base) eqn:He; bool_hyps; [by left|].
  destruct (Bool.eqb (rooted base) (rooted targ)) eqn:Hr; cbn [negb]; [|done].
  apply eqb_prop in Hr. intros HR Hup. right. split; [done|].
  destruct (strip_common _ _) as [brest trest] eqn:Hs.
  apply strip_common_spec in Hs as (common & Hb & Ht).
  destruct brest as [|b brest].
  - exists trest. rewrite app_nil_r in Hb. by subst.
  - exfalso. assert (rel = str_join "/" (replicate (S (length brest)) ".." ++ trest)) as ->.
    { destruct trest; [by injection HR as <-|]. destruct (b =?s ".."); [done|]. by injection HR as <-. }
    pose proof (join_dotdot_prefix (length brest) trest). congruence.
Qed.

Lemma clean_steps_ok (root : bool) (stack : list string) (l : list string) :
  Forall (fun e => e <> "" /\ e <> ".") stack ->
  Forall (fun e => e <> "" /\ e <> ".") (fold_left (clean_step root) l stack).
Proof.
  revert stack. induction l as [|e l IH]; intros stack Hs; simpl; [done|].
  apply IH. unfold clean_step.
  destruct (e =?s "") eqn:H1; bool_hyps; simpl; [done|].
  destruct (e =?s ".") eqn:H2; bool_hyps; simpl; [done|].
  destruct (e =?s "..") eqn:H3; [|by constructor].
  destruct stack as [|x stack]; [destruct root; [done|by repeat constructor]|].
  destruct (x =?s ".."); [by constructor|]. by inversion Hs.
Qed.
