(* ===== verification/GoMux.v ===== *)
(** * [http.ServeMux] and the paths of [net/url]

    The routing both HTTP servers rely on: patterns of the form
    [METHOD /a/{x}], the cleaning of the request path and its redirect, HEAD
    served by GET, literal segments before wildcards, and path values that are
    unescaped after the path is split.  The routing tree is kept as the list of
    patterns that agree with the segments read so far. *)
From S2P Require Import Prelude GoStrings GoPath.
Open Scope boxy_scope.

(** ** [net/url] *)

Definition hex_val (c : ascii) : option Z :=
  if in_range 48 57 c then Some (byte_val c - 48)
  else if in_range 97 102 c then Some (byte_val c - 87)
  else if in_range 65 70 c then Some (byte_val c - 55)
  else None.

Definition byte_ascii (z : Z) : ascii := ascii_of_N (Z.to_N z).

(** [url.PathUnescape]; [None] is an error. *)
Fixpoint PathUnescape (s : string) : option string :=
  match s with
  | EmptyString => Some ""
  | String c s' =>
      if is_byte 37 c then
        match s' with
        | String a (String b s'') =>
            match hex_val a, hex_val b with
            | Some x, Some y => String (byte_ascii (16 * x + y)) <$> PathUnescape s''
            | _, _ => None
            end
        | _ => None
        end
      else String c <$> PathUnescape s'
  end.

(** [shouldEscape(c, encodePath)]. *)
Definition path_escaped (c : ascii) : bool :=
  negb (in_range 97 122 c || in_range 65 90 c || in_range 48 57 c ||
        existsb (fun b => is_byte b c) [45; 95; 46; 126; 36; 38; 43; 44; 47; 58; 59; 61; 64]).

Definition upper_hex (z : Z) : ascii := byte_ascii (if z <? 10 then 48 + z else 55 + z).

Fixpoint escape_path (s : string) : string :=
  match s with
  | EmptyString => ""
  | String c s' =>
      if path_escaped c then
        String "%" (String (upper_hex (byte_val c / 16)) (String (upper_hex (byte_val c mod 16)) (escape_path s')))
      else String c (escape_path s')
  end.

(** [validEncoded(s, encodePath)]. *)
Definition valid_encoded (s : string) : bool :=
  str_forall (fun c => existsb (fun b => is_byte b c) [33; 36; 38; 39; 40; 41; 42; 43; 44; 59; 61; 58; 64; 91; 93; 37]
                       || negb (path_escaped c)) s.

(** [URL.Path] and [URL.EscapedPath] after parsing the path [raw] of a request. *)
Definition URL_Path (raw : string) : option string := PathUnescape raw.

Definition EscapedPath (raw : string) : option string :=
  match PathUnescape raw with
  | None => None
  | Some p => let enc := escape_path p in
              Some (if (enc =?s raw) || valid_encoded raw then raw else enc)
  end.

(** ** Patterns *)

Inductive Seg : Type :=
| Lit (s : string)
| Wild (name : string).

Record Pattern := { pt_Method : string; pt_Segs : list Seg }.

Definition pathUnescape (s : string) : string := default s (PathUnescape s).

(** A segment of a pattern; wildcards are [{name}]. *)
Definition parse_seg (s : string) : Seg :=
  match s with
  | String "{" r => Wild (str_take (pred (String.length r)) r)
  | _ => Lit (pathUnescape s)
  end.

(** [parsePattern] for patterns without a host. *)
Definition parsePattern (s : string) : Pattern :=
  match Split s " " with
  | [m; p] => {| pt_Method := m; pt_Segs := map parse_seg (tl (Split p "/")) |}
  | _ => {| pt_Method := ""; pt_Segs := map parse_seg (tl (Split s "/")) |}
  end.

(** ** Matching *)

(** The segments of a request path; a trailing slash is the segment ["/"]. *)
Fixpoint request_segs (l : list string) : list string :=
  match l with
  | [] => []
  | [s] => [if s =?s "" then "/" else pathUnescape s]
  | s :: l' => pathUnescape s :: request_segs l'
  end.

Definition path_segs (path : string) : list string := request_segs (tl (Split path "/")).

Section matching.
Context {A : Type}.

Definition lit_children (seg : string) (pats : list (list Seg * A)) : list (list Seg * A) :=
  omap (fun p => match p.1 with Lit s :: r => if s =?s seg then Some (r, p.2) else None | _ => None end) pats.

Definition wild_children (pats : list (list Seg * A)) : list (list Seg * A) :=
  omap (fun p => match p.1 with Wild _ :: r => Some (r, p.2) | _ => None end) pats.

(** [matchPath]: a literal child first, then the wildcard child. *)
Fixpoint matchPath (pats : list (list Seg * A)) (segs values : list string) : option (A * list string) :=
  match segs with
  | [] => match List.find (fun p => match p.1 with [] => true | _ => false end) pats with
          | Some (_, a) => Some (a, values)
          | None => None
          end
  | seg :: segs' =>
      match matchPath (if seg =?s "" then wild_children pats else lit_children seg pats) segs' values with
      | Some r => Some r
      | None => if seg =?s "/" then None else matchPath (wild_children pats) segs' (values ++ [seg])
      end
  end.

End matching.

Section mux.
Context {A : Type}.

(** A mux: the registered patterns with their handlers. *)
Definition ServeMux : Type := list (string * A).

(** The patterns registered for a method, [""] for those without one. *)
Definition for_method (m : ServeMux) (method : string) : list (list Seg * (string * A)) :=
  omap (fun e => let p := parsePattern e.1 in
                 if pt_Method p =?s method then Some (pt_Segs p, e) else None) m.

Definition first_some {B} (x y : option B) : option B := match x with Some _ => x | None => y end.

Definition matchMethodAndPath (m : ServeMux) (method path : string) : option (string * A * list string) :=
  let try meth := matchPath (for_method m meth) (path_segs path) [] in
  first_some (try method)
    (first_some (if method =?s "HEAD" then try "GET" else None) (try "")).

(** [matchingMethods]: whether the path is known under another method. *)
Definition other_method (m : ServeMux) (path : string) : bool :=
  existsb (fun e => match matchMethodAndPath [e] (pt_Method (parsePattern e.1)) path with
                    | Some _ => true | None => false end) m.

(** What becomes of a request: a handler, an answer of the mux itself, or a
    path that [net/http] refuses to parse. *)
Inductive Served : Type :=
| Handled (pattern : string) (h : A) (values : list string)
| Moved (location : string)
| MethodNotAllowed
| PageNotFound
| BadTarget.

(** [cleanPath]. *)
Definition cleanPath (p : string) : string :=
  if p =?s "" then "/"
  else
    let p := if HasPrefix p "/" then p else "/" +:+ p in
    let np := Clean p in
    if HasPrefix (str_rev p) "/" && negb (np =?s "/") then np +:+ "/" else np.

(** [findHandler], for the escaped path of a request. *)
Definition findHandler (m : ServeMux) (method escapedPath : string) : Served :=
  let path := if method =?s "CONNECT" then escapedPath else cleanPath escapedPath in
  if negb (path =?s escapedPath) then Moved path
  else match matchMethodAndPath m method path with
       | Some (pat, h, values) => Handled pat h values
       | None => if other_method m path then MethodNotAllowed else PageNotFound
       end.

End mux.

Arguments ServeMux A : clear implicits.
Arguments Served A : clear implicits.

(** ** Specification of matching *)

(** The path values a pattern takes from the segments, if it matches them. *)
Fixpoint pat_values (ps : list Seg) (segs : list string) : option (list string) :=
  match ps, segs with
  | [], [] => Some []
  | Lit s :: ps', g :: segs' => if s =?s g then pat_values ps' segs' else None
  | Wild _ :: ps', g :: segs' => if g =?s "/" then None else cons g <$> pat_values ps' segs'
  | _, _ => None
  end.

Lemma lit_children_elem {A} (seg : string) (pats : list (list Seg * A)) (ps : list Seg) (a : A) :
  (ps, a) ∈ lit_children seg pats <-> (Lit seg :: ps, a) ∈ pats.
Proof.
  unfold lit_children. rewrite list_elem_of_omap. split.
  - intros ([[|[s|n] r] b] & Hin & H); simpl in H; try done.
    destruct (s =?s seg) eqn:Hs; bool_hyps; [|done]. by simplify_eq.
  - intros Hin. exists (Lit seg :: ps, a). split; [done|]. simpl. by rewrite String.eqb_refl.
Qed.

Lemma wild_children_elem {A} (pats : list (list Seg * A)) (ps : list Seg) (a : A) :
  (ps, a) ∈ wild_children pats <-> exists n, (Wild n :: ps, a) ∈ pats.
Proof.
  unfold wild_children. rewrite list_elem_of_omap. split.
  - intros ([[|[s|n] r] b] & Hin & H); simpl in H; try done. simplify_eq. eauto.
  - intros [n Hin]. by exists (Wild n :: ps, a).
Qed.

(** A match is a registered pattern that matches, with its values. *)
Lemma matchPath_sound {A} (pats : list (list Seg * A)) (segs vs vs' : list string) (a : A) :
  Forall (fun g => g <> "") segs -> matchPath pats segs vs = Some (a, vs') ->
  exists ps v, (ps, a) ∈ pats /\ pat_values ps segs = Some v /\ vs' = vs ++ v.
Proof.
  revert pats vs. induction segs as [|g segs IH]; intros pats vs Hne H; cbn [matchPath] in H.
  - destruct (List.find _ pats) as [[ps b]|] eqn:Hf; [|done]. simplify_eq.
    apply find_some in Hf as [Hin Hnil]. destruct ps; [|done]. exists [], [].
    rewrite app_nil_r. split; [by apply list_elem_of_In|done].
  - inversion Hne as [|? ? Hg Hne']; subst. apply String.eqb_neq in Hg. rewrite Hg in H.
    destruct (matchPath (lit_children g pats) segs vs) as [[b w]|] eqn:Hl.
    + simplify_eq. destruct (IH _ _ Hne' Hl) as (ps & v & Hin & Hv & ->).
      exists (Lit g :: ps), v. apply lit_children_elem in Hin. simpl. by rewrite String.eqb_refl.
    + destruct (g =?s "/") eqn:Hsl; [done|].
      destruct (IH _ _ Hne' H) as (ps & v & Hin & Hv & ->).
      apply wild_children_elem in Hin as [n Hin]. exists (Wild n :: ps), (g :: v).
      simpl. rewrite Hsl, Hv, <- app_assoc. done.
Qed.

(** A path some registered pattern matches is matched. *)
Lemma matchPath_complete {A} (pats : list (list Seg * A)) (segs vs v : list string) (ps : list Seg) (a : A) :
  Forall (fun g => g <> "") segs -> (ps, a) ∈ pats -> pat_values ps segs = Some v ->
  is_Some (matchPath pats segs vs).
Proof.
  revert pats vs v ps. induction segs as [|g segs IH]; intros pats vs v ps Hne Hin Hv; cbn [matchPath].
  - destruct ps as [|[] ?]; try done.
    destruct (List.find _ pats) as [[qs b]|] eqn:Hf; [eauto|].
    exfalso. apply list_elem_of_In in Hin. by apply (find_none _ _ Hf) in Hin.
  - inversion Hne as [|? ? Hg Hne']; subst. apply String.eqb_neq in Hg. rewrite Hg.
    destruct (matchPath (lit_children g pats) segs vs) as [r|] eqn:Hl; [eauto|].
    destruct ps as [|[s|n] ps]; [done| |]; simpl in Hv.
    + destruct (s =?s g) eqn:Hs; bool_hyps; [subst|done].
      destruct (IH (lit_children g pats) vs v ps) as [r Hr]; [done|by apply lit_children_elem|done|congruence].
    + destruct (g =?s "/"); [done|]. destruct (pat_values ps segs) as [v'|] eqn:Hv'; [|done].
      apply (IH _ _ v' ps); [done| |done]. apply wild_children_elem. eauto.
Qed.

(** ** Escaping *)

Lemma byte_of_val (c : ascii) : byte_ascii (byte_val c) = c.
Proof. unfold byte_ascii, byte_val. rewrite N2Z.id. apply ascii_N_embedding. Qed.

Lemma byte_val_range (c : ascii) : 0 <= byte_val c < 256.
Proof. unfold byte_val. pose proof (N_ascii_bounded c). lia. Qed.

Lemma hex_val_upper (z : Z) : 0 <= z < 16 -> hex_val (upper_hex z) = Some z.
Proof.
  intros Hz. assert (z ∈ seqZ 0 16) as Hin by (apply elem_of_seqZ; lia).
  revert z Hz Hin. assert (Forall (fun z => hex_val (upper_hex z) = Some z) (seqZ 0 16)) as Hall
    by (repeat constructor).
  intros z _ Hin. by eapply Forall_forall in Hall.
Qed.

Lemma unescape_escape (s : string) : PathUnescape (escape_path s) = Some s.
Proof.
  induction s as [|c s IH]; [done|]. cbn [escape_path].
  pose proof (byte_val_range c) as Hc. destruct (path_escaped c) eqn:He.
  - cbn [PathUnescape]. replace (is_byte 37 "%") with true by done.
    rewrite !hex_val_upper by (first [apply Z.mod_pos_bound; lia | split; [apply Z.div_pos|apply Z.div_lt_upper_bound]; lia]).
    rewrite IH. simpl. do 2 f_equal. rewrite <- Z.div_mod by lia. apply byte_of_val.
  - cbn [PathUnescape]. destruct (is_byte 37 c) eqn:Hp; [|by rewrite IH].
    exfalso. unfold is_byte in Hp. bool_hyps. unfold path_escaped, in_range, is_byte in He. rewrite Hp in He. done.
Qed.

(** The path the handlers see is the decoded form of the one that is routed. *)
Lemma escaped_decodes (raw esc : string) : EscapedPath raw = Some esc -> PathUnescape esc = URL_Path raw.
Proof.
  unfold EscapedPath, URL_Path. destruct (PathUnescape raw) as [p|] eqn:Hp; [|done]. cbv zeta.
  intros [= <-]. destruct (_ || _); [done|]. by rewrite unescape_escape.
Qed.

(** ** Splitting a decoded path *)

Definition slashless (s : string) : bool := str_forall (fun c => negb (is_byte 47 c)) s.

Lemma split_slashless (s : string) : slashless s = true -> Split s "/" = [s].
Proof.
  unfold slashless, Split. induction s as [|c s IH]; [done|]. simpl. intros H. bool_hyps.
  destruct (Ascii.eqb c "/") eqn:Hc; [apply Ascii.eqb_eq in Hc; by subst|].
  simpl. by rewrite IH.
Qed.

Lemma unescape_slashless (s w : string) :
  PathUnescape s = Some w -> slashless w = true -> slashless s = true.
Proof.
  unfold slashless.
  assert (forall n s w, (String.length s <= n)%nat -> PathUnescape s = Some w ->
    str_forall (fun c => negb (is_byte 47 c)) w = true -> str_forall (fun c => negb (is_byte 47 c)) s = true) as Hn.
  2: by apply (Hn (String.length s)).
  induction n as [|n IH]; intros t v Hlen H Hv; destruct t as [|c t]; [done|simpl in Hlen; lia|done|].
  cbn [PathUnescape] in H. simpl in Hlen. destruct (is_byte 37 c) eqn:Hc.
  - destruct t as [|a [|b t]]; [done..|].
    destruct (hex_val a) as [x|] eqn:Ha, (hex_val b) as [y|] eqn:Hb; try done.
    destruct (PathUnescape t) as [u|] eqn:Hu; simpl in H; [|done]. simplify_eq. simpl in Hv. bool_hyps.
    assert (forall d z, hex_val d = Some z -> negb (is_byte 47 d) = true) as Hhex.
    { intros d z. unfold hex_val, in_range, is_byte. destruct (byte_val d =? 47) eqn:Hd; [|done].
      bool_hyps. by rewrite Hd. }
    simpl. rewrite (Hhex _ _ Ha), (Hhex _ _ Hb), (IH t u); [|simpl in Hlen; lia|done|done].
    unfold is_byte in *. bool_hyps. by rewrite Hc.
  - destruct (PathUnescape t) as [u|] eqn:Hu; simpl in H; [|done]. simplify_eq. simpl in Hv. bool_hyps.
    simpl. rewrite (IH t u); [|lia|done|done]. rewrite andb_true_r. by apply negb_true_iff.
Qed.

(** A routed path that decodes to one segment has that segment. *)
Lemma path_segs_single (esc w : string) :
  PathUnescape esc = Some ("/" +:+ w) -> HasPrefix esc "/" = true -> w <> "" -> slashless w = true ->
  path_segs esc = [w].
Proof.
  intros Hu Hp Hw Hs. apply HasPrefix_spec in Hp as [r ->]. simpl in Hu.
  destruct (PathUnescape r) as [v|] eqn:Hr; simpl in Hu; [|done]. simplify_eq.
  unfold path_segs. change (Split ("/" +:+ r) "/") with ("" :: Split r "/").
  rewrite (split_slashless r) by (by eapply unescape_slashless). simpl.
  destruct (r =?s "") eqn:He; bool_hyps; [subst; simpl in Hr; by simplify_eq|].
  unfold pathUnescape. by rewrite Hr.
Qed.

(** ** Unambiguous tables *)

(** The methods of requests a pattern serves. *)
Definition admits (pm method : string) : bool :=
  (pm =?s method) || ((method =?s "HEAD") && (pm =?s "GET")) || (pm =?s "").

(** Whether some path could match both patterns. *)
Fixpoint overlap (ps qs : list Seg) : bool :=
  match ps, qs with
  | [], [] => true
  | Lit a :: ps', Lit b :: qs' => (a =?s b) && overlap ps' qs'
  | _ :: ps', _ :: qs' => overlap ps' qs'
  | _, _ => false
  end.

(** Whether some method could be served by both. *)
Definition compatible (a b : string) : bool :=
  admits a b || admits b a.

Fixpoint unambiguous {A} (m : ServeMux A) : bool :=
  match m with
  | [] => true
  | e :: m' =>
      let p := parsePattern e.1 in
      forallb (fun f => let q := parsePattern f.1 in
        negb (compatible (pt_Method p) (pt_Method q) && overlap (pt_Segs p) (pt_Segs q))) m' && unambiguous m'
  end.

Lemma overlap_complete (ps qs : list Seg) (segs v w : list string) :
  pat_values ps segs = Some v -> pat_values qs segs = Some w -> overlap ps qs = true.
Proof.
  revert ps qs v w. induction segs as [|g segs IH]; intros ps qs v w Hp Hq.
  - by destruct ps as [|[] ?], qs as [|[] ?].
  - destruct ps as [|p ps]; [done|]. destruct qs as [|q qs]; [by destruct p|].
    assert (forall r rs u, pat_values (r :: rs) (g :: segs) = Some u ->
      (r = Lit g \/ exists n, r = Wild n) /\ exists u', pat_values rs segs = Some u') as Hinv.
    { intros [s|n] rs u; simpl.
      - destruct (s =?s g) eqn:Hs; bool_hyps; [subst; eauto|done].
      - destruct (g =?s "/"); [done|]. destruct (pat_values rs segs); [eauto|done]. }
    apply Hinv in Hp as [Hp [v' Hv]], Hq as [Hq [w' Hw]].
    destruct Hp as [->|[n ->]], Hq as [->|[n' ->]]; simpl; rewrite ?String.eqb_refl; simpl; by eapply IH.
Qed.

Lemma admits_compatible (a b method : string) :
  admits a method = true -> admits b method = true -> compatible a b = true.
Proof.
  unfold compatible, admits. intros Ha Hb.
  destruct (a =?s "") eqn:Ea; bool_hyps; [by rewrite !orb_true_r|].
  destruct (b =?s "") eqn:Eb; bool_hyps; [by rewrite !orb_true_r|].
  rewrite !orb_false_r in *. apply orb_true_iff in Ha, Hb.
  destruct Ha as [Ha|Ha], Hb as [Hb|Hb]; bool_hyps; subst; rewrite ?String.eqb_refl; simpl; rewrite ?orb_true_r; done.
Qed.

(** In an unambiguous table at most one pattern serves a request. *)
Lemma unambiguous_unique {A} (m : ServeMux A) (e f : string * A) (method : string) (segs v w : list string) :
  unambiguous m = true -> e ∈ m -> f ∈ m ->
  admits (pt_Method (parsePattern e.1)) method = true -> admits (pt_Method (parsePattern f.1)) method = true ->
  pat_values (pt_Segs (parsePattern e.1)) segs = Some v -> pat_values (pt_Segs (parsePattern f.1)) segs = Some w ->
  e = f.
Proof.
  intros Hu He Hf Ae Af Ve Vf. induction m as [|x m IH]; [by apply not_elem_of_nil in He|].
  cbn [unambiguous] in Hu. bool_hyps. rewrite forallb_forall in *.
  assert (forall y z, y ∈ m -> admits (pt_Method (parsePattern y.1)) method = true ->
    pat_values (pt_Segs (parsePattern y.1)) segs = Some z -> admits (pt_Method (parsePattern x.1)) method = true ->
    forall u, pat_values (pt_Segs (parsePattern x.1)) segs = Some u -> False) as Hx.
  { intros y z Hy Ay Vy Ax u Vx. apply list_elem_of_In in Hy.
    match goal with H : forall _, In _ m -> _ |- _ => specialize (H y Hy) end.
    cbv zeta in *. rewrite (overlap_complete _ _ _ _ _ Vx Vy), (admits_compatible _ _ _ Ax Ay) in *. done. }
  apply elem_of_cons in He as [->|He], Hf as [->|Hf]; [done| | |by apply IH].
  - exfalso. by eapply (Hx f).
  - exfalso. by eapply (Hx e).
Qed.

Lemma for_method_elem {A} (m : ServeMux A) (method : string) (ps : list Seg) (e : string * A) :
  (ps, e) ∈ for_method m method <->
  e ∈ m /\ pt_Method (parsePattern e.1) = method /\ ps = pt_Segs (parsePattern e.1).
Proof.
  unfold for_method. rewrite list_elem_of_omap. split.
  - intros (f & Hin & H). cbv zeta in H. destruct (_ =?s method) eqn:Hm; bool_hyps; [|done]. by simplify_eq.
  - intros (Hin & Hm & ->). exists e. split; [done|]. cbv zeta. by rewrite Hm, String.eqb_refl.
Qed.

(** The request is served by exactly the pattern that matches it. *)
Lemma matchMethodAndPath_exact {A} (m : ServeMux A) (method path pat : string) (h : A) (vs : list string) :
  unambiguous m = true -> Forall (fun g => g <> "") (path_segs path) ->
  matchMethodAndPath m method path = Some (pat, h, vs) <->
  (pat, h) ∈ m /\ admits (pt_Method (parsePattern pat)) method = true /\
  pat_values (pt_Segs (parsePattern pat)) (path_segs path) = Some vs.
Proof.
  intros Hu Hne.
  assert (forall meth e w, matchPath (for_method m meth) (path_segs path) [] = Some (e, w) ->
    e ∈ m /\ pt_Method (parsePattern e.1) = meth /\
    pat_values (pt_Segs (parsePattern e.1)) (path_segs path) = Some w) as Hs.
  { intros meth e w H. apply matchPath_sound in H as (ps & v & Hin & Hv & ->); [|done].
    apply for_method_elem in Hin as (? & ? & ->). done. }
  assert (forall e w, matchMethodAndPath m method path = Some (e, w) ->
    e ∈ m /\ admits (pt_Method (parsePattern e.1)) method = true /\
    pat_values (pt_Segs (parsePattern e.1)) (path_segs path) = Some w) as Hsound.
  { intros e w. unfold matchMethodAndPath, admits. cbv zeta.
    destruct (matchPath (for_method m method) _ _) as [[e1 w1]|] eqn:H1; simpl.
    { intros [= <- <-]. apply Hs in H1 as (? & -> & ?). by rewrite String.eqb_refl. }
    destruct (method =?s "HEAD") eqn:Hh; simpl.
    - destruct (matchPath (for_method m "GET") _ _) as [[e2 w2]|] eqn:H2; simpl.
      { intros [= <- <-]. apply Hs in H2 as (? & -> & ?). by rewrite String.eqb_refl, orb_true_r. }
      intros H. apply Hs in H as (? & -> & ?). by rewrite orb_true_r.
    - intros H. apply Hs in H as (? & -> & ?). by rewrite orb_true_r. }
  split; [intros H; by apply (Hsound (pat, h))|].
  intros (Hin & Ha & Hv).
  assert (is_Some (matchMethodAndPath m method path)) as [[e w] Hm].
  { assert (forall meth, pt_Method (parsePattern pat) = meth ->
      is_Some (matchPath (for_method m meth) (path_segs path) [])) as Hc.
    { intros meth Hp. eapply matchPath_complete; [done| |exact Hv]. apply for_method_elem. eauto. }
    unfold matchMethodAndPath. cbv zeta. unfold admits in Ha.
    apply orb_true_iff in Ha as [Ha|Ha]; [apply orb_true_iff in Ha as [Ha|Ha]|]; bool_hyps.
    - destruct (Hc method) as [r ->]; [done|]. simpl. eauto.
    - subst method. rewrite String.eqb_refl. destruct (Hc "GET") as [r ->]; [done|].
      destruct (matchPath _ _ _); simpl; eauto.
    - destruct (Hc "") as [r ->]; [done|].
      destruct (matchPath (for_method m method) _ _); simpl; [eauto|].
      destruct (method =?s "HEAD"); [|simpl; eauto]. destruct (matchPath _ _ _); simpl; eauto. }
  destruct (Hsound _ _ Hm) as (Hin' & Ha' & Hv').
  assert (e = (pat, h)) as -> by (by eapply (unambiguous_unique m)).
  cbn [fst] in Hv'. rewrite Hm. congruence.
Qed.

(** ** Cleaned paths *)

Lemma Clean_rooted (p : string) : HasPrefix p "/" = true -> HasPrefix (Clean p) "/" = true.
Proof. intros Hp. unfold Clean, rooted. by rewrite Hp. Qed.

Lemma cleanPath_rooted (p : string) : HasPrefix (cleanPath p) "/" = true.
Proof.
  unfold cleanPath. destruct (p =?s ""); [done|]. cbv zeta.
  set (q := if HasPrefix p "/" then p else "/" +:+ p).
  assert (HasPrefix q "/" = true) as Hq by (unfold q; by destruct (HasPrefix p "/") eqn:?).
  apply Clean_rooted, HasPrefix_spec in Hq as [r Hr]. rewrite Hr.
  destruct (_ && _); [rewrite str_app_assoc|]; apply HasPrefix_app.
Qed.

Lemma split_slash_app (s t : string) :
  slashless s = true -> Split (s +:+ String "/" t) "/" = s :: Split t "/".
Proof.
  unfold slashless, Split. induction s as [|c s IH]; [done|]. simpl. intros H. bool_hyps.
  destruct (Ascii.eqb c "/") eqn:Hc; [apply Ascii.eqb_eq in Hc; by subst|].
  simpl. by rewrite IH.
Qed.

Lemma split_join (l : list string) :
  l <> [] -> Forall (fun s => slashless s = true) l -> Split (str_join "/" l) "/" = l.
Proof.
  induction l as [|s l IH]; [done|]. intros _ Hl. inversion Hl as [|? ? Hs Hl']; subst.
  destruct l as [|t l]; [by apply split_slashless|].
  change (str_join "/" (s :: t :: l)) with (s +:+ String "/" (str_join "/" (t :: l))).
  rewrite split_slash_app by done. by rewrite IH.
Qed.

Lemma str_join_snoc (e : string) (es : list string) :
  str_join "/" (e :: es) +:+ "/" = str_join "/" ((e :: es) ++ [""]).
Proof.
  revert e. induction es as [|f es IH]; intros e; [done|].
  change (str_join "/" (e :: f :: es)) with (e +:+ "/" +:+ str_join "/" (f :: es)).
  change ((e :: f :: es) ++ [""]) with (e :: f :: (es ++ [""])).
  change (str_join "/" (e :: f :: (es ++ [""]))) with (e +:+ "/" +:+ str_join "/" ((f :: es) ++ [""])).
  by rewrite <- IH, !str_app_assoc.
Qed.

Lemma unescape_nonempty (s : string) : s <> "" -> pathUnescape s <> "".
Proof.
  unfold pathUnescape. intros Hs. destruct (PathUnescape s) as [w|] eqn:Hw; simpl; [|done].
  destruct s as [|c s]; [done|]. cbn [PathUnescape] in Hw. destruct (is_byte 37 c).
  - destruct s as [|a [|b s]]; [done..|]. destruct (hex_val a), (hex_val b); try done.
    destruct (PathUnescape s); simpl in Hw; [|done]. intros ->. done.
  - destruct (PathUnescape s); simpl in Hw; [|done]. intros ->. done.
Qed.

Lemma request_segs_nonempty (l : list string) (tail : bool) :
  Forall (fun s => s <> "") l -> Forall (fun s => s <> "") (request_segs (l ++ if tail then [""] else [])).
Proof.
  induction l as [|s l IH]; intros Hl; [by destruct tail; repeat constructor|].
  inversion Hl as [|? ? Hs Hl']; subst. specialize (IH Hl'). apply unescape_nonempty in Hs as Hs'.
  simpl. destruct (l ++ _) eqn:Happ; [|by constructor].
  apply String.eqb_neq in Hs. rewrite Hs. by repeat constructor.
Qed.

Lemma clean_elems_slashless (p : string) :
  Forall (fun e => slashless e = true /\ e <> "") (clean_elems p).
Proof.
  unfold clean_elems. apply Forall_rev.
  assert (Forall (fun e => slashless e = true) (Split p "/")) as Hsplit.
  { unfold Split. induction p as [|c p IH]; [by repeat constructor|]. cbn [split_from].
    destruct (HasPrefix (String c p) "/") eqn:Hp; [by constructor|].
    destruct (split_from "/" 0 p) as [|x l]; simpl.
    - repeat constructor. unfold slashless. simpl. unfold is_byte. simpl in Hp.
      destruct (byte_val c =? 47) eqn:Hc; [|done]. bool_hyps. exfalso.
      assert (c = "/"%char) as -> by (rewrite <- (byte_of_val c), Hc; done). done.
    - inversion IH as [|? ? Hx Hl]; subst. constructor; [|done]. unfold slashless in *. simpl. rewrite Hx.
      unfold is_byte. destruct (byte_val c =? 47) eqn:Hc; [|done]. bool_hyps. exfalso.
      assert (c = "/"%char) as -> by (rewrite <- (byte_of_val c), Hc; done). done. }
  revert Hsplit. generalize (Split p "/"). intros l. generalize (rooted p). intros root.
  assert (Forall (fun e => slashless e = true /\ e <> "") (@nil string)) as H0 by constructor.
  revert H0. generalize (@nil string). induction l as [|e l IH]; intros stack Hst Hl; simpl; [done|].
  inversion Hl as [|? ? He Hl']; subst. apply IH; [|done]. unfold clean_step.
  destruct (e =?s "") eqn:H1; bool_hyps; simpl; [done|]. destruct (e =?s "."); [done|].
  destruct (e =?s "..") eqn:H3; bool_hyps; [subst|by constructor].
  destruct stack as [|x stack]; [destruct root; [done|by repeat constructor]|].
  destruct (x =?s ".."); [by constructor|]. by inversion Hst.
Qed.

Lemma clean_path_segs (path : string) :
  cleanPath path = path -> Forall (fun g => g <> "") (path_segs path).
Proof.
  intros Hc. rewrite <- Hc. clear Hc. unfold cleanPath.
  destruct (path =?s ""); [by repeat constructor|]. cbv zeta.
  set (q := if HasPrefix path "/" then path else "/" +:+ path).
  assert (rooted q = true) as Hq by (unfold q, rooted; by destruct (HasPrefix path "/") eqn:?).
  pose proof (clean_elems_slashless q) as Hel. unfold Clean. rewrite Hq. unfold path_string.
  assert (Forall (fun e => slashless e = true) (clean_elems q)) as Hsl by (eapply Forall_impl; [exact Hel|]; by intros ? []).
  assert (Forall (fun e => e <> "") (clean_elems q)) as Hne by (eapply Forall_impl; [exact Hel|]; by intros ? []).
  destruct (clean_elems q) as [|e es].
  { simpl. rewrite andb_false_r. by repeat constructor. }
  unfold path_segs. destruct (_ && _).
  - assert (("/" +:+ str_join "/" (e :: es)) +:+ "/" = "/" +:+ str_join "/" ((e :: es) ++ [""])) as ->.
    { rewrite <- str_join_snoc. by rewrite str_app_assoc. }
    change (Split ("/" +:+ ?x) "/") with ("" :: Split x "/"). cbn [tl].
    rewrite split_join; [by apply (request_segs_nonempty _ true)|by destruct es|].
    apply Forall_app. split; [done|]. by repeat constructor.
  - change (Split ("/" +:+ ?x) "/") with ("" :: Split x "/"). cbn [tl].
    rewrite split_join by done. pose proof (request_segs_nonempty (e :: es) false Hne) as H.
    by rewrite app_nil_r in H.
Qed.

(** What [findHandler] serves, for a table without overlapping patterns. *)
Lemma findHandler_exact {A} (m : ServeMux A) (method esc pat : string) (h : A) (vs : list string) :
  unambiguous m = true -> method <> "CONNECT" ->
  findHandler m method esc = Handled pat h vs <->
  cleanPath esc = esc /\ (pat, h) ∈ m /\ admits (pt_Method (parsePattern pat)) method = true /\
  pat_values (pt_Segs (parsePattern pat)) (path_segs esc) = Some vs.
Proof.
  intros Hu Hm. apply String.eqb_neq in Hm. unfold findHandler. rewrite Hm.
  destruct (cleanPath esc =?s esc) eqn:Hc; bool_hyps; cbn [negb]; [|naive_solver].
  pose proof (clean_path_segs _ Hc) as Hne. rewrite Hc.
  rewrite <- (matchMethodAndPath_exact m method esc pat h vs Hu Hne).
  destruct (matchMethodAndPath m method esc) as [[[p g] w]|]; [naive_solver|].
  destruct (other_method m esc); naive_solver.
Qed.

(** Only registered handlers are served. *)
Lemma matchPath_elem {A} (pats : list (list Seg * A)) (segs vs vs' : list string) (a : A) :
  matchPath pats segs vs = Some (a, vs') -> exists ps, (ps, a) ∈ pats.
Proof.
  revert pats vs vs' a. induction segs as [|g segs IH]; intros pats vs vs' a H; cbn [matchPath] in H.
  - destruct (List.find _ pats) as [[ps b]|] eqn:Hf; [|done]. simplify_eq.
    apply find_some in Hf as [Hin _]. exists ps. by apply list_elem_of_In.
  - assert (forall l w r, matchPath l segs w = Some r -> l = wild_children pats \/ l = lit_children g pats ->
      exists ps, (ps, r.1) ∈ pats) as Hch.
    { intros l w [b u] Hl Hor. apply IH in Hl as [ps Hin].
      destruct Hor as [->| ->]; [apply wild_children_elem in Hin as [n Hin]|apply lit_children_elem in Hin]; eauto. }
    destruct (matchPath (if g =?s "" then _ else _) segs vs) as [r|] eqn:Hl.
    + simplify_eq. apply (Hch _ _ (a, vs') Hl). destruct (g =?s ""); auto.
    + destruct (g =?s "/"); [done|]. apply (Hch _ _ (a, vs') H). auto.
Qed.

Lemma findHandler_elem {A} (m : ServeMux A) (method esc pat : string) (h : A) (vs : list string) :
  findHandler m method esc = Handled pat h vs -> (pat, h) ∈ m.
Proof.
  unfold findHandler. destruct (negb _); [done|].
  destruct (matchMethodAndPath m method _) as [[[p g] w]|] eqn:Hm; [|by destruct (other_method m _)].
  intros [= <- <- <-]. unfold matchMethodAndPath in Hm. cbv zeta in Hm.
  assert (forall meth e u, matchPath (for_method m meth) (path_segs (if method =?s "CONNECT" then esc else cleanPath esc)) []
    = Some (e, u) -> e ∈ m) as He.
  { intros meth e u H. apply matchPath_elem in H as [ps Hin]. by apply for_method_elem in Hin as (? & _). }
  destruct (matchPath (for_method m method) _ _) as [[? ?]|] eqn:H1; simpl in Hm; [simplify_eq; by eapply He|].
  destruct (method =?s "HEAD"); simpl in Hm; [|by eapply He].
  destruct (matchPath (for_method m "GET") _ _) as [[? ?]|] eqn:H2; simpl in Hm; [simplify_eq|]; by eapply He.
Qed.

(** A routed path that decodes to a single segment after the slash. *)
Lemma path_segs_one (esc w : string) :
  PathUnescape esc = Some ("/" +:+ w) -> w <> "" -> slashless w = true -> path_segs esc = [w] \/ path_segs esc = [].
Proof.
  intros Hu Hw Hs. destruct (HasPrefix esc "/") eqn:Hp; [left; by apply path_segs_single|right].
  assert (slashless esc = true) as He.
  2: { unfold path_segs. by rewrite split_slashless. }
  destruct esc as [|c esc]; [done|]. cbn [PathUnescape] in Hu.
  assert (is_byte 47 c = false) as Hc.
  { unfold is_byte. destruct (byte_val c =? 47) eqn:Hc; [|done]. bool_hyps.
    assert (c = "/"%char) as -> by (rewrite <- (byte_of_val c), Hc; done). done. }
  destruct (is_byte 37 c).
  - destruct esc as [|a [|b esc]]; [done..|].
    destruct (hex_val a) as [x|] eqn:Ha, (hex_val b) as [y|] eqn:Hb; try done.
    destruct (PathUnescape esc) as [u|] eqn:Hr; simpl in Hu; [|done]. simplify_eq.
    pose proof (unescape_slashless _ _ Hr Hs) as Hsl. unfold slashless in *. simpl. rewrite Hc, Hsl.
    assert (forall d z, hex_val d = Some z -> is_byte 47 d = false) as Hhex.
    { intros d z. unfold hex_val, in_range, is_byte. destruct (byte_val d =? 47) eqn:Hd; [|done].
      bool_hyps. by rewrite Hd. }
    by rewrite (Hhex _ _ Ha), (Hhex _ _ Hb).
  - destruct (PathUnescape esc) as [u|] eqn:Hr; simpl in Hu; [|done]. by simplify_eq.
Qed.

(** The pattern that serves a path of known segments. *)
Lemma findHandler_segs {A} (m : ServeMux A) (method esc pat : string) (h : A) (vs : list string) :
  Forall (fun g => g <> "") (path_segs esc) -> findHandler m method esc = Handled pat h vs ->
  (pat, h) ∈ m /\ pat_values (pt_Segs (parsePattern pat)) (path_segs esc) = Some vs.
Proof.
  intros Hne. unfold findHandler. set (path := if method =?s "CONNECT" then esc else cleanPath esc).
  destruct (path =?s esc) eqn:Hp; bool_hyps; cbn [negb]; [rewrite Hp|done].
  destruct (matchMethodAndPath m method esc) as [[[p g] w]|] eqn:Hm; [|by destruct (other_method m _)].
  intros [= <- <- <-]. unfold matchMethodAndPath in Hm. cbv zeta in Hm.
  assert (forall meth e u, matchPath (for_method m meth) (path_segs esc) [] = Some (e, u) ->
    e ∈ m /\ pat_values (pt_Segs (parsePattern e.1)) (path_segs esc) = Some u) as He.
  { intros meth e u H. apply matchPath_sound in H as (ps & v & Hin & Hv & ->); [|done].
    apply for_method_elem in Hin as (? & _ & ->). done. }
  destruct (matchPath (for_method m method) _ _) as [[? ?]|] eqn:H1; simpl in Hm; [simplify_eq; by apply He in H1|].
  destruct (method =?s "HEAD"); simpl in Hm; [|by apply He in Hm].
  destruct (matchPath (for_method m "GET") _ _) as [[? ?]|] eqn:H2; simpl in Hm; [simplify_eq; by apply He in H2|].
  by apply He in Hm.
Qed.
