(* ===== verification/GoJson.v ===== *)
(** * [encoding/json]

    The text the programs exchange.  [Marshal] prints a JSON value the way the
    encoder does: strings are escaped as for HTML, an invalid UTF-8 byte becomes
    U+FFFD.  [parse] reads a value as the decoder's scanner does: white space
    between tokens, all escapes with surrogate pairs, no control characters in
    strings.  A number is kept as an integer or, with a fraction or an exponent,
    as its literal.  [parse_Marshal] is the round trip. *)
From S2P Require Import Prelude GoStrings GoMux.
Open Scope boxy_scope.

(** ** Runes *)

(** A string cut into runes as [range] does; [RBad] is an invalid byte. *)
Inductive Rune : Type :=
| R1 (c0 : ascii)
| R2 (c0 c1 : ascii)
| R3 (c0 c1 c2 : ascii)
| R4 (c0 c1 c2 c3 : ascii)
| RBad (c0 : ascii).

Fixpoint runes (s : string) : list Rune :=
  match s with
  | EmptyString => []
  | String c0 s1 =>
      if rune_self c0 then R1 c0 :: runes s1 else
      match s1 with
      | EmptyString => [RBad c0]
      | String c1 s2 =>
          if lead2 c0 c1 then R2 c0 c1 :: runes s2 else
          match s2 with
          | EmptyString => RBad c0 :: runes s1
          | String c2 s3 =>
              if lead3 c0 c1 && cont_byte c2 then R3 c0 c1 c2 :: runes s3 else
              match s3 with
              | EmptyString => RBad c0 :: runes s1
              | String c3 s4 =>
                  if lead4 c0 c1 && cont_byte c2 && cont_byte c3 then R4 c0 c1 c2 c3 :: runes s4
                  else RBad c0 :: runes s1
              end
          end
      end
  end.

Definition bytes (l : list Z) : string := foldr (fun z s => String (byte_ascii z) s) "" l.

(** [utf8.AppendRune]. *)
Definition encode_rune (r : Z) : string :=
  if r <? 128 then bytes [r]
  else if r <? 2048 then bytes [192 + r / 64; 128 + r mod 64]
  else if r <? 65536 then bytes [224 + r / 4096; 128 + r / 64 mod 64; 128 + r mod 64]
  else bytes [240 + r / 262144; 128 + r / 4096 mod 64; 128 + r / 64 mod 64; 128 + r mod 64].

Definition RuneError : string := bytes [239; 191; 189].

Definition rune_text (r : Rune) : string :=
  match r with
  | R1 c0 => String c0 ""
  | R2 c0 c1 => String c0 (String c1 "")
  | R3 c0 c1 c2 => String c0 (String c1 (String c2 ""))
  | R4 c0 c1 c2 c3 => String c0 (String c1 (String c2 (String c3 "")))
  | RBad _ => RuneError
  end.

(** The string with every invalid byte replaced. *)
Definition ToValidUTF8 (s : string) : string := str_concat (map rune_text (runes s)).

(** ** Values and their text *)

Inductive json : Type :=
| JNull
| JBool (b : bool)
| JInt (z : Z)
| JFloat (lit : string)
| JStr (s : string)
| JArr (l : list json)
| JObj (ms : list (string * json)).

Definition lower_hex (z : Z) : ascii := byte_ascii (if z <? 10 then 48 + z else 87 + z).

(** An ASCII byte in a string literal ([htmlSafeSet] and the short escapes). *)
Definition quote_ascii (c : ascii) : string :=
  if is_byte 34 c || is_byte 92 c then String "092" (String c "")
  else if is_byte 8 c then String "092" "b"
  else if is_byte 12 c then String "092" "f"
  else if is_byte 10 c then String "092" "n"
  else if is_byte 13 c then String "092" "r"
  else if is_byte 9 c then String "092" "t"
  else if (byte_val c <? 32) || is_byte 60 c || is_byte 62 c || is_byte 38 c then
    String "092" ("u00" +:+ String (lower_hex (byte_val c / 16)) (String (lower_hex (byte_val c mod 16)) ""))
  else String c "".

Definition quote_rune (r : Rune) : string :=
  match r with
  | R1 c0 => quote_ascii c0
  | R3 c0 c1 c2 =>
      if is_byte 226 c0 && is_byte 128 c1 && (is_byte 168 c2 || is_byte 169 c2) then
        String "092" ("u202" +:+ String (lower_hex (byte_val c2 mod 16)) "")
      else rune_text r
  | RBad _ => String "092" "ufffd"
  | _ => rune_text r
  end.

Definition quote (s : string) : string := DQ +:+ str_concat (map quote_rune (runes s)) +:+ DQ.

(** [json.Marshal] of a value. *)
Fixpoint Marshal (j : json) : string :=
  match j with
  | JNull => "null"
  | JBool true => "true"
  | JBool false => "false"
  | JInt z => pretty z
  | JFloat lit => lit
  | JStr s => quote s
  | JArr l => "[" +:+ str_join "," (map Marshal l) +:+ "]"
  | JObj ms => "{" +:+ str_join "," (map (fun m => quote m.1 +:+ ":" +:+ Marshal m.2) ms) +:+ "}"
  end.

(** ** Reading *)

Definition space (c : ascii) : bool := is_byte 32 c || is_byte 9 c || is_byte 13 c || is_byte 10 c.

Fixpoint skip_space (s : string) : string :=
  match s with
  | String c s' => if space c then skip_space s' else s
  | EmptyString => ""
  end.

(** The rest after the byte [b], white space before it skipped. *)
Definition token (b : Z) (s : string) : option string :=
  match skip_space s with
  | String c r => if is_byte b c then Some r else None
  | EmptyString => None
  end.

Definition hex4 (a b c d : ascii) : option Z :=
  match hex_val a, hex_val b, hex_val c, hex_val d with
  | Some w, Some x, Some y, Some z => Some (4096 * w + 256 * x + 16 * y + z)
  | _, _, _, _ => None
  end.

Definition high_surrogate (r : Z) : bool := (55296 <=? r) && (r <? 56320).

Definition low_surrogate (r : Z) : bool := (56320 <=? r) && (r <? 57344).

(** The escapes of one letter. *)
Definition short_escape (c : ascii) : option ascii :=
  if is_byte 34 c || is_byte 92 c || is_byte 47 c then Some c
  else if is_byte 98 c then Some (byte_ascii 8)
  else if is_byte 102 c then Some (byte_ascii 12)
  else if is_byte 110 c then Some (byte_ascii 10)
  else if is_byte 114 c then Some (byte_ascii 13)
  else if is_byte 116 c then Some (byte_ascii 9)
  else None.

Definition prepend (t : string) (r : option (string * string)) : option (string * string) :=
  match r with Some (s, rest) => Some (t +:+ s, rest) | None => None end.

(** The rest of a string literal, after its opening quote. *)
Fixpoint unquote (s : string) : option (string * string) :=
  match s with
  | EmptyString => None
  | String c0 s1 =>
      if is_byte 34 c0 then Some ("", s1)
      else if is_byte 92 c0 then
        match s1 with
        | EmptyString => None
        | String e s2 =>
            if is_byte 117 e then
              match s2 with
              | String a (String b (String c (String d s6))) =>
                  match hex4 a b c d with
                  | None => None
                  | Some r =>
                      if high_surrogate r then
                        match s6 with
                        | String b1 (String u1 (String a' (String b' (String c' (String d' s12))))) =>
                            match hex4 a' b' c' d' with
                            | Some r' =>
                                if is_byte 92 b1 && is_byte 117 u1 && low_surrogate r' then
                                  prepend (encode_rune (65536 + (r - 55296) * 1024 + (r' - 56320))) (unquote s12)
                                else prepend RuneError (unquote s6)
                            | None => prepend RuneError (unquote s6)
                            end
                        | _ => prepend RuneError (unquote s6)
                        end
                      else if low_surrogate r then prepend RuneError (unquote s6)
                      else prepend (encode_rune r) (unquote s6)
                  end
              | _ => None
              end
            else match short_escape e with
                 | Some c => prepend (String c "") (unquote s2)
                 | None => None
                 end
        end
      else if byte_val c0 <? 32 then None
      else if rune_self c0 then prepend (String c0 "") (unquote s1)
      else
        match s1 with
        | EmptyString => prepend RuneError (unquote s1)
        | String c1 s2 =>
            if lead2 c0 c1 then prepend (String c0 (String c1 "")) (unquote s2) else
            match s2 with
            | EmptyString => prepend RuneError (unquote s1)
            | String c2 s3 =>
                if lead3 c0 c1 && cont_byte c2 then
                  prepend (String c0 (String c1 (String c2 ""))) (unquote s3)
                else
                match s3 with
                | EmptyString => prepend RuneError (unquote s1)
                | String c3 s4 =>
                    if lead4 c0 c1 && cont_byte c2 && cont_byte c3 then
                      prepend (String c0 (String c1 (String c2 (String c3 "")))) (unquote s4)
                    else prepend RuneError (unquote s1)
                end
            end
        end
  end.

(** The longest prefix of digits. *)
Fixpoint span_digits (s : string) : string * string :=
  match s with
  | String c s' => if in_range 48 57 c then let '(d, r) := span_digits s' in (String c d, r) else ("", s)
  | EmptyString => ("", "")
  end.

(** The fraction of a number literal, [None] when a dot has no digits. *)
Definition fraction (s : string) : option (string * string) :=
  match s with
  | String c s' =>
      if is_byte 46 c then
        let '(d, r) := span_digits s' in if d =?s "" then None else Some (String c d, r)
      else Some ("", s)
  | EmptyString => Some ("", "")
  end.

Definition exponent (s : string) : option (string * string) :=
  match s with
  | String c s' =>
      if is_byte 101 c || is_byte 69 c then
        let '(sign, s'') := match s' with
                            | String d t => if is_byte 43 d || is_byte 45 d then (String d "", t) else ("", s')
                            | EmptyString => ("", s')
                            end in
        let '(d, r) := span_digits s'' in
        if d =?s "" then None else Some (String c (sign +:+ d), r)
      else Some ("", s)
  | EmptyString => Some ("", "")
  end.

(** A number literal; no superfluous leading zero. *)
Definition number (s : string) : option (json * string) :=
  let '(neg, s1) := match s with
                    | String c s' => if is_byte 45 c then (true, s') else (false, s)
                    | EmptyString => (false, s)
                    end in
  let '(d, r) := span_digits s1 in
  if (d =?s "") || (HasPrefix d "0" && negb (d =?s "0")) then None
  else match fraction r with
       | None => None
       | Some (f, r1) =>
           match exponent r1 with
           | None => None
           | Some (e, r2) =>
               if (f =?s "") && (e =?s "") then
                 Some (JInt (if neg then - dec_value 0 d else dec_value 0 d), r2)
               else Some (JFloat ((if neg then "-" else "") +:+ d +:+ f +:+ e), r2)
           end
       end.

Definition word (w : string) (j : json) (s : string) : option (json * string) :=
  if HasPrefix s w then Some (j, str_drop (String.length w) s) else None.

(** A value, the elements of a non-empty array after its bracket, and the
    members of a non-empty object after its brace. *)
Fixpoint parse (n : nat) (s : string) {struct n} : option (json * string) :=
  match n with
  | O => None
  | S n' =>
      match skip_space s with
      | EmptyString => None
      | String c s' =>
          if is_byte 34 c then
            match unquote s' with Some (t, r) => Some (JStr t, r) | None => None end
          else if is_byte 91 c then
            match token 93 s' with
            | Some r => Some (JArr [], r)
            | None => match elems n' s' with Some (l, r) => Some (JArr l, r) | None => None end
            end
          else if is_byte 123 c then
            match token 125 s' with
            | Some r => Some (JObj [], r)
            | None => match members n' s' with Some (ms, r) => Some (JObj ms, r) | None => None end
            end
          else if is_byte 110 c then word "null" JNull (String c s')
          else if is_byte 116 c then word "true" (JBool true) (String c s')
          else if is_byte 102 c then word "false" (JBool false) (String c s')
          else number (String c s')
      end
  end
with elems (n : nat) (s : string) {struct n} : option (list json * string) :=
  match n with
  | O => None
  | S n' =>
      match parse n' s with
      | None => None
      | Some (j, r) =>
          match token 44 r with
          | Some r' => match elems n' r' with Some (l, q) => Some (j :: l, q) | None => None end
          | None => match token 93 r with Some q => Some ([j], q) | None => None end
          end
      end
  end
with members (n : nat) (s : string) {struct n} : option (list (string * json) * string) :=
  match n with
  | O => None
  | S n' =>
      match token 34 s with
      | None => None
      | Some s' =>
          match unquote s' with
          | None => None
          | Some (k, r) =>
              match token 58 r with
              | None => None
              | Some r1 =>
                  match parse n' r1 with
                  | None => None
                  | Some (j, r2) =>
                      match token 44 r2 with
                      | Some r3 => match members n' r3 with Some (ms, q) => Some ((k, j) :: ms, q) | None => None end
                      | None => match token 125 r2 with Some q => Some ([(k, j)], q) | None => None end
                      end
                  end
              end
          end
      end
  end.

Definition parse_fuel (s : string) : nat := (2 * String.length s + 2)%nat.

(** How deeply arrays and objects are nested; the scanner gives up beyond
    10000 levels. *)
Fixpoint depth (j : json) : nat :=
  match j with
  | JArr l => S (foldr (fun x n => Nat.max (depth x) n) O l)
  | JObj ms => S (foldr (fun m n => Nat.max (depth m.2) n) O ms)
  | _ => O
  end.

Definition nested_ok (j : json) : bool := Z.of_nat (depth j) <=? 10000.

(** [json.NewDecoder(body).Decode]: the first value; what follows is not read. *)
Definition Decode (s : string) : option json :=
  match parse (parse_fuel s) s with
  | Some (j, _) => if nested_ok j then Some j else None
  | None => None
  end.

(** [json.Unmarshal]: nothing but white space may follow. *)
Definition Unmarshal (s : string) : option json :=
  match parse (parse_fuel s) s with
  | Some (j, r) => if nested_ok j && (skip_space r =?s "") then Some j else None
  | None => None
  end.

(** ** Induction *)

Section json_induction.
Context (P : json -> Prop) (Hnull : P JNull) (Hbool : forall b, P (JBool b)) (Hint : forall z, P (JInt z))
  (Hfloat : forall l, P (JFloat l)) (Hstr : forall s, P (JStr s))
  (Harr : forall l, Forall P l -> P (JArr l))
  (Hobj : forall ms, Forall (fun m => P m.2) ms -> P (JObj ms)).

Fixpoint json_nested (j : json) : P j :=
  match j with
  | JNull => Hnull
  | JBool b => Hbool b
  | JInt z => Hint z
  | JFloat l => Hfloat l
  | JStr s => Hstr s
  | JArr l => Harr l ((fix go l : Forall P l :=
      match l with [] => Forall_nil_2 P | x :: l' => Forall_cons_2 P x l' (json_nested x) (go l') end) l)
  | JObj ms => Hobj ms ((fix go ms : Forall (fun m : string * json => P m.2) ms :=
      match ms with
      | [] => Forall_nil_2 (fun m : string * json => P m.2)
      | m :: ms' => Forall_cons_2 (fun m : string * json => P m.2) m ms' (json_nested m.2) (go ms')
      end) ms)
  end.
End json_induction.

(** The value a reader gets: every string is valid UTF-8. *)
Fixpoint clean (j : json) : json :=
  match j with
  | JStr s => JStr (ToValidUTF8 s)
  | JArr l => JArr (map clean l)
  | JObj ms => JObj (map (fun m => (ToValidUTF8 m.1, clean m.2)) ms)
  | _ => j
  end.

(** ** Strings *)

Definition rune_ok (r : Rune) : Prop :=
  match r with
  | R1 c0 => rune_self c0 = true
  | R2 c0 c1 => rune_self c0 = false /\ lead2 c0 c1 = true
  | R3 c0 c1 c2 => rune_self c0 = false /\ lead2 c0 c1 = false /\ lead3 c0 c1 && cont_byte c2 = true
  | R4 c0 c1 c2 c3 => rune_self c0 = false /\ lead2 c0 c1 = false /\ lead3 c0 c1 && cont_byte c2 = false /\
      lead4 c0 c1 && cont_byte c2 && cont_byte c3 = true
  | RBad _ => True
  end.

Lemma runes_ok (s : string) : Forall rune_ok (runes s).
Proof.
  remember (String.length s) as n eqn:Hn. revert s Hn.
  induction (lt_wf n) as [n _ IH]. intros s ->.
  assert (forall t, (String.length t < String.length s)%nat -> Forall rune_ok (runes t)) as IH' by eauto.
  destruct s as [|c0 s1]; [constructor|]. cbn [runes].
  destruct (rune_self c0) eqn:H0; [constructor; [done|apply IH'; simpl; lia]|].
  destruct s1 as [|c1 s2]; [by repeat constructor|].
  destruct (lead2 c0 c1) eqn:H1; [constructor; [done|apply IH'; simpl; lia]|].
  destruct s2 as [|c2 s3]; [constructor; [done|apply IH'; simpl; lia]|].
  destruct (lead3 c0 c1 && cont_byte c2) eqn:H2; [constructor; [done|apply IH'; simpl; lia]|].
  destruct s3 as [|c3 s4]; [constructor; [done|apply IH'; simpl; lia]|].
  destruct (lead4 c0 c1 && cont_byte c2 && cont_byte c3) eqn:H3; (constructor; [done|apply IH'; simpl; lia]).
Qed.

(** Valid text is left as it is. *)
Lemma ToValidUTF8_valid (s : string) : Valid s = true -> ToValidUTF8 s = s.
Proof.
  remember (String.length s) as n eqn:Hn. revert s Hn.
  induction (lt_wf n) as [n _ IH]. intros s ->. unfold ToValidUTF8 in *.
  assert (forall t, (String.length t < String.length s)%nat -> Valid t = true ->
    str_concat (map rune_text (runes t)) = t) as IH' by eauto.
  destruct s as [|c0 s1]; [done|]. cbn [runes Valid].
  destruct (rune_self c0) eqn:H0; [intros H; simpl; rewrite IH'; simpl; by try lia|].
  destruct s1 as [|c1 s2]; [done|].
  destruct (lead2 c0 c1) eqn:H1; [intros H; simpl; rewrite IH'; simpl; by try lia|].
  destruct s2 as [|c2 s3]; [done|].
  destruct (lead3 c0 c1 && cont_byte c2) eqn:H2; [intros H; simpl; rewrite IH'; simpl; by try lia|].
  destruct s3 as [|c3 s4]; [done|].
  destruct (lead4 c0 c1 && cont_byte c2 && cont_byte c3) eqn:H3; [|done].
  intros H; simpl; rewrite IH'; simpl; by try lia.
Qed.

(** What it leaves is valid, so doing it again changes nothing. *)
Lemma ToValidUTF8_Valid (s : string) : Valid (ToValidUTF8 s) = true.
Proof.
  unfold ToValidUTF8. pose proof (runes_ok s) as Hok. induction Hok as [|r rs Hr Hrs IH]; [done|].
  change (str_concat (map rune_text (r :: rs))) with (rune_text r +:+ str_concat (map rune_text rs)).
  destruct r; cbn [rune_text rune_ok] in *; [..|exact IH]; destruct_and?;
    cbn [String.append Valid]; repeat match goal with H : _ = _ |- _ => rewrite H; clear H end; done.
Qed.

Lemma ToValidUTF8_idem (s : string) : ToValidUTF8 (ToValidUTF8 s) = ToValidUTF8 s.
Proof. apply ToValidUTF8_valid, ToValidUTF8_Valid. Qed.

(** The quoted form of an ASCII byte reads back as the byte. *)
Lemma unquote_ascii (c : ascii) (t : string) :
  rune_self c = true -> unquote (quote_ascii c +:+ t) = prepend (String c "") (unquote t).
Proof.
  assert (forall c, rune_self c = true ->
    (exists e, quote_ascii c = String "092" (String e "") /\ is_byte 117 e = false /\ short_escape e = Some c) \/
    (exists a b, quote_ascii c = String "092" ("u00" +:+ String a (String b "")) /\
       hex4 "0" "0" a b = Some (byte_val c) /\ byte_val c < 128) \/
    (quote_ascii c = String c "" /\ is_byte 34 c = false /\ is_byte 92 c = false /\ (byte_val c <? 32) = false)) as Hall.
  { intros [[] [] [] [] [] [] [] []] Hr; try done;
      first [ right; right; repeat split; reflexivity
            | left; eexists; repeat split; reflexivity
            | right; left; eexists _, _; repeat split; reflexivity ]. }
  intros Hr. destruct (Hall c Hr) as [(e & -> & He & Hs)|[(a & b & -> & Hh & Hlt)|(-> & H1 & H2 & H3)]].
  - cbn -[is_byte short_escape prepend]. replace (is_byte 34 "092") with false by done.
    replace (is_byte 92 "092") with true by done. by rewrite He, Hs.
  - cbn -[is_byte short_escape prepend hex4 high_surrogate low_surrogate encode_rune].
    replace (is_byte 34 "092") with false by done. replace (is_byte 92 "092") with true by done.
    replace (is_byte 117 "u") with true by done. rewrite Hh.
    pose proof (byte_val_range c) as Hc.
    assert (high_surrogate (byte_val c) = false) as -> by (unfold high_surrogate; apply andb_false_iff; left; lia).
    assert (low_surrogate (byte_val c) = false) as -> by (unfold low_surrogate; apply andb_false_iff; left; lia).
    unfold encode_rune. rewrite (proj2 (Z.ltb_lt _ _)) by lia. unfold bytes. simpl. by rewrite byte_of_val.
  - cbn -[is_byte prepend]. by rewrite H1, H2, H3, Hr.
Qed.

Lemma high_byte (c : ascii) :
  rune_self c = false -> is_byte 34 c = false /\ is_byte 92 c = false /\ (byte_val c <? 32) = false.
Proof. unfold rune_self, is_byte. intros H. bool_hyps. split_and!; lia. Qed.

Lemma unquote_rune (r : Rune) (t : string) :
  rune_ok r -> unquote (quote_rune r +:+ t) = prepend (rune_text r) (unquote t).
Proof.
  destruct r as [c0|c0 c1|c0 c1 c2|c0 c1 c2 c3|]; cbn [rune_ok quote_rune].
  - apply unquote_ascii.
  - intros [H0 H1]. destruct (high_byte _ H0) as (Ha & Hb & Hc).
    cbn -[is_byte prepend lead2]. by rewrite Ha, Hb, Hc, H0, H1.
  - intros (H0 & H1 & H2). destruct (high_byte _ H0) as (Ha & Hb & Hc).
    destruct (is_byte 226 c0 && is_byte 128 c1 && (is_byte 168 c2 || is_byte 169 c2)) eqn:Hls.
    + apply andb_true_iff in Hls as [Hls Hc2]. bool_hyps.
      assert (forall c z, is_byte z c = true -> c = byte_ascii z) as Hby.
      { intros c z Hz. unfold is_byte in Hz. bool_hyps. by rewrite <- Hz, byte_of_val. }
      apply orb_true_iff in Hc2. destruct Hc2 as [Hc2|Hc2]; apply Hby in Hc2; subst c2;
        repeat match goal with H : is_byte _ ?c = true |- _ => apply Hby in H; subst c end; reflexivity.
    + cbn -[is_byte prepend lead2 lead3 cont_byte]. by rewrite Ha, Hb, Hc, H0, H1, H2.
  - intros (H0 & H1 & H2 & H3). destruct (high_byte _ H0) as (Ha & Hb & Hc).
    cbn -[is_byte prepend lead2 lead3 lead4 cont_byte]. by rewrite Ha, Hb, Hc, H0, H1, H2, H3.
  - done.
Qed.

(** A string literal reads back as the string. *)
Lemma unquote_quote (s rest : string) :
  unquote (str_concat (map quote_rune (runes s)) +:+ DQ +:+ rest) = Some (ToValidUTF8 s, rest).
Proof.
  unfold ToValidUTF8. pose proof (runes_ok s) as Hok. induction Hok as [|r rs Hr Hrs IH]; [done|].
  simpl map. change (str_concat (quote_rune r :: ?l)) with (quote_rune r +:+ str_concat l).
  rewrite str_app_assoc, unquote_rune, IH by done. done.
Qed.

(** ** Numbers *)

Lemma dec_value_app (s t : string) (acc : Z) : dec_value acc (s +:+ t) = dec_value (dec_value acc s) t.
Proof. revert acc. induction s as [|c s IH]; intros acc; simpl; [done|]. apply IH. Qed.

(** The digits [pretty] writes: a decimal number without leading zero. *)
Lemma pretty_N_go_digits (x : N) (s : string) :
  exists d, pretty_N_go x s = d +:+ s /\ str_forall (in_range 48 57) d = true /\ dec_value 0 d = Z.of_N x /\
    (x = 0%N -> d = "") /\ (x <> 0%N -> d <> "" /\ HasPrefix d "0" = false).
Proof.
  revert s. induction (N.lt_wf_0 x) as [x _ IH]. intros s.
  destruct (decide (x = 0)%N) as [->|Hx]; [by exists ""|].
  rewrite pretty_N_go_step by lia.
  destruct (IH (x `div` 10)%N) with (s := String (pretty_N_char (x `mod` 10)) s) as (d & -> & Hd & Hv & He & Hz).
  { apply N.div_lt; lia. }
  pose proof (N.mod_lt x 10 ltac:(lia)) as Hm.
  assert (in_range 48 57 (pretty_N_char (x `mod` 10)) = true /\
    byte_val (pretty_N_char (x `mod` 10)) - 48 = Z.of_N (x `mod` 10) /\
    (x `mod` 10 <> 0 -> Ascii.eqb (pretty_N_char (x `mod` 10)) "0" = false)%N) as (Hc1 & Hc2 & Hc3).
  { set (y := (x `mod` 10)%N) in *. clearbody y.
    assert (y = 0 \/ y = 1 \/ y = 2 \/ y = 3 \/ y = 4 \/ y = 5 \/ y = 6 \/ y = 7 \/ y = 8 \/ y = 9)%N as Hy by lia.
    repeat (destruct Hy as [->|Hy]; [by repeat split|]). by subst. }
  exists (d +:+ String (pretty_N_char (x `mod` 10)) ""). split_and!.
  - by rewrite str_app_assoc.
  - rewrite str_forall_app, Hd. simpl. by rewrite Hc1.
  - rewrite dec_value_app, Hv. simpl. rewrite Hc2. pose proof (N.div_mod x 10). lia.
  - done.
  - intros _. destruct (decide (x `div` 10 = 0)%N) as [H0|H0].
    + rewrite (He H0). split; [done|]. simpl. rewrite Hc3; [done|]. pose proof (N.div_mod x 10). lia.
    + destruct (Hz H0) as [Hne Hp]. split; [by destruct d|].
      destruct d as [|c d]; [done|]. simpl in *. done.
Qed.

(** Text after which a number ends. *)
Definition stops (s : string) : bool :=
  match s with
  | EmptyString => true
  | String c _ => negb (in_range 48 57 c || is_byte 46 c || is_byte 101 c || is_byte 69 c)
  end.

Lemma span_digits_app (d rest : string) :
  str_forall (in_range 48 57) d = true -> stops rest = true -> span_digits (d +:+ rest) = (d, rest).
Proof.
  intros Hd Hs. induction d as [|c d IH]; simpl.
  - destruct rest as [|c rest]; [done|]. simpl in *. by destruct (in_range 48 57 c).
  - simpl in Hd. bool_hyps. match goal with H : in_range _ _ c = true |- _ => rewrite H end. by rewrite IH.
Qed.

Lemma number_digits (neg : bool) (d rest : string) :
  str_forall (in_range 48 57) d = true -> d <> "" -> HasPrefix d "0" = false \/ d = "0" -> stops rest = true ->
  number ((if neg then "-" else "") +:+ d +:+ rest) =
    Some (JInt (if neg then - dec_value 0 d else dec_value 0 d), rest).
Proof.
  intros Hd Hne Hz Hs.
  assert (fraction rest = Some ("", rest) /\ exponent rest = Some ("", rest)) as [Hf He].
  { destruct rest as [|c rest]; [done|]. simpl in *. by destruct (in_range 48 57 c), (is_byte 46 c), (is_byte 101 c), (is_byte 69 c). }
  assert ((d =?s "") = false /\ (HasPrefix d "0" && negb (d =?s "0")) = false) as [H1 H2].
  { split; [by apply String.eqb_neq|]. destruct Hz as [-> | ->]; [done|]. done. }
  assert ((d =?s "") || (HasPrefix d "0" && negb (d =?s "0")) = false) as H3 by (rewrite H1; exact H2).
  unfold number. destruct neg.
  - change ("-" +:+ d +:+ rest) with (String "-" (d +:+ rest)). cbv iota beta.
    change (is_byte 45 "-") with true. cbv iota. rewrite span_digits_app by done. by rewrite H3, Hf, He.
  - change ("" +:+ d +:+ rest) with (d +:+ rest).
    assert ((match d +:+ rest with String c s' => if is_byte 45 c then (true, s') else (false, d +:+ rest)
      | EmptyString => (false, d +:+ rest) end) = (false, d +:+ rest)) as ->.
    { destruct d as [|c d]; [done|]. simpl in *. bool_hyps. destruct (is_byte 45 c) eqn:Hc; [|done].
      unfold is_byte, in_range in *. bool_hyps. lia. }
    rewrite span_digits_app by done. by rewrite H3, Hf, He.
Qed.

Lemma pretty_positive (p : positive) : exists d, pretty (Npos p) = d /\ str_forall (in_range 48 57) d = true /\
  dec_value 0 d = Zpos p /\ d <> "" /\ HasPrefix d "0" = false.
Proof.
  unfold pretty, pretty_N. rewrite decide_False by done.
  destruct (pretty_N_go_digits (Npos p) "") as (d & -> & Hd & Hv & _ & Hz).
  exists d. rewrite str_app_nil_r. destruct (Hz ltac:(done)). done.
Qed.

(** A printed integer is a sign and digits, no more than nineteen of them for
    an [int64]. *)
Lemma pretty_digits (z : Z) : exists sign d, pretty z = sign +:+ d /\ (sign = "" \/ sign = "-") /\
  str_forall (in_range 48 57) d = true /\ (Z.abs z < 10 ^ 19 -> (String.length d <= 19)%nat).
Proof.
  assert (forall p, exists d, pretty (Npos p) = d /\ str_forall (in_range 48 57) d = true /\
    (Zpos p < 10 ^ 19 -> (String.length d <= 19)%nat)) as Hp.
  { intros p. destruct (pretty_positive p) as (d & -> & Hd & Hv & Hne & H0). exists d. split_and!; [done..|].
    intros Hlt. destruct d as [|c d]; [done|]. simpl in Hd, Hv. bool_hyps.
    assert (forall acc t, 0 <= acc -> str_forall (in_range 48 57) t = true ->
      acc * 10 ^ slen t <= dec_value acc t) as Hge.
    { intros acc t. revert acc. induction t as [|x t IH]; intros acc Ha Ht; [unfold slen; simpl; lia|].
      simpl in Ht. bool_hyps. unfold in_range in *. bool_hyps. cbn [dec_value].
      change (slen (String x t)) with (Z.of_nat (S (String.length t))). rewrite Nat2Z.inj_succ, Z.pow_succ_r by lia.
      fold (slen t). specialize (IH (acc * 10 + (byte_val x - 48)) ltac:(lia) ltac:(done)).
      pose proof (Z.pow_pos_nonneg 10 (slen t) ltac:(lia) ltac:(apply slen_nonneg)). nia. }
    assert (1 <= byte_val c - 48) as Hc.
    { unfold in_range in *. bool_hyps. destruct (decide (byte_val c = 48)) as [He|]; [|lia]. exfalso.
      destruct c as [[] [] [] [] [] [] [] []]; vm_compute in He; try done. }
    specialize (Hge (0 * 10 + (byte_val c - 48)) d ltac:(lia) ltac:(done)).
    pose proof (Z.pow_pos_nonneg 10 (slen d) ltac:(lia) ltac:(apply slen_nonneg)).
    assert (10 ^ slen d < 10 ^ 19) as Hlt' by nia. apply Z.pow_lt_mono_r_iff in Hlt'; [|lia|lia].
    simpl. unfold slen in Hlt'. lia. }
  destruct z as [|p|p].
  - exists "", "0". split_and!; auto. simpl. lia.
  - destruct (Hp p) as (d & Hd & H1 & H2). exists "", d. change (pretty (Zpos p)) with (pretty (Npos p)). auto.
  - destruct (Hp p) as (d & Hd & H1 & H2). exists "-", d.
    change (pretty (Zneg p)) with ("-" +:+ pretty (Npos p)). rewrite Hd. auto.
Qed.

(** A printed integer reads back as the integer. *)
Lemma number_pretty (z : Z) (rest : string) :
  stops rest = true -> number (pretty z +:+ rest) = Some (JInt z, rest).
Proof.
  intros Hs. destruct z as [|p|p].
  - apply (number_digits false "0" rest); auto; done.
  - destruct (pretty_positive p) as (d & Hd & H1 & H2 & H3 & H4).
    change (pretty (Zpos p)) with (pretty (Npos p)). rewrite Hd.
    rewrite <- H2. apply (number_digits false d rest); auto.
  - destruct (pretty_positive p) as (d & Hd & H1 & H2 & H3 & H4).
    change (pretty (Zneg p)) with ("-" +:+ pretty (Npos p)). rewrite Hd, str_app_assoc.
    change (Zneg p) with (- Zpos p). rewrite <- H2. apply (number_digits true d rest); auto.
Qed.

(** ** Round trip *)

(** Values whose numbers are integers, the only ones the programs write. *)
Fixpoint integral (j : json) : bool :=
  match j with
  | JFloat _ => false
  | JArr l => forallb integral l
  | JObj ms => forallb (fun m => integral m.2) ms
  | _ => true
  end.

(** The recursion depth of [parse] on the printed value. *)
Fixpoint cost (j : json) : nat :=
  match j with
  | JArr l => S (foldr (fun x n => S (Nat.max (cost x) n)) 1%nat l)
  | JObj ms => S (foldr (fun m n => S (Nat.max (cost m.2) n)) 1%nat ms)
  | _ => 1%nat
  end.

(** The first byte of a printed value. *)
Definition head_ok (c : ascii) : bool :=
  negb (space c) && negb (Ascii.eqb c "]") && negb (Ascii.eqb c "}").

Lemma number_head (c : ascii) (t : string) (p : json * string) :
  number (String c t) = Some p -> byte_val c = 45 \/ 48 <= byte_val c <= 57.
Proof.
  unfold number. destruct (is_byte 45 c) eqn:Hc; unfold is_byte in Hc; bool_hyps; [by left|]. cbn [span_digits].
  destruct (in_range 48 57 c) eqn:Hr; [|done]. unfold in_range in Hr. bool_hyps. right; lia.
Qed.

Lemma number_head_ok (c : ascii) : byte_val c = 45 \/ 48 <= byte_val c <= 57 -> head_ok c = true.
Proof. destruct c as [[] [] [] [] [] [] [] []]; (done || (intros [H|[H1 H2]]; exfalso; [done|first [by apply H1|by apply H2]])). Qed.

Lemma Marshal_head (j : json) : integral j = true -> exists c t, Marshal j = String c t /\ head_ok c = true.
Proof.
  intros Hj. destruct j as [|[]|z| |s|l|ms]; cbn [Marshal]; try done; try (by eexists _, _).
  pose proof (number_pretty z "" eq_refl) as Hn. rewrite str_app_nil_r in Hn.
  destruct (pretty z) as [|c t]; [done|]. exists c, t. split; [done|]. eapply number_head_ok, number_head, Hn.
Qed.

Lemma head_space (c : ascii) : head_ok c = true -> space c = false.
Proof. unfold head_ok. by destruct (space c). Qed.

Lemma token_other (b : Z) (c : ascii) (t : string) :
  head_ok c = true -> b = 93 \/ b = 125 -> token b (String c t) = None.
Proof.
  intros H Hb. unfold token. cbn [skip_space]. rewrite (head_space c H).
  destruct c as [[] [] [] [] [] [] [] []]; destruct Hb as [->| ->]; done.
Qed.

Lemma token_comma (t : string) : token 44 (String "," t) = Some t.
Proof. done. Qed.

Lemma elems_Marshal (l : list json) (n : nat) (rest : string) :
  l <> [] -> Forall (fun j => integral j = true -> forall n rest, (cost j <= n)%nat -> stops rest = true ->
    parse n (Marshal j +:+ rest) = Some (clean j, rest)) l ->
  forallb integral l = true -> (foldr (fun x n => S (Nat.max (cost x) n)) 1%nat l <= n)%nat ->
  elems n (str_join "," (map Marshal l) +:+ "]" +:+ rest) = Some (map clean l, rest).
Proof.
  intros Hne Hall. revert n. induction Hall as [|j l Hj Hl IH]; [done|]. intros n Hi Hn.
  cbn [forallb foldr] in Hi, Hn. bool_hyps. destruct n as [|n]; [lia|]. cbn [elems].
  destruct l as [|j2 l].
  - cbn [map str_join]. rewrite Hj by (first [done|lia]). done.
  - cbn [map]. rewrite str_join_cons by done. rewrite !str_app_assoc.
    rewrite Hj by (first [done|lia]). cbn [String.append]. rewrite token_comma.
    cbn [map] in IH. rewrite IH by (first [done|lia]). done.
Qed.

Lemma members_Marshal (ms : list (string * json)) (n : nat) (rest : string) :
  ms <> [] -> Forall (fun m => integral m.2 = true -> forall n rest, (cost m.2 <= n)%nat -> stops rest = true ->
    parse n (Marshal m.2 +:+ rest) = Some (clean m.2, rest)) ms ->
  forallb (fun m => integral m.2) ms = true -> (foldr (fun m n => S (Nat.max (cost m.2) n)) 1%nat ms <= n)%nat ->
  members n (str_join "," (map (fun m => quote m.1 +:+ ":" +:+ Marshal m.2) ms) +:+ "}" +:+ rest) =
    Some (map (fun m => (ToValidUTF8 m.1, clean m.2)) ms, rest).
Proof.
  intros Hne Hall. revert n. induction Hall as [|[k j] ms Hj Hl IH]; [done|]. intros n Hi Hn.
  cbn [forallb foldr fst snd] in Hi, Hn, Hj. bool_hyps. destruct n as [|n]; [lia|].
  assert (forall t, members (S n) (quote k +:+ ":" +:+ t) =
    match parse n t with
    | None => None
    | Some (j, r2) =>
        match token 44 r2 with
        | Some r3 => match members n r3 with Some (ms, q) => Some ((ToValidUTF8 k, j) :: ms, q) | None => None end
        | None => match token 125 r2 with Some q => Some ([(ToValidUTF8 k, j)], q) | None => None end
        end
    end) as Hstep.
  { intros t. unfold quote. rewrite !str_app_assoc. pose proof (unquote_quote k (":" +:+ t)) as Hu.
    remember (str_concat (map quote_rune (runes k)) +:+ DQ +:+ ":" +:+ t) as w eqn:Hw. clear Hw.
    cbn [members String.append DQ]. change (token 34 (String "034" w)) with (Some w). cbv iota. by rewrite Hu. }
  destruct ms as [|m2 ms].
  - cbn [map str_join fst snd]. rewrite !str_app_assoc, Hstep, Hj by (first [done|lia]). done.
  - cbn [map]. rewrite str_join_cons by done. cbn [fst snd]. rewrite !str_app_assoc, Hstep, Hj by (first [done|lia]).
    cbn [String.append]. rewrite token_comma.
    cbn [map] in IH. rewrite IH by (first [done|lia]). done.
Qed.

Lemma parse_number (n : nat) (s : string) (p : json * string) : number s = Some p -> parse (S n) s = Some p.
Proof.
  destruct s as [|c t]; [done|]. intros Hp. pose proof (number_head c t p Hp) as Hc.
  cbn [parse skip_space]. rewrite (head_space c) by by apply number_head_ok. unfold is_byte.
  by repeat rewrite (proj2 (Z.eqb_neq _ _)) by lia.
Qed.

(** Reading what was printed gives the value, with its strings made valid. *)
Lemma parse_Marshal (j : json) (n : nat) (rest : string) :
  integral j = true -> (cost j <= n)%nat -> stops rest = true -> parse n (Marshal j +:+ rest) = Some (clean j, rest).
Proof.
  intros Hj. revert Hj n rest. apply (json_nested (fun j => integral j = true -> forall n rest,
    (cost j <= n)%nat -> stops rest = true -> parse n (Marshal j +:+ rest) = Some (clean j, rest))); clear j.
  - intros _ [|n] rest; simpl; [lia|done].
  - intros [] _ [|n] rest; simpl; [lia|done|lia|done].
  - intros z _ [|n] rest Hn Hs; [simpl in Hn; lia|]. by apply parse_number, number_pretty.
  - done.
  - intros s _ [|n] rest Hn Hs; [simpl in Hn; lia|]. cbn [Marshal clean]. unfold quote. rewrite !str_app_assoc.
    pose proof (unquote_quote s rest) as Hu.
    remember (str_concat (map quote_rune (runes s)) +:+ DQ +:+ rest) as w eqn:Hw. clear Hw.
    cbn [parse String.append skip_space DQ]. change (space "034") with false. cbv iota.
    change (is_byte 34 "034") with true. cbv iota. by rewrite Hu.
  - intros l Hl Hi [|n] rest Hn Hs; [simpl in Hn; lia|]. cbn [integral] in Hi. cbn [cost] in Hn.
    destruct l as [|j l]; [done|].
    pose proof (elems_Marshal (j :: l) n rest ltac:(done) Hl Hi ltac:(lia)) as He.
    destruct (Marshal_head j) as (c & t & Ht & Hc); [simpl in Hi; by bool_hyps|].
    assert (exists t', str_join "," (map Marshal (j :: l)) +:+ "]" +:+ rest = String c t') as [t' Ht'].
    { cbn [map]. destruct (map Marshal l); [cbn [str_join]|rewrite str_join_cons by done];
        rewrite Ht; cbn [String.append]; by eexists. }
    cbn [Marshal clean]. rewrite !str_app_assoc. rewrite Ht' in *. cbn [String.append parse skip_space].
    change (space "[") with false. cbv iota. change (is_byte 34 "[") with false. change (is_byte 91 "[") with true.
    cbv iota. rewrite token_other by auto. by rewrite He.
  - intros ms Hl Hi [|n] rest Hn Hs; [simpl in Hn; lia|]. cbn [integral] in Hi. cbn [cost] in Hn.
    destruct ms as [|m ms]; [done|].
    pose proof (members_Marshal (m :: ms) n rest ltac:(done) Hl Hi ltac:(lia)) as He.
    assert (exists t', str_join "," (map (fun m => quote m.1 +:+ ":" +:+ Marshal m.2) (m :: ms)) +:+ "}" +:+ rest
      = String "034" t') as [t' Ht'].
    { cbn [map]. destruct (map _ ms); [cbn [str_join]|rewrite str_join_cons by done]; by eexists. }
    cbn [Marshal clean]. rewrite !str_app_assoc. rewrite Ht' in *. cbn [String.append parse skip_space].
    change (space "{") with false. cbv iota. change (is_byte 34 "{") with false. change (is_byte 91 "{") with false.
    change (is_byte 123 "{") with true. cbv iota. rewrite token_other by auto. by rewrite He.
Qed.

Lemma length_join_cons (sep x : string) (l : list string) :
  (String.length x + String.length (str_join sep l) <= String.length (str_join sep (x :: l)))%nat.
Proof. destruct l as [|y l]; [simpl; lia|]. rewrite (str_join_cons sep x (y :: l)) by done. rewrite !str_app_length. lia. Qed.

Lemma Marshal_nonempty (j : json) : integral j = true -> (1 <= String.length (Marshal j))%nat.
Proof. intros Hj. destruct (Marshal_head j Hj) as (c & t & -> & _). simpl. lia. Qed.

(** The fuel of [Decode] covers every printed value. *)
Lemma cost_bound (j : json) : integral j = true -> (cost j <= 2 * String.length (Marshal j))%nat.
Proof.
  revert j. apply (json_nested (fun j => integral j = true -> (cost j <= 2 * String.length (Marshal j))%nat));
    try (intros; match goal with |- (cost ?x <= _)%nat => pose proof (Marshal_nonempty x) end; simpl cost; naive_solver lia).
  - intros l Hl Hi. cbn [integral] in Hi. cbn [cost Marshal]. rewrite !str_app_length. cbn [String.length].
    assert (foldr (fun x n => S (Nat.max (cost x) n)) 1%nat l <= 2 * String.length (str_join "," (map Marshal l)) + 1)%nat;
      [|lia].
    induction Hl as [|j l Hj Hl IH]; [simpl; lia|]. cbn [forallb] in Hi. bool_hyps. cbn [foldr map].
    specialize (Hj ltac:(done)). specialize (IH ltac:(done)). pose proof (Marshal_nonempty j ltac:(done)).
    pose proof (length_join_cons "," (Marshal j) (map Marshal l)). lia.
  - intros l Hl Hi. cbn [integral] in Hi. cbn [cost Marshal]. rewrite !str_app_length. cbn [String.length].
    set (f := fun m : string * json => quote m.1 +:+ ":" +:+ Marshal m.2).
    assert (foldr (fun m n => S (Nat.max (cost m.2) n)) 1%nat l <= 2 * String.length (str_join "," (map f l)) + 1)%nat;
      [|lia].
    induction Hl as [|j l Hj Hl IH]; [simpl; lia|]. cbn [forallb] in Hi. bool_hyps. cbn [foldr map].
    specialize (Hj ltac:(done)). specialize (IH ltac:(done)). pose proof (Marshal_nonempty j.2 ltac:(done)).
    pose proof (length_join_cons "," (f j) (map f l)) as Hlen. unfold f in Hlen at 1. rewrite !str_app_length in Hlen. lia.
Qed.

Lemma depth_clean (j : json) : depth (clean j) = depth j.
Proof.
  revert j. apply (json_nested (fun j => depth (clean j) = depth j)); try done.
  - intros l Hl. cbn [clean depth]. f_equal. induction Hl as [|x l Hx Hl IH]; [done|]. simpl. by rewrite Hx, IH.
  - intros ms Hl. cbn [clean depth]. f_equal. induction Hl as [|x l Hx Hl IH]; [done|]. simpl. by rewrite Hx, IH.
Qed.

Lemma nested_ok_clean (j : json) : nested_ok (clean j) = nested_ok j.
Proof. unfold nested_ok. by rewrite depth_clean. Qed.

(** Decoding what was encoded, whatever follows it in the stream. *)
Lemma Decode_Marshal (j : json) (rest : string) :
  integral j = true -> nested_ok j = true -> stops rest = true -> Decode (Marshal j +:+ rest) = Some (clean j).
Proof.
  intros Hj Hd Hs. unfold Decode, parse_fuel. rewrite parse_Marshal; [|done| |done].
  - by rewrite nested_ok_clean, Hd.
  - pose proof (cost_bound j Hj). rewrite str_app_length. lia.
Qed.

Lemma Unmarshal_Marshal (j : json) :
  integral j = true -> nested_ok j = true -> Unmarshal (Marshal j) = Some (clean j).
Proof.
  intros Hj Hd. unfold Unmarshal, parse_fuel. rewrite <- (str_app_nil_r (Marshal j)) at 2.
  rewrite parse_Marshal; [|done| |done].
  - by rewrite nested_ok_clean, Hd.
  - pose proof (cost_bound j Hj). lia.
Qed.

(** ** Fuel *)

Lemma skip_space_length (s : string) : (String.length (skip_space s) <= String.length s)%nat.
Proof. induction s as [|c s IH]; [done|]. simpl. destruct (space c); simpl; lia. Qed.

Lemma prepend_some (t : string) (o : option (string * string)) (u r : string) :
  prepend t o = Some (u, r) -> exists u', o = Some (u', r).
Proof. destruct o as [[u' r']|]; [|done]. intros [= _ ->]. by eexists. Qed.

Lemma unquote_length (s t r : string) : unquote s = Some (t, r) -> (String.length r < String.length s)%nat.
Proof.
  remember (String.length s) as n eqn:Hn. revert s t Hn.
  induction (lt_wf n) as [n _ IH]. intros s t -> H.
  assert (forall s' t', (String.length s' < String.length s)%nat -> unquote s' = Some (t', r) ->
    (String.length r < String.length s)%nat) as IH'
    by (intros s' t' Hs' Hu; eapply Nat.lt_trans; [by eapply (IH _ Hs' s' t')|done]).
  clear IH. destruct s as [|c0 s1]; [done|]. cbn [unquote] in H.
  repeat match type of H with
         | Some _ = Some _ => simplify_eq; simpl; lia
         | None = Some _ => done
         | prepend _ _ = Some _ =>
             let u := fresh "u" in apply prepend_some in H as [u H]; apply IH' in H; simpl in *; lia
         | match ?x with _ => _ end = Some _ => destruct x
         end.
Qed.

Lemma span_digits_length (s d r : string) :
  span_digits s = (d, r) -> String.length s = (String.length d + String.length r)%nat.
Proof.
  revert d. induction s as [|c s IH]; intros d; simpl; [by intros [= <- <-]|].
  destruct (in_range 48 57 c); [|by intros [= <- <-]].
  destruct (span_digits s) as [d' r'] eqn:Hd. intros [= <- <-]. simpl. by rewrite (IH d' eq_refl).
Qed.

Lemma fraction_length (s f r : string) : fraction s = Some (f, r) -> (String.length r <= String.length s)%nat.
Proof.
  destruct s as [|c s]; simpl; [by intros [= <- <-]|]. destruct (is_byte 46 c); [|by intros [= <- <-]].
  destruct (span_digits s) as [d r'] eqn:Hd. apply span_digits_length in Hd. case_match; [done|]. intros [= <- <-]. lia.
Qed.

Lemma exponent_length (s e r : string) : exponent s = Some (e, r) -> (String.length r <= String.length s)%nat.
Proof.
  destruct s as [|c s]; simpl; [by intros [= <- <-]|]. case_match; [|by intros [= <- <-]].
  assert (forall p, match s with
    | String d t => if is_byte 43 d || is_byte 45 d then (String d "", t) else ("", s)
    | EmptyString => ("", s) end = p -> (String.length p.2 <= String.length s)%nat) as Hp.
  { intros p <-. destruct s as [|d t]; [done|]. case_match; simpl; lia. }
  destruct (match s with String d t => _ | EmptyString => _ end) as [sg s2]. specialize (Hp _ eq_refl). simpl in Hp.
  destruct (span_digits s2) as [d r'] eqn:Hd. apply span_digits_length in Hd. case_match; [done|].
  intros [= <- <-]. lia.
Qed.

Lemma number_length (s r : string) (j : json) : number s = Some (j, r) -> (String.length r < String.length s)%nat.
Proof.
  unfold number.
  assert (forall p, match s with
    | String c s' => if is_byte 45 c then (true, s') else (false, s)
    | EmptyString => (false, s) end = p -> (String.length p.2 <= String.length s)%nat) as Hp.
  { intros p <-. destruct s as [|d t]; [done|]. case_match; simpl; lia. }
  destruct (match s with String c s' => _ | EmptyString => _ end) as [neg s1]. specialize (Hp _ eq_refl). simpl in Hp.
  destruct (span_digits s1) as [d r0] eqn:Hd. apply span_digits_length in Hd.
  destruct d as [|c d]; [done|]. cbn [String.eqb]. simpl in Hd. case_match; [done|].
  destruct (fraction r0) as [[f r1]|] eqn:Hf; [|done]. apply fraction_length in Hf.
  destruct (exponent r1) as [[e r2]|] eqn:He; [|done]. apply exponent_length in He.
  intros Hj. repeat case_match; simplify_eq; lia.
Qed.

Lemma word_length (w s r : string) (j k : json) :
  word w j s = Some (k, r) -> w <> "" -> (String.length r < String.length s)%nat.
Proof.
  unfold word. destruct (HasPrefix s w) eqn:Hp; [|done]. intros [= _ <-] Hw.
  apply HasPrefix_spec in Hp as [t ->]. rewrite str_drop_app, str_app_length. destruct w; [done|]. simpl. lia.
Qed.

Lemma token_length (b : Z) (s r : string) : token b s = Some r -> (String.length r < String.length s)%nat.
Proof.
  unfold token. pose proof (skip_space_length s). destruct (skip_space s) as [|c t]; [done|].
  case_match; [|done]. intros [= <-]. simpl in *. lia.
Qed.

(** A parser that succeeds consumes input, and succeeds with any fuel of at
    least twice the input. *)
Definition fuelled {A} (extra : nat) (p : nat -> string -> option (A * string)) (n : nat) (s : string) : Prop :=
  forall x r, p n s = Some (x, r) ->
    (String.length r < String.length s)%nat /\
    (forall m, (2 * String.length s + extra <= S m)%nat -> p (S m) s = Some (x, r)).

Lemma fuelled_use {A} (extra : nat) (p : nat -> string -> option (A * string)) (n : nat) (s : string) x r :
  fuelled extra p n s -> p n s = Some (x, r) -> (1 <= extra)%nat \/ (1 <= String.length s)%nat ->
  forall m, (2 * String.length s + extra <= m)%nat -> p m s = Some (x, r).
Proof. intros Hf H Hpos [|m] Hm; [lia|]. by apply Hf in H as [_ H]; apply H. Qed.

Lemma elems_fuelled (n : nat) :
  (forall s, fuelled 0 parse n s) -> (forall s, fuelled 1 elems n s) -> forall s, fuelled 1 elems (S n) s.
Proof.
  intros IHp IHe s x r. cbn [elems]. destruct (parse n s) as [[j r1]|] eqn:Hj; [|done].
  pose proof (IHp s j r1 Hj) as [Hl1 _].
  assert (forall m, (2 * String.length s + 1 <= S m)%nat -> parse m s = Some (j, r1)) as Hp
    by (intros m Hm; eapply fuelled_use; eauto; lia).
  destruct (token 44 r1) as [r2|] eqn:Ht.
  - pose proof (token_length _ _ _ Ht). destruct (elems n r2) as [[l q]|] eqn:Hl; [|done]. intros [= <- <-].
    pose proof (IHe r2 l q Hl) as [Hl2 _]. split; [lia|]. intros m Hm. rewrite Hp by done. rewrite Ht.
    by rewrite (fuelled_use 1 elems n r2 l q) by (eauto; lia).
  - destruct (token 93 r1) as [q|] eqn:Ht'; [|done]. intros [= <- <-]. pose proof (token_length _ _ _ Ht').
    split; [lia|]. intros m Hm. rewrite Hp by done. by rewrite Ht, Ht'.
Qed.

Lemma members_fuelled (n : nat) :
  (forall s, fuelled 0 parse n s) -> (forall s, fuelled 1 members n s) -> forall s, fuelled 1 members (S n) s.
Proof.
  intros IHp IHm s x r. cbn [members]. destruct (token 34 s) as [s'|] eqn:Hs; [|done].
  destruct (unquote s') as [[k r0]|] eqn:Hu; [|done]. destruct (token 58 r0) as [r1|] eqn:Hc; [|done].
  apply token_length in Hs as Hl1. apply unquote_length in Hu as Hl2. apply token_length in Hc as Hl3.
  destruct (parse n r1) as [[j r2]|] eqn:Hj; [|done]. pose proof (IHp r1 j r2 Hj) as [Hl4 _].
  assert (forall m, (2 * String.length s + 1 <= S m)%nat -> parse m r1 = Some (j, r2)) as Hp
    by (intros m Hm; eapply fuelled_use; eauto; lia).
  destruct (token 44 r2) as [r3|] eqn:Ht.
  - pose proof (token_length _ _ _ Ht). destruct (members n r3) as [[l q]|] eqn:Hl; [|done]. intros [= <- <-].
    pose proof (IHm r3 l q Hl) as [Hl5 _]. split; [lia|]. intros m Hm. rewrite Hp by done. rewrite Ht.
    by rewrite (fuelled_use 1 members n r3 l q) by (eauto; lia).
  - destruct (token 125 r2) as [q|] eqn:Ht'; [|done]. intros [= <- <-]. pose proof (token_length _ _ _ Ht').
    split; [lia|]. intros m Hm. rewrite Hp by done. by rewrite Ht, Ht'.
Qed.

Lemma parse_fuelled (n : nat) :
  (forall s, fuelled 1 elems n s) -> (forall s, fuelled 1 members n s) -> forall s, fuelled 0 parse (S n) s.
Proof.
  intros IHe IHm s x r. cbn [parse]. pose proof (skip_space_length s) as Hl.
  destruct (skip_space s) as [|c s']; [done|]. cbn [String.length] in Hl.
  repeat case_match; intros; simplify_eq;
    repeat match goal with
           | H : unquote _ = Some _ |- _ => apply unquote_length in H
           | H : token _ _ = Some _ |- _ => apply token_length in H
           | H : word _ _ _ = Some _ |- _ => apply word_length in H as ?; [|done]; revert H
           | H : number _ = Some _ |- _ => apply number_length in H as ?; revert H
           | H : elems n ?t = Some (?l, ?q) |- _ =>
               pose proof (IHe t l q H) as [? _]; pose proof (fuelled_use 1 elems n t l q (IHe t) H); clear H
           | H : members n ?t = Some (?l, ?q) |- _ =>
               pose proof (IHm t l q H) as [? _]; pose proof (fuelled_use 1 members n t l q (IHm t) H); clear H
           end; cbn [String.length] in *; intros; (split; [lia|]); intros m Hm; try done.
  all: match goal with
       | H : _ -> forall m : nat, _ -> elems m _ = _ |- _ => by rewrite H by lia
       | H : _ -> forall m : nat, _ -> members m _ = _ |- _ => by rewrite H by lia
       end.
Qed.

(** The fuel of [Decode] and [Unmarshal] is enough: a value that any amount of
    fuel reads is read with the amount they give. *)
Lemma parse_fuel_enough (n : nat) (s r : string) (j : json) :
  parse n s = Some (j, r) -> parse (parse_fuel s) s = Some (j, r).
Proof.
  assert ((forall s, fuelled 0 parse n s) /\ (forall s, fuelled 1 elems n s) /\ (forall s, fuelled 1 members n s))
    as (Hp & _ & _).
  { induction n as [|n (IHp & IHe & IHm)]; [done|].
    auto using parse_fuelled, elems_fuelled, members_fuelled. }
  intros H. pose proof (Hp s j r H) as [_ Hm]. unfold parse_fuel. rewrite Nat.add_comm. apply Hm. lia.
Qed.

(** ** The bytes of the text *)

(** No control character. *)
Definition printed (c : ascii) : bool := 32 <=? byte_val c.

Lemma quote_rune_printed (r : Rune) : rune_ok r -> str_forall printed (quote_rune r) = true.
Proof.
  assert (forall c, 128 <= byte_val c -> printed c = true) as Hhi by (intros c H; apply Z.leb_le; lia).
  unfold rune_ok, rune_self, lead2, lead3, lead4, cont_byte, in_range.
  destruct r as [c0|c0 c1|c0 c1 c2|c0 c1 c2 c3|]; cbn [quote_rune rune_text]; intros H.
  - revert H. destruct c0 as [[] [] [] [] [] [] [] []]; done.
  - bool_hyps. cbn [str_forall]. by rewrite !Hhi by lia.
  - case_match; [by destruct c2 as [[] [] [] [] [] [] [] []]|].
    bool_hyps. cbn [str_forall]. rewrite !Hhi; [done|lia| |lia]. repeat case_match; bool_hyps; lia.
  - bool_hyps. cbn [str_forall]. rewrite !Hhi; [done|lia|lia| |lia]. repeat case_match; bool_hyps; lia.
  - done.
Qed.

Lemma str_forall_concat (f : ascii -> bool) (l : list string) :
  Forall (fun s => str_forall f s = true) l -> str_forall f (str_concat l) = true.
Proof. induction 1 as [|s l Hs Hl IH]; [done|]. cbn [str_concat foldr]. rewrite str_forall_app, Hs. done. Qed.

Lemma str_forall_join (f : ascii -> bool) (sep : string) (l : list string) :
  str_forall f sep = true -> Forall (fun s => str_forall f s = true) l -> str_forall f (str_join sep l) = true.
Proof.
  intros Hsep. induction 1 as [|s l Hs Hl IH]; [done|].
  destruct l as [|t l]; [done|]. rewrite (str_join_cons sep s (t :: l)) by done.
  by rewrite !str_forall_app, Hs, Hsep, IH.
Qed.

Lemma quote_printed (s : string) : str_forall printed (quote s) = true.
Proof.
  unfold quote. rewrite !str_forall_app, str_forall_concat; [done|].
  apply Forall_map. eapply Forall_impl; [apply runes_ok|]. intros r. apply quote_rune_printed.
Qed.

(** A value is printed on one line. *)
Lemma Marshal_printed (j : json) : integral j = true -> str_forall printed (Marshal j) = true.
Proof.
  revert j. apply (json_nested (fun j => integral j = true -> str_forall printed (Marshal j) = true)); try done.
  - by intros [].
  - intros z _. cbn [Marshal]. destruct (pretty_digits z) as (sign & d & -> & Hs & Hd & _).
    rewrite str_forall_app. rewrite (str_forall_impl (in_range 48 57) printed d), andb_true_r; [|by unfold in_range, printed; intros; bool_hyps; lia|done].
    by destruct Hs as [->| ->].
  - intros s _. apply quote_printed.
  - intros l Hl Hi. cbn [Marshal integral] in *. rewrite !str_forall_app, str_forall_join; [done|done|].
    induction Hl as [|j l Hj Hl IH]; [constructor|]. simpl in Hi. bool_hyps. constructor; auto.
  - intros l Hl Hi. cbn [Marshal integral] in *. rewrite !str_forall_app, str_forall_join; [done|done|].
    induction Hl as [|[k j] l Hj Hl IH]; [constructor|]. simpl in Hi. bool_hyps. constructor; [|auto].
    cbn [fst snd] in *. by rewrite !str_forall_app, quote_printed, Hj.
Qed.

Definition rune_width (r : Rune) : nat :=
  match r with R1 _ | RBad _ => 1 | R2 _ _ => 2 | R3 _ _ _ => 3 | R4 _ _ _ _ => 4 end.

Lemma quote_rune_length (r : Rune) : (String.length (quote_rune r) <= 6 * rune_width r)%nat.
Proof.
  destruct r; cbn [quote_rune rune_text rune_width]; try (simpl; lia); [|case_match; simpl; lia].
  unfold quote_ascii. repeat case_match; simpl; lia.
Qed.

Lemma runes_width (s : string) : foldr (fun r n => rune_width r + n)%nat O (runes s) = String.length s.
Proof.
  remember (String.length s) as n eqn:Hn. revert s Hn. induction (lt_wf n) as [n _ IH]. intros s ->.
  assert (forall t, (String.length t < String.length s)%nat ->
    foldr (fun r n => rune_width r + n)%nat O (runes t) = String.length t) as IH' by eauto.
  destruct s as [|c0 s1]; [done|]. cbn [runes].
  repeat case_match; subst; cbn [foldr rune_width]; rewrite ?IH'; simpl; lia.
Qed.

(** A string's literal is at most six times as long, and its quotes. *)
Lemma quote_length (s : string) : (String.length (quote s) <= 6 * String.length s + 2)%nat.
Proof.
  unfold quote. rewrite !str_app_length, <- (runes_width s). cbn [String.length DQ].
  enough (String.length (str_concat (map quote_rune (runes s))) <=
    6 * foldr (fun r n => rune_width r + n)%nat O (runes s))%nat by lia.
  induction (runes s) as [|r l IH]; [done|]. cbn [map str_concat foldr]. rewrite str_app_length.
  unfold str_concat in IH. pose proof (quote_rune_length r). lia.
Qed.
