(* ===== verification/GoCodec.v ===== *)
(** * [encoding/json] on Go types

    How values of Go types become JSON and back.  A [Codec] is what the
    encoder and the decoder do for one type: decoding works on a variable that
    already has a value, [null] leaves a string, number, bool or struct alone
    and clears a pointer, slice or map.  A struct is given by its tagged fields
    ([Fields], a list of types) and an isomorphism with the model's record; a
    key of an object selects the field of that name, else the first whose name
    is equal under case folding; other keys are skipped.

    [CodecLaws] is the round trip every codec keeps, by which the ones of
    pointers, slices, maps and structs follow from those of their parts. *)
From stdpp Require Import sorting.
From S2P Require Import Prelude GoStrings GoMux GoJson.
Open Scope boxy_scope.

Class Codec (A : Type) := {
  enc : A -> json;
  dec : json -> A -> option A;
  zero_value : A;
  is_empty : A -> bool;
}.

(** ** Basic types *)

#[export] Instance string_codec : Codec string := {|
  enc := JStr;
  dec j old := match j with JStr s => Some s | JNull => Some old | _ => None end;
  zero_value := "";
  is_empty s := s =?s "";
|}.

#[export] Instance bool_codec : Codec bool := {|
  enc := JBool;
  dec j old := match j with JBool b => Some b | JNull => Some old | _ => None end;
  zero_value := false;
  is_empty b := negb b;
|}.

(** An integer type with the given range; a number outside is an error. *)
Definition integer_codec (lo hi : Z) : Codec Z := {|
  enc := JInt;
  dec j old := match j with
               | JInt z => if (lo <=? z) && (z <=? hi) then Some z else None
               | JNull => Some old
               | _ => None
               end;
  zero_value := 0;
  is_empty z := z =? 0;
|}.

#[export] Instance int_codec : Codec Z := integer_codec (- 2 ^ 63) (2 ^ 63 - 1).
Definition uint64_codec : Codec Z := integer_codec 0 (2 ^ 64 - 1).
Definition int32_codec : Codec Z := integer_codec (- 2 ^ 31) (2 ^ 31 - 1).

(** ** Pointers, slices and maps *)

#[export] Instance pointer_codec {A} {C : Codec A} : Codec (option A) := {|
  enc o := match o with Some x => enc x | None => JNull end;
  dec j old := match j with
               | JNull => Some None
               | _ => match dec j (match old with Some x => x | None => zero_value end) with
                      | Some x => Some (Some x)
                      | None => None
                      end
               end;
  zero_value := None;
  is_empty o := match o with Some _ => false | None => true end;
|}.

(** Element [i] is decoded into the old element [i], if there is one. *)
Fixpoint dec_elems {A} {C : Codec A} (js : list json) (old : list A) : option (list A) :=
  match js with
  | [] => Some []
  | j :: js' =>
      match dec j (match old with x :: _ => x | [] => zero_value end) with
      | None => None
      | Some x => match dec_elems js' (tail old) with Some l => Some (x :: l) | None => None end
      end
  end.

(** A slice that is not nil; a nil one is only written where [omitempty] drops
    it. *)
#[export] Instance slice_codec {A} {C : Codec A} : Codec (list A) := {|
  enc l := JArr (map enc l);
  dec j old := match j with
               | JNull => Some []
               | JArr js => dec_elems js old
               | _ => None
               end;
  zero_value := [];
  is_empty l := match l with [] => true | _ => false end;
|}.

(** [map[string]string] by its entries. *)
Abbreviation entries := (list (string * string)).

Definition key_le (a b : string * string) : Prop := String.leb a.1 b.1 = true.

#[export] Instance key_le_dec : RelDecision key_le.
Proof. intros a b. unfold key_le. apply _. Defined.

Fixpoint put (k v : string) (m : entries) : entries :=
  match m with
  | [] => [(k, v)]
  | (k', v') :: m' => if k =?s k' then (k, v) :: m' else (k', v') :: put k v m'
  end.

Fixpoint dec_entries (ms : list (string * json)) (m : entries) : option entries :=
  match ms with
  | [] => Some m
  | (k, j) :: ms' =>
      match dec j "" with
      | Some v => dec_entries ms' (put k v m)
      | None => None
      end
  end.

(** The encoder sorts the keys. *)
#[export] Instance map_codec : Codec entries := {|
  enc m := JObj (map (fun e => (e.1, JStr e.2)) (merge_sort key_le m));
  dec j old := match j with
               | JNull => Some []
               | JObj ms => dec_entries ms old
               | _ => None
               end;
  zero_value := [];
  is_empty m := match m with [] => true | _ => false end;
|}.

(** ** Structs *)

(** The fields of a struct, from the first: their names, and encoding and
    decoding by the index of the field. *)
Record Fields (T : Type) := {
  fl_names : list string;
  fl_zero : T;
  fl_out : T -> list (nat * json);
  fl_in : nat -> json -> T -> option T;
}.

Arguments fl_names {T} _.
Arguments fl_zero {T} _.
Arguments fl_out {T} _ _.
Arguments fl_in {T} _ _ _ _.

Definition no_fields : Fields unit := {|
  fl_names := [];
  fl_zero := tt;
  fl_out _ := [];
  fl_in _ _ _ := None;
|}.

(** A field tagged [name], with [omitempty] or not. *)
Definition field {B T} (C : Codec B) (name : string) (omitempty : bool) (F : Fields T) : Fields (B * T) := {|
  fl_names := name :: fl_names F;
  fl_zero := (zero_value, fl_zero F);
  fl_out t := (if omitempty && is_empty t.1 then [] else [(O, enc t.1)]) ++
              map (fun m => (S m.1, m.2)) (fl_out F t.2);
  fl_in i j t := match i with
                 | O => match dec j t.1 with Some b => Some (b, t.2) | None => None end
                 | S i' => match fl_in F i' j t.2 with Some t2 => Some (t.1, t2) | None => None end
                 end;
|}.

Fixpoint index_of (same : string -> bool) (names : list string) : option nat :=
  match names with
  | [] => None
  | n :: ns => if same n then Some O else match index_of same ns with Some i => Some (S i) | None => None end
  end.

(** [foldName]: the letters whose simple folding is an ASCII letter. *)
Definition fold_rune (r : Rune) : string :=
  match r with
  | R1 c => String (upper_byte c) ""
  | R2 c0 c1 => if is_byte 197 c0 && is_byte 191 c1 then "S" else rune_text r
  | R3 c0 c1 c2 => if is_byte 226 c0 && is_byte 132 c1 && is_byte 170 c2 then "K" else rune_text r
  | _ => rune_text r
  end.

Definition foldName (s : string) : string := str_concat (map fold_rune (runes s)).

Definition field_index (names : list string) (key : string) : option nat :=
  match index_of (String.eqb key) names with
  | Some i => Some i
  | None => index_of (fun n => foldName key =?s foldName n) names
  end.

Fixpoint dec_members {T} (F : Fields T) (ms : list (string * json)) (t : T) : option T :=
  match ms with
  | [] => Some t
  | (k, j) :: ms' =>
      match field_index (fl_names F) k with
      | None => dec_members F ms' t
      | Some i => match fl_in F i j t with Some t' => dec_members F ms' t' | None => None end
      end
  end.

Definition field_name (names : list string) (i : nat) : string := nth i names "".

Definition struct_codec {A T} (F : Fields T) (unpack : A -> T) (pack : T -> A) : Codec A := {|
  enc a := JObj (map (fun m => (field_name (fl_names F) m.1, m.2)) (fl_out F (unpack a)));
  dec j old := match j with
               | JNull => Some old
               | JObj ms => match dec_members F ms (unpack old) with Some t => Some (pack t) | None => None end
               | _ => None
               end;
  zero_value := pack (fl_zero F);
  is_empty _ := false;
|}.

(** ** Text *)

(** [json.Marshal], and [json.NewEncoder(w).Encode] with its line feed. *)
Definition MarshalText {A} {C : Codec A} (a : A) : string := Marshal (enc a).

Definition EncodeText {A} {C : Codec A} (a : A) : string := MarshalText a +:+ NL.

(** [json.NewDecoder(r).Decode(&v)] into a zero [v]. *)
Definition DecodeText {A} {C : Codec A} (s : string) : option A :=
  match Decode s with Some j => dec j zero_value | None => None end.

(** [json.Unmarshal(data, &v)] into a zero [v]. *)
Definition UnmarshalText {A} {C : Codec A} (s : string) : option A :=
  match Unmarshal s with Some j => dec j zero_value | None => None end.

(** ** The round trip *)

(** [received x] is what decoding the text of [x] gives, if [x] [fits]: bytes
    that are not UTF-8 are replaced, and maps come sorted. *)
Class CodecLaws {A} (C : Codec A) := {
  fits : A -> Prop;
  received : A -> A;
  nest : nat;
  enc_integral x : integral (enc x) = true;
  enc_depth x : (depth (enc x) <= nest)%nat;
  dec_enc x : fits x -> dec (clean (enc x)) zero_value = Some (received x);
  empty_received x : is_empty x = true -> received x = zero_value;
}.

Arguments fits {A C _} _.
Arguments received {A C _} _.
Arguments nest {A} C {_}.

(** Values that are never written as [null]. *)
Class NeverNull {A} (C : Codec A) : Prop := never_null (x : A) : clean (enc x) <> JNull.

#[export, refine] Instance string_laws : CodecLaws string_codec := {|
  fits _ := True;
  received := ToValidUTF8;
  nest := O;
|}.
Proof.
  - done.
  - done.
  - done.
  - intros x Hx. simpl in Hx. by bool_hyps; subst.
Defined.

#[export, refine] Instance bool_laws : CodecLaws bool_codec := {|
  fits _ := True;
  received b := b;
  nest := O;
|}.
Proof. all: try done. by intros []. Defined.

#[export] Instance bool_never_null : NeverNull bool_codec.
Proof. done. Qed.

#[refine] Instance integer_laws (lo hi : Z) : CodecLaws (integer_codec lo hi) := {|
  fits z := lo <= z <= hi;
  received z := z;
  nest := O;
|}.
Proof.
  - done.
  - done.
  - intros z Hz. simpl. by rewrite (proj2 (Z.leb_le _ _)), (proj2 (Z.leb_le _ _)) by lia.
  - intros z Hz. simpl in *. by bool_hyps.
Defined.

#[export] Instance int_laws : CodecLaws int_codec := integer_laws _ _.
#[export] Instance uint64_laws : CodecLaws uint64_codec := integer_laws _ _.
#[export] Instance int32_laws : CodecLaws int32_codec := integer_laws _ _.

#[export, refine] Instance pointer_laws {A} {C : Codec A} {L : CodecLaws C} {N : NeverNull C} :
    CodecLaws (@pointer_codec A C) := {|
  fits o := match o with Some x => fits x | None => True end;
  received o := match o with Some x => Some (received x) | None => None end;
  nest := nest C;
|}.
Proof.
  - intros [x|]; simpl; [apply enc_integral|done].
  - intros [x|]; simpl; [apply enc_depth|lia].
  - intros [x|] Hx; [|done]. simpl. rewrite (dec_enc x Hx). pose proof (never_null x). by destruct (clean (enc x)).
  - intros [x|] Hx; done.
Defined.

Lemma dec_elems_enc {A} {C : Codec A} {L : CodecLaws C} (l : list A) :
  Forall fits l -> dec_elems (map clean (map enc l)) [] = Some (map received l).
Proof. induction 1 as [|x l Hx Hl IH]; [done|]. simpl. by rewrite (dec_enc x Hx), IH. Qed.

#[export, refine] Instance slice_laws {A} {C : Codec A} {L : CodecLaws C} : CodecLaws (@slice_codec A C) := {|
  fits l := Forall fits l;
  received l := map received l;
  nest := S (nest C);
|}.
Proof.
  - intros l. simpl. induction l as [|x l IH]; [done|]. simpl. by rewrite enc_integral, IH.
  - intros l. simpl. apply le_n_S. induction l as [|x l IH]; simpl; [lia|]. pose proof (enc_depth x). lia.
  - intros l Hl. apply (dec_elems_enc l Hl).
  - by intros [].
Defined.

(** An entry with its invalid bytes replaced. *)
Definition valid_entry (e : string * string) : string * string := (ToValidUTF8 e.1, ToValidUTF8 e.2).

Lemma put_fresh (k v : string) (m : entries) : k ∉ map fst m -> put k v m = m ++ [(k, v)].
Proof.
  induction m as [|[k' v'] m IH]; [done|]. cbn [map fst]. intros Hk. apply not_elem_of_cons in Hk as [Hk Hm].
  simpl. rewrite (proj2 (String.eqb_neq k k')) by done. by rewrite IH.
Qed.

Lemma dec_entries_enc (l acc : entries) :
  NoDup (map fst acc ++ map (fun e => ToValidUTF8 e.1) l) ->
  dec_entries (map (fun m => (ToValidUTF8 m.1, clean m.2)) (map (fun e => (e.1, JStr e.2)) l)) acc =
    Some (acc ++ map valid_entry l).
Proof.
  revert acc. induction l as [|[k v] l IH]; intros acc Hnd; simpl; [by rewrite app_nil_r|].
  simpl in Hnd. rewrite put_fresh.
  - rewrite IH.
    + by rewrite <- app_assoc.
    + rewrite map_app, <- app_assoc. done.
  - apply NoDup_app in Hnd as (_ & Hd & _). intros Hin. by apply (Hd _ Hin), list_elem_of_here.
Qed.

#[export, refine] Instance map_laws : CodecLaws map_codec := {|
  fits m := NoDup (map (fun e => ToValidUTF8 e.1) m);
  received m := map valid_entry (merge_sort key_le m);
  nest := 1%nat;
|}.
Proof.
  - intros m. simpl. induction (merge_sort key_le m) as [|e l IH]; [done|]. by simpl.
  - intros m. simpl. apply le_n_S. by induction (merge_sort key_le m) as [|e l IH].
  - intros m Hm. cbn [dec enc map_codec clean zero_value]. rewrite dec_entries_enc; [done|].
    simpl. by rewrite (merge_sort_Permutation key_le m).
  - by intros [].
Defined.

(** ** The round trip of structs *)

Fixpoint dec_fields {T} (F : Fields T) (ms : list (nat * json)) (t : T) : option T :=
  match ms with
  | [] => Some t
  | (i, j) :: ms' => match fl_in F i j t with Some t' => dec_fields F ms' t' | None => None end
  end.

Definition clean_field (m : nat * json) : nat * json := (m.1, clean m.2).

Class FieldsLaws {T} (F : Fields T) := {
  fl_fits : T -> Prop;
  fl_received : T -> T;
  fl_nest : nat;
  fl_integral t : Forall (fun m => integral m.2 = true) (fl_out F t);
  fl_depth t : Forall (fun m => (depth m.2 <= fl_nest)%nat) (fl_out F t);
  fl_bound t : Forall (fun m => (m.1 < length (fl_names F))%nat) (fl_out F t);
  fl_dec t : fl_fits t -> dec_fields F (map clean_field (fl_out F t)) (fl_zero F) = Some (fl_received t);
}.

Arguments fl_fits {T F _} _.
Arguments fl_received {T F _} _.
Arguments fl_nest {T} F {_}.

#[export, refine] Instance no_fields_laws : FieldsLaws no_fields := {|
  fl_fits _ := True;
  fl_received _ := tt;
  fl_nest := O;
|}.
Proof. all: done. Defined.

Lemma dec_fields_tail {B T} (C : Codec B) (name : string) (o : bool) (F : Fields T) (b : B) (l : list (nat * json)) (t : T) :
  dec_fields (field C name o F) (map clean_field (map (fun m => (S m.1, m.2)) l)) (b, t) =
    match dec_fields F (map clean_field l) t with Some t' => Some (b, t') | None => None end.
Proof. revert t. induction l as [|[i j] l IH]; intros t; simpl; [done|]. by destruct (fl_in F i (clean j) t). Qed.

#[export, refine] Instance field_laws {B T} {C : Codec B} {L : CodecLaws C} {name : string} {o : bool} {F : Fields T}
    {LF : FieldsLaws F} : FieldsLaws (field C name o F) := {|
  fl_fits t := fits t.1 /\ fl_fits t.2;
  fl_received t := (received t.1, fl_received t.2);
  fl_nest := Nat.max (nest C) (fl_nest F);
|}.
Proof.
  - intros [b t]. cbn [fl_out field fst snd]. apply Forall_app. split.
    + case_match; [constructor|]. apply Forall_singleton. apply enc_integral.
    + apply Forall_map. apply fl_integral.
  - intros [b t]. cbn [fl_out field fst snd]. apply Forall_app. split.
    + case_match; [constructor|]. apply Forall_singleton. simpl. pose proof (enc_depth b). lia.
    + apply Forall_map. eapply Forall_impl; [apply fl_depth|]. simpl. lia.
  - intros [b t]. cbn [fl_out field fst snd fl_names length]. apply Forall_app. split.
    + case_match; [constructor|]. apply Forall_singleton. simpl. lia.
    + apply Forall_map. eapply Forall_impl; [apply fl_bound|]. simpl. lia.
  - intros [b t] [Hb Ht]. cbn [fst snd] in *. cbn [fl_out field fst snd fl_zero]. rewrite map_app.
    destruct (o && is_empty b) eqn:Ho; bool_hyps.
    + cbn [map app]. rewrite dec_fields_tail, (fl_dec t Ht). by rewrite empty_received.
    + cbn [map app dec_fields clean_field fst snd fl_in field]. rewrite (dec_enc b Hb).
      by rewrite dec_fields_tail, (fl_dec t Ht).
Defined.

Lemma index_of_nth (names : list string) (i : nat) :
  NoDup names -> (i < length names)%nat -> index_of (String.eqb (field_name names i)) names = Some i.
Proof.
  intros Hnd. revert i. induction Hnd as [|n ns Hn Hnd IH]; intros i Hi; simpl in *; [lia|].
  destruct i as [|i]; cbn [field_name nth].
  - by rewrite String.eqb_refl.
  - rewrite (proj2 (String.eqb_neq _ n)).
    + change (nth i ns "") with (field_name ns i). by rewrite IH by lia.
    + intros <-. apply Hn, list_elem_of_In, nth_In. lia.
Qed.

(** The names of a struct's fields are different and ASCII. *)
Definition names_ok (names : list string) : bool :=
  bool_decide (NoDup names) && forallb (fun n => ToValidUTF8 n =?s n) names.

Lemma dec_members_fields {T} (F : Fields T) (l : list (nat * json)) (t : T) :
  names_ok (fl_names F) = true -> Forall (fun m => (m.1 < length (fl_names F))%nat) l ->
  dec_members F (map (fun m => (ToValidUTF8 m.1, clean m.2)) (map (fun m => (field_name (fl_names F) m.1, m.2)) l)) t =
    dec_fields F (map clean_field l) t.
Proof.
  unfold names_ok. intros [Hnd%bool_decide_eq_true Hv]%andb_true_iff Hl. revert t.
  induction Hl as [|[i j] l Hi Hl IH]; intros t; [done|]. cbn [map dec_members dec_fields fst snd clean_field] in *.
  assert (ToValidUTF8 (field_name (fl_names F) i) = field_name (fl_names F) i) as ->.
  { rewrite forallb_forall in Hv. apply String.eqb_eq, Hv. apply nth_In. lia. }
  unfold field_index. rewrite index_of_nth by done. destruct (fl_in F i (clean j) t); [apply IH|done].
Qed.

(** A struct keeps the round trip when its record is its fields. *)
Definition struct_laws {A T} {F : Fields T} {LF : FieldsLaws F} {unpack : A -> T} {pack : T -> A}
    (Hiso : forall t, unpack (pack t) = t) (Hn : names_ok (fl_names F) = true) : CodecLaws (struct_codec F unpack pack).
Proof.
  refine {| fits a := fl_fits (unpack a); received a := pack (fl_received (unpack a)); nest := S (fl_nest F) |}.
  - intros a. cbn [enc struct_codec integral]. apply forallb_forall. intros [k j] Hin.
    apply in_map_iff in Hin as ([i j'] & [= <- <-] & Hin). simpl.
    pose proof (fl_integral (unpack a)) as Hi. rewrite Forall_forall in Hi. by apply (Hi (i, j')), list_elem_of_In.
  - intros a. cbn [enc struct_codec depth]. apply le_n_S. pose proof (fl_depth (unpack a)) as Hd.
    induction Hd as [|m l Hm Hl IH]; simpl; [lia|]. lia.
  - intros a Ha. cbn [enc dec struct_codec clean zero_value]. rewrite Hiso, dec_members_fields by (done || apply fl_bound).
    by rewrite (fl_dec _ Ha).
  - done.
Defined.

(** A struct's encoding is an object. *)
#[export] Instance struct_never_null {A T} (F : Fields T) (unpack : A -> T) (pack : T -> A) :
  NeverNull (struct_codec F unpack pack).
Proof. done. Qed.

(** ** The round trip of texts *)

Lemma enc_nested {A} {C : Codec A} {L : CodecLaws C} (x : A) : (nest C <= 100)%nat -> nested_ok (enc x) = true.
Proof. intros Hn. unfold nested_ok. apply Z.leb_le. pose proof (enc_depth x). lia. Qed.

Lemma DecodeText_Encode {A} {C : Codec A} {L : CodecLaws C} (x : A) (rest : string) :
  (nest C <= 100)%nat -> fits x -> stops rest = true -> DecodeText (C := C) (MarshalText x +:+ rest) = Some (received x).
Proof.
  intros Hn Hx Hs. unfold DecodeText, MarshalText.
  rewrite Decode_Marshal by (first [apply enc_integral|by apply enc_nested|done]). by apply dec_enc.
Qed.

Lemma UnmarshalText_Marshal {A} {C : Codec A} {L : CodecLaws C} (x : A) :
  (nest C <= 100)%nat -> fits x -> UnmarshalText (C := C) (MarshalText x) = Some (received x).
Proof.
  intros Hn Hx. unfold UnmarshalText, MarshalText.
  rewrite Unmarshal_Marshal by (first [apply enc_integral|by apply enc_nested|done]). by apply dec_enc.
Qed.

(** Valid strings arrive unchanged, a map with valid strings with its entries
    sorted. *)
Lemma received_valid (s : string) : Valid s = true -> received s = s.
Proof. apply ToValidUTF8_valid. Qed.

Lemma received_entries (m : entries) :
  Forall (fun e => Valid e.1 = true /\ Valid e.2 = true) m -> received m ≡ₚ m.
Proof.
  intros Hm. cbn [received map_laws]. rewrite (merge_sort_Permutation key_le m).
  rewrite (map_ext_in valid_entry (fun e => e)); [by rewrite map_id|].
  intros [k v] Hin%list_elem_of_In. rewrite Forall_forall in Hm. destruct (Hm _ Hin) as [Hk Hv]. simpl in *.
  unfold valid_entry. simpl. by rewrite !ToValidUTF8_valid.
Qed.
