(* ===== verification/GoSha256.v ===== *)
(** * SHA-256 and hexadecimal

    [crypto/sha256.Sum256] (FIPS 180-4) and [encoding/hex.EncodeToString], which
    the router uses to key its authentication cache.  Words are 32-bit values
    in [Z]; the test vectors of the standard are checked below. *)
From S2P Require Import Prelude.

(** ** Words *)

Definition w32 (z : Z) : Z := z mod 2 ^ 32.

Definition rotr (n x : Z) : Z := Z.lor (Z.shiftr x n) (w32 (Z.shiftl x (32 - n))).

Definition Ch (x y z : Z) : Z := Z.lxor (Z.land x y) (Z.land (2 ^ 32 - 1 - x) z).

Definition Maj (x y z : Z) : Z := Z.lxor (Z.lxor (Z.land x y) (Z.land x z)) (Z.land y z).

Definition Sigma0 (x : Z) : Z := Z.lxor (Z.lxor (rotr 2 x) (rotr 13 x)) (rotr 22 x).

Definition Sigma1 (x : Z) : Z := Z.lxor (Z.lxor (rotr 6 x) (rotr 11 x)) (rotr 25 x).

Definition sigma0 (x : Z) : Z := Z.lxor (Z.lxor (rotr 7 x) (rotr 18 x)) (Z.shiftr x 3).

Definition sigma1 (x : Z) : Z := Z.lxor (Z.lxor (rotr 17 x) (rotr 19 x)) (Z.shiftr x 10).

(** The constants of the standard are the first 32 bits of the fractional parts
    of roots of primes: [frac_root k p] is the part of the [k]-th root of [p],
    found bit by bit. *)
Definition int_root (k x : Z) : Z :=
  foldr (fun i r => let r' := r + 2 ^ i in if r' ^ k <=? x then r' else r) 0 (seqZ 0 40).

Definition frac_root (k p : Z) : Z := w32 (int_root k (p * 2 ^ (32 * k))).

Definition is_prime (n : Z) : bool := forallb (fun d => negb (n mod d =? 0)) (seqZ 2 (n - 2)).

(** The 64 primes up to 311. *)
Definition small_primes : list Z := Eval vm_compute in List.filter is_prime (seqZ 2 310).

Definition sha_K : list Z := Eval vm_compute in map (frac_root 3) small_primes.

Definition sha_H0 : list Z := Eval vm_compute in map (frac_root 2) (take 8 small_primes).

(** ** Padding and blocks *)

Fixpoint str_bytes (s : string) : list Z :=
  match s with
  | EmptyString => []
  | String c s' => byte_val c :: str_bytes s'
  end.

(** The [n] low bytes of [z], most significant first. *)
Fixpoint be_bytes (n : nat) (z : Z) : list Z :=
  match n with
  | O => []
  | S n' => (Z.shiftr z (8 * Z.of_nat n')) mod 256 :: be_bytes n' z
  end.

Definition sha_pad (m : list Z) : list Z :=
  m ++ [0x80] ++ repeat 0 (Z.to_nat ((55 - llen m) mod 64)) ++ be_bytes 8 (8 * llen m).

Fixpoint words (bs : list Z) : list Z :=
  match bs with
  | a :: b :: c :: d :: bs' => 2 ^ 24 * a + 2 ^ 16 * b + 2 ^ 8 * c + d :: words bs'
  | _ => []
  end.

(** The message schedule, latest word first. *)
Fixpoint schedule (n : nat) (w : list Z) : list Z :=
  match n with
  | O => w
  | S n' =>
      let at_ i := nth i w 0 in
      schedule n' (w32 (sigma1 (at_ 1%nat) + at_ 6%nat + sigma0 (at_ 14%nat) + at_ 15%nat) :: w)
  end.

Definition sha_round (st : list Z) (kw : Z * Z) : list Z :=
  match st with
  | [a; b; c; d; e; f; g; h] =>
      let t1 := h + Sigma1 e + Ch e f g + kw.1 + kw.2 in
      let t2 := Sigma0 a + Maj a b c in
      [w32 (t1 + t2); a; b; c; w32 (d + t1); e; f; g]
  | _ => st
  end.

Definition compress (h block : list Z) : list Z :=
  let w := rev (schedule 48 (rev block)) in
  zip_with (fun x y => w32 (x + y)) h (foldl sha_round h (zip sha_K w)).

Fixpoint sha_blocks (n : nat) (h ws : list Z) : list Z :=
  match n with
  | O => h
  | S n' => sha_blocks n' (compress h (take 16 ws)) (drop 16 ws)
  end.

Definition Sum256 (s : string) : list Z :=
  let ws := words (sha_pad (str_bytes s)) in
  sha_blocks (length ws / 16) sha_H0 ws ≫= be_bytes 4.

(** ** Hexadecimal *)

Definition hex_digit (z : Z) : ascii :=
  ascii_of_N (Z.to_N (if z <? 10 then 48 + z else 87 + z)).

Fixpoint EncodeToString (bs : list Z) : string :=
  match bs with
  | [] => ""
  | b :: bs' => String (hex_digit (b / 16)) (String (hex_digit (b mod 16)) (EncodeToString bs'))
  end.

(** ** Facts *)

(** The vectors of FIPS 180-4: no block, one block, two blocks. *)
Lemma sha_vectors :
  EncodeToString (Sum256 "") = "e3b0c44298fc1c149afbf4c8996fb92427ae41e4649b934ca495991b7852b855" /\
  EncodeToString (Sum256 "abc") = "ba7816bf8f01cfea414140de5dae2223b00361a396177a9cb410ff61f20015ad" /\
  EncodeToString (Sum256 "abcdbcdecdefdefgefghfghighijhijkijkljklmklmnlmnomnopnopq") =
    "248d6a61d20638b8e5c026930c3e6039a33ce45964ff2167f6ecedd419db06c1".
Proof. split_and!; by vm_compute. Qed.

Lemma hex_digit_inj (a b : Z) : 0 <= a < 16 -> 0 <= b < 16 -> hex_digit a = hex_digit b -> a = b.
Proof.
  intros Ha Hb H.
  assert (forallb (fun a => forallb (fun b => implb (Ascii.eqb (hex_digit a) (hex_digit b)) (a =? b))
    (seqZ 0 16)) (seqZ 0 16) = true) as Hall by by vm_compute.
  rewrite forallb_forall in Hall. specialize (Hall a).
  rewrite <- list_elem_of_In, elem_of_seqZ in Hall. specialize (Hall ltac:(lia)).
  rewrite forallb_forall in Hall. specialize (Hall b).
  rewrite <- list_elem_of_In, elem_of_seqZ in Hall. specialize (Hall ltac:(lia)).
  rewrite H, Ascii.eqb_refl in Hall. simpl in Hall. by apply Z.eqb_eq.
Qed.

(** Hexadecimal loses nothing: equal keys mean equal digests. *)
Lemma EncodeToString_inj (a b : list Z) :
  Forall (fun z => 0 <= z < 256) a -> Forall (fun z => 0 <= z < 256) b ->
  EncodeToString a = EncodeToString b -> a = b.
Proof.
  intros Ha. revert b. induction Ha as [|x a Hx Ha IH]; intros [|y b] Hb; try done.
  inversion_clear Hb. cbn [EncodeToString]. intros [= H1 H2 H3].
  apply hex_digit_inj in H1; [|Z.div_mod_to_equations; lia..].
  apply hex_digit_inj in H2; [|Z.div_mod_to_equations; lia..].
  f_equal; [Z.div_mod_to_equations; lia|auto].
Qed.
