(* ===== verification/GoTime.v ===== *)
(** * Calendar dates

    [time.Time.UTC().Format(time.RFC3339)]: an instant, in nanoseconds since
    1970-01-01T00:00:00Z, printed to the second in the proleptic Gregorian
    calendar.  The day-to-date conversion is checked against the calendar's own
    rules (leap years, lengths of months) for every day. *)
From S2P Require Import Prelude.

(** ** Printing *)

Definition civil (day : Z) : Z * Z * Z :=
  let z := day + 719468 in
  let era := z / 146097 in
  let doe := z mod 146097 in
  let yoe := (doe - doe / 1460 + doe / 36524 - doe / 146096) / 365 in
  let doy := doe - (365 * yoe + yoe / 4 - yoe / 100) in
  let mp := (5 * doy + 2) / 153 in
  let d := doy - (153 * mp + 2) / 5 + 1 in
  let m := if mp <? 10 then mp + 3 else mp - 9 in
  let y := yoe + 400 * era in
  (if m <=? 2 then y + 1 else y, m, d).

(** [n] in decimal with at least [w] digits. *)
Definition pad_int (w : nat) (n : Z) : string :=
  let s := pretty (Z.abs n) in
  (if n <? 0 then "-" else "") +:+ String.concat "" (repeat "0" (w - String.length s)) +:+ s.

Definition FormatRFC3339 (t : Z) : string :=
  let secs := t / Second in
  let '(y, m, d) := civil (secs / 86400) in
  let s := secs mod 86400 in
  pad_int 4 y +:+ "-" +:+ pad_int 2 m +:+ "-" +:+ pad_int 2 d +:+ "T" +:+
  pad_int 2 (s / 3600) +:+ ":" +:+ pad_int 2 (s mod 3600 / 60) +:+ ":" +:+ pad_int 2 (s mod 60) +:+ "Z".

(** ** The calendar *)

Definition leap (y : Z) : bool := (y mod 4 =? 0) && (negb (y mod 100 =? 0) || (y mod 400 =? 0)).

Definition month_days (y m : Z) : Z :=
  if m =? 2 then (if leap y then 29 else 28)
  else if (m =? 4) || (m =? 6) || (m =? 9) || (m =? 11) then 30 else 31.

(** Days before the first of a month in its year. *)
Definition days_before (y m : Z) : Z :=
  foldr Z.add 0 (map (month_days y) (seqZ 1 (m - 1))).

(** The day number of a date: complete years, with their leap days, complete
    months and days since 1970-01-01. *)
Definition day_number (y m d : Z) : Z :=
  365 * (y - 1) + (y - 1) / 4 - (y - 1) / 100 + (y - 1) / 400 + days_before y m + d - 1 - 719162.

(** Days and leap days up to the end of year [y]. *)
Definition year_days (y : Z) : Z := 365 * y + y / 4 - y / 100 + y / 400.

Lemma year_days_step (y : Z) : year_days y = year_days (y - 1) + (if leap y then 366 else 365).
Proof.
  unfold year_days, leap.
  destruct (y mod 4 =? 0) eqn:H4, (y mod 100 =? 0) eqn:H100, (y mod 400 =? 0) eqn:H400; simpl; bool_hyps;
    Z.div_mod_to_equations; lia.
Qed.

(** The calendar repeats every 400 years. *)
Lemma year_days_era (y k : Z) : year_days (y + 400 * k) = year_days y + 146097 * k.
Proof.
  unfold year_days.
  replace (y + 400 * k) with (y + (100 * k) * 4) at 2 by lia.
  replace (y + 400 * k) with (y + (4 * k) * 100) at 2 by lia.
  replace (y + 400 * k) with (y + k * 400) at 2 by lia.
  rewrite !Z.div_add by lia. lia.
Qed.

(** Days before the first of a month, month by month. *)
Lemma days_before_table (y m : Z) :
  1 <= m <= 12 ->
  days_before y m = nth (Z.to_nat (m - 1)) [0; 31; 59; 90; 120; 151; 181; 212; 243; 273; 304; 334] 0 +
    (if (2 <? m) && leap y then 1 else 0).
Proof.
  intros Hm. unfold days_before, month_days.
  assert (m = 1 \/ m = 2 \/ m = 3 \/ m = 4 \/ m = 5 \/ m = 6 \/ m = 7 \/ m = 8 \/ m = 9 \/ m = 10 \/ m = 11 \/
    m = 12) as Hc by lia.
  destruct (leap y); repeat destruct Hc as [->|Hc]; subst; reflexivity.
Qed.

(** The year of the era, counted from March, and the day in that year. *)
Lemma year_of_era (doe : Z) :
  0 <= doe < 146097 ->
  let yoe := (doe - doe / 1460 + doe / 36524 - doe / 146096) / 365 in
  let doy := doe - (365 * yoe + yoe / 4 - yoe / 100) in
  0 <= yoe < 400 /\ 0 <= doy <= 365 /\
  (doy = 365 -> (yoe + 1) mod 4 = 0 /\ ((yoe + 1) mod 100 <> 0 \/ yoe = 399)).
Proof. intros H. cbv zeta. split_and!; Z.div_mod_to_equations; lia. Qed.

(** Month and day of a day counted from the first of March of year [Y]. *)
Lemma month_of_year (Y doy : Z) :
  0 <= doy <= 365 -> (doy = 365 -> leap (Y + 1) = true) ->
  let mp := (5 * doy + 2) / 153 in
  let d := doy - (153 * mp + 2) / 5 + 1 in
  let m := if mp <? 10 then mp + 3 else mp - 9 in
  let y := if m <=? 2 then Y + 1 else Y in
  1 <= m <= 12 /\ 1 <= d <= month_days y m /\
  year_days (y - 1) + days_before y m + d = year_days Y + doy - 305.
Proof.
  intros Hdoy Hleap. cbv zeta. pose proof (year_days_step Y) as HY.
  pose proof (Z.div_mod (5 * doy + 2) 153 ltac:(lia)) as Hdm.
  pose proof (Z.mod_pos_bound (5 * doy + 2) 153 ltac:(lia)) as Hmb.
  revert Hdm Hmb. generalize ((5 * doy + 2) mod 153), ((5 * doy + 2) / 153). intros r mp Hdm Hmb.
  assert (mp = 0 \/ mp = 1 \/ mp = 2 \/ mp = 3 \/ mp = 4 \/ mp = 5 \/ mp = 6 \/ mp = 7 \/ mp = 8 \/ mp = 9 \/
    mp = 10 \/ mp = 11) as Hc by lia.
  assert (year_days (Y + 1 - 1) = year_days Y) as HY1 by (f_equal; lia).
  repeat destruct Hc as [Hc|Hc]; subst mp;
    (split; [cbn; lia|]); rewrite days_before_table by (cbn; lia); unfold month_days; simpl;
    rewrite ?HY1; try (destruct (leap Y); Z.div_mod_to_equations; lia).
  destruct (leap (Y + 1)); [Z.div_mod_to_equations; lia|].
  destruct (decide (doy = 365)) as [->|]; [by specialize (Hleap eq_refl)|Z.div_mod_to_equations; lia].
Qed.

(** Every day is printed as the date the calendar gives it. *)
Lemma civil_correct (day : Z) :
  let '(y, m, d) := civil day in
  1 <= m <= 12 /\ 1 <= d <= month_days y m /\ day_number y m d = day.
Proof.
  unfold civil.
  pose proof (Z.div_mod (day + 719468) 146097 ltac:(lia)) as Hday.
  pose proof (Z.mod_pos_bound (day + 719468) 146097 ltac:(lia)) as Hdoe.
  set (era := _ / 146097) in *. set (doe := _ mod 146097) in *.
  destruct (year_of_era doe Hdoe) as (Hyoe & Hdoy & Hlast).
  set (yoe := (doe - _ + _ - _) / 365) in *. set (doy := doe - (365 * yoe + _ - _)) in *.
  set (Y := yoe + 400 * era).
  assert (day + 719468 = year_days Y + doy) as Hd.
  { unfold Y. rewrite Hday, year_days_era. unfold year_days, doy. rewrite (Z.div_small yoe 400) by lia. lia. }
  assert (doy = 365 -> leap (Y + 1) = true) as Hleap.
  { intros H. specialize (Hlast H). unfold leap, Y. clearbody doy yoe era. clear -Hlast Hyoe.
    destruct ((yoe + 400 * era + 1) mod 4 =? 0) eqn:H4, ((yoe + 400 * era + 1) mod 100 =? 0) eqn:H100,
      ((yoe + 400 * era + 1) mod 400 =? 0) eqn:H400; simpl; bool_hyps; try done;
      exfalso; Z.div_mod_to_equations; lia. }
  destruct (month_of_year Y doy Hdoy Hleap) as (Hm & Hdd & Hn).
  split; [done|]. split; [done|]. unfold day_number, year_days in *. lia.
Qed.

Lemma rfc3339_samples :
  FormatRFC3339 0 = "1970-01-01T00:00:00Z" /\
  FormatRFC3339 (951868799 * Second + 999999999) = "2000-02-29T23:59:59Z" /\
  FormatRFC3339 (-1) = "1969-12-31T23:59:59Z".
Proof. split_and!; by vm_compute. Qed.
