(* ===== verification/GoHeap.v ===== *)
(** * Go's memory, for the code that copies objects

    Pointers, maps and slices are references into a heap of typed blocks.  A
    function that allocates runs in the monad [M]: it fails on a dangling
    reference, and otherwise returns a value and the new heap.

    [view] reads a value with everything it refers to, as a plain value; it is
    stable when the heap grows.  [copying] says what a deep copy promises: the
    copy's view is the original's, and it lies in the newly allocated part of
    the heap alone. *)
From S2P Require Import Prelude.

Definition loc : Type := positive.

(** The types of the blocks a program stores. *)
Class Blocks := { block : Type }.

Abbreviation heap := (gmap loc block).

Section heap.
Context {B : Blocks}.

(** A type whose values a block can hold. *)
Class Stored (A : Type) := {
  to_block : A -> block;
  of_block : block -> option A;
  of_to_block x : of_block (to_block x) = Some x;
}.

(** ** Allocation *)

Definition M (A : Type) : Type := heap -> option (A * heap).

Definition hret {A} (x : A) : M A := fun h => Some (x, h).

Definition hbind {A C} (m : M A) (f : A -> M C) : M C := fun h =>
  match m h with
  | Some (x, h') => f x h'
  | None => None
  end.

Definition load {A} {SA : Stored A} (l : loc) : M A := fun h =>
  match h !! l with
  | Some b => match of_block b with Some x => Some (x, h) | None => None end
  | None => None
  end.

(** [new] of a value. *)
Definition alloc {A} {SA : Stored A} (x : A) : M loc := fun h =>
  let l := fresh (dom h) in Some (l, <[l := to_block x]> h).

(** A pointer or map, nil or not; a slice that is not nil is a part of an array. *)
Definition pointer : Type := option loc.

Record slice := { sl_array : loc; sl_offset : nat; sl_len : nat }.

(** The elements of a slice; [None] when it exceeds its array. *)
Definition slice_of {A} (s : slice) (l : list A) : option (list A) :=
  if bool_decide (sl_offset s + sl_len s <= length l)%nat then Some (take (sl_len s) (drop (sl_offset s) l)) else None.

Definition load_slice {A} {SA : Stored (list A)} (s : slice) : M (list A) := hbind (load (sl_array s)) (fun l h =>
  match slice_of s l with Some xs => Some (xs, h) | None => None end).

(** ** The copying idioms of the generated code *)

(** [if in.F != nil { out.F = new(T); copyInto(in.F, out.F) }]. *)
Definition copy_pointer {A} {SA : Stored A} (copyInto : A -> M A) (p : pointer) : M pointer :=
  match p with
  | None => hret None
  | Some l => hbind (load l) (fun x => hbind (copyInto x) (fun y => hbind (alloc y) (fun l' => hret (Some l'))))
  end.

(** [for i := range in { copyInto(&in[i], &out[i]) }]. *)
Fixpoint copy_each {A} (copyInto : A -> M A) (l : list A) : M (list A) :=
  match l with
  | [] => hret []
  | x :: l' => hbind (copyInto x) (fun y => hbind (copy_each copyInto l') (fun ys => hret (y :: ys)))
  end.

(** [if in.F != nil { out.F = make([]T, len(in.F)); ... }]; [copy] is the loop
    with [hret]. *)
Definition copy_slice {A} {SA : Stored (list A)} (copyInto : A -> M A) (s : option slice) : M (option slice) :=
  match s with
  | None => hret None
  | Some s => hbind (load_slice s) (fun xs => hbind (copy_each copyInto xs) (fun ys => hbind (alloc ys) (fun l =>
      hret (Some {| sl_array := l; sl_offset := 0; sl_len := length ys |}))))
  end.

(** [out.F = make(map[string]string); for k, v := range in.F { out.F[k] = v }]. *)
Definition copy_map {SM : Stored (gmap string string)} (p : pointer) : M pointer :=
  match p with
  | None => hret None
  | Some l => hbind (load l) (fun m : gmap string string =>
      hbind (alloc (foldl (fun out e => <[e.1 := e.2]> out) ∅ (map_to_list m))) (fun l' => hret (Some l')))
  end.

(** ** Views *)

(** A way to read a value of type [V] from a representation. *)
Definition viewer (A V : Type) : Type := heap -> A -> option V.

Definition read {A} {SA : Stored A} (h : heap) (l : loc) : option A :=
  match h !! l with Some b => of_block b | None => None end.

Definition view_flat {A} : viewer A A := fun _ x => Some x.

Definition view_pointer {A V} {SA : Stored A} (vw : viewer A V) : viewer pointer (option V) := fun h p =>
  match p with
  | None => Some None
  | Some l => match read h l with
              | Some x => match vw h x with Some v => Some (Some v) | None => None end
              | None => None
              end
  end.

Fixpoint view_each {A V} (vw : viewer A V) (h : heap) (l : list A) : option (list V) :=
  match l with
  | [] => Some []
  | x :: l' => match vw h x, view_each vw h l' with
               | Some v, Some vs => Some (v :: vs)
               | _, _ => None
               end
  end.

Definition view_slice {A V} {SA : Stored (list A)} (vw : viewer A V) : viewer (option slice) (option (list V)) := fun h s =>
  match s with
  | None => Some None
  | Some s => match read h (sl_array s) with
              | Some l => match slice_of s l with
                          | Some xs => match view_each vw h xs with Some vs => Some (Some vs) | None => None end
                          | None => None
                          end
              | None => None
              end
  end.

Definition view_map {SM : Stored (gmap string string)} : viewer pointer (option (gmap string string)) :=
  view_pointer view_flat.

(** ** What a copy promises *)

Definition stable {A V} (vw : viewer A V) : Prop := forall h h' x v, h ⊆ h' -> vw h x = Some v -> vw h' x = Some v.

(** [m] succeeds on [h], only allocates, and its result and the new blocks
    satisfy [Q]. *)
Definition allocates {A} (h : heap) (m : M A) (Q : heap -> A -> Prop) : Prop :=
  exists y h', m h = Some (y, h') /\ h ⊆ h' /\ Q (h' ∖ h) y.

Definition copying {A V} (vw : viewer A V) (cp : A -> M A) : Prop :=
  forall h x v, vw h x = Some v -> allocates h (cp x) (fun new y => vw new y = Some v).

Lemma diff_grows (h h1 h2 : heap) : h ⊆ h1 -> h1 ⊆ h2 -> h1 ∖ h ⊆ h2 ∖ h /\ h2 ∖ h1 ⊆ h2 ∖ h.
Proof.
  intros H1 H2. split; apply map_subseteq_spec; intros i x; rewrite !lookup_difference_Some.
  - intros [Hi Hn]. split; [by eapply lookup_weaken|done].
  - intros [Hi Hn]. split; [done|]. destruct (h !! i) eqn:E; [|done].
    eapply lookup_weaken in E; [|exact H1]. congruence.
Qed.

Lemma allocates_ret {A} (h : heap) (x : A) (Q : heap -> A -> Prop) : (forall new, Q new x) -> allocates h (hret x) Q.
Proof. intros HQ. exists x, h. split_and!; auto. Qed.

(** Sequencing: what holds of the first result holds of every larger set of
    new blocks. *)
Lemma allocates_bind {A C} (h : heap) (m : M A) (f : A -> M C) (Q : heap -> A -> Prop) (R : heap -> C -> Prop) :
  (forall new new' y, new ⊆ new' -> Q new y -> Q new' y) -> allocates h m Q ->
  (forall h1 y, h ⊆ h1 -> allocates h1 (f y) (fun new z => forall all, new ⊆ all -> Q all y -> R all z)) ->
  allocates h (hbind m f) R.
Proof.
  intros HQ (y & h1 & Hm & Hs & Hy) Hf. destruct (Hf h1 y Hs) as (z & h2 & Hz & Hs2 & HR).
  exists z, h2. unfold hbind. rewrite Hm. split; [done|]. split; [by etrans|].
  destruct (diff_grows h h1 h2 Hs Hs2) as [Hd1 Hd2]. apply (HR (h2 ∖ h)); [done|]. exact (HQ _ _ _ Hd1 Hy).
Qed.

Lemma allocates_mono {A} (h : heap) (m : M A) (Q R : heap -> A -> Prop) :
  (forall new y, Q new y -> R new y) -> allocates h m Q -> allocates h m R.
Proof. intros HQ (y & h' & Hm & Hs & Hy). exists y, h'. auto. Qed.

(** ** The idioms keep the promise *)

Lemma stable_flat {A} : stable (@view_flat A).
Proof. by intros h h' x v _. Qed.

Lemma copying_flat {A} : copying (@view_flat A) hret.
Proof. intros h x v Hx. by apply allocates_ret. Qed.

Lemma read_weaken {A} {SA : Stored A} (h h' : heap) (l : loc) (x : A) : h ⊆ h' -> read h l = Some x -> read h' l = Some x.
Proof. unfold read. intros Hs. destruct (h !! l) eqn:E; [|done]. by rewrite (lookup_weaken _ _ _ _ E Hs). Qed.

Lemma load_read {A} {SA : Stored A} (h : heap) (l : loc) (x : A) : read h l = Some x -> load l h = Some (x, h).
Proof. unfold read, load. destruct (h !! l); [|done]. by intros ->. Qed.

Lemma allocates_alloc {A} {SA : Stored A} (h : heap) (x : A) : allocates h (alloc x) (fun new l => read new l = Some x).
Proof.
  assert (h !! fresh (dom h) = None) as Hf by (apply not_elem_of_dom, is_fresh).
  eexists _, _. split; [done|]. split; [by apply insert_subseteq|].
  unfold read. rewrite (proj2 (lookup_difference_Some _ _ _ (to_block x))); [apply of_to_block|].
  by rewrite lookup_insert_eq.
Qed.

Lemma allocates_reading {A C} (h : heap) (m : M A) (x : A) (f : A -> M C) (R : heap -> C -> Prop) :
  m h = Some (x, h) -> allocates h (f x) R -> allocates h (hbind m f) R.
Proof. intros Hm (y & h' & Hf & HR). exists y, h'. split; [|done]. unfold hbind. by rewrite Hm. Qed.

Section copies.
Context {A V : Type} (vw : viewer A V) (cp : A -> M A) (Hst : stable vw) (Hcp : copying vw cp).

Lemma stable_each (h h' : heap) (l : list A) (vs : list V) :
  h ⊆ h' -> view_each vw h l = Some vs -> view_each vw h' l = Some vs.
Proof.
  intros Hs. revert vs. induction l as [|x l IH]; intros vs; simpl; [done|].
  destruct (vw h x) as [v|] eqn:Hx; [|done]. rewrite (Hst h h' x v Hs Hx).
  destruct (view_each vw h l) as [vs'|]; [|done]. by rewrite (IH vs' eq_refl).
Qed.

Lemma copying_each (h : heap) (l : list A) (vs : list V) :
  view_each vw h l = Some vs -> allocates h (copy_each cp l) (fun new l' => view_each vw new l' = Some vs).
Proof.
  revert h vs. induction l as [|x l IH]; intros h vs; simpl; [by intros [= <-]; apply allocates_ret|].
  destruct (vw h x) as [v|] eqn:Hx; [|done]. destruct (view_each vw h l) as [vs'|] eqn:Hl; [|done]. intros [= <-].
  eapply allocates_bind; [|by apply Hcp|]; [intros ????; by apply Hst|]. intros h1 y Hs.
  eapply allocates_bind; [|apply IH; by eapply stable_each|]; [intros ????; by apply stable_each|].
  intros h2 ys _. apply allocates_ret. intros new all _ Hys all' Hsub Hy. cbn [view_each].
  by rewrite Hy, (stable_each all all' ys vs').
Qed.

Lemma stable_pointer {SA : Stored A} : stable (view_pointer vw).
Proof.
  intros h h' [l|] v Hs; simpl; [|done]. destruct (read h l) as [x|] eqn:Hx; [|done].
  rewrite (read_weaken h h' l x Hs Hx). destruct (vw h x) as [w|] eqn:Hw; [|done]. by rewrite (Hst h h' x w Hs Hw).
Qed.

Lemma copying_pointer {SA : Stored A} : copying (view_pointer vw) (copy_pointer cp).
Proof.
  intros h [l|] v; simpl; [|by intros [= <-]; apply allocates_ret]. destruct (read h l) as [x|] eqn:Hx; [|done].
  destruct (vw h x) as [w|] eqn:Hw; [|done]. intros [= <-]. eapply allocates_reading; [by apply load_read|].
  eapply allocates_bind; [|by apply Hcp|]; [intros ????; by apply Hst|]. intros h1 y _.
  eapply allocates_bind; [|apply allocates_alloc|]; [intros ????; by apply read_weaken|]. intros h2 l' _.
  apply allocates_ret. intros new all _ Hl all' Hsub Hy. cbn [view_pointer].
  by rewrite (read_weaken all all' l' y), Hy.
Qed.

Lemma stable_slice {SA : Stored (list A)} : stable (view_slice vw).
Proof.
  intros h h' [s|] v Hs; simpl; [|done]. destruct (read h (sl_array s)) as [l|] eqn:Hx; [|done].
  rewrite (read_weaken h h' _ l Hs Hx). destruct (slice_of s l) as [xs|]; [|done].
  destruct (view_each vw h xs) as [vs|] eqn:Hv; [|done]. by rewrite (stable_each h h' xs vs Hs Hv).
Qed.

Lemma slice_of_whole (l : list A) (a : loc) : slice_of {| sl_array := a; sl_offset := 0; sl_len := length l |} l = Some l.
Proof. unfold slice_of. simpl. rewrite bool_decide_true by lia. by rewrite firstn_all. Qed.

Lemma copying_slice {SA : Stored (list A)} : copying (view_slice vw) (copy_slice cp).
Proof.
  intros h [s|] v; simpl; [|by intros [= <-]; apply allocates_ret].
  destruct (read h (sl_array s)) as [l|] eqn:Hx; [|done]. destruct (slice_of s l) as [xs|] eqn:Hxs; [|done].
  destruct (view_each vw h xs) as [vs|] eqn:Hv; [|done]. intros [= <-].
  assert (load_slice s h = Some (xs, h)) as Hls.
  { unfold load_slice, hbind. by rewrite (load_read h _ l Hx), Hxs. }
  eapply allocates_reading; [done|].
  eapply allocates_bind; [|by apply copying_each|]; [intros ????; by apply stable_each|]. intros h1 ys _.
  eapply allocates_bind; [|apply allocates_alloc|]; [intros ????; by apply read_weaken|]. intros h2 l' _.
  apply allocates_ret. intros new all _ Hl all' Hsub Hy. cbn [view_slice sl_array].
  by rewrite (read_weaken all all' l' ys), slice_of_whole, Hy.
Qed.

End copies.

Lemma stable_map {SM : Stored (gmap string string)} : stable view_map.
Proof. apply stable_pointer, stable_flat. Qed.

Lemma range_inserts (l : list (string * string)) (out : gmap string string) :
  NoDup l.*1 -> foldl (fun out e => <[e.1 := e.2]> out) out l = list_to_map l ∪ out.
Proof.
  revert out. induction l as [|[k v] l IH]; intros out Hnd; simpl; [by rewrite map_empty_union|].
  apply NoDup_cons in Hnd as [Hk Hnd]. rewrite IH by done.
  rewrite <- insert_union_r by (by apply not_elem_of_list_to_map_1). by rewrite insert_union_l.
Qed.

Lemma range_copies (m : gmap string string) :
  foldl (fun out e => <[e.1 := e.2]> out) ∅ (map_to_list m) = m.
Proof. rewrite range_inserts by apply NoDup_fst_map_to_list. by rewrite map_union_empty, list_to_map_to_list. Qed.

Lemma copying_map {SM : Stored (gmap string string)} : copying view_map copy_map.
Proof.
  intros h [l|] v; simpl; [|by intros [= <-]; apply allocates_ret]. destruct (read h l) as [m|] eqn:Hm; [|done].
  intros [= <-]. eapply allocates_reading; [by apply load_read|]. rewrite range_copies.
  eapply allocates_bind; [|apply allocates_alloc|]; [intros ????; by apply read_weaken|]. intros h1 l' _.
  apply allocates_ret. intros new all _ Hl. unfold view_map. cbn [view_pointer]. by rewrite Hl.
Qed.

(** One field of a struct: what follows works with the copied field, whose
    value stays in view. *)
Lemma copying_field {A V C} (vw : viewer A V) (cp : A -> M A) (f : A -> M C) (h : heap) (x : A) (v : V)
    (R : heap -> C -> Prop) :
  vw h x = Some v -> stable vw -> copying vw cp ->
  (forall h1 y, h ⊆ h1 -> allocates h1 (f y) (fun new z => forall all, new ⊆ all -> vw all y = Some v -> R all z)) ->
  allocates h (hbind (cp x) f) R.
Proof. intros Hx Hst Hcp. apply allocates_bind; [|by apply Hcp]. intros new new' y. apply Hst. Qed.

Lemma view_grows {A V} (vw : viewer A V) (h h' : heap) (x : A) (v : V) :
  stable vw -> h ⊆ h' -> vw h x = Some v -> vw h' x = Some v.
Proof. intros Hst. apply Hst. Qed.

End heap.

Declare Scope heap_scope.
Delimit Scope heap_scope with heap.
Notation "x <~ m ;; k" := (hbind m (fun x => k)) (at level 100, m at next level, right associativity) : heap_scope.

Create HintDb views.
#[export] Hint Resolve stable_flat copying_flat stable_pointer copying_pointer stable_slice copying_slice stable_map
  copying_map : views.

(** Every value in view at a heap is in view at a larger one. *)
Ltac grow :=
  repeat match goal with
  | Hs : ?h ⊆ ?h', H : ?vw ?h ?x = Some ?v |- _ =>
      let H' := fresh "Hv" in
      assert (vw h' x = Some v) as H' by (eapply view_grows; [solve [simpl; auto with views]|exact Hs|exact H]); clear H
  end.

(** The fields in view when a struct is. *)
Ltac open_view :=
  repeat match goal with
  | H : (_ ≫= _) = Some _ |- _ => apply bind_Some in H; destruct H as (? & ? & ?)
  | H : Some _ = Some _ |- _ => injection H as <-
  end.

Ltac show_view := simpl; repeat match goal with H : ?o = Some _ |- context [?o] => rewrite H; clear H; simpl end; reflexivity.

(** A struct's view is stable when its fields' are. *)
Ltac stable_struct := intros ? ? ? ? ? ?; open_view; grow; show_view.

(** A struct's copy keeps the promise when its fields' do. *)
Ltac copying_struct :=
  intros ? ? ? ?; open_view;
  repeat (eapply copying_field; [eassumption|solve [simpl; auto with views]|solve [simpl; auto with views]|intros ? ? ?; grow]);
  apply allocates_ret; intros ?; repeat (intros ? ? ?; grow); show_view.
