(* ===== verification/ApiTypes.v ===== *)
(** * Data types

    The request and response bodies of [internal/api/types.go], the custom
    resources of [api/v1alpha1], the request types of
    [internal/controller/client.go], the fields of the Kubernetes objects the
    code reads (object metadata, pods, StatefulSets), and Go's error values.

    A Go map that is only ranged over is the association list of its entries
    in the order the iteration visits them (Go leaves that order open, so
    every theorem quantifies over it); a nil pointer or time is [None]. *)
From S2P Require Import Prelude.

(** ** Errors *)

Inductive K8sReason : Type := NotFound | AlreadyExists | Conflict | OtherReason.

#[export] Instance K8sReason_eq_dec : EqDecision K8sReason.
Proof. solve_decision. Defined.

(** [controller.HTTPError]. *)
Record HTTPError := mkHTTPError {
  he_Method : string;
  he_URL : string;
  he_Status : Z;
  he_Message : string;
}.

(** An error value.  [ErrFmt] is [fmt.Errorf] without [%w]; [ErrWrap] is [fmt.Errorf] with [%w]: text before and
    after the wrapped error.  A [Msg] is a formatted text whose [%q] and [%v]
    verbs are kept as the value they print. *)
Inductive Err : Type :=
| ErrMsg (msg : string)
| ErrFmt (msg : Msg)
| ErrK8s (reason : K8sReason) (msg : string)
| ErrHTTP (he : HTTPError)
| ErrNet (msg : string)
| ErrCtx (msg : string)
| ErrAdapter (code : Z) (msg : Msg)
| ErrWrap (before : string) (e : Err) (after : string)
with Msg : Type :=
| MNil
| MLit (s : string) (m : Msg)
| MQuote (s : string) (m : Msg)
| MErr (e : Err) (m : Msg).

(** A constant or string-only message. *)
Definition text (s : string) : Msg := MLit s MNil.

(** Go's [error] result. *)
Abbreviation error := (option Err).

(** [apierrors.ReasonForError], through [errors.As]. *)
Fixpoint k8s_reason (e : Err) : option K8sReason :=
  match e with
  | ErrK8s r _ => Some r
  | ErrWrap _ e' _ => k8s_reason e'
  | _ => None
  end.

Definition is_reason (r : K8sReason) (e : Err) : bool := bool_decide (k8s_reason e = Some r).

Definition IsNotFound : Err -> bool := is_reason NotFound.

Definition IsAlreadyExists : Err -> bool := is_reason AlreadyExists.

(** ** [internal/api/types.go] *)

Record ExecRequestBody := {
  er_SandboxID : string;
  er_SessionID : string;
  er_Owner : string;
  er_Command : string;
  er_Args : list string;
  er_Env : list (string * string);
  er_TimeoutSeconds : Z;
  er_PTY : bool;
}.

Record ExecResponseBody := {
  ex_ExitCode : Z;
  ex_Stdout : string;
  ex_Stderr : string;
  ex_TimedOut : bool;
}.

Record VMRlimit := { rl_Resource : string; rl_Soft : Z; rl_Hard : Z }.

Record VMScript := { vs_Name : string; vs_Content : string }.

Record VMConfig := {
  vm_Image : string;
  vm_MemoryMB : Z;
  vm_VCPUs : Z;
  vm_Workdir : string;
  vm_Shell : string;
  vm_Hostname : string;
  vm_User : string;
  vm_MaxDurationSec : Z;
  vm_IdleTimeoutSec : Z;
  vm_Rlimits : list VMRlimit;
  vm_Scripts : list VMScript;
  vm_SeccompString : string;
  vm_CloneNewTime : bool;
}.

Record ApiMacvlanConfig := {
  mv_Interface : string;
  mv_IP : string;
  mv_Netmask : string;
  mv_Gateway : string;
  mv_MAC : string;
}.

Record SandboxNetworkConfig := {
  nw_Enabled : option bool;
  nw_AllowInternetAccess : bool;
  nw_Macvlan : option ApiMacvlanConfig;
  nw_UsePasta : bool;
}.

Record VolumeMount := {
  vol_GuestPath : string;
  vol_Type : string;
  vol_HostPath : string;
  vol_Name : string;
  vol_SizeMB : Z;
  vol_Readonly : bool;
}.

Record SandboxPatch := {
  pa_Type : string;
  pa_Path : string;
  pa_Content : string;
  pa_Bytes : string;
  pa_HostPath : string;
  pa_Target : string;
  pa_Mode : Z;
  pa_Replace : bool;
}.

Record SandboxCreateBody := {
  cb_SandboxID : string;
  cb_TTLSeconds : Z;
  cb_Env : list (string * string);
  cb_AllowedBinaries : list string;
  cb_VM : option VMConfig;
  cb_Network : option SandboxNetworkConfig;
  cb_Volumes : list VolumeMount;
  cb_Patches : list SandboxPatch;
  cb_SetupScript : string;
  cb_TeardownScript : string;
  cb_ScriptEnv : list (string * string);
}.

Record ErrorBody := { eb_Error : Msg; eb_Code : string }.

Record SessionCreateBody := {
  sc_SandboxID : string;
  sc_SessionID : string;
  sc_Owner : string;
}.

Record SessionResponseBody := {
  sr_SessionID : string;
  sr_SandboxID : string;
  sr_Owner : string;
  sr_Phase : string;
  sr_Ready : bool;
  sr_ControllerPod : string;
  sr_ControllerAddress : string;
  sr_Port : Z;
  sr_CreatedAt : string;
  sr_ExpiresAt : string;
  sr_LastExecAt : string;
}.

Record SandboxConfigResponse := {
  scr_SandboxID : string;
  scr_TTLSeconds : Z;
  scr_ActiveSessions : Z;
}.

Record SandboxEvictResponse := { ev_EvictedSessions : Z; ev_Message : string }.

(** ** [api/v1alpha1]: custom resources *)

Definition SandboxPhasePending : string := "Pending".
Definition SandboxPhaseCreating : string := "Creating".
Definition SandboxPhaseRunning : string := "Running".
Definition SandboxPhaseDeleting : string := "Deleting".
Definition SandboxPhaseTerminated : string := "Terminated".

Definition FinalizerSandboxCleanup : string := "boxy.dev/sandbox-cleanup".
Definition FinalizerSessionCleanup : string := "boxy.dev/session-cleanup".
Definition FinalizerSandboxConfigCleanup : string := "boxy.dev/sandbox-config-cleanup".
Definition LabelSandboxID : string := "boxy.dev/sandbox-id".
Definition LabelSessionID : string := "boxy.dev/session-id".
Definition LabelOwner : string := "boxy.dev/owner".

(** The fields of [metav1.ObjectMeta] the code uses. *)
Record ObjectMeta := {
  om_Name : string;
  om_Namespace : string;
  om_ResourceVersion : string;
  om_Labels : list (string * string);
  om_Annotations : list (string * string);
  om_Finalizers : list string;
  om_DeletionTimestamp : option Z;
  om_CreationTimestamp : Z;
}.

Record SandboxSpec := {
  sp_SandboxID : string;
  sp_TTLSeconds : Z;
  sp_Env : list (string * string);
  sp_AllowedBinaries : list string;
  sp_VM : option VMConfig;
  sp_Network : option SandboxNetworkConfig;
  sp_Volumes : list VolumeMount;
  sp_Patches : list SandboxPatch;
  sp_SetupScript : string;
  sp_TeardownScript : string;
  sp_ScriptEnv : list (string * string);
}.

Record Sandbox := { sb_Meta : ObjectMeta; sb_Spec : SandboxSpec }.

Record SessionSpec := {
  ss_SessionID : string;
  ss_SandboxID : string;
  ss_Owner : string;
}.

Record SessionStatus := {
  st_Phase : string;
  st_ControllerPool : string;
  st_ControllerPod : string;
  st_ControllerAddress : string;
  st_Port : Z;
  st_CreatedAt : option Z;
  st_ExpiresAt : option Z;
  st_LastExecAt : option Z;
  st_TerminatedAt : option Z;
  st_Message : Msg;
}.

Record Session := {
  se_Meta : ObjectMeta;
  se_Spec : SessionSpec;
  se_Status : SessionStatus;
}.

Record ControllerPoolSpec := {
  cps_MaxSandboxes : Z;
  cps_MaxReplicas : Z;
  cps_MinReplicas : Z;
  cps_Image : string;
  cps_PreinstalledBinaries : list string;
}.

(** [metav1.Condition]. *)
Record Condition := {
  co_Type : string;
  co_Status : string;
  co_Reason : string;
  co_Message : string;
  co_LastTransitionTime : Z;
}.

Record ControllerPoolStatus := {
  cst_ReadyReplicas : Z;
  cst_ActiveSandboxCount : Z;
  cst_LastScaleTime : option Z;
  cst_Conditions : list Condition;
}.

Record ControllerPool := {
  cp_Meta : ObjectMeta;
  cp_Spec : ControllerPoolSpec;
  cp_Status : ControllerPoolStatus;
}.

(** The fields of [corev1.Pod] and [appsv1.StatefulSet] the code uses. *)
Record Pod := {
  pod_Meta : ObjectMeta;
  pod_Phase : string;
  pod_Conditions : list (string * string);
}.

Record StatefulSet := {
  sts_Meta : ObjectMeta;
  sts_Replicas : option Z;
  sts_ReadyReplicas : Z;
}.

(** [metav1.Time.IsZero] on an object's deletion timestamp. *)
Definition not_deleted (m : ObjectMeta) : bool :=
  match om_DeletionTimestamp m with None => true | Some _ => false end.

(** Lookup in a Go map given by its entries. *)
Fixpoint map_get (k : string) (l : list (string * string)) : option string :=
  match l with
  | [] => None
  | (k', v) :: l' => if String.eqb k k' then Some v else map_get k l'
  end.

(** ** [internal/controller/client.go]: requests to a controller *)

Record CreateSandboxReq := {
  cr_SandboxID : string;
  cr_Env : list (string * string);
  cr_AllowedBinaries : list string;
  cr_VM : option VMConfig;
  cr_Network : option SandboxNetworkConfig;
  cr_Volumes : list VolumeMount;
  cr_Patches : list SandboxPatch;
  cr_TTLSeconds : Z;
  cr_SetupScript : string;
  cr_TeardownScript : string;
  cr_ScriptEnv : list (string * string);
}.

Record ExecReq := {
  xr_SandboxID : string;
  xr_Command : string;
  xr_Args : list string;
  xr_Env : list (string * string);
  xr_TimeoutSeconds : Z;
  xr_PTY : bool;
}.

Record ExecResult := {
  xs_Stdout : string;
  xs_Stderr : string;
  xs_ExitCode : Z;
  xs_TimedOut : bool;
}.

Record FileReadReq := { fr_SandboxID : string; fr_Path : string }.

Record FileReadResult := { frr_Path : string; frr_Content : string }.

Record FileWriteReq := {
  fw_SandboxID : string;
  fw_Path : string;
  fw_Content : string;
  fw_Encoding : string;
}.

Record FileWriteResult := { fwr_Path : string; fwr_BytesWritten : Z }.

Record FileEditReq := {
  fe_SandboxID : string;
  fe_Path : string;
  fe_OldString : string;
  fe_NewString : string;
  fe_ReplaceAll : bool;
}.

Record FileEditResult := { fer_Path : string; fer_Replacements : Z }.

Record DeleteSandboxReq := { dr_SandboxID : string }.

(** One line of a streamed response. *)
Record StreamEvt := {
  se_Type : string;
  se_Data : string;
  se_Code : Z;
  se_TimedOut : bool;
}.

(** ** Field updates of a session's status *)

Definition set_Status (s : Session) (st : SessionStatus) : Session :=
  {| se_Meta := se_Meta s; se_Spec := se_Spec s; se_Status := st |}.

Definition set_Phase (p : string) (s : Session) : Session :=
  let st := se_Status s in
  set_Status s {| st_Phase := p; st_ControllerPool := st_ControllerPool st;
    st_ControllerPod := st_ControllerPod st; st_ControllerAddress := st_ControllerAddress st;
    st_Port := st_Port st; st_CreatedAt := st_CreatedAt st; st_ExpiresAt := st_ExpiresAt st;
    st_LastExecAt := st_LastExecAt st; st_TerminatedAt := st_TerminatedAt st;
    st_Message := st_Message st |}.

Definition set_Message (m : Msg) (s : Session) : Session :=
  let st := se_Status s in
  set_Status s {| st_Phase := st_Phase st; st_ControllerPool := st_ControllerPool st;
    st_ControllerPod := st_ControllerPod st; st_ControllerAddress := st_ControllerAddress st;
    st_Port := st_Port st; st_CreatedAt := st_CreatedAt st; st_ExpiresAt := st_ExpiresAt st;
    st_LastExecAt := st_LastExecAt st; st_TerminatedAt := st_TerminatedAt st;
    st_Message := m |}.

(** Pool, pod, address and port of the assigned controller. *)
Definition set_Controller (pool pod addr : string) (port : Z) (s : Session) : Session :=
  let st := se_Status s in
  set_Status s {| st_Phase := st_Phase st; st_ControllerPool := pool;
    st_ControllerPod := pod; st_ControllerAddress := addr;
    st_Port := port; st_CreatedAt := st_CreatedAt st; st_ExpiresAt := st_ExpiresAt st;
    st_LastExecAt := st_LastExecAt st; st_TerminatedAt := st_TerminatedAt st;
    st_Message := st_Message st |}.

Definition set_CreatedAt (t : Z) (s : Session) : Session :=
  let st := se_Status s in
  set_Status s {| st_Phase := st_Phase st; st_ControllerPool := st_ControllerPool st;
    st_ControllerPod := st_ControllerPod st; st_ControllerAddress := st_ControllerAddress st;
    st_Port := st_Port st; st_CreatedAt := Some t; st_ExpiresAt := st_ExpiresAt st;
    st_LastExecAt := st_LastExecAt st; st_TerminatedAt := st_TerminatedAt st;
    st_Message := st_Message st |}.

Definition set_ExpiresAt (t : Z) (s : Session) : Session :=
  let st := se_Status s in
  set_Status s {| st_Phase := st_Phase st; st_ControllerPool := st_ControllerPool st;
    st_ControllerPod := st_ControllerPod st; st_ControllerAddress := st_ControllerAddress st;
    st_Port := st_Port st; st_CreatedAt := st_CreatedAt st; st_ExpiresAt := Some t;
    st_LastExecAt := st_LastExecAt st; st_TerminatedAt := st_TerminatedAt st;
    st_Message := st_Message st |}.

Definition set_LastExecAt (t : Z) (s : Session) : Session :=
  let st := se_Status s in
  set_Status s {| st_Phase := st_Phase st; st_ControllerPool := st_ControllerPool st;
    st_ControllerPod := st_ControllerPod st; st_ControllerAddress := st_ControllerAddress st;
    st_Port := st_Port st; st_CreatedAt := st_CreatedAt st; st_ExpiresAt := st_ExpiresAt st;
    st_LastExecAt := Some t; st_TerminatedAt := st_TerminatedAt st;
    st_Message := st_Message st |}.

Definition set_TerminatedAt (t : Z) (s : Session) : Session :=
  let st := se_Status s in
  set_Status s {| st_Phase := st_Phase st; st_ControllerPool := st_ControllerPool st;
    st_ControllerPod := st_ControllerPod st; st_ControllerAddress := st_ControllerAddress st;
    st_Port := st_Port st; st_CreatedAt := st_CreatedAt st; st_ExpiresAt := st_ExpiresAt st;
    st_LastExecAt := st_LastExecAt st; st_TerminatedAt := Some t;
    st_Message := st_Message st |}.

Definition set_Meta (m : ObjectMeta) (s : Session) : Session :=
  {| se_Meta := m; se_Spec := se_Spec s; se_Status := se_Status s |}.

(** [controllerutil.ContainsFinalizer], [AddFinalizer] and [RemoveFinalizer]. *)
Definition ContainsFinalizer (m : ObjectMeta) (f : string) : bool :=
  existsb (String.eqb f) (om_Finalizers m).

Definition set_Finalizers (fs : list string) (m : ObjectMeta) : ObjectMeta :=
  {| om_Name := om_Name m; om_Namespace := om_Namespace m;
     om_ResourceVersion := om_ResourceVersion m; om_Labels := om_Labels m;
     om_Annotations := om_Annotations m; om_Finalizers := fs;
     om_DeletionTimestamp := om_DeletionTimestamp m;
     om_CreationTimestamp := om_CreationTimestamp m |}.

Definition AddFinalizer (m : ObjectMeta) (f : string) : ObjectMeta :=
  if ContainsFinalizer m f then m else set_Finalizers (om_Finalizers m ++ [f]) m.

Definition RemoveFinalizer (m : ObjectMeta) (f : string) : ObjectMeta :=
  set_Finalizers (List.filter (fun g => negb (String.eqb f g)) (om_Finalizers m)) m.

(** ** Lemmas *)

Lemma ContainsFinalizer_spec (m : ObjectMeta) (f : string) :
  ContainsFinalizer m f = true <-> f ∈ om_Finalizers m.
Proof.
  unfold ContainsFinalizer. rewrite existsb_exists. split.
  - intros (g & Hg & ->%String.eqb_eq). by apply list_elem_of_In.
  - intros Hf. exists f. split; [by apply list_elem_of_In|apply String.eqb_refl].
Qed.

Lemma RemoveFinalizer_spec (m : ObjectMeta) (f g : string) :
  g ∈ om_Finalizers (RemoveFinalizer m f) <-> g <> f /\ g ∈ om_Finalizers m.
Proof.
  unfold RemoveFinalizer. simpl. rewrite !list_elem_of_In, filter_In. split.
  - intros [Hg Hn]. bool_hyps. split; [congruence|done].
  - intros [Hn Hg]. split; [done|]. apply negb_true_iff, String.eqb_neq. congruence.
Qed.
