(* ===== verification/DeepCopy.v ===== *)
(** * Deep copies: [api/v1alpha1/zz_generated.deepcopy.go]

    The custom resources as they lie in memory, with their pointers, slices and
    maps, and the [DeepCopyInto], [DeepCopy] and [DeepCopyObject] methods over
    the heap of [GoHeap].  A struct is declared once for both of its readings:
    with references into a heap, and as a plain value ([Refs]).

    The operator and the router change copies of objects that caches and
    informers share.  The theorem shows that this is safe: a copy has the
    original's value, and neither sees a later change of the other.  The rest of
    the development therefore treats objects as values.

    The copies of [metav1.ObjectMeta], [ListMeta], [Time] and [Condition] are
    those of the Kubernetes libraries, parameters here. *)
From S2P Require Import Prelude GoHeap ApiTypes.
Open Scope heap_scope.

Module Mem.

(** How references, and the types of the Kubernetes libraries, are represented. *)
Class Refs := {
  ptr : Type -> Type;
  arr : Type -> Type;
  mp : Type;
  objectMeta : Type;
  listMeta : Type;
  time : Type;
  condition : Type;
}.

Section types.
Context {R : Refs}.

Record TypeMeta := { tm_Kind : string; tm_APIVersion : string }.

(** [api.VMConfig] and [api.SandboxNetworkConfig]; the other types of
    [internal/api] a spec contains have no references. *)
Record VMConfig := {
  v_Image : string;
  v_MemoryMB : Z;
  v_VCPUs : Z;
  v_Workdir : string;
  v_Shell : string;
  v_Hostname : string;
  v_User : string;
  v_MaxDurationSec : Z;
  v_IdleTimeoutSec : Z;
  v_Rlimits : arr VMRlimit;
  v_Scripts : arr VMScript;
  v_SeccompString : string;
  v_CloneNewTime : bool;
}.

Record SandboxNetworkConfig := {
  n_Enabled : ptr bool;
  n_AllowInternetAccess : bool;
  n_Macvlan : ptr ApiMacvlanConfig;
  n_UsePasta : bool;
}.

Record SandboxSpec := {
  s_SandboxID : string;
  s_TTLSeconds : Z;
  s_Env : mp;
  s_AllowedBinaries : arr string;
  s_VM : ptr VMConfig;
  s_Network : ptr SandboxNetworkConfig;
  s_Volumes : arr VolumeMount;
  s_Patches : arr SandboxPatch;
  s_SetupScript : string;
  s_TeardownScript : string;
  s_ScriptEnv : mp;
}.

Record SessionStatus := {
  t_Phase : string;
  t_ControllerPool : string;
  t_ControllerPod : string;
  t_ControllerAddress : string;
  t_Port : Z;
  t_CreatedAt : ptr time;
  t_ExpiresAt : ptr time;
  t_LastExecAt : ptr time;
  t_TerminatedAt : ptr time;
  t_Message : string;
}.

Record ControllerPoolSpec := {
  p_MaxSandboxes : Z;
  p_MaxReplicas : Z;
  p_MinReplicas : Z;
  p_Image : string;
  p_PreinstalledBinaries : arr string;
}.

Record ControllerPoolStatus := {
  q_ReadyReplicas : Z;
  q_ActiveSandboxCount : Z;
  q_LastScaleTime : ptr time;
  q_Conditions : arr condition;
}.

(** The three kinds of object: [Spec] and [Status] under their metadata. *)
Record Sandbox := { sbx_TypeMeta : TypeMeta; sbx_ObjectMeta : objectMeta; sbx_Spec : SandboxSpec }.

Record Session := {
  sess_TypeMeta : TypeMeta;
  sess_ObjectMeta : objectMeta;
  sess_Spec : SessionSpec;
  sess_Status : SessionStatus;
}.

Record ControllerPool := {
  cpl_TypeMeta : TypeMeta;
  cpl_ObjectMeta : objectMeta;
  cpl_Spec : ControllerPoolSpec;
  cpl_Status : ControllerPoolStatus;
}.

(** A list object: [SandboxList], [SessionList], [ControllerPoolList]. *)
Record ListOf (A : Type) := { li_TypeMeta : TypeMeta; li_ListMeta : listMeta; li_Items : arr A }.

Definition SandboxList : Type := ListOf Sandbox.

Definition SessionList : Type := ListOf Session.

Definition ControllerPoolList : Type := ListOf ControllerPool.

End types.

Arguments li_TypeMeta {R A} _.
Arguments li_ListMeta {R A} _.
Arguments li_Items {R A} _.

(** ** The heap of objects *)

(** The Kubernetes types: in memory, with the blocks they refer to, and as
    values. *)
Class ExtTypes := {
  ObjectMeta_m : Type; ObjectMeta_v : Type;
  ListMeta_m : Type; ListMeta_v : Type;
  Time_m : Type; Time_v : Type;
  Condition_m : Type; Condition_v : Type;
  ext_block : Type;
}.

Section memory.
Context {E : ExtTypes}.

Definition in_heap : Refs := {|
  ptr _ := pointer; arr _ := option slice; mp := pointer; objectMeta := ObjectMeta_m;
  listMeta := ListMeta_m; time := Time_m; condition := Condition_m |}.

Definition as_value : Refs := {|
  ptr := option; arr A := option (list A); mp := option (gmap string string); objectMeta := ObjectMeta_v;
  listMeta := ListMeta_v; time := Time_v; condition := Condition_v |}.

Inductive object_block : Type :=
| KStrings (l : list string)
| KMap (m : gmap string string)
| KBool (b : bool)
| KMacvlan (m : ApiMacvlanConfig)
| KRlimits (l : list VMRlimit)
| KScripts (l : list VMScript)
| KVolumes (l : list VolumeMount)
| KPatches (l : list SandboxPatch)
| KTime (t : Time_m)
| KConditions (l : list Condition_m)
| KVM (v : @VMConfig in_heap)
| KNetwork (n : @SandboxNetworkConfig in_heap)
| KSandboxSpec (s : @SandboxSpec in_heap)
| KSessionSpec (s : SessionSpec)
| KSessionStatus (s : @SessionStatus in_heap)
| KPoolSpec (s : @ControllerPoolSpec in_heap)
| KPoolStatus (s : @ControllerPoolStatus in_heap)
| KSandbox (s : @Sandbox in_heap)
| KSandboxes (l : list (@Sandbox in_heap))
| KSandboxList (l : @SandboxList in_heap)
| KSession (s : @Session in_heap)
| KSessions (l : list (@Session in_heap))
| KSessionList (l : @SessionList in_heap)
| KPool (p : @ControllerPool in_heap)
| KPools (l : list (@ControllerPool in_heap))
| KPoolList (l : @ControllerPoolList in_heap)
| KExt (b : ext_block).

#[export] Instance object_blocks : Blocks := {| block := object_block |}.

#[export] Instance stored_strings : Stored (list string) :=
  {| to_block := KStrings; of_block b := match b with KStrings x => Some x | _ => None end; of_to_block _ := eq_refl |}.
#[export] Instance stored_map : Stored (gmap string string) :=
  {| to_block := KMap; of_block b := match b with KMap x => Some x | _ => None end; of_to_block _ := eq_refl |}.
#[export] Instance stored_bool : Stored (bool) :=
  {| to_block := KBool; of_block b := match b with KBool x => Some x | _ => None end; of_to_block _ := eq_refl |}.
#[export] Instance stored_macvlan : Stored (ApiMacvlanConfig) :=
  {| to_block := KMacvlan; of_block b := match b with KMacvlan x => Some x | _ => None end; of_to_block _ := eq_refl |}.
#[export] Instance stored_rlimits : Stored (list VMRlimit) :=
  {| to_block := KRlimits; of_block b := match b with KRlimits x => Some x | _ => None end; of_to_block _ := eq_refl |}.
#[export] Instance stored_scripts : Stored (list VMScript) :=
  {| to_block := KScripts; of_block b := match b with KScripts x => Some x | _ => None end; of_to_block _ := eq_refl |}.
#[export] Instance stored_volumes : Stored (list VolumeMount) :=
  {| to_block := KVolumes; of_block b := match b with KVolumes x => Some x | _ => None end; of_to_block _ := eq_refl |}.
#[export] Instance stored_patches : Stored (list SandboxPatch) :=
  {| to_block := KPatches; of_block b := match b with KPatches x => Some x | _ => None end; of_to_block _ := eq_refl |}.
#[export] Instance stored_time : Stored (Time_m) :=
  {| to_block := KTime; of_block b := match b with KTime x => Some x | _ => None end; of_to_block _ := eq_refl |}.
#[export] Instance stored_conditions : Stored (list Condition_m) :=
  {| to_block := KConditions; of_block b := match b with KConditions x => Some x | _ => None end; of_to_block _ := eq_refl |}.
#[export] Instance stored_vm : Stored (@VMConfig in_heap) :=
  {| to_block := KVM; of_block b := match b with KVM x => Some x | _ => None end; of_to_block _ := eq_refl |}.
#[export] Instance stored_network : Stored (@SandboxNetworkConfig in_heap) :=
  {| to_block := KNetwork; of_block b := match b with KNetwork x => Some x | _ => None end; of_to_block _ := eq_refl |}.
#[export] Instance stored_sandboxspec : Stored (@SandboxSpec in_heap) :=
  {| to_block := KSandboxSpec; of_block b := match b with KSandboxSpec x => Some x | _ => None end; of_to_block _ := eq_refl |}.
#[export] Instance stored_sessionspec : Stored (SessionSpec) :=
  {| to_block := KSessionSpec; of_block b := match b with KSessionSpec x => Some x | _ => None end; of_to_block _ := eq_refl |}.
#[export] Instance stored_sessionstatus : Stored (@SessionStatus in_heap) :=
  {| to_block := KSessionStatus; of_block b := match b with KSessionStatus x => Some x | _ => None end; of_to_block _ := eq_refl |}.
#[export] Instance stored_poolspec : Stored (@ControllerPoolSpec in_heap) :=
  {| to_block := KPoolSpec; of_block b := match b with KPoolSpec x => Some x | _ => None end; of_to_block _ := eq_refl |}.
#[export] Instance stored_poolstatus : Stored (@ControllerPoolStatus in_heap) :=
  {| to_block := KPoolStatus; of_block b := match b with KPoolStatus x => Some x | _ => None end; of_to_block _ := eq_refl |}.
#[export] Instance stored_sandbox : Stored (@Sandbox in_heap) :=
  {| to_block := KSandbox; of_block b := match b with KSandbox x => Some x | _ => None end; of_to_block _ := eq_refl |}.
#[export] Instance stored_sandboxes : Stored (list (@Sandbox in_heap)) :=
  {| to_block := KSandboxes; of_block b := match b with KSandboxes x => Some x | _ => None end; of_to_block _ := eq_refl |}.
#[export] Instance stored_sandboxlist : Stored (@ListOf in_heap (@Sandbox in_heap)) :=
  {| to_block := KSandboxList; of_block b := match b with KSandboxList x => Some x | _ => None end; of_to_block _ := eq_refl |}.
#[export] Instance stored_session : Stored (@Session in_heap) :=
  {| to_block := KSession; of_block b := match b with KSession x => Some x | _ => None end; of_to_block _ := eq_refl |}.
#[export] Instance stored_sessions : Stored (list (@Session in_heap)) :=
  {| to_block := KSessions; of_block b := match b with KSessions x => Some x | _ => None end; of_to_block _ := eq_refl |}.
#[export] Instance stored_sessionlist : Stored (@ListOf in_heap (@Session in_heap)) :=
  {| to_block := KSessionList; of_block b := match b with KSessionList x => Some x | _ => None end; of_to_block _ := eq_refl |}.
#[export] Instance stored_pool : Stored (@ControllerPool in_heap) :=
  {| to_block := KPool; of_block b := match b with KPool x => Some x | _ => None end; of_to_block _ := eq_refl |}.
#[export] Instance stored_pools : Stored (list (@ControllerPool in_heap)) :=
  {| to_block := KPools; of_block b := match b with KPools x => Some x | _ => None end; of_to_block _ := eq_refl |}.
#[export] Instance stored_poollist : Stored (@ListOf in_heap (@ControllerPool in_heap)) :=
  {| to_block := KPoolList; of_block b := match b with KPoolList x => Some x | _ => None end; of_to_block _ := eq_refl |}.

(** The copying methods of the Kubernetes types, and how their values are read. *)
Class ExtCopy := {
  view_ObjectMeta : viewer ObjectMeta_m ObjectMeta_v;
  ObjectMeta_DeepCopyInto : ObjectMeta_m -> M ObjectMeta_m;
  view_ListMeta : viewer ListMeta_m ListMeta_v;
  ListMeta_DeepCopyInto : ListMeta_m -> M ListMeta_m;
  view_Time : viewer Time_m Time_v;
  Time_DeepCopy : pointer -> M pointer;
  view_Condition : viewer Condition_m Condition_v;
  Condition_DeepCopyInto : Condition_m -> M Condition_m;
}.

(** They are deep copies. *)
Class ExtLaws (X : ExtCopy) : Prop := {
  stable_ObjectMeta : stable view_ObjectMeta;
  copying_ObjectMeta : copying view_ObjectMeta ObjectMeta_DeepCopyInto;
  stable_ListMeta : stable view_ListMeta;
  copying_ListMeta : copying view_ListMeta ListMeta_DeepCopyInto;
  stable_Time : stable view_Time;
  copying_Time : copying (view_pointer view_Time) Time_DeepCopy;
  stable_Condition : stable view_Condition;
  copying_Condition : copying view_Condition Condition_DeepCopyInto;
}.

Section copies.
Context {X : ExtCopy}.

(** ** The methods; [DeepCopyInto] returns what it leaves in [*out] *)

Definition deepCopyVMConfig (i : @VMConfig in_heap) : M (@VMConfig in_heap) :=
  rlimits <~ copy_slice (A := VMRlimit) hret (v_Rlimits i) ;;
  scripts <~ copy_slice (A := VMScript) hret (v_Scripts i) ;;
  hret {| v_Image := v_Image i; v_MemoryMB := v_MemoryMB i; v_VCPUs := v_VCPUs i; v_Workdir := v_Workdir i;
          v_Shell := v_Shell i; v_Hostname := v_Hostname i; v_User := v_User i;
          v_MaxDurationSec := v_MaxDurationSec i; v_IdleTimeoutSec := v_IdleTimeoutSec i;
          v_Rlimits := rlimits : @arr in_heap VMRlimit; v_Scripts := scripts : @arr in_heap VMScript;
          v_SeccompString := v_SeccompString i; v_CloneNewTime := v_CloneNewTime i |}.

Definition deepCopyNetworkConfig (i : @SandboxNetworkConfig in_heap) : M (@SandboxNetworkConfig in_heap) :=
  enabled <~ copy_pointer (A := bool) hret (n_Enabled i) ;;
  macvlan <~ copy_pointer (A := ApiMacvlanConfig) hret (n_Macvlan i) ;;
  hret {| n_Enabled := enabled : @ptr in_heap bool; n_AllowInternetAccess := n_AllowInternetAccess i;
          n_Macvlan := macvlan : @ptr in_heap ApiMacvlanConfig; n_UsePasta := n_UsePasta i |}.

Definition SandboxSpec_DeepCopyInto (i : @SandboxSpec in_heap) : M (@SandboxSpec in_heap) :=
  env <~ copy_map (s_Env i) ;;
  bins <~ copy_slice (A := string) hret (s_AllowedBinaries i) ;;
  vm <~ copy_pointer deepCopyVMConfig (s_VM i) ;;
  network <~ copy_pointer deepCopyNetworkConfig (s_Network i) ;;
  volumes <~ copy_slice (A := VolumeMount) hret (s_Volumes i) ;;
  patches <~ copy_slice (A := SandboxPatch) hret (s_Patches i) ;;
  scriptEnv <~ copy_map (s_ScriptEnv i) ;;
  hret {| s_SandboxID := s_SandboxID i; s_TTLSeconds := s_TTLSeconds i; s_Env := env : @mp in_heap;
          s_AllowedBinaries := bins : @arr in_heap string; s_VM := vm : @ptr in_heap (@VMConfig in_heap);
          s_Network := network : @ptr in_heap (@SandboxNetworkConfig in_heap);
          s_Volumes := volumes : @arr in_heap VolumeMount; s_Patches := patches : @arr in_heap SandboxPatch;
          s_SetupScript := s_SetupScript i; s_TeardownScript := s_TeardownScript i;
          s_ScriptEnv := scriptEnv : @mp in_heap |}.

Definition SessionSpec_DeepCopyInto (i : SessionSpec) : M SessionSpec := hret i.

(** [if in.F != nil { out.F = in.F.DeepCopy() }]. *)
Definition copy_time (p : pointer) : M pointer :=
  match p with
  | None => hret None
  | Some _ => Time_DeepCopy p
  end.

Definition SessionStatus_DeepCopyInto (i : @SessionStatus in_heap) : M (@SessionStatus in_heap) :=
  created <~ copy_time (t_CreatedAt i) ;;
  expires <~ copy_time (t_ExpiresAt i) ;;
  lastExec <~ copy_time (t_LastExecAt i) ;;
  terminated <~ copy_time (t_TerminatedAt i) ;;
  hret {| t_Phase := t_Phase i; t_ControllerPool := t_ControllerPool i; t_ControllerPod := t_ControllerPod i;
          t_ControllerAddress := t_ControllerAddress i; t_Port := t_Port i;
          t_CreatedAt := created : @ptr in_heap (@time in_heap); t_ExpiresAt := expires : @ptr in_heap (@time in_heap);
          t_LastExecAt := lastExec : @ptr in_heap (@time in_heap);
          t_TerminatedAt := terminated : @ptr in_heap (@time in_heap); t_Message := t_Message i |}.

Definition ControllerPoolSpec_DeepCopyInto (i : @ControllerPoolSpec in_heap) : M (@ControllerPoolSpec in_heap) :=
  bins <~ copy_slice (A := string) hret (p_PreinstalledBinaries i) ;;
  hret {| p_MaxSandboxes := p_MaxSandboxes i; p_MaxReplicas := p_MaxReplicas i; p_MinReplicas := p_MinReplicas i;
          p_Image := p_Image i; p_PreinstalledBinaries := bins : @arr in_heap string |}.

Definition ControllerPoolStatus_DeepCopyInto (i : @ControllerPoolStatus in_heap) : M (@ControllerPoolStatus in_heap) :=
  scaled <~ copy_time (q_LastScaleTime i) ;;
  conditions <~ copy_slice (A := Condition_m) Condition_DeepCopyInto (q_Conditions i) ;;
  hret {| q_ReadyReplicas := q_ReadyReplicas i; q_ActiveSandboxCount := q_ActiveSandboxCount i;
          q_LastScaleTime := scaled : @ptr in_heap (@time in_heap);
          q_Conditions := conditions : @arr in_heap (@condition in_heap) |}.

Definition Sandbox_DeepCopyInto (i : @Sandbox in_heap) : M (@Sandbox in_heap) :=
  meta <~ ObjectMeta_DeepCopyInto (sbx_ObjectMeta i) ;;
  spec <~ SandboxSpec_DeepCopyInto (sbx_Spec i) ;;
  hret {| sbx_TypeMeta := sbx_TypeMeta i; sbx_ObjectMeta := meta : @objectMeta in_heap; sbx_Spec := spec |}.

Definition Session_DeepCopyInto (i : @Session in_heap) : M (@Session in_heap) :=
  meta <~ ObjectMeta_DeepCopyInto (sess_ObjectMeta i) ;;
  status <~ SessionStatus_DeepCopyInto (sess_Status i) ;;
  hret {| sess_TypeMeta := sess_TypeMeta i; sess_ObjectMeta := meta : @objectMeta in_heap;
          sess_Spec := sess_Spec i; sess_Status := status |}.

Definition ControllerPool_DeepCopyInto (i : @ControllerPool in_heap) : M (@ControllerPool in_heap) :=
  meta <~ ObjectMeta_DeepCopyInto (cpl_ObjectMeta i) ;;
  spec <~ ControllerPoolSpec_DeepCopyInto (cpl_Spec i) ;;
  status <~ ControllerPoolStatus_DeepCopyInto (cpl_Status i) ;;
  hret {| cpl_TypeMeta := cpl_TypeMeta i; cpl_ObjectMeta := meta : @objectMeta in_heap;
          cpl_Spec := spec; cpl_Status := status |}.

(** The three lists, by the copy of their items. *)
Definition list_DeepCopyInto {A} {SA : Stored (list A)} (copyInto : A -> M A) (i : @ListOf in_heap A)
    : M (@ListOf in_heap A) :=
  meta <~ ListMeta_DeepCopyInto (li_ListMeta i) ;;
  items <~ copy_slice (A := A) copyInto (li_Items i) ;;
  hret {| li_TypeMeta := li_TypeMeta i; li_ListMeta := meta : @listMeta in_heap; li_Items := items : @arr in_heap A |}.

Definition SandboxList_DeepCopyInto : @ListOf in_heap (@Sandbox in_heap) -> M (@ListOf in_heap (@Sandbox in_heap)) :=
  list_DeepCopyInto Sandbox_DeepCopyInto.

Definition SessionList_DeepCopyInto : @ListOf in_heap (@Session in_heap) -> M (@ListOf in_heap (@Session in_heap)) :=
  list_DeepCopyInto Session_DeepCopyInto.

Definition ControllerPoolList_DeepCopyInto
    : @ListOf in_heap (@ControllerPool in_heap) -> M (@ListOf in_heap (@ControllerPool in_heap)) :=
  list_DeepCopyInto ControllerPool_DeepCopyInto.

(** [DeepCopy]: nil for nil, else [out := new(T); in.DeepCopyInto(out)]. *)
Definition DeepCopy {A} {SA : Stored A} (copyInto : A -> M A) (i : pointer) : M pointer := copy_pointer copyInto i.

(** [DeepCopyObject]: the nil interface for a nil copy. *)
Definition DeepCopyObject (copy : pointer -> M pointer) (i : pointer) : M pointer :=
  c <~ copy i ;;
  match c with Some l => hret (Some l) | None => hret None end.

Definition Sandbox_DeepCopy : pointer -> M pointer := DeepCopy Sandbox_DeepCopyInto.
Definition SandboxList_DeepCopy : pointer -> M pointer := DeepCopy SandboxList_DeepCopyInto.
Definition Session_DeepCopy : pointer -> M pointer := DeepCopy Session_DeepCopyInto.
Definition SessionList_DeepCopy : pointer -> M pointer := DeepCopy SessionList_DeepCopyInto.
Definition ControllerPool_DeepCopy : pointer -> M pointer := DeepCopy ControllerPool_DeepCopyInto.
Definition ControllerPoolList_DeepCopy : pointer -> M pointer := DeepCopy ControllerPoolList_DeepCopyInto.
Definition SandboxSpec_DeepCopy : pointer -> M pointer := DeepCopy SandboxSpec_DeepCopyInto.
Definition SessionSpec_DeepCopy : pointer -> M pointer := DeepCopy SessionSpec_DeepCopyInto.
Definition SessionStatus_DeepCopy : pointer -> M pointer := DeepCopy SessionStatus_DeepCopyInto.
Definition ControllerPoolSpec_DeepCopy : pointer -> M pointer := DeepCopy ControllerPoolSpec_DeepCopyInto.
Definition ControllerPoolStatus_DeepCopy : pointer -> M pointer := DeepCopy ControllerPoolStatus_DeepCopyInto.

Definition Sandbox_DeepCopyObject : pointer -> M pointer := DeepCopyObject Sandbox_DeepCopy.
Definition SandboxList_DeepCopyObject : pointer -> M pointer := DeepCopyObject SandboxList_DeepCopy.
Definition Session_DeepCopyObject : pointer -> M pointer := DeepCopyObject Session_DeepCopy.
Definition SessionList_DeepCopyObject : pointer -> M pointer := DeepCopyObject SessionList_DeepCopy.
Definition ControllerPool_DeepCopyObject : pointer -> M pointer := DeepCopyObject ControllerPool_DeepCopy.
Definition ControllerPoolList_DeepCopyObject : pointer -> M pointer := DeepCopyObject ControllerPoolList_DeepCopy.

(** ** The values of objects *)

Definition view_VMConfig : viewer (@VMConfig in_heap) (@VMConfig as_value) := fun h i =>
  rlimits ← view_slice (A := VMRlimit) view_flat h (v_Rlimits i);
  scripts ← view_slice (A := VMScript) view_flat h (v_Scripts i);
  Some {| v_Image := v_Image i; v_MemoryMB := v_MemoryMB i; v_VCPUs := v_VCPUs i; v_Workdir := v_Workdir i;
          v_Shell := v_Shell i; v_Hostname := v_Hostname i; v_User := v_User i;
          v_MaxDurationSec := v_MaxDurationSec i; v_IdleTimeoutSec := v_IdleTimeoutSec i;
          v_Rlimits := rlimits : @arr as_value VMRlimit; v_Scripts := scripts : @arr as_value VMScript;
          v_SeccompString := v_SeccompString i; v_CloneNewTime := v_CloneNewTime i |}.

Definition view_NetworkConfig : viewer (@SandboxNetworkConfig in_heap) (@SandboxNetworkConfig as_value) := fun h i =>
  enabled ← view_pointer (A := bool) view_flat h (n_Enabled i);
  macvlan ← view_pointer (A := ApiMacvlanConfig) view_flat h (n_Macvlan i);
  Some {| n_Enabled := enabled : @ptr as_value bool; n_AllowInternetAccess := n_AllowInternetAccess i;
          n_Macvlan := macvlan : @ptr as_value ApiMacvlanConfig; n_UsePasta := n_UsePasta i |}.

Definition view_SandboxSpec : viewer (@SandboxSpec in_heap) (@SandboxSpec as_value) := fun h i =>
  env ← view_map h (s_Env i);
  bins ← view_slice (A := string) view_flat h (s_AllowedBinaries i);
  vm ← view_pointer view_VMConfig h (s_VM i);
  network ← view_pointer view_NetworkConfig h (s_Network i);
  volumes ← view_slice (A := VolumeMount) view_flat h (s_Volumes i);
  patches ← view_slice (A := SandboxPatch) view_flat h (s_Patches i);
  scriptEnv ← view_map h (s_ScriptEnv i);
  Some {| s_SandboxID := s_SandboxID i; s_TTLSeconds := s_TTLSeconds i; s_Env := env : @mp as_value;
          s_AllowedBinaries := bins : @arr as_value string; s_VM := vm : @ptr as_value (@VMConfig as_value);
          s_Network := network : @ptr as_value (@SandboxNetworkConfig as_value);
          s_Volumes := volumes : @arr as_value VolumeMount; s_Patches := patches : @arr as_value SandboxPatch;
          s_SetupScript := s_SetupScript i; s_TeardownScript := s_TeardownScript i;
          s_ScriptEnv := scriptEnv : @mp as_value |}.

Definition view_time : viewer pointer (option Time_v) := view_pointer view_Time.

Definition view_SessionStatus : viewer (@SessionStatus in_heap) (@SessionStatus as_value) := fun h i =>
  created ← view_time h (t_CreatedAt i);
  expires ← view_time h (t_ExpiresAt i);
  lastExec ← view_time h (t_LastExecAt i);
  terminated ← view_time h (t_TerminatedAt i);
  Some {| t_Phase := t_Phase i; t_ControllerPool := t_ControllerPool i; t_ControllerPod := t_ControllerPod i;
          t_ControllerAddress := t_ControllerAddress i; t_Port := t_Port i;
          t_CreatedAt := created : @ptr as_value (@time as_value); t_ExpiresAt := expires : @ptr as_value (@time as_value);
          t_LastExecAt := lastExec : @ptr as_value (@time as_value);
          t_TerminatedAt := terminated : @ptr as_value (@time as_value); t_Message := t_Message i |}.

Definition view_PoolSpec : viewer (@ControllerPoolSpec in_heap) (@ControllerPoolSpec as_value) := fun h i =>
  bins ← view_slice (A := string) view_flat h (p_PreinstalledBinaries i);
  Some {| p_MaxSandboxes := p_MaxSandboxes i; p_MaxReplicas := p_MaxReplicas i; p_MinReplicas := p_MinReplicas i;
          p_Image := p_Image i; p_PreinstalledBinaries := bins : @arr as_value string |}.

Definition view_PoolStatus : viewer (@ControllerPoolStatus in_heap) (@ControllerPoolStatus as_value) := fun h i =>
  scaled ← view_time h (q_LastScaleTime i);
  conditions ← view_slice (A := Condition_m) view_Condition h (q_Conditions i);
  Some {| q_ReadyReplicas := q_ReadyReplicas i; q_ActiveSandboxCount := q_ActiveSandboxCount i;
          q_LastScaleTime := scaled : @ptr as_value (@time as_value);
          q_Conditions := conditions : @arr as_value (@condition as_value) |}.

Definition view_Sandbox : viewer (@Sandbox in_heap) (@Sandbox as_value) := fun h i =>
  meta ← view_ObjectMeta h (sbx_ObjectMeta i);
  spec ← view_SandboxSpec h (sbx_Spec i);
  Some {| sbx_TypeMeta := sbx_TypeMeta i; sbx_ObjectMeta := meta : @objectMeta as_value; sbx_Spec := spec |}.

Definition view_Session : viewer (@Session in_heap) (@Session as_value) := fun h i =>
  meta ← view_ObjectMeta h (sess_ObjectMeta i);
  status ← view_SessionStatus h (sess_Status i);
  Some {| sess_TypeMeta := sess_TypeMeta i; sess_ObjectMeta := meta : @objectMeta as_value;
          sess_Spec := sess_Spec i; sess_Status := status |}.

Definition view_ControllerPool : viewer (@ControllerPool in_heap) (@ControllerPool as_value) := fun h i =>
  meta ← view_ObjectMeta h (cpl_ObjectMeta i);
  spec ← view_PoolSpec h (cpl_Spec i);
  status ← view_PoolStatus h (cpl_Status i);
  Some {| cpl_TypeMeta := cpl_TypeMeta i; cpl_ObjectMeta := meta : @objectMeta as_value;
          cpl_Spec := spec; cpl_Status := status |}.

Definition view_list {A V} {SA : Stored (list A)} (vw : viewer A V) : viewer (@ListOf in_heap A) (@ListOf as_value V) :=
  fun h i =>
  meta ← view_ListMeta h (li_ListMeta i);
  items ← view_slice vw h (li_Items i);
  Some {| li_TypeMeta := li_TypeMeta i; li_ListMeta := meta : @listMeta as_value; li_Items := items : @arr as_value V |}.

(** ** Correctness *)

Context {L : ExtLaws X}.

#[local] Hint Resolve stable_ObjectMeta copying_ObjectMeta stable_ListMeta copying_ListMeta stable_Time copying_Time
  stable_Condition copying_Condition : views.

Lemma stable_VMConfig : stable view_VMConfig.
Proof. unfold view_VMConfig. stable_struct. Qed.

Lemma copying_VMConfig : copying view_VMConfig deepCopyVMConfig.
Proof. unfold view_VMConfig, deepCopyVMConfig. copying_struct. Qed.

#[local] Hint Resolve stable_VMConfig copying_VMConfig : views.

Lemma stable_NetworkConfig : stable view_NetworkConfig.
Proof. unfold view_NetworkConfig. stable_struct. Qed.

Lemma copying_NetworkConfig : copying view_NetworkConfig deepCopyNetworkConfig.
Proof. unfold view_NetworkConfig, deepCopyNetworkConfig. copying_struct. Qed.

#[local] Hint Resolve stable_NetworkConfig copying_NetworkConfig : views.

Lemma stable_SandboxSpec : stable view_SandboxSpec.
Proof. unfold view_SandboxSpec. stable_struct. Qed.

Lemma copying_SandboxSpec : copying view_SandboxSpec SandboxSpec_DeepCopyInto.
Proof. unfold view_SandboxSpec, SandboxSpec_DeepCopyInto. copying_struct. Qed.

#[local] Hint Resolve stable_SandboxSpec copying_SandboxSpec : views.

Lemma stable_time : stable view_time.
Proof. apply stable_pointer, stable_Time. Qed.

Lemma copying_time : copying view_time copy_time.
Proof.
  intros h [l|] v; [apply copying_Time|]. simpl. intros [= <-]. by apply allocates_ret.
Qed.

#[local] Hint Resolve stable_time copying_time : views.

Lemma stable_SessionStatus : stable view_SessionStatus.
Proof. unfold view_SessionStatus. stable_struct. Qed.

Lemma copying_SessionStatus : copying view_SessionStatus SessionStatus_DeepCopyInto.
Proof. unfold view_SessionStatus, SessionStatus_DeepCopyInto. copying_struct. Qed.

#[local] Hint Resolve stable_SessionStatus copying_SessionStatus : views.

Lemma stable_PoolSpec : stable view_PoolSpec.
Proof. unfold view_PoolSpec. stable_struct. Qed.

Lemma copying_PoolSpec : copying view_PoolSpec ControllerPoolSpec_DeepCopyInto.
Proof. unfold view_PoolSpec, ControllerPoolSpec_DeepCopyInto. copying_struct. Qed.

#[local] Hint Resolve stable_PoolSpec copying_PoolSpec : views.

Lemma stable_PoolStatus : stable view_PoolStatus.
Proof. unfold view_PoolStatus. stable_struct. Qed.

Lemma copying_PoolStatus : copying view_PoolStatus ControllerPoolStatus_DeepCopyInto.
Proof. unfold view_PoolStatus, ControllerPoolStatus_DeepCopyInto. copying_struct. Qed.

#[local] Hint Resolve stable_PoolStatus copying_PoolStatus : views.

Lemma stable_Sandbox : stable view_Sandbox.
Proof. unfold view_Sandbox. stable_struct. Qed.

Lemma copying_Sandbox : copying view_Sandbox Sandbox_DeepCopyInto.
Proof. unfold view_Sandbox, Sandbox_DeepCopyInto. copying_struct. Qed.

#[local] Hint Resolve stable_Sandbox copying_Sandbox : views.

Lemma stable_Session : stable view_Session.
Proof. unfold view_Session. stable_struct. Qed.

Lemma copying_Session : copying view_Session Session_DeepCopyInto.
Proof. unfold view_Session, Session_DeepCopyInto. copying_struct. Qed.

#[local] Hint Resolve stable_Session copying_Session : views.

Lemma stable_ControllerPool : stable view_ControllerPool.
Proof. unfold view_ControllerPool. stable_struct. Qed.

Lemma copying_ControllerPool : copying view_ControllerPool ControllerPool_DeepCopyInto.
Proof. unfold view_ControllerPool, ControllerPool_DeepCopyInto. copying_struct. Qed.

#[local] Hint Resolve stable_ControllerPool copying_ControllerPool : views.

Lemma stable_list {A V} {SA : Stored (list A)} (vw : viewer A V) : stable vw -> stable (view_list vw).
Proof. intros Hst. unfold view_list. stable_struct. Qed.

Lemma copying_list {A V} {SA : Stored (list A)} (vw : viewer A V) (cp : A -> M A) :
  stable vw -> copying vw cp -> copying (view_list vw) (list_DeepCopyInto cp).
Proof. intros Hst Hcp. unfold view_list, list_DeepCopyInto. copying_struct. Qed.

(** The copy of whatever [p] points to has the same value; the original is read
    from the old blocks and the copy from the new ones, so that changing either
    leaves the other as it was; nil is copied to nil. *)
Definition isolated {A V} {SA : Stored A} (vw : viewer A V) (copy : pointer -> M pointer) : Prop :=
  forall h p v, view_pointer vw h p = Some v ->
  exists q h', copy p h = Some (q, h') /\ (p = None <-> q = None) /\
    (forall later, h ⊆ later -> view_pointer vw later p = Some v) /\
    (forall later, h' ∖ h ⊆ later -> view_pointer vw later q = Some v).

Lemma copying_isolated {A V} {SA : Stored A} (vw : viewer A V) (cp : A -> M A) :
  stable vw -> copying vw cp -> isolated vw (DeepCopy cp).
Proof.
  intros Hst Hcp h p v Hp. pose proof (stable_pointer vw Hst) as Hsp.
  destruct (copying_pointer vw cp Hst Hcp h p v Hp) as (q & h' & Hq & Hs & Hv). exists q, h'. split_and!.
  - exact Hq.
  - destruct p as [l|], q as [l'|]; cbn [view_pointer] in Hp, Hv; try done; exfalso; repeat case_match; congruence.
  - intros later Hl. by eapply Hsp.
  - intros later Hl. by eapply Hsp.
Qed.

Lemma object_isolated {A V} {SA : Stored A} (vw : viewer A V) (copy : pointer -> M pointer) :
  isolated vw copy -> isolated vw (DeepCopyObject copy).
Proof.
  intros Hc h p v Hp. destruct (Hc h p v Hp) as (q & h' & Hq & Hr). exists q, h'. split; [|done].
  unfold DeepCopyObject, hbind. rewrite Hq. by destruct q.
Qed.

(** C23: the deep copies of every type of the API group are equal to the
    original and share nothing with it: objects, object lists, specs and
    statuses, through every pointer, slice, map and nested struct. *)
Theorem deep_copies_isolated :
  isolated view_Sandbox Sandbox_DeepCopyObject /\
  isolated (view_list view_Sandbox) SandboxList_DeepCopyObject /\
  isolated view_Session Session_DeepCopyObject /\
  isolated (view_list view_Session) SessionList_DeepCopyObject /\
  isolated view_ControllerPool ControllerPool_DeepCopyObject /\
  isolated (view_list view_ControllerPool) ControllerPoolList_DeepCopyObject /\
  isolated view_SandboxSpec SandboxSpec_DeepCopy /\
  isolated (A := SessionSpec) view_flat SessionSpec_DeepCopy /\
  isolated view_SessionStatus SessionStatus_DeepCopy /\
  isolated view_PoolSpec ControllerPoolSpec_DeepCopy /\
  isolated view_PoolStatus ControllerPoolStatus_DeepCopy.
Proof.
  split_and!; try apply object_isolated; apply copying_isolated;
    first [apply stable_flat|apply copying_flat|apply stable_list|apply copying_list|idtac]; auto with views.
Qed.

End copies.

End memory.

(** ** An instance *)

(** Metadata with a name and labels. *)
#[export] Instance sample_types : ExtTypes := {|
  ObjectMeta_m := string * pointer; ObjectMeta_v := string * option (gmap string string);
  ListMeta_m := string; ListMeta_v := string; Time_m := Z; Time_v := Z;
  Condition_m := string * Z; Condition_v := string * Z; ext_block := unit |}.

#[export] Instance sample_ext : ExtCopy := {|
  view_ObjectMeta := fun h (m : @ObjectMeta_m sample_types) => labels ← view_map h m.2; Some (m.1, labels);
  ObjectMeta_DeepCopyInto := fun m => labels <~ copy_map m.2 ;; hret (m.1, labels);
  view_ListMeta := view_flat; ListMeta_DeepCopyInto := hret;
  view_Time := view_flat; Time_DeepCopy := copy_pointer (A := Z) (SA := stored_time (E := sample_types)) hret;
  view_Condition := view_flat; Condition_DeepCopyInto := hret |}.

Lemma sample_ext_laws : ExtLaws sample_ext.
Proof.
  split; try (apply stable_flat || apply copying_flat).
  - unfold view_ObjectMeta, sample_ext. stable_struct.
  - unfold view_ObjectMeta, ObjectMeta_DeepCopyInto, sample_ext. copying_struct.
  - apply copying_pointer; [apply stable_flat|apply copying_flat].
Qed.

(** A sandbox whose specification refers to a map, a slice and a nested struct. *)
Definition sample_object : @Sandbox (in_heap (E := sample_types)) := {|
  sbx_TypeMeta := {| tm_Kind := "Sandbox"; tm_APIVersion := "boxy.dev/v1alpha1" |};
  sbx_ObjectMeta := ("demo", Some 2%positive) : @objectMeta (in_heap (E := sample_types));
  sbx_Spec := {| s_SandboxID := "demo"; s_TTLSeconds := 60;
    s_Env := Some 3%positive : @mp (in_heap (E := sample_types));
    s_AllowedBinaries := Some {| sl_array := 4%positive; sl_offset := 1; sl_len := 1 |} : @arr (in_heap (E := sample_types)) string;
    s_VM := None : @ptr (in_heap (E := sample_types)) VMConfig;
    s_Network := Some 5%positive : @ptr (in_heap (E := sample_types)) SandboxNetworkConfig;
    s_Volumes := None : @arr (in_heap (E := sample_types)) VolumeMount;
    s_Patches := None : @arr (in_heap (E := sample_types)) SandboxPatch;
    s_SetupScript := ""; s_TeardownScript := ""; s_ScriptEnv := None : @mp (in_heap (E := sample_types)) |} |}.

Definition sample_heap : gmap loc (@block (object_blocks (E := sample_types))) :=
  <[1%positive := KSandbox sample_object]>
  (<[2%positive := KMap {[ "a" := "b" ]}]>
  (<[3%positive := KMap {[ "PATH" := "/bin" ]}]>
  (<[4%positive := KStrings ["ls"; "cat"]]>
  (<[5%positive := KNetwork {| n_Enabled := Some 6%positive : @ptr (in_heap (E := sample_types)) bool;
       n_AllowInternetAccess := true; n_Macvlan := None : @ptr (in_heap (E := sample_types)) ApiMacvlanConfig;
       n_UsePasta := false |}]>
  (<[6%positive := KBool true]> ∅))))).

Lemma deep_copies_isolated_witness : exists v q h',
  view_pointer view_Sandbox sample_heap (Some 1%positive) = Some (Some v) /\
  Sandbox_DeepCopyObject (Some 1%positive) sample_heap = Some (Some q, h') /\
  view_pointer view_Sandbox (h' ∖ sample_heap) (Some q) = Some (Some v).
Proof.
  destruct (deep_copies_isolated (L := sample_ext_laws)) as (H & _).
  assert (exists v, view_pointer view_Sandbox sample_heap (Some 1%positive) = Some (Some v)) as [v Hv]
    by (eexists; vm_compute; reflexivity).
  destruct (H sample_heap (Some 1%positive) (Some v) Hv) as (q & h' & Hq & Hn & _ & Hc).
  destruct q as [q|]; [|by destruct Hn as [_ Hn]; specialize (Hn eq_refl)].
  exists v, q, h'. split_and!; [done|done|]. by apply Hc.
Defined.

End Mem.
