(* ===== verification/ApiCodec.v ===== *)
(** * The JSON of the API

    The struct tags of [internal/api/types.go], of the requests and results in
    [internal/controller/client.go], and of the controller's own request and
    response types in [cmd/boxy-controller/server.go], which are declared apart
    from the client's.  Each type's codec is its fields, in order, with their
    names and whether [omitempty] drops their zero value. *)
From S2P Require Import Prelude GoStrings GoMux GoJson GoCodec ApiTypes.
Open Scope boxy_scope.

(** Fields by the type of their value: [tag] has a plain tag, [tag_omit] one with
    [omitempty]. *)
Definition tag {B T} {C : Codec B} (name : string) (F : Fields T) : Fields (B * T) := field C name false F.
Definition tag_omit {B T} {C : Codec B} (name : string) (F : Fields T) : Fields (B * T) := field C name true F.

#[export] Instance tag_laws {B T} {C : Codec B} {L : CodecLaws C} {name : string} {F : Fields T} {LF : FieldsLaws F} :
  FieldsLaws (tag name F) := field_laws.
#[export] Instance tag_omit_laws {B T} {C : Codec B} {L : CodecLaws C} {name : string} {F : Fields T} {LF : FieldsLaws F} :
  FieldsLaws (tag_omit name F) := field_laws.

(** A tuple is the fields of a record built from it. *)
Ltac tuple_iso :=
  let t := fresh "t" in intros t;
  repeat match type of t with (_ * _)%type => destruct t as [? t] end; destruct t; reflexivity.
Ltac struct_tac := eapply struct_laws; [tuple_iso|reflexivity].

(** ** [internal/api/types.go] *)

Module Api.

#[export] Instance VMRlimit_codec : Codec VMRlimit :=
  struct_codec
    (tag (B := string) "resource" (tag (C := uint64_codec) "soft" (tag (C := uint64_codec) "hard" no_fields)))
    (fun r => (rl_Resource r, (rl_Soft r, (rl_Hard r, tt))))
    (fun '(a, (b, (c, _))) => {| rl_Resource := a; rl_Soft := b; rl_Hard := c |}).

#[export] Instance VMScript_codec : Codec VMScript :=
  struct_codec (tag (B := string) "name" (tag (B := string) "content" no_fields))
    (fun r => (vs_Name r, (vs_Content r, tt)))
    (fun '(a, (b, _)) => {| vs_Name := a; vs_Content := b |}).

#[export] Instance VMConfig_codec : Codec VMConfig :=
  struct_codec
    (tag_omit (B := string) "image" (tag_omit (B := Z) "memoryMb" (tag_omit (B := Z) "vcpus" (tag_omit (B := string) "workdir"
    (tag_omit (B := string) "shell" (tag_omit (B := string) "hostname" (tag_omit (B := string) "user"
    (tag_omit (B := Z) "maxDurationSec" (tag_omit (B := Z) "idleTimeoutSec" (tag_omit (B := list VMRlimit) "rlimits"
    (tag_omit (B := list VMScript) "scripts" (tag_omit (B := string) "seccompString" (tag_omit (B := bool) "cloneNewTime"
    no_fields)))))))))))))
    (fun v => (vm_Image v, (vm_MemoryMB v, (vm_VCPUs v, (vm_Workdir v, (vm_Shell v, (vm_Hostname v, (vm_User v,
      (vm_MaxDurationSec v, (vm_IdleTimeoutSec v, (vm_Rlimits v, (vm_Scripts v, (vm_SeccompString v,
      (vm_CloneNewTime v, tt))))))))))))))
    (fun '(a, (b, (c, (d, (e, (f, (g, (h, (i, (j, (k, (l, (m, _))))))))))))) =>
      {| vm_Image := a; vm_MemoryMB := b; vm_VCPUs := c; vm_Workdir := d; vm_Shell := e; vm_Hostname := f;
         vm_User := g; vm_MaxDurationSec := h; vm_IdleTimeoutSec := i; vm_Rlimits := j; vm_Scripts := k;
         vm_SeccompString := l; vm_CloneNewTime := m |}).

#[export] Instance MacvlanConfig_codec : Codec ApiMacvlanConfig :=
  struct_codec
    (tag (B := string) "interface" (tag_omit (B := string) "ip" (tag_omit (B := string) "netmask"
    (tag_omit (B := string) "gateway" (tag_omit (B := string) "mac" no_fields)))))
    (fun r => (mv_Interface r, (mv_IP r, (mv_Netmask r, (mv_Gateway r, (mv_MAC r, tt))))))
    (fun '(a, (b, (c, (d, (e, _))))) =>
      {| mv_Interface := a; mv_IP := b; mv_Netmask := c; mv_Gateway := d; mv_MAC := e |}).

#[export] Instance SandboxNetworkConfig_codec : Codec SandboxNetworkConfig :=
  struct_codec
    (tag_omit (B := option bool) "enabled" (tag_omit (B := bool) "allowInternetAccess"
    (tag_omit (B := option ApiMacvlanConfig) "macvlan" (tag_omit (B := bool) "usePasta" no_fields))))
    (fun r => (nw_Enabled r, (nw_AllowInternetAccess r, (nw_Macvlan r, (nw_UsePasta r, tt)))))
    (fun '(a, (b, (c, (d, _)))) =>
      {| nw_Enabled := a; nw_AllowInternetAccess := b; nw_Macvlan := c; nw_UsePasta := d |}).

#[export] Instance VolumeMount_codec : Codec VolumeMount :=
  struct_codec
    (tag (B := string) "guestPath" (tag (B := string) "type" (tag_omit (B := string) "hostPath"
    (tag_omit (B := string) "name" (tag_omit (B := Z) "sizeMb" (tag_omit (B := bool) "readonly" no_fields))))))
    (fun v => (vol_GuestPath v, (vol_Type v, (vol_HostPath v, (vol_Name v, (vol_SizeMB v, (vol_Readonly v, tt)))))))
    (fun '(a, (b, (c, (d, (e, (f, _)))))) =>
      {| vol_GuestPath := a; vol_Type := b; vol_HostPath := c; vol_Name := d; vol_SizeMB := e; vol_Readonly := f |}).

#[export] Instance SandboxPatch_codec : Codec SandboxPatch :=
  struct_codec
    (tag (B := string) "type" (tag (B := string) "path" (tag_omit (B := string) "content"
    (tag_omit (B := string) "bytes" (tag_omit (B := string) "hostPath" (tag_omit (B := string) "target"
    (tag_omit (B := Z) "mode" (tag_omit (B := bool) "replace" no_fields))))))))
    (fun p => (pa_Type p, (pa_Path p, (pa_Content p, (pa_Bytes p, (pa_HostPath p, (pa_Target p, (pa_Mode p,
      (pa_Replace p, tt)))))))))
    (fun '(a, (b, (c, (d, (e, (f, (g, (h, _)))))))) =>
      {| pa_Type := a; pa_Path := b; pa_Content := c; pa_Bytes := d; pa_HostPath := e; pa_Target := f;
         pa_Mode := g; pa_Replace := h |}).

#[export] Instance ExecRequestBody_codec : Codec ExecRequestBody :=
  struct_codec
    (tag (B := string) "sandboxId" (tag_omit (B := string) "sessionId" (tag_omit (B := string) "owner"
    (tag (B := string) "command" (tag (B := list string) "args" (tag (B := entries) "env"
    (tag (B := Z) "timeoutSeconds" (tag_omit (B := bool) "pty" no_fields))))))))
    (fun r => (er_SandboxID r, (er_SessionID r, (er_Owner r, (er_Command r, (er_Args r, (er_Env r,
    (er_TimeoutSeconds r, (er_PTY r, tt)))))))))
    (fun '(a, (b, (c, (d, (e, (f, (g, (h, _)))))))) =>
      {| er_SandboxID := a; er_SessionID := b; er_Owner := c; er_Command := d; er_Args := e; er_Env := f;
      er_TimeoutSeconds := g; er_PTY := h |}).

#[export] Instance ExecResponseBody_codec : Codec ExecResponseBody :=
  struct_codec
    (tag (B := Z) "exitCode" (tag (B := string) "stdout" (tag (B := string) "stderr"
    (tag_omit (B := bool) "timedOut" no_fields))))
    (fun r => (ex_ExitCode r, (ex_Stdout r, (ex_Stderr r, (ex_TimedOut r, tt)))))
    (fun '(a, (b, (c, (d, _)))) =>
      {| ex_ExitCode := a; ex_Stdout := b; ex_Stderr := c; ex_TimedOut := d |}).

#[export] Instance SandboxCreateBody_codec : Codec SandboxCreateBody :=
  struct_codec
    (tag (B := string) "sandboxId" (tag_omit (B := Z) "ttlSeconds" (tag_omit (B := entries) "env"
    (tag_omit (B := list string) "allowedBinaries" (tag_omit (B := option VMConfig) "vm"
    (tag_omit (B := option SandboxNetworkConfig) "network" (tag_omit (B := list VolumeMount) "volumes"
    (tag_omit (B := list SandboxPatch) "patches" (tag_omit (B := string) "setupScript"
    (tag_omit (B := string) "teardownScript" (tag_omit (B := entries) "scriptEnv" no_fields)))))))))))
    (fun r => (cb_SandboxID r, (cb_TTLSeconds r, (cb_Env r, (cb_AllowedBinaries r, (cb_VM r, (cb_Network r,
    (cb_Volumes r, (cb_Patches r, (cb_SetupScript r, (cb_TeardownScript r, (cb_ScriptEnv r, tt))))))))))))
    (fun '(a, (b, (c, (d, (e, (f, (g, (h, (i, (j, (k, _))))))))))) =>
      {| cb_SandboxID := a; cb_TTLSeconds := b; cb_Env := c; cb_AllowedBinaries := d; cb_VM := e;
      cb_Network := f; cb_Volumes := g; cb_Patches := h; cb_SetupScript := i; cb_TeardownScript := j;
      cb_ScriptEnv := k |}).

#[export] Instance SessionCreateBody_codec : Codec SessionCreateBody :=
  struct_codec
    (tag (B := string) "sandboxId" (tag_omit (B := string) "sessionId" (tag_omit (B := string) "owner" no_fields)))
    (fun r => (sc_SandboxID r, (sc_SessionID r, (sc_Owner r, tt))))
    (fun '(a, (b, (c, _))) =>
      {| sc_SandboxID := a; sc_SessionID := b; sc_Owner := c |}).

#[export] Instance SessionResponseBody_codec : Codec SessionResponseBody :=
  struct_codec
    (tag (B := string) "sessionId" (tag (B := string) "sandboxId" (tag_omit (B := string) "owner"
    (tag (B := string) "phase" (tag (B := bool) "ready" (tag_omit (B := string) "controllerPod"
    (tag_omit (B := string) "controllerAddress" (tag_omit (C := int32_codec) "port" (tag_omit (B := string) "createdAt"
    (tag_omit (B := string) "expiresAt" (tag_omit (B := string) "lastExecAt" no_fields)))))))))))
    (fun r => (sr_SessionID r, (sr_SandboxID r, (sr_Owner r, (sr_Phase r, (sr_Ready r, (sr_ControllerPod r,
    (sr_ControllerAddress r, (sr_Port r, (sr_CreatedAt r, (sr_ExpiresAt r, (sr_LastExecAt r, tt))))))))))))
    (fun '(a, (b, (c, (d, (e, (f, (g, (h, (i, (j, (k, _))))))))))) =>
      {| sr_SessionID := a; sr_SandboxID := b; sr_Owner := c; sr_Phase := d; sr_Ready := e;
      sr_ControllerPod := f; sr_ControllerAddress := g; sr_Port := h; sr_CreatedAt := i; sr_ExpiresAt := j;
      sr_LastExecAt := k |}).

#[export] Instance SandboxConfigResponse_codec : Codec SandboxConfigResponse :=
  struct_codec
    (tag (B := string) "sandboxId" (tag_omit (B := Z) "ttlSeconds" (tag (B := Z) "activeSessions" no_fields)))
    (fun r => (scr_SandboxID r, (scr_TTLSeconds r, (scr_ActiveSessions r, tt))))
    (fun '(a, (b, (c, _))) =>
      {| scr_SandboxID := a; scr_TTLSeconds := b; scr_ActiveSessions := c |}).

(** [SessionListResponse] and [SandboxConfigListResponse], by their items. *)
Definition SessionListResponse_codec : Codec (list SessionResponseBody) :=
  struct_codec (tag (B := list SessionResponseBody) "sessions" no_fields) (fun l => (l, tt)) (fun '(l, _) => l).

Definition SandboxConfigListResponse_codec : Codec (list SandboxConfigResponse) :=
  struct_codec (tag (B := list SandboxConfigResponse) "sandboxes" no_fields) (fun l => (l, tt)) (fun '(l, _) => l).

#[export] Instance SandboxEvictResponse_codec : Codec SandboxEvictResponse :=
  struct_codec
    (tag (B := Z) "evictedSessions" (tag (B := string) "message" no_fields))
    (fun r => (ev_EvictedSessions r, (ev_Message r, tt)))
    (fun '(a, (b, _)) =>
      {| ev_EvictedSessions := a; ev_Message := b |}).

(** [ErrorBody], by its text. *)
Record ErrorText := { et_Error : string; et_Code : string }.

#[export] Instance ErrorBody_codec : Codec ErrorText :=
  struct_codec
    (tag (B := string) "error" (tag_omit (B := string) "code" no_fields))
    (fun r => (et_Error r, (et_Code r, tt)))
    (fun '(a, (b, _)) =>
      {| et_Error := a; et_Code := b |}).

#[export] Instance VMRlimit_laws : CodecLaws VMRlimit_codec.
Proof. struct_tac. Defined.
#[export] Instance VMScript_laws : CodecLaws VMScript_codec.
Proof. struct_tac. Defined.
#[export] Instance VMConfig_laws : CodecLaws VMConfig_codec.
Proof. struct_tac. Defined.
#[export] Instance MacvlanConfig_laws : CodecLaws MacvlanConfig_codec.
Proof. struct_tac. Defined.
#[export] Instance SandboxNetworkConfig_laws : CodecLaws SandboxNetworkConfig_codec.
Proof. struct_tac. Defined.
#[export] Instance VolumeMount_laws : CodecLaws VolumeMount_codec.
Proof. struct_tac. Defined.
#[export] Instance SandboxPatch_laws : CodecLaws SandboxPatch_codec.
Proof. struct_tac. Defined.
#[export] Instance ExecRequestBody_laws : CodecLaws ExecRequestBody_codec.
Proof. struct_tac. Defined.
#[export] Instance ExecResponseBody_laws : CodecLaws ExecResponseBody_codec.
Proof. struct_tac. Defined.
#[export] Instance SandboxCreateBody_laws : CodecLaws SandboxCreateBody_codec.
Proof. struct_tac. Defined.
#[export] Instance SessionCreateBody_laws : CodecLaws SessionCreateBody_codec.
Proof. struct_tac. Defined.
#[export] Instance SessionResponseBody_laws : CodecLaws SessionResponseBody_codec.
Proof. struct_tac. Defined.
#[export] Instance SandboxConfigResponse_laws : CodecLaws SandboxConfigResponse_codec.
Proof. struct_tac. Defined.
#[export] Instance SandboxEvictResponse_laws : CodecLaws SandboxEvictResponse_codec.
Proof. struct_tac. Defined.
#[export] Instance ErrorBody_laws : CodecLaws ErrorBody_codec.
Proof. struct_tac. Defined.
#[export] Instance SessionListResponse_laws : CodecLaws SessionListResponse_codec.
Proof. struct_tac. Defined.
#[export] Instance SandboxConfigListResponse_laws : CodecLaws SandboxConfigListResponse_codec.
Proof. struct_tac. Defined.

End Api.
Export Api.

(** ** [internal/controller/client.go] *)

Module Client.

Definition CreateSandboxReq_codec : Codec CreateSandboxReq :=
  struct_codec
    (tag (B := string) "sandbox_id" (tag_omit (B := entries) "env" (tag_omit (B := list string) "allowed_binaries"
    (tag_omit (B := option VMConfig) "vm" (tag_omit (B := option SandboxNetworkConfig) "network"
    (tag_omit (B := list VolumeMount) "volumes" (tag_omit (B := list SandboxPatch) "patches"
    (tag_omit (B := Z) "ttl_seconds" (tag_omit (B := string) "setup_script" (tag_omit (B := string) "teardown_script"
    (tag_omit (B := entries) "script_env" no_fields)))))))))))
    (fun r => (cr_SandboxID r, (cr_Env r, (cr_AllowedBinaries r, (cr_VM r, (cr_Network r, (cr_Volumes r,
    (cr_Patches r, (cr_TTLSeconds r, (cr_SetupScript r, (cr_TeardownScript r, (cr_ScriptEnv r, tt))))))))))))
    (fun '(a, (b, (c, (d, (e, (f, (g, (h, (i, (j, (k, _))))))))))) =>
      {| cr_SandboxID := a; cr_Env := b; cr_AllowedBinaries := c; cr_VM := d; cr_Network := e; cr_Volumes := f;
      cr_Patches := g; cr_TTLSeconds := h; cr_SetupScript := i; cr_TeardownScript := j; cr_ScriptEnv := k |}).

Definition ExecReq_codec : Codec ExecReq :=
  struct_codec
    (tag (B := string) "sandbox_id" (tag (B := string) "command" (tag_omit (B := list string) "args"
    (tag_omit (B := entries) "env" (tag_omit (B := Z) "timeout_seconds" (tag_omit (B := bool) "pty" no_fields))))))
    (fun r => (xr_SandboxID r, (xr_Command r, (xr_Args r, (xr_Env r, (xr_TimeoutSeconds r, (xr_PTY r, tt)))))))
    (fun '(a, (b, (c, (d, (e, (f, _)))))) =>
      {| xr_SandboxID := a; xr_Command := b; xr_Args := c; xr_Env := d; xr_TimeoutSeconds := e; xr_PTY := f |}).

Definition ExecResult_codec : Codec ExecResult :=
  struct_codec
    (tag (B := string) "stdout" (tag (B := string) "stderr" (tag (B := Z) "exit_code"
    (tag (B := bool) "timed_out" no_fields))))
    (fun r => (xs_Stdout r, (xs_Stderr r, (xs_ExitCode r, (xs_TimedOut r, tt)))))
    (fun '(a, (b, (c, (d, _)))) =>
      {| xs_Stdout := a; xs_Stderr := b; xs_ExitCode := c; xs_TimedOut := d |}).

Definition FileReadReq_codec : Codec FileReadReq :=
  struct_codec
    (tag (B := string) "sandbox_id" (tag (B := string) "path" no_fields))
    (fun r => (fr_SandboxID r, (fr_Path r, tt)))
    (fun '(a, (b, _)) =>
      {| fr_SandboxID := a; fr_Path := b |}).

Definition FileReadResult_codec : Codec FileReadResult :=
  struct_codec
    (tag (B := string) "path" (tag (B := string) "content" no_fields))
    (fun r => (frr_Path r, (frr_Content r, tt)))
    (fun '(a, (b, _)) =>
      {| frr_Path := a; frr_Content := b |}).

Definition FileWriteReq_codec : Codec FileWriteReq :=
  struct_codec
    (tag (B := string) "sandbox_id" (tag (B := string) "path" (tag (B := string) "content"
    (tag_omit (B := string) "encoding" no_fields))))
    (fun r => (fw_SandboxID r, (fw_Path r, (fw_Content r, (fw_Encoding r, tt)))))
    (fun '(a, (b, (c, (d, _)))) =>
      {| fw_SandboxID := a; fw_Path := b; fw_Content := c; fw_Encoding := d |}).

Definition FileWriteResult_codec : Codec FileWriteResult :=
  struct_codec
    (tag (B := string) "path" (tag (B := Z) "bytes_written" no_fields))
    (fun r => (fwr_Path r, (fwr_BytesWritten r, tt)))
    (fun '(a, (b, _)) =>
      {| fwr_Path := a; fwr_BytesWritten := b |}).

Definition FileEditReq_codec : Codec FileEditReq :=
  struct_codec
    (tag (B := string) "sandbox_id" (tag (B := string) "path" (tag (B := string) "old_string"
    (tag (B := string) "new_string" (tag_omit (B := bool) "replace_all" no_fields)))))
    (fun r => (fe_SandboxID r, (fe_Path r, (fe_OldString r, (fe_NewString r, (fe_ReplaceAll r, tt))))))
    (fun '(a, (b, (c, (d, (e, _))))) =>
      {| fe_SandboxID := a; fe_Path := b; fe_OldString := c; fe_NewString := d; fe_ReplaceAll := e |}).

Definition FileEditResult_codec : Codec FileEditResult :=
  struct_codec
    (tag (B := string) "path" (tag (B := Z) "replacements" no_fields))
    (fun r => (fer_Path r, (fer_Replacements r, tt)))
    (fun '(a, (b, _)) =>
      {| fer_Path := a; fer_Replacements := b |}).

Definition DeleteSandboxReq_codec : Codec DeleteSandboxReq :=
  struct_codec
    (tag (B := string) "sandbox_id" no_fields)
    (fun r => (dr_SandboxID r, tt))
    (fun '(a, _) =>
      {| dr_SandboxID := a |}).

(** The event of a streamed line. *)
Definition evt_codec : Codec StreamEvt :=
  struct_codec
    (tag (B := string) "type" (tag (B := string) "data" (tag (B := Z) "code"
    (tag (B := bool) "timedOut" no_fields))))
    (fun r => (se_Type r, (se_Data r, (se_Code r, (se_TimedOut r, tt)))))
    (fun '(a, (b, (c, (d, _)))) =>
      {| se_Type := a; se_Data := b; se_Code := c; se_TimedOut := d |}).

#[global] Instance CreateSandboxReq_laws : CodecLaws CreateSandboxReq_codec.
Proof. struct_tac. Defined.
#[global] Instance ExecReq_laws : CodecLaws ExecReq_codec.
Proof. struct_tac. Defined.
#[global] Instance ExecResult_laws : CodecLaws ExecResult_codec.
Proof. struct_tac. Defined.
#[global] Instance FileReadReq_laws : CodecLaws FileReadReq_codec.
Proof. struct_tac. Defined.
#[global] Instance FileReadResult_laws : CodecLaws FileReadResult_codec.
Proof. struct_tac. Defined.
#[global] Instance FileWriteReq_laws : CodecLaws FileWriteReq_codec.
Proof. struct_tac. Defined.
#[global] Instance FileWriteResult_laws : CodecLaws FileWriteResult_codec.
Proof. struct_tac. Defined.
#[global] Instance FileEditReq_laws : CodecLaws FileEditReq_codec.
Proof. struct_tac. Defined.
#[global] Instance FileEditResult_laws : CodecLaws FileEditResult_codec.
Proof. struct_tac. Defined.
#[global] Instance DeleteSandboxReq_laws : CodecLaws DeleteSandboxReq_codec.
Proof. struct_tac. Defined.

End Client.

(** ** [cmd/boxy-controller/server.go] *)

Module Server.

Definition createSandboxReq_codec : Codec CreateSandboxReq :=
  struct_codec
    (tag (B := string) "sandbox_id" (tag_omit (B := entries) "env" (tag_omit (B := list string) "allowed_binaries"
    (tag_omit (B := option VMConfig) "vm" (tag_omit (B := option SandboxNetworkConfig) "network"
    (tag_omit (B := list VolumeMount) "volumes" (tag_omit (B := list SandboxPatch) "patches"
    (tag_omit (B := Z) "ttl_seconds" (tag_omit (B := string) "setup_script" (tag_omit (B := string) "teardown_script"
    (tag_omit (B := entries) "script_env" no_fields)))))))))))
    (fun r => (cr_SandboxID r, (cr_Env r, (cr_AllowedBinaries r, (cr_VM r, (cr_Network r, (cr_Volumes r,
    (cr_Patches r, (cr_TTLSeconds r, (cr_SetupScript r, (cr_TeardownScript r, (cr_ScriptEnv r, tt))))))))))))
    (fun '(a, (b, (c, (d, (e, (f, (g, (h, (i, (j, (k, _))))))))))) =>
      {| cr_SandboxID := a; cr_Env := b; cr_AllowedBinaries := c; cr_VM := d; cr_Network := e; cr_Volumes := f;
      cr_Patches := g; cr_TTLSeconds := h; cr_SetupScript := i; cr_TeardownScript := j; cr_ScriptEnv := k |}).

Definition execReq_codec : Codec ExecReq :=
  struct_codec
    (tag (B := string) "sandbox_id" (tag (B := string) "command" (tag_omit (B := list string) "args"
    (tag_omit (B := entries) "env" (tag_omit (B := Z) "timeout_seconds" (tag_omit (B := bool) "pty" no_fields))))))
    (fun r => (xr_SandboxID r, (xr_Command r, (xr_Args r, (xr_Env r, (xr_TimeoutSeconds r, (xr_PTY r, tt)))))))
    (fun '(a, (b, (c, (d, (e, (f, _)))))) =>
      {| xr_SandboxID := a; xr_Command := b; xr_Args := c; xr_Env := d; xr_TimeoutSeconds := e; xr_PTY := f |}).

Definition execResp_codec : Codec ExecResult :=
  struct_codec
    (tag (B := string) "stdout" (tag (B := string) "stderr" (tag (B := Z) "exit_code"
    (tag (B := bool) "timed_out" no_fields))))
    (fun r => (xs_Stdout r, (xs_Stderr r, (xs_ExitCode r, (xs_TimedOut r, tt)))))
    (fun '(a, (b, (c, (d, _)))) =>
      {| xs_Stdout := a; xs_Stderr := b; xs_ExitCode := c; xs_TimedOut := d |}).

Definition fileReadReq_codec : Codec FileReadReq :=
  struct_codec
    (tag (B := string) "sandbox_id" (tag (B := string) "path" no_fields))
    (fun r => (fr_SandboxID r, (fr_Path r, tt)))
    (fun '(a, (b, _)) =>
      {| fr_SandboxID := a; fr_Path := b |}).

Definition fileReadResp_codec : Codec FileReadResult :=
  struct_codec
    (tag (B := string) "path" (tag (B := string) "content" no_fields))
    (fun r => (frr_Path r, (frr_Content r, tt)))
    (fun '(a, (b, _)) =>
      {| frr_Path := a; frr_Content := b |}).

Definition fileWriteReq_codec : Codec FileWriteReq :=
  struct_codec
    (tag (B := string) "sandbox_id" (tag (B := string) "path" (tag (B := string) "content"
    (tag_omit (B := string) "encoding" no_fields))))
    (fun r => (fw_SandboxID r, (fw_Path r, (fw_Content r, (fw_Encoding r, tt)))))
    (fun '(a, (b, (c, (d, _)))) =>
      {| fw_SandboxID := a; fw_Path := b; fw_Content := c; fw_Encoding := d |}).

Definition fileWriteResp_codec : Codec FileWriteResult :=
  struct_codec
    (tag (B := string) "path" (tag (B := Z) "bytes_written" no_fields))
    (fun r => (fwr_Path r, (fwr_BytesWritten r, tt)))
    (fun '(a, (b, _)) =>
      {| fwr_Path := a; fwr_BytesWritten := b |}).

Definition fileEditReq_codec : Codec FileEditReq :=
  struct_codec
    (tag (B := string) "sandbox_id" (tag (B := string) "path" (tag (B := string) "old_string"
    (tag (B := string) "new_string" (tag_omit (B := bool) "replace_all" no_fields)))))
    (fun r => (fe_SandboxID r, (fe_Path r, (fe_OldString r, (fe_NewString r, (fe_ReplaceAll r, tt))))))
    (fun '(a, (b, (c, (d, (e, _))))) =>
      {| fe_SandboxID := a; fe_Path := b; fe_OldString := c; fe_NewString := d; fe_ReplaceAll := e |}).

Definition fileEditResp_codec : Codec FileEditResult :=
  struct_codec
    (tag (B := string) "path" (tag (B := Z) "replacements" no_fields))
    (fun r => (fer_Path r, (fer_Replacements r, tt)))
    (fun '(a, (b, _)) =>
      {| fer_Path := a; fer_Replacements := b |}).

Definition deleteSandboxReq_codec : Codec DeleteSandboxReq :=
  struct_codec
    (tag (B := string) "sandbox_id" no_fields)
    (fun r => (dr_SandboxID r, tt))
    (fun '(a, _) =>
      {| dr_SandboxID := a |}).

(** [createSandboxResp], [sandboxSummary] and [listSandboxesResp]. *)
Definition createSandboxResp_codec : Codec string :=
  struct_codec (tag (B := string) "sandbox_id" no_fields) (fun id => (id, tt)) (fun '(id, _) => id).

Definition sandboxSummary_codec : Codec string :=
  struct_codec (tag (B := string) "sandbox_id" no_fields) (fun id => (id, tt)) (fun '(id, _) => id).

Definition listSandboxesResp_codec : Codec (list string) :=
  struct_codec (tag (C := slice_codec (C := sandboxSummary_codec)) "sandboxes" no_fields)
    (fun ids => (ids, tt)) (fun '(ids, _) => ids).

(** The lines of a stream: an event, and the exit event. *)
Definition event_codec : Codec (string * string) :=
  struct_codec (tag (B := string) "type" (tag_omit (B := string) "data" no_fields))
    (fun e => (e.1, (e.2, tt))) (fun '(t, (d, _)) => (t, d)).

Definition exitEvent_codec : Codec (string * (Z * bool)) :=
  struct_codec (tag (B := string) "type" (tag (B := Z) "code" (tag_omit (B := bool) "timedOut" no_fields)))
    (fun e => (e.1, (e.2.1, (e.2.2, tt)))) (fun '(t, (c, (b, _))) => (t, (c, b))).

End Server.

(** ** The streams of [internal/router/server.go] *)

Module Router.

Definition routerEvent_codec : Codec (string * string) :=
  struct_codec (tag (B := string) "type" (tag_omit (B := string) "data" no_fields))
    (fun e => (e.1, (e.2, tt))) (fun '(t, (d, _)) => (t, d)).

Definition routerExit_codec : Codec (string * (Z * bool)) :=
  struct_codec (tag (B := string) "type" (tag (B := Z) "code" (tag_omit (B := bool) "timedOut" no_fields)))
    (fun e => (e.1, (e.2.1, (e.2.2, tt)))) (fun '(t, (c, (b, _))) => (t, (c, b))).

#[global] Instance routerEvent_laws : CodecLaws routerEvent_codec.
Proof. struct_tac. Defined.
#[global] Instance routerExit_laws : CodecLaws routerExit_codec.
Proof. struct_tac. Defined.

End Router.
