(* ===== verification/Errors.v ===== *)
(** * The text of errors

    [Error()] of the error values, and the [%q] of their messages
    ([strconv.Quote]).  Whether a rune beyond ASCII is printable depends on the
    Unicode tables of the Go release, a parameter. *)
From S2P Require Import Prelude GoStrings GoMux GoJson ApiTypes.
Open Scope boxy_scope.

Class Unicode := is_print : Z -> bool.

Section text.
Context {U : Unicode}.

(** The code point of a rune. *)
Definition rune_val (r : Rune) : Z :=
  match r with
  | R1 c0 | RBad c0 => byte_val c0
  | R2 c0 c1 => (byte_val c0 - 192) * 64 + (byte_val c1 - 128)
  | R3 c0 c1 c2 => (byte_val c0 - 224) * 4096 + (byte_val c1 - 128) * 64 + (byte_val c2 - 128)
  | R4 c0 c1 c2 c3 =>
      (byte_val c0 - 240) * 262144 + (byte_val c1 - 128) * 4096 + (byte_val c2 - 128) * 64 + (byte_val c3 - 128)
  end.

(** The last [n] hexadecimal digits of [z]. *)
Fixpoint hex_digits (n : nat) (z : Z) : string :=
  match n with
  | O => ""
  | S n' => hex_digits n' (z / 16) +:+ String (lower_hex (z mod 16)) ""
  end.

Definition IsPrint (z : Z) : bool := if z <? 128 then (32 <=? z) && (z <? 127) else is_print z.

Definition quoted_rune (r : Rune) : string :=
  let z := rune_val r in
  match r with
  | RBad _ => BSL +:+ "x" +:+ hex_digits 2 z
  | _ =>
      if (z =? 34) || (z =? 92) then BSL +:+ rune_text r
      else if IsPrint z then rune_text r
      else if z =? 7 then BSL +:+ "a"
      else if z =? 8 then BSL +:+ "b"
      else if z =? 12 then BSL +:+ "f"
      else if z =? 10 then BSL +:+ "n"
      else if z =? 13 then BSL +:+ "r"
      else if z =? 9 then BSL +:+ "t"
      else if z =? 11 then BSL +:+ "v"
      else if (z <? 32) || (z =? 127) then BSL +:+ "x" +:+ hex_digits 2 z
      else if z <? 65536 then BSL +:+ "u" +:+ hex_digits 4 z
      else BSL +:+ "U" +:+ hex_digits 8 z
  end.

(** [strconv.Quote]. *)
Definition Quote (s : string) : string := DQ +:+ str_concat (map quoted_rune (runes s)) +:+ DQ.

(** [HTTPError.Error]. *)
Definition HTTPError_Error (e : HTTPError) : string :=
  if negb (he_Message e =?s "") then he_Message e
  else "controller returned " +:+ pretty (he_Status e) +:+ " for " +:+ he_Method e +:+ " " +:+ he_URL e.

(** [err.Error()]; for an [*AdapterError] its message. *)
Fixpoint Error (e : Err) : string :=
  match e with
  | ErrMsg msg | ErrK8s _ msg | ErrNet msg | ErrCtx msg => msg
  | ErrFmt m => msg_text m
  | ErrHTTP he => HTTPError_Error he
  | ErrAdapter _ m => msg_text m
  | ErrWrap before e' after => before +:+ Error e' +:+ after
  end
with msg_text (m : Msg) : string :=
  match m with
  | MNil => ""
  | MLit s m' => s +:+ msg_text m'
  | MQuote s m' => Quote s +:+ msg_text m'
  | MErr e m' => Error e +:+ msg_text m'
  end.

End text.
