(* ===== verification/Validate.v ===== *)
(** * Request validation: [internal/api/validate.go]

    Each validator returns the first error it meets, [None] for Go's nil.  A
    [for k := range m] over a map visits the entries in the order of the
    association list, which is arbitrary. *)
From S2P Require Import Prelude GoStrings GoRegexp ApiTypes.
Open Scope boxy_scope.

(** The errors, one constructor per [fmt.Errorf] of the file. *)
Inductive VErr : Type :=
| VRequestNil
| VRequired (field : string)
| VTooLong (field : string)
| VBadName (field : string)
| VBadLabel (field : string)
| VTooManyArgs (max : Z)
| VTooManyEnv (max : Z)
| VTooManySandboxEnv
| VInvalidEnvKey (k : string)
| VBlockedEnvKey (k : string)
| VInvalidSandboxEnvKey
| VBlockedSandboxEnvKey
| VSandboxEnvValueTooLong
| VTimeoutNotPositive
| VTimeoutExceeds (max : Z)
| VTTLNegative
| VTTLExceeds (max : Z)
| VPathTooLong (max : Z)
| VPathNul
| VEncoding.

(** Their texts. *)
Definition verr_text (e : VErr) : Msg :=
  match e with
  | VRequestNil => text "request is nil"
  | VRequired f => text (f +:+ " is required")
  | VTooLong f => text (f +:+ " too long: max 63 characters")
  | VBadName f => text (f +:+ " must be a valid K8s label-backed name (lowercase alphanumeric, '-', '.', max 63 chars)")
  | VBadLabel f => text (f +:+ " must be a valid K8s label value")
  | VTooManyArgs max => text ("too many args: max " +:+ pretty max)
  | VTooManyEnv max => text ("too many env keys: max " +:+ pretty max)
  | VTooManySandboxEnv => text "too many sandbox env keys"
  | VInvalidEnvKey k => MLit "invalid env key: " (MQuote k MNil)
  | VBlockedEnvKey k => MLit "exec env key not allowed: " (MQuote k MNil)
  | VInvalidSandboxEnvKey => text "invalid sandbox env key"
  | VBlockedSandboxEnvKey => text "sandbox env key not allowed"
  | VSandboxEnvValueTooLong => text "sandbox env value too long"
  | VTimeoutNotPositive => text "timeoutSeconds must be positive"
  | VTimeoutExceeds max => text ("timeoutSeconds exceeds max " +:+ pretty max)
  | VTTLNegative => text "ttlSeconds must be non-negative"
  | VTTLExceeds max => text ("ttlSeconds exceeds max " +:+ pretty max)
  | VPathTooLong max => text ("path too long: max " +:+ pretty max +:+ " characters")
  | VPathNul => text "path must not contain NUL"
  | VEncoding => text "encoding must be 'utf-8' or 'base64'"
  end.

(** ** Patterns *)

Definition lower_alnum (c : ascii) : bool := in_range 97 122 c || in_range 48 57 c.

Definition alnum (c : ascii) : bool := in_range 65 90 c || in_range 97 122 c || in_range 48 57 c.

Definition name_char (c : ascii) : bool := lower_alnum c || is_byte 46 c || is_byte 45 c.

Definition label_char (c : ascii) : bool := is_byte 45 c || alnum c || is_byte 95 c || is_byte 46 c.

(** [^[a-z0-9]([a-z0-9.-]*[a-z0-9])?$] *)
Definition K8sNameRegex : regex :=
  RCat (RClass lower_alnum) (ROpt (RCat (RStar (RClass name_char)) (RClass lower_alnum))).

(** The pattern of K8sLabelValueRegex: an optional group of an alphanumeric and any label
    characters, followed by an alphanumeric, the whole optional. *)
Definition K8sLabelValueRegex : regex :=
  ROpt (RCat (ROpt (RCat (RClass alnum) (RStar (RClass label_char)))) (RClass alnum)).

(** ** Field validators *)

Definition validateLabelBackedName (field value : string) : option VErr :=
  if 63 <? slen value then Some (VTooLong field)
  else if negb (MatchString K8sNameRegex value) then Some (VBadName field)
  else None.

Definition validateOptionalLabelValue (field value : string) : option VErr :=
  if value =?s "" then None
  else if 63 <? slen value then Some (VTooLong field)
  else if negb (MatchString K8sLabelValueRegex value) then Some (VBadLabel field)
  else None.

Definition ValidateSandboxID (id : string) : option VErr := validateLabelBackedName "sandboxId" id.

Definition ValidateSessionID (id : string) : option VErr := validateLabelBackedName "sessionId" id.

Definition ValidateOwner (owner : string) : option VErr := validateOptionalLabelValue "owner" owner.

Definition blockedSandboxEnvKey (k : string) : bool :=
  let lk := ToUpper (TrimSpace k) in
  if HasPrefix lk "KUBERNETES_" then true
  else if HasPrefix lk "BOXY_" then true
  else false.

(** ** Request validators *)

(** The loop over [r.Env]. *)
Fixpoint check_exec_env (env : list (string * string)) : option VErr :=
  match env with
  | [] => None
  | (k, _) :: env' =>
      if Contains k "=" || (TrimSpace k =?s "") then Some (VInvalidEnvKey k)
      else if blockedSandboxEnvKey k then Some (VBlockedEnvKey k)
      else check_exec_env env'
  end.

Definition ValidateExecRequest (req : option ExecRequestBody) (maxTimeoutSec maxArgs maxEnvKeys : Z)
    : option VErr :=
  match req with
  | None => Some VRequestNil
  | Some r =>
      if TrimSpace (er_SandboxID r) =?s "" then Some (VRequired "sandboxId") else
      match ValidateSandboxID (er_SandboxID r) with
      | Some err => Some err
      | None =>
      match (if negb (TrimSpace (er_SessionID r) =?s "") then ValidateSessionID (er_SessionID r)
             else None) with
      | Some err => Some err
      | None =>
      match validateOptionalLabelValue "owner" (er_Owner r) with
      | Some err => Some err
      | None =>
      if TrimSpace (er_Command r) =?s "" then Some (VRequired "command") else
      if (0 <? maxArgs) && (maxArgs <? llen (er_Args r)) then Some (VTooManyArgs maxArgs) else
      if (0 <? maxEnvKeys) && (maxEnvKeys <? llen (er_Env r)) then Some (VTooManyEnv maxEnvKeys) else
      match check_exec_env (er_Env r) with
      | Some err => Some err
      | None =>
      if er_TimeoutSeconds r <=? 0 then Some VTimeoutNotPositive else
      if (0 <? maxTimeoutSec) && (maxTimeoutSec <? er_TimeoutSeconds r)
      then Some (VTimeoutExceeds maxTimeoutSec)
      else None
      end end end end
  end.

(** The loop over [b.Env]. *)
Fixpoint check_sandbox_env (env : list (string * string)) : option VErr :=
  match env with
  | [] => None
  | (k, v) :: env' =>
      if (TrimSpace k =?s "") || Contains k "=" then Some VInvalidSandboxEnvKey
      else if blockedSandboxEnvKey k then Some VBlockedSandboxEnvKey
      else if 16384 <? RuneCountInString v then Some VSandboxEnvValueTooLong
      else check_sandbox_env env'
  end.

Definition ValidateSandboxCreate (body : option SandboxCreateBody) (maxTTL : Z) : option VErr :=
  match body with
  | None => Some VRequestNil
  | Some b =>
      if TrimSpace (cb_SandboxID b) =?s "" then Some (VRequired "sandboxId") else
      match ValidateSandboxID (cb_SandboxID b) with
      | Some err => Some err
      | None =>
      if cb_TTLSeconds b <? 0 then Some VTTLNegative else
      if (0 <? maxTTL) && (maxTTL <? cb_TTLSeconds b) then Some (VTTLExceeds maxTTL) else
      if 64 <? llen (cb_Env b) then Some VTooManySandboxEnv else
      check_sandbox_env (cb_Env b)
      end
  end.

Definition ValidateSessionCreate (body : option SessionCreateBody) : option VErr :=
  match body with
  | None => Some VRequestNil
  | Some b =>
      if TrimSpace (sc_SandboxID b) =?s "" then Some (VRequired "sandboxId") else
      match ValidateSandboxID (sc_SandboxID b) with
      | Some err => Some err
      | None =>
      match (if negb (sc_SessionID b =?s "") then ValidateSessionID (sc_SessionID b) else None) with
      | Some err => Some err
      | None => validateOptionalLabelValue "owner" (sc_Owner b)
      end end
  end.

Definition maxFilePathLen : Z := 4096.

Definition NUL : string := String "000" "".

Definition ValidateFilePath (path : string) : option VErr :=
  let p := TrimSpace path in
  if p =?s "" then Some (VRequired "path")
  else if maxFilePathLen <? slen p then Some (VPathTooLong maxFilePathLen)
  else if Contains p NUL then Some VPathNul
  else None.

Definition ValidateFileEncoding (enc : string) : option VErr :=
  let e := ToLower (TrimSpace enc) in
  if (e =?s "") || (e =?s "utf-8") || (e =?s "utf8") || (e =?s "base64") then None
  else Some VEncoding.

(** ** Specifications *)

(** What a label-backed name is: 1 to 63 characters of [a-z0-9.-] that start
    and end with a letter or digit. *)
Definition label_name (s : string) : Prop :=
  0 < slen s <= 63 /\ str_forall name_char s = true /\
  (exists c r, s = String c r /\ lower_alnum c = true) /\
  (exists c r, s = r +:+ String c "" /\ lower_alnum c = true).

Definition label_value (s : string) : Prop :=
  slen s <= 63 /\ str_forall label_char s = true /\
  (exists c r, s = String c r /\ alnum c = true) /\
  (exists c r, s = r +:+ String c "" /\ alnum c = true).

(** An environment variable name the API accepts. *)
Definition env_key_ok (k : string) : Prop :=
  TrimSpace k <> "" /\ Contains k "=" = false /\ blockedSandboxEnvKey k = false.

(** A limit of the configuration; a limit that is not positive is no limit. *)
Definition within (limit n : Z) : Prop := 0 < limit -> n <= limit.

Definition exec_request_ok (r : ExecRequestBody) (maxTimeoutSec maxArgs maxEnvKeys : Z) : Prop :=
  label_name (er_SandboxID r) /\
  (TrimSpace (er_SessionID r) = "" \/ label_name (er_SessionID r)) /\
  (er_Owner r = "" \/ label_value (er_Owner r)) /\
  TrimSpace (er_Command r) <> "" /\
  within maxArgs (llen (er_Args r)) /\
  within maxEnvKeys (llen (er_Env r)) /\
  Forall (fun kv => env_key_ok kv.1) (er_Env r) /\
  0 < er_TimeoutSeconds r /\ within maxTimeoutSec (er_TimeoutSeconds r).

Definition sandbox_create_ok (b : SandboxCreateBody) (maxTTL : Z) : Prop :=
  label_name (cb_SandboxID b) /\
  0 <= cb_TTLSeconds b /\ within maxTTL (cb_TTLSeconds b) /\
  llen (cb_Env b) <= 64 /\
  Forall (fun kv => env_key_ok kv.1 /\ RuneCountInString kv.2 <= 16384) (cb_Env b).

(** ** Lemmas *)

Lemma lower_alnum_name_char (c : ascii) : lower_alnum c = true -> name_char c = true.
Proof. unfold name_char. by intros ->. Qed.

Lemma in_range_visible (lo hi : Z) (c : ascii) :
  33 <= lo -> hi <= 126 -> in_range lo hi c = true -> visible c = true.
Proof. unfold visible, in_range. intros. bool_hyps. apply andb_true_iff. rewrite !Z.leb_le. lia. Qed.

Lemma is_byte_visible (b : Z) (c : ascii) : 33 <= b <= 126 -> is_byte b c = true -> visible c = true.
Proof.
  unfold is_byte, visible, in_range. intros Hb ->%Z.eqb_eq. apply andb_true_iff.
  rewrite !Z.leb_le. lia.
Qed.

Lemma name_char_visible (c : ascii) : name_char c = true -> visible c = true.
Proof.
  unfold name_char, lower_alnum. rewrite !orb_true_iff. intros [[[H|H]|H]|H].
  - by eapply in_range_visible; [| |exact H].
  - by eapply in_range_visible; [| |exact H].
  - by eapply is_byte_visible; [|exact H].
  - by eapply is_byte_visible; [|exact H].
Qed.

Lemma lower_alnum_alnum (c : ascii) : lower_alnum c = true -> alnum c = true.
Proof. unfold lower_alnum, alnum. rewrite !orb_true_iff. tauto. Qed.

Lemma alnum_label_char (c : ascii) : alnum c = true -> label_char c = true.
Proof. unfold label_char. intros ->. by rewrite orb_true_r. Qed.

Lemma name_char_label_char (c : ascii) : name_char c = true -> label_char c = true.
Proof.
  unfold name_char, label_char. rewrite !orb_true_iff. intros [[H|H]|H]; [|tauto..].
  apply lower_alnum_alnum in H. tauto.
Qed.

(** The language of [x ( y* x )?]: the class [y] contains [x]. *)
Lemma lang_name (f g : ascii -> bool) (s : string) :
  (forall c, f c = true -> g c = true) ->
  lang (RCat (RClass f) (ROpt (RCat (RStar (RClass g)) (RClass f)))) s <->
  str_forall g s = true /\
  (exists c r, s = String c r /\ f c = true) /\ (exists c r, s = r +:+ String c "" /\ f c = true).
Proof.
  intros Hfg. rewrite lang_cat_inv. split.
  - intros (s1 & s2 & -> & H1 & H2).
    apply lang_class_inv in H1 as (c & Hc & ->).
    apply lang_opt_inv in H2 as [H2| ->].
    + apply lang_cat_inv in H2 as (t1 & t2 & -> & Ht1 & Ht2).
      apply lang_star_class in Ht1. apply lang_class_inv in Ht2 as (d & Hd & ->).
      simpl. split; [|split].
      * by rewrite (Hfg c Hc), str_forall_app, Ht1; simpl; rewrite (Hfg d Hd).
      * eauto.
      * exists d, (String c t1). done.
    + simpl. rewrite (Hfg c Hc). split; [done|]. split; [eauto|]. by exists c, "".
  - intros (Hall & (c & r & -> & Hc) & (d & r' & Hs & Hd)).
    exists (String c ""), r. split; [done|].
    split; [apply lang_class_inv; eauto|]. apply lang_opt_inv.
    destruct r' as [|e r']; simpl in Hs; simplify_eq; [by right|]. left.
    apply lang_cat_inv. exists r', (String d ""). split; [done|].
    split; [|apply lang_class_inv; eauto]. apply lang_star_class.
    simpl in Hall. rewrite str_forall_app in Hall. bool_hyps. done.
Qed.

Lemma label_name_nonempty (s : string) (c : ascii) (r : string) : s = String c r -> 0 < slen s.
Proof. intros ->. unfold slen. simpl. lia. Qed.

Lemma validateLabelBackedName_spec (field s : string) :
  validateLabelBackedName field s = None <-> label_name s.
Proof.
  unfold validateLabelBackedName, label_name.
  pose proof (lang_name lower_alnum name_char s lower_alnum_name_char) as Hl.
  fold K8sNameRegex in Hl. rewrite <- MatchString_lang in Hl.
  destruct (63 <? slen s) eqn:Hlen; bool_hyps; [split; [done|lia]|].
  destruct (MatchString K8sNameRegex s); simpl.
  - split; [intros _|done]. destruct Hl as [Hl _]. destruct Hl as (H1 & (c & r & H2 & H3) & H4); [done|].
    split; [|eauto 6]. split; [|lia]. by eapply label_name_nonempty.
  - split; [done|]. intros (_ & H). apply Hl in H. done.
Qed.

Lemma label_value_regex (s : string) :
  MatchString K8sLabelValueRegex s = true <->
  s = "" \/ (str_forall label_char s = true /\
    (exists c r, s = String c r /\ alnum c = true) /\
    (exists c r, s = r +:+ String c "" /\ alnum c = true)).
Proof.
  rewrite MatchString_lang. unfold K8sLabelValueRegex.
  rewrite lang_opt_inv, lang_cat_inv. split.
  - intros [(s1 & s2 & -> & H1 & H2)|H]; [|by left]. right.
    apply lang_class_inv in H2 as (d & Hd & ->).
    apply lang_opt_inv in H1 as [H1| ->].
    + apply lang_cat_inv in H1 as (t1 & t2 & -> & Ht1 & Ht2).
      apply lang_class_inv in Ht1 as (c & Hc & ->). apply lang_star_class in Ht2. simpl.
      rewrite (alnum_label_char c Hc), str_forall_app, Ht2. simpl.
      rewrite (alnum_label_char d Hd). split; [done|]. split; [eauto|]. by exists d, (String c t2).
    + simpl. rewrite (alnum_label_char d Hd). split; [done|]. split; [eauto|]. by exists d, "".
  - intros [->|(Hall & (c & r & -> & Hc) & (d & r' & Hs & Hd))]; [by right|]. left.
    exists r', (String d ""). rewrite <- Hs. split; [done|].
    split; [|apply lang_class_inv; eauto]. apply lang_opt_inv.
    destruct r' as [|e r']; simpl in Hs; simplify_eq; [by right|]. left.
    apply lang_cat_inv. exists (String e ""), r'. split; [done|].
    split; [apply lang_class_inv; eauto|]. apply lang_star_class.
    simpl in Hall. rewrite str_forall_app in Hall. bool_hyps. done.
Qed.

Lemma validateOptionalLabelValue_spec (field s : string) :
  validateOptionalLabelValue field s = None <-> s = "" \/ label_value s.
Proof.
  unfold validateOptionalLabelValue, label_value.
  pose proof (label_value_regex s) as Hl.
  destruct (s =?s "") eqn:He; bool_hyps; [by split; [left|]|].
  destruct (63 <? slen s) eqn:Hlen; bool_hyps.
  { split; [done|]. intros [?|[? _]]; [done|lia]. }
  destruct (MatchString K8sLabelValueRegex s); simpl.
  - split; [|done]. intros _. right. split; [done|]. by destruct Hl as [[?|?] _].
  - split; [done|]. intros [?|[_ H]]; [done|]. destruct Hl as [_ Hl]. by specialize (Hl (or_intror H)).
Qed.

Lemma label_name_trim (s : string) : label_name s -> TrimSpace s = s.
Proof.
  intros (_ & Hall & _). apply TrimSpace_visible.
  eapply str_forall_impl; [|exact Hall]. apply name_char_visible.
Qed.

Lemma label_name_not_empty (s : string) : label_name s -> s <> "".
Proof. intros ([H _] & _) ->. done. Qed.

Lemma within_spec (limit n : Z) : (0 <? limit) && (limit <? n) = false <-> within limit n.
Proof.
  unfold within. rewrite andb_false_iff, Z.ltb_ge, Z.ltb_ge. lia.
Qed.

Lemma check_exec_env_spec (env : list (string * string)) :
  check_exec_env env = None <-> Forall (fun kv => env_key_ok kv.1) env.
Proof.
  induction env as [|[k v] env IH]; simpl; [by split|].
  rewrite Forall_cons. unfold env_key_ok at 1. simpl.
  destruct (Contains k "=") eqn:H1; simpl; [split; [done|]; naive_solver|].
  destruct (TrimSpace k =?s "") eqn:H2; bool_hyps; simpl; [split; [done|]; naive_solver|].
  destruct (blockedSandboxEnvKey k) eqn:H3; [split; [done|]; naive_solver|].
  rewrite IH. naive_solver.
Qed.

Lemma check_sandbox_env_spec (env : list (string * string)) :
  check_sandbox_env env = None <->
  Forall (fun kv => env_key_ok kv.1 /\ RuneCountInString kv.2 <= 16384) env.
Proof.
  induction env as [|[k v] env IH]; simpl; [by split|].
  rewrite Forall_cons. unfold env_key_ok at 1. simpl.
  destruct (TrimSpace k =?s "") eqn:H2; bool_hyps; simpl; [split; [done|]; naive_solver|].
  destruct (Contains k "=") eqn:H1; simpl; [split; [done|]; naive_solver|].
  destruct (blockedSandboxEnvKey k) eqn:H3; [split; [done|]; naive_solver|].
  destruct (16384 <? RuneCountInString v) eqn:H4; bool_hyps; [split; [done|]; intros [[_ ?] _]; lia|].
  rewrite IH. naive_solver.
Qed.

Lemma trim_guard_name (s : string) :
  (TrimSpace s =?s "") = false /\ label_name s <-> label_name s.
Proof.
  split; [by intros [_ H]|]. intros H. split; [|done].
  rewrite (label_name_trim _ H). apply String.eqb_neq. by apply label_name_not_empty.
Qed.

Lemma ValidateExecRequest_spec (r : ExecRequestBody) (maxTimeoutSec maxArgs maxEnvKeys : Z) :
  ValidateExecRequest (Some r) maxTimeoutSec maxArgs maxEnvKeys = None <->
  exec_request_ok r maxTimeoutSec maxArgs maxEnvKeys.
Proof.
  unfold ValidateExecRequest, exec_request_ok, ValidateSandboxID, ValidateSessionID.
  repeat (rewrite guard_None || rewrite option_chain_None).
  rewrite validateLabelBackedName_spec, validateOptionalLabelValue_spec, check_exec_env_spec,
    !within_spec, !String.eqb_neq, Z.leb_gt.
  assert ((if negb (TrimSpace (er_SessionID r) =?s "")
           then validateLabelBackedName "sessionId" (er_SessionID r) else None) = None <->
          TrimSpace (er_SessionID r) = "" \/ label_name (er_SessionID r)) as ->.
  { destruct (TrimSpace (er_SessionID r) =?s "") eqn:He; bool_hyps; simpl; [by split; [left|]|].
    rewrite validateLabelBackedName_spec. naive_solver. }
  pose proof (trim_guard_name (er_SandboxID r)) as Hn. rewrite String.eqb_neq in Hn. tauto.
Qed.

Lemma ValidateSandboxCreate_spec (b : SandboxCreateBody) (maxTTL : Z) :
  ValidateSandboxCreate (Some b) maxTTL = None <-> sandbox_create_ok b maxTTL.
Proof.
  unfold ValidateSandboxCreate, sandbox_create_ok, ValidateSandboxID.
  rewrite guard_None, option_chain_None, !guard_None, validateLabelBackedName_spec, within_spec,
    check_sandbox_env_spec, !Z.ltb_ge.
  pose proof (trim_guard_name (cb_SandboxID b)) as Hn. tauto.
Qed.

Lemma ValidateSessionCreate_spec (b : SessionCreateBody) :
  ValidateSessionCreate (Some b) = None <->
  label_name (sc_SandboxID b) /\ (sc_SessionID b = "" \/ label_name (sc_SessionID b)) /\
  (sc_Owner b = "" \/ label_value (sc_Owner b)).
Proof.
  unfold ValidateSessionCreate, ValidateSandboxID, ValidateSessionID.
  rewrite guard_None, !option_chain_None, validateLabelBackedName_spec,
    validateOptionalLabelValue_spec.
  assert ((if negb (sc_SessionID b =?s "")
           then validateLabelBackedName "sessionId" (sc_SessionID b) else None) = None <->
          sc_SessionID b = "" \/ label_name (sc_SessionID b)) as ->.
  { destruct (sc_SessionID b =?s "") eqn:He; bool_hyps; simpl; [by split; [left|]|].
    rewrite validateLabelBackedName_spec. naive_solver. }
  pose proof (trim_guard_name (sc_SandboxID b)) as Hn. tauto.
Qed.

(** ** Reserved environment prefixes *)

(** [ToUpper] of a concatenation, when the first part maps to visible ASCII. *)
Lemma is_byte_upper_visible (b : Z) (c : ascii) :
  128 <= b -> visible (upper_byte c) = true -> is_byte b c = false.
Proof.
  unfold upper_byte. destruct (in_range 97 122 c) eqn:Hr.
  - intros Hb _. unfold in_range, is_byte in *. bool_hyps. apply Z.eqb_neq. lia.
  - unfold visible, in_range, is_byte. intros Hb H. bool_hyps. apply Z.eqb_neq. lia.
Qed.

Lemma ToUpper_app (p r : string) :
  str_forall visible (ToUpper p) = true -> ToUpper (p +:+ r) = ToUpper p +:+ ToUpper r.
Proof.
  remember (String.length p) as n eqn:Hn. revert p Hn.
  induction (lt_wf n) as [n _ IH]. intros p ->. destruct p as [|c0 p]; [done|].
  destruct p as [|c1 p].
  - simpl. rewrite andb_true_r. intros Hv. destruct r as [|d r]; [done|].
    rewrite !(is_byte_upper_visible _ c0) by done. done.
  - simpl. destruct (is_byte 197 c0 && is_byte 191 c1); [|destruct (is_byte 196 c0 && is_byte 177 c1)];
      simpl; rewrite ?andb_true_iff; intros Hv.
    + rewrite (IH (String.length p)); [done|simpl; lia|done|done].
    + rewrite (IH (String.length p)); [done|simpl; lia|done|done].
    + destruct Hv as [_ Hv].
      pose proof (IH (String.length (String c1 p)) ltac:(simpl; lia) (String c1 p) eq_refl Hv) as H.
      simpl in H |- *. by rewrite H.
Qed.

(** [TrimSpace] keeps a prefix that starts and ends with visible ASCII. *)
Lemma trim_right_rev_suffix (t : string) (c : ascii) (r : string) :
  visible c = true -> exists t', trim_right_rev (t +:+ String c r) = t' +:+ String c r.
Proof.
  intros Hc. destruct (visible_not_space c Hc) as (H1 & H2 & H2' & H3 & H3').
  assert (forall d e, space3 d c e = false) as H3''.
  { intros d e. unfold visible, in_range in Hc. bool_hyps. unfold space3, is_byte.
    rewrite (proj2 (Z.eqb_neq (byte_val c) 154)), (proj2 (Z.eqb_neq (byte_val c) 128)),
      (proj2 (Z.eqb_neq (byte_val c) 129)) by lia.
    by rewrite !andb_false_r. }
  remember (String.length t) as n eqn:Hn. revert t Hn.
  induction (lt_wf n) as [n _ IH]. intros t ->.
  destruct t as [|c0 t].
  { exists "". by apply trim_right_rev_visible. }
  simpl. destruct (space1 c0).
  { apply (IH (String.length t)); [simpl; lia|done]. }
  destruct t as [|c1 t].
  { simpl. rewrite H2. destruct r as [|d r].
    - by exists (String c0 "").
    - rewrite H3''. by exists (String c0 ""). }
  simpl. destruct (space2 c1 c0).
  { apply (IH (String.length t)); [simpl; lia|done]. }
  destruct t as [|c2 t].
  { simpl. rewrite H3. by exists (String c0 (String c1 "")). }
  simpl. destruct (space3 c2 c1 c0).
  { apply (IH (String.length t)); [simpl; lia|done]. }
  by exists (String c0 (String c1 (String c2 t))).
Qed.

Lemma TrimSpace_keeps_prefix (c d : ascii) (m r : string) :
  visible c = true -> visible d = true ->
  exists r', TrimSpace (String c m +:+ String d r) = String c m +:+ String d r'.
Proof.
  intros Hc Hd. unfold TrimSpace. simpl (String c m +:+ _).
  rewrite trim_left_visible by done. rewrite str_rev_cons, str_rev_app_distr, str_rev_cons.
  rewrite !str_app_assoc. simpl.
  destruct (trim_right_rev_suffix (str_rev r) d (str_rev m +:+ String c "") Hd) as [t' Ht'].
  rewrite Ht'. exists (str_rev t').
  rewrite str_rev_app_distr, str_rev_cons, str_rev_app_distr, str_rev_involutive.
  rewrite !str_app_assoc. done.
Qed.

(** A key that starts with any upper or lower case spelling of a reserved prefix is blocked. *)
Lemma blocked_case_variant (p q r : string) (c d : ascii) (m : string) :
  p = String c m +:+ String d "" -> visible c = true -> visible d = true ->
  ToUpper p = q -> str_forall visible q = true -> q = "KUBERNETES_" \/ q = "BOXY_" ->
  blockedSandboxEnvKey (p +:+ r) = true.
Proof.
  intros -> Hc Hd Hq Hv Hres. unfold blockedSandboxEnvKey.
  rewrite str_app_assoc. simpl (String d "" +:+ r).
  destruct (TrimSpace_keeps_prefix c d m r Hc Hd) as [r' ->].
  change (String d r') with (String d "" +:+ r').
  rewrite <- str_app_assoc, ToUpper_app by by rewrite Hq.
  rewrite Hq. destruct Hres as [-> | ->]; rewrite HasPrefix_app; [done|].
  by destruct (HasPrefix _ "KUBERNETES_").
Qed.

(** ** Properties *)


(** An identifier that passes [ValidateSandboxID] can be stored in the
    label that carries it: it is accepted by the Kubernetes label-value
    pattern, fits in 63 bytes, and [strings.TrimSpace] leaves it alone. *)
Theorem accepted_id_is_label_value (id : string) :
  ValidateSandboxID id = None ->
  MatchString K8sLabelValueRegex id = true /\ 0 < slen id <= 63 /\ TrimSpace id = id.
Proof.
  intros H%validateLabelBackedName_spec.
  split; [|split; [by destruct H|by apply label_name_trim]].
  destruct H as (_ & Hall & (c & r & Hc & Hc') & (d & r' & Hd & Hd')).
  apply label_value_regex. right. split; [|split].
  - eapply str_forall_impl; [|exact Hall]. apply name_char_label_char.
  - eauto using lower_alnum_alnum.
  - eauto using lower_alnum_alnum.
Qed.

Lemma accepted_id_is_label_value_witness :
  MatchString K8sLabelValueRegex "team-a.box-1" = true /\ 0 < slen "team-a.box-1" <= 63 /\
  TrimSpace "team-a.box-1" = "team-a.box-1".
Proof. apply (accepted_id_is_label_value "team-a.box-1"). vm_compute. reflexivity. Defined.

(** No spelling of a reserved prefix gets through.  A key that begins with
    a string whose upper case is [BOXY_] or [KUBERNETES_], whatever follows
    it, is refused in an exec request and in a sandbox config. *)
Theorem reserved_env_prefix_refused (p q rest v : string) (env : list (string * string)) :
  ToUpper p = q -> q = "KUBERNETES_" \/ q = "BOXY_" ->
  str_forall visible p = true ->
  check_exec_env ((p +:+ rest, v) :: env) <> None /\
  check_sandbox_env ((p +:+ rest, v) :: env) <> None.
Proof.
  intros Hup Hq Hp.
  assert (blockedSandboxEnvKey (p +:+ rest) = true) as Hb.
  { assert (exists c m d, p = String c m +:+ String d "" /\ visible c = true /\ visible d = true)
      as (c & m & d & Hpd & Hc & Hd).
    { destruct p as [|c p']; [by destruct Hq; subst|]. simpl in Hp. bool_hyps.
      assert (p' <> "") as Hne by (intros ->; destruct Hq; subst; simplify_eq/=).
      rewrite <- (str_rev_involutive p'). destruct (str_rev p') as [|d m'] eqn:Hr.
      { rewrite <- (str_rev_involutive p'), Hr in Hne. done. }
      exists c, (str_rev m'), d. rewrite str_rev_cons. split; [done|]. split; [done|].
      match goal with H : str_forall visible p' = true |- _ => rewrite <- str_forall_rev, Hr in H end.
      simpl in *. bool_hyps. done. }
    eapply blocked_case_variant; [exact Hpd|done|done|done| |exact Hq].
    by destruct Hq as [->| ->]. }
  simpl. rewrite Hb. split; repeat case_goal; done.
Qed.

Lemma reserved_env_prefix_refused_witness :
  check_exec_env [("bOxY_token", "x")] <> None /\ check_sandbox_env [("bOxY_token", "x")] <> None.
Proof.
  apply (reserved_env_prefix_refused "bOxY_" "BOXY_" "token" "x" []).
  - vm_compute. reflexivity.
  - right. reflexivity.
  - vm_compute. reflexivity.
Defined.
