(* ===== verification/NsjailConfig.v ===== *)
(** * The nsjail configuration printer: [internal/nsjail/nsjail_config.go]

    [protoString] and [ToTextProto] are the printer.  The second half of the
    file is a reader of the protobuf text format (tokens, then nested
    messages), the reference against which the printer is verified: reading
    the printed text gives back exactly the fields the configuration means,
    whatever bytes its strings hold. *)
From S2P Require Import Prelude GoStrings.
Open Scope boxy_scope.

(** ** Data *)

Inductive Mode : Type := ModeOnce | ModeListen.

Record MountPt := {
  mp_Src : string;
  mp_Dst : string;
  mp_Fstype : string;
  mp_Rw : bool;
  mp_IsBind : bool;
}.

Record MacvlanConfig := {
  mc_Iface : string;
  mc_IP : string;
  mc_Netmask : string;
  mc_Gateway : string;
  mc_MAC : string;
}.

Record NsjailConfig := {
  nc_Mode : Mode;
  nc_Chroot : string;
  nc_Log : string;
  nc_Hostname : string;
  nc_Cwd : string;
  nc_User : string;
  nc_TimeLimit : Z;
  nc_DisableCloneNewUser : bool;
  nc_DisableCloneNewNet : bool;
  nc_CloneNewTime : bool;
  nc_CgroupMemMax : Z;
  nc_RlimitAS : Z;
  nc_RlimitCore : Z;
  nc_RlimitCPU : Z;
  nc_RlimitFsize : Z;
  nc_RlimitNofile : Z;
  nc_RlimitNproc : Z;
  nc_RlimitStack : Z;
  nc_Envar : list string;
  nc_Mounts : list MountPt;
  nc_SeccompString : string;
  nc_Macvlan : option MacvlanConfig;
  nc_UsePasta : bool;
  nc_ListenPort : Z;
}.

(** ** The printer *)

Definition octal_digit (n : N) : ascii := ascii_of_N (48 + n).

(** [fmt.Fprintf(&b, "\%03o", c)]: a backslash and three octal digits. *)
Definition octal3 (c : ascii) : string :=
  let n := N_of_ascii c in
  BSL +:+ String (octal_digit (n / 64)) (String (octal_digit (n / 8 mod 8))
    (String (octal_digit (n mod 8)) "")).

(** One iteration of the loop of [protoString]. *)
Definition proto_byte (c : ascii) : string :=
  if is_byte 92 c then BSL +:+ BSL
  else if is_byte 34 c then BSL +:+ DQ
  else if is_byte 10 c then BSL +:+ "n"
  else if is_byte 13 c then BSL +:+ "r"
  else if (byte_val c <? 32) || is_byte 127 c then octal3 c
  else String c "".

Fixpoint proto_body (s : string) : string :=
  match s with
  | EmptyString => ""
  | String c s' => proto_byte c +:+ proto_body s'
  end.

Definition protoString (s : string) : string := DQ +:+ proto_body s +:+ DQ.

(** [fmt.Fprintf(&b, "name: %s\n", protoString(v))]. *)
Definition str_line (indent name v : string) : string :=
  indent +:+ name +:+ ": " +:+ protoString v +:+ NL.

(** [fmt.Fprintf(&b, "name: %d\n", n)] and the constant lines. *)
Definition lit_line (indent name v : string) : string := indent +:+ name +:+ ": " +:+ v +:+ NL.

Definition when (b : bool) (s : string) : string := if b then s else "".

Definition nonempty (s : string) : bool := negb (s =?s "").

Definition id_map_line (name user : string) : string :=
  name +:+ " { inside_id: " +:+ protoString user +:+ " outside_id: " +:+ DQ +:+ DQ +:+
  " count: 1 }" +:+ NL.

Definition mount_text (m : MountPt) : string :=
  str_concat [
    "mount {" +:+ NL;
    when (nonempty (mp_Src m)) (str_line "  " "src" (mp_Src m));
    str_line "  " "dst" (mp_Dst m);
    when (nonempty (mp_Fstype m)) (str_line "  " "fstype" (mp_Fstype m));
    when (mp_Rw m) (lit_line "  " "rw" "true");
    when (mp_IsBind m) (lit_line "  " "is_bind" "true");
    "}" +:+ NL ].

Definition ToTextProto (c : NsjailConfig) : string :=
  str_concat [
    match nc_Mode c with
    | ModeListen => lit_line "" "mode" "LISTEN"
    | ModeOnce => lit_line "" "mode" "ONCE"
    end;
    str_line "" "log_file" (nc_Log c);
    when (nonempty (nc_Hostname c)) (str_line "" "hostname" (nc_Hostname c));
    when (nonempty (nc_Cwd c)) (str_line "" "cwd" (nc_Cwd c));
    when (0 <? nc_TimeLimit c) (lit_line "" "time_limit" (pretty (nc_TimeLimit c)));
    when (nc_DisableCloneNewUser c) (lit_line "" "clone_newuser" "false");
    when (nc_DisableCloneNewNet c) (lit_line "" "clone_newnet" "false");
    when (nc_CloneNewTime c) (lit_line "" "clone_newtime" "true");
    when (0 <? nc_CgroupMemMax c) (lit_line "" "cgroup_mem_max" (pretty (nc_CgroupMemMax c)));
    when (0 <? nc_RlimitAS c) (lit_line "" "rlimit_as" (pretty (nc_RlimitAS c)));
    when (0 <? nc_RlimitCore c) (lit_line "" "rlimit_core" (pretty (nc_RlimitCore c)));
    when (0 <? nc_RlimitCPU c) (lit_line "" "rlimit_cpu" (pretty (nc_RlimitCPU c)));
    when (0 <? nc_RlimitFsize c) (lit_line "" "rlimit_fsize" (pretty (nc_RlimitFsize c)));
    when (0 <? nc_RlimitNofile c) (lit_line "" "rlimit_nofile" (pretty (nc_RlimitNofile c)));
    when (0 <? nc_RlimitNproc c) (lit_line "" "rlimit_nproc" (pretty (nc_RlimitNproc c)));
    when (0 <? nc_RlimitStack c) (lit_line "" "rlimit_stack" (pretty (nc_RlimitStack c)));
    when (nonempty (nc_User c))
      (id_map_line "uidmap" (nc_User c) +:+ id_map_line "gidmap" (nc_User c));
    str_concat (map (str_line "" "envar") (nc_Envar c));
    when (nonempty (nc_Chroot c))
      (str_concat [
        "mount {" +:+ NL;
        str_line "  " "src" (nc_Chroot c);
        "  dst: " +:+ DQ +:+ "/" +:+ DQ +:+ NL;
        lit_line "  " "is_bind" "true";
        "}" +:+ NL ]);
    str_concat (map mount_text (nc_Mounts c));
    when (nonempty (nc_SeccompString c)) (str_line "" "seccomp_string" (nc_SeccompString c));
    match nc_Macvlan c with
    | None => ""
    | Some mv =>
        str_concat [
          str_line "" "iface_vs" (mc_Iface mv);
          when (nonempty (mc_IP mv)) (str_line "" "iface_vs_ip" (mc_IP mv));
          when (nonempty (mc_Netmask mv)) (str_line "" "iface_vs_nm" (mc_Netmask mv));
          when (nonempty (mc_Gateway mv)) (str_line "" "iface_vs_gw" (mc_Gateway mv));
          when (nonempty (mc_MAC mv)) (str_line "" "iface_vs_ma" (mc_MAC mv)) ]
    end;
    when (nc_UsePasta c) (lit_line "" "use_pasta" "true");
    when (0 <? nc_ListenPort c) (lit_line "" "port" (pretty (nc_ListenPort c))) ].

(** ** The reader: protobuf text format *)

Inductive token : Type :=
| TIdent (s : string)
| TStr (s : string)
| TColon
| TOpen
| TClose.

(** A message is a list of fields: a quoted string, a bare literal (number,
    boolean, enum value), or a nested message. *)
#[warnings="-register-all"]
Inductive field : Type :=
| FStr (name v : string)
| FLit (name v : string)
| FMsg (name : string) (fs : list field).

Definition ident_char (c : ascii) : bool :=
  in_range 48 57 c || in_range 65 90 c || in_range 97 122 c || is_byte 95 c.

Definition blank (c : ascii) : bool := is_byte 32 c || is_byte 10 c || is_byte 13 c || is_byte 9 c.

Definition octal_value (c : ascii) : option N :=
  if in_range 48 55 c then Some (N_of_ascii c - 48)%N else None.

Inductive lstate : Type :=
| LNone
| LIdent (acc : string)
| LStr (acc : string)
| LEsc (acc : string)
| LOct (acc : string) (n : nat) (v : N).

Definition snoc (s : string) (c : ascii) : string := s +:+ String c "".

(** The state after a byte outside a token, with the token it completes. *)
Definition lex_none (c : ascii) : option (lstate * list token) :=
  if blank c then Some (LNone, [])
  else if is_byte 34 c then Some (LStr "", [])
  else if is_byte 58 c then Some (LNone, [TColon])
  else if is_byte 123 c then Some (LNone, [TOpen])
  else if is_byte 125 c then Some (LNone, [TClose])
  else if ident_char c then Some (LIdent (String c ""), [])
  else None.

Definition lex_str (acc : string) (c : ascii) : option (lstate * list token) :=
  if is_byte 34 c then Some (LNone, [TStr acc])
  else if is_byte 92 c then Some (LEsc acc, [])
  else if is_byte 10 c then None
  else Some (LStr (snoc acc c), []).

Definition lex_byte (st : lstate) (c : ascii) : option (lstate * list token) :=
  match st with
  | LNone => lex_none c
  | LIdent acc =>
      if ident_char c then Some (LIdent (snoc acc c), [])
      else match lex_none c with
           | Some (st', ts) => Some (st', TIdent acc :: ts)
           | None => None
           end
  | LStr acc => lex_str acc c
  | LEsc acc =>
      if is_byte 110 c then Some (LStr (acc +:+ NL), [])
      else if is_byte 114 c then Some (LStr (acc +:+ CR), [])
      else if is_byte 92 c || is_byte 34 c then Some (LStr (snoc acc c), [])
      else match octal_value c with
           | Some v => Some (LOct acc 1 v, [])
           | None => None
           end
  | LOct acc n v =>
      match octal_value c with
      | Some d =>
          if (n <? 2)%nat then Some (LOct acc (S n) (v * 8 + d)%N, [])
          else Some (LStr (snoc acc (ascii_of_N (v * 8 + d)%N)), [])
      | None => lex_str (snoc acc (ascii_of_N v)) c
      end
  end.

Fixpoint lex (st : lstate) (s : string) : option (list token) :=
  match s with
  | EmptyString =>
      match st with
      | LNone => Some []
      | LIdent acc => Some [TIdent acc]
      | _ => None
      end
  | String c s' =>
      match lex_byte st c with
      | Some (st', ts) => app ts <$> lex st' s'
      | None => None
      end
  end.

(** [stack]: the enclosing messages, innermost first, each with its name and
    the fields read before it, latest first. *)
Fixpoint parse (stack : list (string * list field)) (cur : list field) (ts : list token)
    : option (list field) :=
  match ts with
  | [] => match stack with [] => Some (rev cur) | _ => None end
  | TIdent n :: TColon :: TStr v :: ts' => parse stack (FStr n v :: cur) ts'
  | TIdent n :: TColon :: TIdent v :: ts' => parse stack (FLit n v :: cur) ts'
  | TIdent n :: TOpen :: ts' => parse ((n, cur) :: stack) [] ts'
  | TClose :: ts' =>
      match stack with
      | (n, outer) :: stack' => parse stack' (FMsg n (rev cur) :: outer) ts'
      | [] => None
      end
  | _ => None
  end.

Definition read_text (s : string) : option (list field) :=
  match lex LNone s with
  | Some ts => parse [] [] ts
  | None => None
  end.

(** ** What a configuration means *)

Definition opt_str (name v : string) : list field := if nonempty v then [FStr name v] else [].

Definition opt_num (name : string) (n : Z) : list field := if 0 <? n then [FLit name (pretty n)] else [].

Definition opt_lit (b : bool) (name v : string) : list field := if b then [FLit name v] else [].

Definition id_map (name user : string) : field :=
  FMsg name [FStr "inside_id" user; FStr "outside_id" ""; FLit "count" "1"].

Definition mount_field (m : MountPt) : field :=
  FMsg "mount"
    (opt_str "src" (mp_Src m) ++ [FStr "dst" (mp_Dst m)] ++ opt_str "fstype" (mp_Fstype m) ++
     opt_lit (mp_Rw m) "rw" "true" ++ opt_lit (mp_IsBind m) "is_bind" "true").

(** The root file system is a read-only bind mount, before every other mount. *)
Definition rootfs_mount (chroot : string) : MountPt :=
  {| mp_Src := chroot; mp_Dst := "/"; mp_Fstype := ""; mp_Rw := false; mp_IsBind := true |}.

Definition config_mounts (c : NsjailConfig) : list MountPt :=
  (if nonempty (nc_Chroot c) then [rootfs_mount (nc_Chroot c)] else []) ++ nc_Mounts c.

Definition macvlan_fields (o : option MacvlanConfig) : list field :=
  match o with
  | None => []
  | Some mv =>
      [FStr "iface_vs" (mc_Iface mv)] ++ opt_str "iface_vs_ip" (mc_IP mv) ++
      opt_str "iface_vs_nm" (mc_Netmask mv) ++ opt_str "iface_vs_gw" (mc_Gateway mv) ++
      opt_str "iface_vs_ma" (mc_MAC mv)
  end.

Definition config_fields (c : NsjailConfig) : list field :=
  [FLit "mode" (match nc_Mode c with ModeListen => "LISTEN" | ModeOnce => "ONCE" end)] ++
  [FStr "log_file" (nc_Log c)] ++
  opt_str "hostname" (nc_Hostname c) ++
  opt_str "cwd" (nc_Cwd c) ++
  opt_num "time_limit" (nc_TimeLimit c) ++
  opt_lit (nc_DisableCloneNewUser c) "clone_newuser" "false" ++
  opt_lit (nc_DisableCloneNewNet c) "clone_newnet" "false" ++
  opt_lit (nc_CloneNewTime c) "clone_newtime" "true" ++
  opt_num "cgroup_mem_max" (nc_CgroupMemMax c) ++
  opt_num "rlimit_as" (nc_RlimitAS c) ++
  opt_num "rlimit_core" (nc_RlimitCore c) ++
  opt_num "rlimit_cpu" (nc_RlimitCPU c) ++
  opt_num "rlimit_fsize" (nc_RlimitFsize c) ++
  opt_num "rlimit_nofile" (nc_RlimitNofile c) ++
  opt_num "rlimit_nproc" (nc_RlimitNproc c) ++
  opt_num "rlimit_stack" (nc_RlimitStack c) ++
  (if nonempty (nc_User c) then [id_map "uidmap" (nc_User c); id_map "gidmap" (nc_User c)] else []) ++
  map (FStr "envar") (nc_Envar c) ++
  map mount_field (config_mounts c) ++
  opt_str "seccomp_string" (nc_SeccompString c) ++
  macvlan_fields (nc_Macvlan c) ++
  opt_lit (nc_UsePasta c) "use_pasta" "true" ++
  opt_num "port" (nc_ListenPort c).

(** ** The reader reads back a printed string *)

(** [s] lexes to [ts], whatever follows it. *)
Definition lexes (s : string) (ts : list token) : Prop :=
  forall rest, lex LNone (s +:+ rest) = app ts <$> lex LNone rest.

(** [ts] parses to the fields [fs], inside any message and whatever follows. *)
Definition parses (ts : list token) (fs : list field) : Prop :=
  forall stack cur rest, parse stack cur (ts ++ rest) = parse stack (rev fs ++ cur) rest.

Definition reads (s : string) (fs : list field) : Prop :=
  exists ts, lexes s ts /\ parses ts fs.

Lemma fmap_app_nil (o : option (list token)) : app [] <$> o = o.
Proof. by destruct o. Qed.

Lemma fmap_app_app (a b : list token) (o : option (list token)) :
  app a <$> (app b <$> o) = app (a ++ b) <$> o.
Proof. destruct o; simpl; [|done]. by rewrite app_assoc. Qed.

Lemma lex_cons (st st' : lstate) (c : ascii) (s : string) (ts : list token) :
  lex_byte st c = Some (st', ts) -> lex st (String c s) = app ts <$> lex st' s.
Proof. simpl. by intros ->. Qed.

Lemma lex_skip (st st' : lstate) (c : ascii) (s : string) :
  lex_byte st c = Some (st', []) -> lex st (String c s) = lex st' s.
Proof. intros H. by rewrite (lex_cons _ _ _ _ _ H), fmap_app_nil. Qed.

Lemma lex_proto_byte (c : ascii) (acc rest : string) :
  lex (LStr acc) (proto_byte c +:+ rest) = lex (LStr (snoc acc c)) rest.
Proof.
  destruct c as [[] [] [] [] [] [] [] []];
    (match goal with
     | |- context [proto_byte ?x] =>
         let v := eval vm_compute in (proto_byte x) in change (proto_byte x) with v
     end);
    cbn [String.append]; repeat (erewrite lex_skip by reflexivity); reflexivity.
Qed.

Lemma snoc_app (acc : string) (c : ascii) (s : string) : snoc acc c +:+ s = acc +:+ String c s.
Proof. unfold snoc. by rewrite str_app_assoc. Qed.

Lemma lex_proto_body (s acc rest : string) :
  lex (LStr acc) (proto_body s +:+ DQ +:+ rest) = app [TStr (acc +:+ s)] <$> lex LNone rest.
Proof.
  revert acc. induction s as [|c s IH]; intros acc.
  - rewrite str_app_nil_r. done.
  - simpl. rewrite str_app_assoc, lex_proto_byte, IH, snoc_app. done.
Qed.

Lemma lex_none_ident (c : ascii) : ident_char c = true -> lex_none c = Some (LIdent (String c ""), []).
Proof. destruct c as [[] [] [] [] [] [] [] []]; done. Qed.

Lemma lex_ident_go (w acc rest : string) :
  str_forall ident_char w = true -> lex (LIdent acc) (w +:+ rest) = lex (LIdent (acc +:+ w)) rest.
Proof.
  revert acc. induction w as [|c w IH]; intros acc; [by rewrite str_app_nil_r|].
  intros Hw. cbn [str_forall] in Hw. apply andb_true_iff in Hw as [Hc Hw].
  cbn [String.append]. erewrite lex_skip by (cbn [lex_byte]; rewrite Hc; reflexivity).
  by rewrite IH, snoc_app.
Qed.

(** A word of identifier characters. *)
Definition word (w : string) : Prop := str_forall ident_char w = true /\ w <> "".

Lemma lex_word (w rest : string) : word w -> lex LNone (w +:+ rest) = lex (LIdent w) rest.
Proof.
  intros [Hw Hne]. destruct w as [|c w]; [done|].
  cbn [str_forall] in Hw. apply andb_true_iff in Hw as [Hc Hw]. cbn [String.append].
  erewrite lex_skip by (cbn [lex_byte]; by apply lex_none_ident).
  by rewrite lex_ident_go.
Qed.

Lemma lexes_nil : lexes "" [].
Proof. intros rest. simpl. by rewrite fmap_app_nil. Qed.

Lemma lexes_app (a b : string) (ta tb : list token) :
  lexes a ta -> lexes b tb -> lexes (a +:+ b) (ta ++ tb).
Proof. intros Ha Hb rest. by rewrite str_app_assoc, Ha, Hb, fmap_app_app. Qed.

Lemma lexes_blank (c : ascii) : blank c = true -> lexes (String c "") [].
Proof.
  intros Hc rest. cbn [String.append].
  apply lex_cons. cbn [lex_byte]. unfold lex_none. by rewrite Hc.
Qed.

Lemma lexes_protoString (s : string) : lexes (protoString s) [TStr s].
Proof.
  intros rest. unfold protoString. rewrite !str_app_assoc.
  change (DQ +:+ proto_body s +:+ DQ +:+ rest) with (String "034" (proto_body s +:+ DQ +:+ rest)).
  rewrite (lex_skip LNone (LStr "")) by reflexivity. by rewrite lex_proto_body.
Qed.

Lemma lexes_key (name : string) : word name -> lexes (name +:+ ": ") [TIdent name; TColon].
Proof.
  intros Hn rest. rewrite str_app_assoc, lex_word by done. cbn [String.append].
  rewrite (lex_cons _ LNone _ _ [TIdent name; TColon]) by reflexivity.
  by rewrite (lex_skip LNone LNone) by reflexivity.
Qed.

Lemma lexes_word_nl (w : string) : word w -> lexes (w +:+ NL) [TIdent w].
Proof.
  intros Hw rest. rewrite str_app_assoc, lex_word by done. unfold NL. cbn [String.append].
  by rewrite (lex_cons _ LNone _ _ [TIdent w]) by reflexivity.
Qed.

Lemma lexes_blank_key (name : string) :
  word name -> lexes (" " +:+ name +:+ ": ") [TIdent name; TColon].
Proof.
  intros Hn. apply (lexes_app " " (name +:+ ": ") []); [by apply lexes_blank|by apply lexes_key].
Qed.

Lemma lexes_word_sp (w : string) : word w -> lexes (w +:+ " ") [TIdent w].
Proof.
  intros Hw rest. rewrite str_app_assoc, lex_word by done. cbn [String.append].
  by rewrite (lex_cons _ LNone _ _ [TIdent w]) by reflexivity.
Qed.

Lemma lexes_word_open (w : string) : word w -> lexes (w +:+ " {") [TIdent w; TOpen].
Proof.
  intros Hw rest. rewrite str_app_assoc, lex_word by done. cbn [String.append].
  rewrite (lex_cons _ LNone _ _ [TIdent w]) by reflexivity.
  rewrite (lex_cons LNone LNone _ _ [TOpen]) by reflexivity. apply fmap_app_app.
Qed.

Lemma lexes_nl : lexes NL [].
Proof. by apply lexes_blank. Qed.

Lemma lexes_close : lexes "}" [TClose].
Proof. intros rest. by apply lex_cons. Qed.

Lemma parses_app (ta tb : list token) (fa fb : list field) :
  parses ta fa -> parses tb fb -> parses (ta ++ tb) (fa ++ fb).
Proof.
  intros Ha Hb stack cur rest. rewrite <- app_assoc, Ha, Hb, rev_app_distr, app_assoc. done.
Qed.

Lemma parses_msg (n : string) (ts : list token) (fs : list field) :
  parses ts fs -> parses (TIdent n :: TOpen :: ts ++ [TClose]) [FMsg n fs].
Proof.
  intros H stack cur rest. simpl. rewrite <- app_assoc, H. simpl.
  by rewrite app_nil_r, rev_involutive.
Qed.

(** ** Reading is compositional *)

Lemma reads_nil : reads "" [].
Proof. exists []. split; [apply lexes_nil|done]. Qed.

Lemma reads_app (a b : string) (fa fb : list field) :
  reads a fa -> reads b fb -> reads (a +:+ b) (fa ++ fb).
Proof.
  intros (ta & Ha & Hpa) (tb & Hb & Hpb). exists (ta ++ tb).
  split; [by apply lexes_app|by apply parses_app].
Qed.

Lemma reads_cons (s : string) (l : list string) (fs gs : list field) :
  reads s fs -> reads (str_concat l) gs -> reads (str_concat (s :: l)) (fs ++ gs).
Proof. apply reads_app. Qed.

Lemma reads_last (s : string) (fs : list field) : reads s fs -> reads (str_concat [s]) fs.
Proof. simpl. by rewrite str_app_nil_r. Qed.

Lemma reads_when (b : bool) (s : string) (fs : list field) :
  reads s fs -> reads (when b s) (if b then fs else []).
Proof. destruct b; [done|]. intros _. apply reads_nil. Qed.

Lemma reads_map {A} (f : A -> string) (g : A -> field) (l : list A) :
  (forall x, reads (f x) [g x]) -> reads (str_concat (map f l)) (map g l).
Proof.
  intros H. induction l as [|x l IH]; simpl; [apply reads_nil|]. by apply (reads_app _ _ [g x]).
Qed.

(** Indentation is made of blanks. *)
Definition indentation (s : string) : Prop := s = "" \/ s = "  ".

Lemma lexes_indent (i : string) : indentation i -> lexes i [].
Proof.
  intros [-> | ->]; [apply lexes_nil|].
  apply (lexes_app " " " " [] []); by apply lexes_blank.
Qed.

Lemma reads_str_line (i name v : string) :
  indentation i -> word name -> reads (str_line i name v) [FStr name v].
Proof.
  intros Hi Hn. exists [TIdent name; TColon; TStr v]. split; [|done].
  unfold str_line. apply (lexes_app _ _ []); [by apply lexes_indent|].
  rewrite <- str_app_assoc. apply (lexes_app _ _ [TIdent name; TColon]); [by apply lexes_key|].
  apply (lexes_app _ _ [TStr v]); [apply lexes_protoString|apply lexes_nl].
Qed.

Lemma reads_lit_line (i name v : string) :
  indentation i -> word name -> word v -> reads (lit_line i name v) [FLit name v].
Proof.
  intros Hi Hn Hv. exists [TIdent name; TColon; TIdent v]. split; [|done].
  unfold lit_line. apply (lexes_app _ _ []); [by apply lexes_indent|].
  rewrite <- str_app_assoc. apply (lexes_app _ _ [TIdent name; TColon]); [by apply lexes_key|].
  by apply lexes_word_nl.
Qed.

Lemma reads_msg_lines (name body : string) (fs : list field) :
  word name -> reads body fs -> reads (name +:+ " {" +:+ NL +:+ body +:+ "}" +:+ NL) [FMsg name fs].
Proof.
  intros Hn (ts & Hb & Hp). exists (TIdent name :: TOpen :: ts ++ [TClose]).
  split; [|by apply parses_msg].
  rewrite <- str_app_assoc. apply (lexes_app _ _ [TIdent name; TOpen]); [by apply lexes_word_open|].
  apply (lexes_app _ _ []); [apply lexes_nl|]. apply lexes_app; [done|].
  rewrite <- (app_nil_r [TClose]). apply lexes_app; [apply lexes_close|apply lexes_nl].
Qed.

Lemma reads_id_map_line (name user : string) :
  word name -> reads (id_map_line name user) [id_map name user].
Proof.
  intros Hn. exists ([TIdent name; TOpen] ++ [TIdent "inside_id"; TColon] ++ [TStr user] ++
    [TIdent "outside_id"; TColon] ++ [TStr ""] ++ [TIdent "count"; TColon; TIdent "1"; TClose]).
  split; [|apply (parses_msg name [TIdent "inside_id"; TColon; TStr user; TIdent "outside_id";
    TColon; TStr ""; TIdent "count"; TColon; TIdent "1"]
    [FStr "inside_id" user; FStr "outside_id" ""; FLit "count" "1"]); done].
  unfold id_map_line.
  change (name +:+ " { inside_id: " +:+ protoString user +:+ " outside_id: " +:+ DQ +:+ DQ +:+
    " count: 1 }" +:+ NL) with
    (name +:+ " {" +:+ " inside_id: " +:+ protoString user +:+ " outside_id: " +:+
     protoString "" +:+ " count: 1 }" +:+ NL).
  rewrite <- str_app_assoc. apply lexes_app; [by apply lexes_word_open|].
  apply lexes_app; [by apply (lexes_blank_key "inside_id")|].
  apply lexes_app; [apply lexes_protoString|].
  apply lexes_app; [by apply (lexes_blank_key "outside_id")|].
  apply lexes_app; [apply lexes_protoString|].
  apply (lexes_app (" " +:+ "count" +:+ ": ") ("1 " +:+ "}" +:+ NL) [TIdent "count"; TColon]);
    [by apply lexes_blank_key|].
  apply (lexes_app "1 " ("}" +:+ NL) [TIdent "1"]); [by apply (lexes_word_sp "1")|].
  apply (lexes_app "}" NL [TClose] []); [apply lexes_close|apply lexes_nl].
Qed.

(** ** Numbers *)

Lemma pretty_N_go_word (x : N) (s : string) :
  str_forall ident_char s = true -> str_forall ident_char (pretty_N_go x s) = true.
Proof.
  revert s. induction (N.lt_wf_0 x) as [x _ IH]. intros s Hs.
  destruct (decide (x = 0%N)) as [->|Hx]; [by rewrite pretty_N_go_0|].
  rewrite pretty_N_go_step by lia. apply IH; [apply N.div_lt; lia|].
  cbn [str_forall]. rewrite Hs, andb_true_r. unfold pretty_N_char. by repeat case_match.
Qed.

Lemma pretty_N_go_nonempty (x : N) (s : string) : s <> "" -> pretty_N_go x s <> "".
Proof.
  revert s. induction (N.lt_wf_0 x) as [x _ IH]. intros s Hs.
  destruct (decide (x = 0%N)) as [->|Hx]; [by rewrite pretty_N_go_0|].
  rewrite pretty_N_go_step by lia. apply IH; [apply N.div_lt; lia|done].
Qed.

Lemma pretty_pos_word (z : Z) : 0 < z -> word (pretty z).
Proof.
  intros Hz. destruct z as [|p|p]; [lia| |lia].
  change (pretty (Z.pos p)) with (pretty (N.pos p)). unfold pretty, pretty_N.
  destruct (decide (N.pos p = 0%N)); [done|]. split; [by apply pretty_N_go_word|].
  rewrite pretty_N_go_step by lia. by apply pretty_N_go_nonempty.
Qed.

Lemma reads_num (name : string) (n : Z) :
  word name -> reads (when (0 <? n) (lit_line "" name (pretty n))) (opt_num name n).
Proof.
  intros Hn. unfold opt_num. destruct (0 <? n) eqn:H; [|apply reads_nil]. bool_hyps.
  apply reads_lit_line; [by left|done|by apply pretty_pos_word].
Qed.

Lemma reads_opt_str (i name v : string) :
  indentation i -> word name -> reads (when (nonempty v) (str_line i name v)) (opt_str name v).
Proof. intros Hi Hn. apply reads_when. by apply reads_str_line. Qed.

Lemma reads_opt_lit (b : bool) (i name v : string) :
  indentation i -> word name -> word v ->
  reads (when b (lit_line i name v)) (opt_lit b name v).
Proof. intros Hi Hn Hv. apply reads_when. by apply reads_lit_line. Qed.

(** Proves that a printed piece reads as the fields it stands for. *)
Ltac is_word := split; [reflexivity|discriminate].
Ltac is_indent := (left; reflexivity) || (right; reflexivity).
Ltac reads_piece :=
  lazymatch goal with
  | |- reads (when _ (str_line _ _ _)) _ => apply reads_opt_str; [is_indent|is_word]
  | |- reads (when _ (lit_line _ _ (pretty _))) _ => apply reads_num; is_word
  | |- reads (when _ (lit_line _ _ _)) _ => apply reads_opt_lit; [is_indent|is_word|is_word]
  | |- reads (str_line _ _ _) _ => apply reads_str_line; [is_indent|is_word]
  | |- reads (lit_line _ _ _) _ => apply reads_lit_line; [is_indent|is_word|is_word]
  end.

Lemma reads_mount (m : MountPt) : reads (mount_text m) [mount_field m].
Proof.
  unfold mount_text, mount_field. unfold str_concat. cbn [foldr].
  match goal with
  | |- reads (("mount {" +:+ NL) +:+ ?a +:+ ?b +:+ ?c +:+ ?d +:+ ?e +:+ _ +:+ "") _ =>
      replace (("mount {" +:+ NL) +:+ a +:+ b +:+ c +:+ d +:+ e +:+ ("}" +:+ NL) +:+ "")
        with ("mount" +:+ " {" +:+ NL +:+ (a +:+ b +:+ c +:+ d +:+ e) +:+ "}" +:+ NL)
        by (rewrite !str_app_assoc; done)
  end.
  apply reads_msg_lines; [is_word|].
  apply reads_app; [reads_piece|]. apply reads_app; [reads_piece|].
  apply reads_app; [reads_piece|]. apply reads_app; reads_piece.
Qed.

(** The hard-wired root mount is printed as any other mount would be. *)
Lemma rootfs_text (chroot : string) :
  nonempty chroot = true ->
  str_concat [ "mount {" +:+ NL; str_line "  " "src" chroot; "  dst: " +:+ DQ +:+ "/" +:+ DQ +:+ NL;
    lit_line "  " "is_bind" "true"; "}" +:+ NL ] = mount_text (rootfs_mount chroot).
Proof. intros H. unfold mount_text, rootfs_mount. simpl. by rewrite H. Qed.

Lemma reads_macvlan (o : option MacvlanConfig) :
  reads (match o with
    | None => ""
    | Some mv =>
        str_concat [
          str_line "" "iface_vs" (mc_Iface mv);
          when (nonempty (mc_IP mv)) (str_line "" "iface_vs_ip" (mc_IP mv));
          when (nonempty (mc_Netmask mv)) (str_line "" "iface_vs_nm" (mc_Netmask mv));
          when (nonempty (mc_Gateway mv)) (str_line "" "iface_vs_gw" (mc_Gateway mv));
          when (nonempty (mc_MAC mv)) (str_line "" "iface_vs_ma" (mc_MAC mv)) ]
    end) (macvlan_fields o).
Proof.
  destruct o as [mv|]; [|apply reads_nil]. unfold macvlan_fields.
  repeat (apply reads_cons; [reads_piece|]). apply reads_last. reads_piece.
Qed.

Lemma reads_config (c : NsjailConfig) : reads (ToTextProto c) (config_fields c).
Proof.
  unfold ToTextProto, config_fields, config_mounts.
  apply reads_cons; [destruct (nc_Mode c); reads_piece|].
  repeat (apply reads_cons; [reads_piece|]).
  apply reads_cons.
  { apply reads_when. apply (reads_app _ _ [id_map "uidmap" _]); apply reads_id_map_line; is_word. }
  apply reads_cons; [apply reads_map; intros x; reads_piece|].
  rewrite map_app, <- !app_assoc.
  apply reads_cons.
  { destruct (nonempty (nc_Chroot c)) eqn:H; [|apply reads_nil]. cbn [when map].
    rewrite rootfs_text by done. apply reads_mount. }
  apply reads_cons; [apply reads_map, reads_mount|].
  apply reads_cons; [reads_piece|].
  apply reads_cons; [apply reads_macvlan|].
  apply reads_cons; [reads_piece|].
  apply reads_last. reads_piece.
Qed.

Lemma read_text_reads (s : string) (fs : list field) : reads s fs -> read_text s = Some fs.
Proof.
  intros (ts & Hl & Hp). unfold read_text.
  specialize (Hl ""). rewrite str_app_nil_r in Hl. rewrite Hl. simpl.
  specialize (Hp [] [] []). rewrite app_nil_r in *. rewrite Hp. simpl.
  by rewrite app_nil_r, rev_involutive.
Qed.

(** ** Properties *)

(** C16: reading the text [ToTextProto] prints, with a reader of the protobuf
    text format, gives back exactly the fields the configuration means, in
    order, for every configuration: whatever bytes the hostname, the paths,
    the environment or the seccomp policy hold, quotes, newlines and control
    bytes included, no string can end early, merge with its neighbour or
    introduce a field of its own. *)
Theorem textproto_roundtrip (c : NsjailConfig) : read_text (ToTextProto c) = Some (config_fields c).
Proof. apply read_text_reads, reads_config. Qed.

(** [protoString] is injective and its output is one quoted token: the
    reader gets back the original bytes and stops at the closing quote. *)
Theorem protoString_roundtrip (s rest : string) :
  lex LNone (protoString s +:+ rest) = app [TStr s] <$> lex LNone rest.
Proof. apply lexes_protoString. Qed.
