(* ===== verification/Output.v ===== *)
(** * Output capture: [limitWriter], [io.Copy] and the [drain] loop of
    [internal/nsjail/adapter.go]

    The command's output reaches the adapter as a list of chunks, one per
    read of the pipe.  For a plain exec two [io.Copy] goroutines push the
    chunks into a [limitWriter] each; for a streaming exec two [drain]
    goroutines share the counter [totalRead], and the model runs over the
    list of all reads in the order in which they take [totalMu]. *)
From S2P Require Import Prelude GoStrings.
Open Scope boxy_scope.

Record limitWriter := { lw_buf : string; lw_limit : Z }.

(** [limitWriter.Write]: the count it returns (its error is always nil) and
    the writer after the call. *)
Definition lw_Write (lw : limitWriter) (p : string) : Z * limitWriter :=
  let put p := (slen p, {| lw_buf := lw_buf lw +:+ p; lw_limit := lw_limit lw |}) in
  if 0 <? lw_limit lw then
    let remaining := lw_limit lw - slen (lw_buf lw) in
    if remaining <=? 0 then (slen p, lw)
    else if remaining <? slen p then put (str_take (Z.to_nat remaining) p)
    else put p
  else put p.

(** [var w limitWriter; if maxBytes > 0 { w.limit = maxBytes }]. *)
Definition new_writer (maxBytes : Z) : limitWriter :=
  {| lw_buf := ""; lw_limit := if 0 <? maxBytes then maxBytes else 0 |}.

(** [io.Copy(lw, pipe)]: stops with [io.ErrShortWrite] (the flag) as soon as
    a write consumes less than the chunk that was read. *)
Fixpoint io_Copy (lw : limitWriter) (chunks : list string) : limitWriter * bool :=
  match chunks with
  | [] => (lw, false)
  | c :: chunks' =>
      let '(n, lw') := lw_Write lw c in
      if n <? slen c then (lw', true) else io_Copy lw' chunks'
  end.

Inductive stream : Type := Stdout | Stderr.

#[export] Instance stream_eq_dec : EqDecision stream.
Proof. solve_decision. Defined.

Definition stream_name (s : stream) : string :=
  match s with Stdout => "stdout" | Stderr => "stderr" end.

(** The variables the two [drain] goroutines share, and the calls of [onEvent]. *)
Record drainState := {
  ds_totalRead : Z;
  ds_truncated : bool;
  ds_stdoutBuf : limitWriter;
  ds_stderrBuf : limitWriter;
  ds_events : list (string * string);
}.

Definition drain_init (maxBytes : Z) : drainState :=
  {| ds_totalRead := 0; ds_truncated := false; ds_stdoutBuf := new_writer maxBytes;
     ds_stderrBuf := new_writer maxBytes; ds_events := [] |}.

(** The critical section: what is sent, whether the limit was just reached,
    and the shared counter and flag after it. *)
Definition drain_account (maxBytes totalRead : Z) (truncated : bool) (data : string)
    : string * bool * Z * bool :=
  if maxBytes <=? 0 then (data, false, totalRead + slen data, truncated)
  else if totalRead <? maxBytes then
    let remaining := maxBytes - totalRead in
    let toSend := if remaining <? slen data then str_take (Z.to_nat remaining) data else data in
    let totalRead := totalRead + slen toSend in
    if (maxBytes <=? totalRead) && negb truncated then (toSend, true, totalRead, true)
    else (toSend, false, totalRead, truncated)
  else ("", false, totalRead, truncated).

(** The calls of [onEvent] after the critical section. *)
Definition sent_events (s : stream) (toSend : string) (emitTruncated : bool) : list (string * string) :=
  (if 0 <? slen toSend then [(stream_name s, toSend)] else []) ++
  (if emitTruncated then [("truncated", "")] else []).

(** [if len(toSend) > 0 { buf.Write(toSend) }], for the buffer of the stream [s']. *)
Definition sent_write (s s' : stream) (toSend : string) (w : limitWriter) : limitWriter :=
  if (0 <? slen toSend) && bool_decide (s = s') then (lw_Write w toSend).2 else w.

Definition drain_step (maxBytes : Z) (st : drainState) (read : stream * string) : drainState :=
  let '(s, data) := read in
  let '(toSend, emitTruncated, totalRead, truncated) :=
    drain_account maxBytes (ds_totalRead st) (ds_truncated st) data in
  {| ds_totalRead := totalRead;
     ds_truncated := truncated;
     ds_stdoutBuf := sent_write s Stdout toSend (ds_stdoutBuf st);
     ds_stderrBuf := sent_write s Stderr toSend (ds_stderrBuf st);
     ds_events := ds_events st ++ sent_events s toSend emitTruncated |}.

Definition drain (maxBytes : Z) (reads : list (stream * string)) : drainState :=
  fold_left (drain_step maxBytes) reads (drain_init maxBytes).

(** ** Specification vocabulary *)

(** The data of the events with a given name, concatenated. *)
Definition event_data (name : string) (evs : list (string * string)) : string :=
  str_concat (map snd (filter (fun e => e.1 = name) evs)).

(** The bytes read from one pipe. *)
Definition stream_data (s : stream) (reads : list (stream * string)) : string :=
  str_concat (map snd (filter (fun r => r.1 = s) reads)).

Definition count_events (name : string) (evs : list (string * string)) : nat :=
  length (filter (fun e => e.1 = name) evs).

(** ** Lemmas *)

Lemma str_take_app_ge (n : nat) (s t : string) :
  (String.length s <= n)%nat -> str_take n (s +:+ t) = s +:+ str_take (n - String.length s) t.
Proof.
  revert n. induction s as [|c s IH]; intros n; simpl; [by rewrite Nat.sub_0_r|].
  destruct n as [|n]; [lia|]. simpl. intros H. by rewrite IH by lia.
Qed.

Lemma str_take_app_le (n : nat) (s t : string) :
  (n <= String.length s)%nat -> str_take n (s +:+ t) = str_take n s.
Proof.
  revert n. induction s as [|c s IH]; intros n; simpl.
  - intros H. assert (n = 0%nat) as -> by lia. done.
  - destruct n as [|n]; simpl; [done|]. intros H. by rewrite IH by lia.
Qed.

Lemma slen_zero (s : string) : slen s <= 0 -> s = "".
Proof. unfold slen. destruct s; simpl; [done|lia]. Qed.

Lemma slen_take (n : nat) (s : string) : slen (str_take n s) = Z.min (Z.of_nat n) (slen s).
Proof. unfold slen. rewrite str_take_length. lia. Qed.

(** The buffer is the longest prefix of the data the limit allows. *)
Lemma lw_Write_take (lw : limitWriter) (p data : string) :
  0 < lw_limit lw -> lw_buf lw = str_take (Z.to_nat (lw_limit lw)) data ->
  lw_limit (lw_Write lw p).2 = lw_limit lw /\
  lw_buf (lw_Write lw p).2 = str_take (Z.to_nat (lw_limit lw)) (data +:+ p).
Proof.
  intros HL Hb. unfold lw_Write. rewrite (proj2 (Z.ltb_lt _ _) HL).
  assert (slen (lw_buf lw) = Z.min (lw_limit lw) (slen data)) as Hlen
    by (rewrite Hb, slen_take; lia).
  unfold slen in Hlen.
  destruct (_ <=? 0) eqn:Hr; bool_hyps; simpl.
  - split; [done|]. unfold slen in Hr. rewrite str_take_app_le by lia. done.
  - unfold slen in Hr.
    assert (lw_buf lw = data) as Hd by (rewrite Hb; apply str_take_ge; lia).
    rewrite str_take_app_ge by lia. rewrite Hd.
    destruct (_ <? _) eqn:Hp; bool_hyps; simpl; (split; [done|]); unfold slen in *.
    + do 2 f_equal. lia.
    + rewrite (str_take_ge _ p) by lia. done.
Qed.

Lemma io_Copy_take (chunks : list string) (lw : limitWriter) (data : string) :
  0 < lw_limit lw -> lw_buf lw = str_take (Z.to_nat (lw_limit lw)) data ->
  lw_limit (io_Copy lw chunks).1 = lw_limit lw /\
  lw_buf (io_Copy lw chunks).1 = str_take (Z.to_nat (lw_limit lw)) (data +:+ str_concat chunks).
Proof.
  revert lw data. induction chunks as [|c chunks IH]; intros lw data HL Hb; simpl.
  { by rewrite str_app_nil_r. }
  destruct (lw_Write_take lw c data HL Hb) as [Hlim Hbuf].
  destruct (lw_Write lw c) as [n lw'] eqn:Hw; simpl in Hlim, Hbuf |- *.
  destruct (n <? slen c) eqn:Hn.
  - simpl. split; [done|]. rewrite Hbuf, <- str_app_assoc.
    rewrite (str_take_app_le _ (data +:+ c)); [done|].
    apply Z.ltb_lt in Hn. unfold lw_Write in Hw. rewrite (proj2 (Z.ltb_lt _ _) HL) in Hw.
    assert (slen (lw_buf lw) = Z.min (lw_limit lw) (slen data)) by (rewrite Hb, slen_take; lia).
    rewrite str_app_length. unfold slen in *.
    repeat case_hyp Hw; simplify_eq; bool_hyps; try lia.
  - rewrite <- Hlim. rewrite <- str_app_assoc. apply IH; rewrite Hlim; done.
Qed.

Lemma io_Copy_unlimited (chunks : list string) (lw : limitWriter) :
  lw_limit lw <= 0 ->
  io_Copy lw chunks = ({| lw_buf := lw_buf lw +:+ str_concat chunks; lw_limit := lw_limit lw |}, false).
Proof.
  revert lw. induction chunks as [|c chunks IH]; intros lw HL; simpl.
  { rewrite str_app_nil_r. by destruct lw. }
  unfold lw_Write. rewrite (proj2 (Z.ltb_ge _ _) HL). simpl.
  rewrite (proj2 (Z.ltb_ge (slen c) (slen c))) by lia.
  rewrite IH by done. simpl. by rewrite str_app_assoc.
Qed.

(** A copy ends with a short write exactly when some chunk crosses the limit. *)
Lemma io_Copy_short (chunks : list string) (lw : limitWriter) :
  0 < lw_limit lw -> slen (lw_buf lw) <= lw_limit lw ->
  (io_Copy lw chunks).2 = true <->
  exists pre c post, chunks = pre ++ c :: post /\
    slen (lw_buf lw +:+ str_concat pre) < lw_limit lw < slen (lw_buf lw +:+ str_concat pre +:+ c).
Proof.
  revert lw. induction chunks as [|c chunks IH]; intros lw HL Hb; simpl.
  { split; [done|]. intros (pre & c & post & H & _). by destruct pre. }
  unfold lw_Write. rewrite (proj2 (Z.ltb_lt _ _) HL).
  pose proof (slen_nonneg c).
  assert (forall lw', lw_limit lw' = lw_limit lw -> slen (lw_buf lw') <= lw_limit lw ->
    (lw_buf lw' = lw_buf lw +:+ c \/ lw' = lw /\ lw_limit lw <= slen (lw_buf lw)) ->
    slen (lw_buf lw +:+ c) <= lw_limit lw \/ lw_limit lw <= slen (lw_buf lw) ->
    (io_Copy lw' chunks).2 = true <->
    exists pre c' post, c :: chunks = pre ++ c' :: post /\
      slen (lw_buf lw +:+ str_concat pre) < lw_limit lw < slen (lw_buf lw +:+ str_concat pre +:+ c')) as Hnext.
  { intros lw' Hl' Hb' Hbuf Hfit. rewrite IH by (rewrite Hl'; done). rewrite Hl'. split.
    - intros (pre & c' & post & -> & Hc). exists (c :: pre), c', post. split; [done|].
      cbn [str_concat foldr]. change (foldr String.append "" pre) with (str_concat pre).
      pose proof (slen_nonneg (str_concat pre)). destruct Hbuf as [E|[-> ?]].
      + rewrite E, !slen_app in Hc. rewrite !slen_app. lia.
      + rewrite !slen_app in Hc. rewrite !slen_app. lia.
    - intros ([|c0 pre] & c' & post & Hch & Hc); simpl in Hch; simplify_eq.
      + exfalso. simpl in Hc. rewrite !slen_app in *. change (slen "") with 0 in *. lia.
      + exists pre, c', post. split; [done|].
        cbn [str_concat foldr] in Hc. change (foldr String.append "" pre) with (str_concat pre) in Hc.
        pose proof (slen_nonneg (str_concat pre)). rewrite !slen_app in Hc.
        destruct Hbuf as [->|[-> ?]]; rewrite !slen_app; lia. }
  destruct (_ <=? 0) eqn:Hr; bool_hyps.
  - rewrite (proj2 (Z.ltb_ge (slen c) (slen c))) by lia.
    apply Hnext; [done|done|right; split; [done|lia]|right; lia].
  - destruct (_ <? slen c) eqn:Hc; bool_hyps.
    + rewrite slen_take. rewrite (proj2 (Z.ltb_lt _ _)) by lia. simpl. split; [|done]. intros _.
      exists [], c, chunks. split; [done|]. simpl. rewrite !slen_app. change (slen "") with 0. lia.
    + rewrite (proj2 (Z.ltb_ge (slen c) (slen c))) by lia.
      apply Hnext; simpl; rewrite ?slen_app; [done|lia|by left|left; lia].
Qed.

(** What holds of the shared state after the reads [reads]. *)
Record drain_inv (maxBytes : Z) (reads : list (stream * string)) (st : drainState) : Prop := {
  di_total : ds_totalRead st = slen (str_concat (map snd (ds_events st)));
  di_payload : str_concat (map snd (ds_events st)) =
    if 0 <? maxBytes then str_take (Z.to_nat maxBytes) (str_concat (map snd reads))
    else str_concat (map snd reads);
  di_trunc : ds_truncated st = (0 <? maxBytes) && (maxBytes <=? ds_totalRead st);
  di_count : count_events "truncated" (ds_events st) = if ds_truncated st then 1%nat else 0%nat;
  di_split : ds_totalRead st =
    slen (event_data "stdout" (ds_events st)) + slen (event_data "stderr" (ds_events st));
  di_out : ds_stdoutBuf st = {| lw_buf := event_data "stdout" (ds_events st);
                                lw_limit := lw_limit (new_writer maxBytes) |};
  di_err : ds_stderrBuf st = {| lw_buf := event_data "stderr" (ds_events st);
                                lw_limit := lw_limit (new_writer maxBytes) |};
  di_prefix : forall s, exists rest,
    stream_data s reads = event_data (stream_name s) (ds_events st) +:+ rest /\
    (ds_truncated st = false -> rest = "");
}.

Lemma lw_Write_fits (b p : string) (maxBytes : Z) :
  (0 < maxBytes -> slen b + slen p <= maxBytes) ->
  (lw_Write {| lw_buf := b; lw_limit := lw_limit (new_writer maxBytes) |} p).2 =
  {| lw_buf := b +:+ p; lw_limit := lw_limit (new_writer maxBytes) |}.
Proof.
  intros H. unfold lw_Write, new_writer. simpl.
  destruct (0 <? maxBytes) eqn:Hm; simpl; [|done]. rewrite Hm. bool_hyps.
  specialize (H Hm). pose proof (slen_nonneg p).
  destruct (_ <=? 0) eqn:Hr; bool_hyps; simpl.
  - assert (p = "") as -> by (apply slen_zero; lia). by rewrite str_app_nil_r.
  - rewrite (proj2 (Z.ltb_ge _ _)) by lia. done.
Qed.

Lemma event_data_app (name : string) (l k : list (string * string)) :
  event_data name (l ++ k) = event_data name l +:+ event_data name k.
Proof. unfold event_data. by rewrite filter_app, map_app, str_concat_app. Qed.

Lemma stream_data_app (s : stream) (l k : list (stream * string)) :
  stream_data s (l ++ k) = stream_data s l +:+ stream_data s k.
Proof. unfold stream_data. by rewrite filter_app, map_app, str_concat_app. Qed.

Lemma count_events_app (name : string) (l k : list (string * string)) :
  count_events name (l ++ k) = (count_events name l + count_events name k)%nat.
Proof. unfold count_events. by rewrite filter_app, length_app. Qed.

(** The accounting forwards the longest prefix the shared limit allows. *)
Lemma drain_account_spec (maxBytes total : Z) (trunc : bool) (data payload all : string) :
  total = slen payload ->
  payload = (if 0 <? maxBytes then str_take (Z.to_nat maxBytes) all else all) ->
  trunc = (0 <? maxBytes) && (maxBytes <=? total) ->
  let '(toSend, emit, total', trunc') := drain_account maxBytes total trunc data in
  total' = total + slen toSend /\
  payload +:+ toSend =
    (if 0 <? maxBytes then str_take (Z.to_nat maxBytes) (all +:+ data) else all +:+ data) /\
  trunc' = (0 <? maxBytes) && (maxBytes <=? total') /\
  emit = trunc' && negb trunc /\
  exists rest, data = toSend +:+ rest /\ (trunc' = false -> rest = "").
Proof.
  intros Ht Hp Htr. unfold drain_account.
  destruct (maxBytes <=? 0) eqn:Hm; bool_hyps.
  { rewrite (proj2 (Z.ltb_ge 0 maxBytes)) in * by lia. simpl in *. subst trunc payload.
    split; [done|]. split; [done|]. split; [done|]. split; [done|]. exists "". by rewrite str_app_nil_r. }
  rewrite (proj2 (Z.ltb_lt 0 maxBytes)) in * by lia. simpl in *.
  assert (total = Z.min maxBytes (slen all)) as Hmin by (subst; rewrite slen_take; lia).
  destruct (total <? maxBytes) eqn:Hlt; bool_hyps.
  - rewrite (proj2 (Z.leb_gt _ _)) in Htr by lia. subst trunc.
    assert (payload = all) as Hall by (rewrite Hp; apply str_take_ge; unfold slen in *; lia).
    rewrite Hall. rewrite str_take_app_ge by (unfold slen in *; lia).
    replace (Z.to_nat maxBytes - String.length all)%nat with (Z.to_nat (maxBytes - total))
      by (unfold slen in *; lia).
    destruct (maxBytes - total <? slen data) eqn:Hd; bool_hyps.
    + rewrite slen_take, (proj2 (Z.leb_le _ _)) by lia. simpl. rewrite slen_take.
      rewrite (proj2 (Z.leb_le _ _)) by lia.
      split; [done|]. split; [done|]. split; [done|]. split; [done|].
      exists (str_drop (Z.to_nat (maxBytes - total)) data). by rewrite str_take_drop.
    + rewrite (str_take_ge _ data) by (unfold slen in *; lia). rewrite andb_true_r.
      destruct (maxBytes <=? total + slen data) eqn:Hf; rewrite ?Hf; (split; [done|]);
        (split; [done|]); (split; [done|]); (split; [done|]); exists ""; by rewrite str_app_nil_r.
  - rewrite (proj2 (Z.leb_le _ _)) in Htr by lia. subst trunc. change (slen "") with 0.
    rewrite (proj2 (Z.leb_le _ _)) by lia. rewrite str_app_nil_r, Z.add_0_r.
    split; [done|]. split; [rewrite str_take_app_le; [done|unfold slen in *; lia]|].
    split; [done|]. split; [done|]. by exists data.
Qed.

Lemma sent_events_data (s s' : stream) (p : string) (emit : bool) :
  event_data (stream_name s') (sent_events s p emit) = if bool_decide (s = s') then p else "".
Proof.
  unfold event_data, sent_events. destruct p as [|c p].
  - change (0 <? slen "") with false. by destruct s, s', emit.
  - rewrite (proj2 (Z.ltb_lt 0 (slen (String c p)))) by (unfold slen; simpl; lia).
    destruct s, s', emit; simpl; by rewrite ?str_app_nil_r.
Qed.

Lemma sent_events_payload (s : stream) (p : string) (emit : bool) :
  str_concat (map snd (sent_events s p emit)) = p.
Proof.
  unfold sent_events. destruct p as [|c p].
  - change (0 <? slen "") with false. by destruct emit.
  - rewrite (proj2 (Z.ltb_lt 0 (slen (String c p)))) by (unfold slen; simpl; lia).
    destruct emit; simpl; by rewrite ?str_app_nil_r.
Qed.

Lemma sent_events_notices (s : stream) (p : string) (emit : bool) :
  count_events "truncated" (sent_events s p emit) = if emit then 1%nat else 0%nat.
Proof. unfold sent_events, count_events. by destruct (0 <? slen p), s, emit. Qed.

Lemma sent_write_buf (s s' : stream) (p b : string) (maxBytes : Z) :
  (0 < maxBytes -> slen b + slen p <= maxBytes) ->
  sent_write s s' p {| lw_buf := b; lw_limit := lw_limit (new_writer maxBytes) |} =
  {| lw_buf := b +:+ (if bool_decide (s = s') then p else ""); lw_limit := lw_limit (new_writer maxBytes) |}.
Proof.
  intros H. unfold sent_write. destruct (bool_decide (s = s')).
  - rewrite andb_true_r. destruct (0 <? slen p) eqn:E; [by apply lw_Write_fits|].
    bool_hyps. assert (p = "") as -> by by apply slen_zero. by rewrite str_app_nil_r.
  - by rewrite andb_false_r, str_app_nil_r.
Qed.

Lemma drain_step_inv (maxBytes : Z) (reads : list (stream * string)) (st : drainState)
    (s : stream) (data : string) :
  drain_inv maxBytes reads st -> drain_inv maxBytes (reads ++ [(s, data)]) (drain_step maxBytes st (s, data)).
Proof.
  intros [Htot Hpay Htr Hcnt Hsplit Hout Herr Hpre]. unfold drain_step.
  pose proof (drain_account_spec maxBytes _ _ data _ _ Htot Hpay Htr) as Hacc.
  destruct (drain_account _ _ _ _) as [[[toSend emit] total'] trunc'].
  destruct Hacc as (-> & Hpay' & Htr' & Hemit & rest & Hdata & Hrest).
  assert (0 < maxBytes -> ds_totalRead st + slen toSend <= maxBytes) as Hfit.
  { intros Hm. rewrite Htot, <- slen_app, Hpay', (proj2 (Z.ltb_lt _ _) Hm), slen_take. lia. }
  pose proof (slen_nonneg (event_data "stdout" (ds_events st))) as Ho.
  pose proof (slen_nonneg (event_data "stderr" (ds_events st))) as He.
  constructor; cbn [ds_totalRead ds_truncated ds_stdoutBuf ds_stderrBuf ds_events].
  - by rewrite map_app, str_concat_app, slen_app, sent_events_payload, Htot.
  - rewrite !map_app, !str_concat_app, sent_events_payload. cbn [map snd str_concat foldr].
    by rewrite str_app_nil_r.
  - done.
  - rewrite count_events_app, Hcnt, sent_events_notices, Hemit.
    destruct trunc' eqn:E1, (ds_truncated st) eqn:E2; try done.
    pose proof (slen_nonneg toSend). symmetry in Htr, Htr'. bool_hyps.
    rewrite (proj2 (Z.ltb_lt 0 maxBytes)) in Htr' by lia. simpl in Htr'. bool_hyps. lia.
  - rewrite !event_data_app, !slen_app, (sent_events_data s Stdout), (sent_events_data s Stderr).
    rewrite Hsplit. destruct s; simpl; change (slen "") with 0; lia.
  - rewrite event_data_app, (sent_events_data s Stdout), Hout, sent_write_buf; [done|lia].
  - rewrite event_data_app, (sent_events_data s Stderr), Herr, sent_write_buf; [done|lia].
  - intros s'. rewrite stream_data_app, event_data_app, sent_events_data.
    assert (stream_data s' [(s, data)] = if bool_decide (s = s') then data else "") as ->.
    { unfold stream_data. destruct s, s'; simpl; by rewrite ?str_app_nil_r. }
    destruct (Hpre s') as (rest' & -> & Hrest'). destruct (ds_truncated st) eqn:E.
    + symmetry in Htr. bool_hyps. assert (toSend = "") as -> by (apply slen_zero; lia).
      assert (trunc' = true) as ->.
      { rewrite Htr'. rewrite (proj2 (Z.ltb_lt 0 maxBytes)) by lia. simpl.
        apply Z.leb_le. change (slen "") with 0. lia. }
      exists (rest' +:+ if bool_decide (s = s') then data else "").
      split; [|done]. by destruct (bool_decide _); rewrite !str_app_assoc.
    + rewrite Hrest', str_app_nil_r by done. exists (if bool_decide (s = s') then rest else "").
      destruct (bool_decide _); rewrite ?str_app_nil_r; [|done]. by rewrite Hdata, str_app_assoc.
Qed.

Lemma drain_ok (maxBytes : Z) (reads : list (stream * string)) :
  drain_inv maxBytes reads (drain maxBytes reads).
Proof.
  unfold drain. induction reads as [|[s data] reads IH] using rev_ind.
  - constructor; try done; simpl.
    + destruct (0 <? maxBytes); [|done]. by destruct (Z.to_nat maxBytes).
    + destruct (0 <? maxBytes) eqn:E; [|done]. simpl. bool_hyps. symmetry. apply Z.leb_gt. lia.
    + intros s. by exists "".
  - rewrite fold_left_app. by apply drain_step_inv.
Qed.

Lemma io_Copy_exact (maxBytes : Z) (chunks : list string) :
  let '(lw, short) := io_Copy (new_writer maxBytes) chunks in
  lw_buf lw = (if 0 <? maxBytes then str_take (Z.to_nat maxBytes) (str_concat chunks)
               else str_concat chunks) /\
  (short = true <->
   0 < maxBytes /\ exists pre c post, chunks = pre ++ c :: post /\
     slen (str_concat pre) < maxBytes < slen (str_concat pre +:+ c)).
Proof.
  destruct (0 <? maxBytes) eqn:Hm; bool_hyps.
  - assert (lw_limit (new_writer maxBytes) = maxBytes) as Hl
      by (unfold new_writer; by rewrite (proj2 (Z.ltb_lt _ _) Hm)).
    destruct (io_Copy_take chunks (new_writer maxBytes) "") as [_ Hb];
      [by rewrite Hl|simpl; by destruct (Z.to_nat _)|].
    pose proof (io_Copy_short chunks (new_writer maxBytes)) as Hs. rewrite Hl in Hb, Hs.
    destruct (io_Copy _ _) as [lw short]. simpl in *. split; [done|].
    rewrite Hs by (change (slen "") with 0; lia). tauto.
  - rewrite io_Copy_unlimited by (unfold new_writer; by rewrite (proj2 (Z.ltb_ge _ _) Hm)).
    simpl. split; [done|]. split; [done|]. lia.
Qed.

(** ** Properties *)

(** Capturing output through [io.Copy] into a [limitWriter] keeps exactly
    the longest prefix of the command's output that fits [maxBytes] (all of it
    when no limit is set), however the output is cut into chunks; the copy ends
    with [io.ErrShortWrite] exactly when some single chunk crosses the limit,
    never when the output fits or stops at the limit between two chunks. *)
Theorem captured_output_exact (maxBytes : Z) (chunks : list string) :
  let '(lw, short) := io_Copy (new_writer maxBytes) chunks in
  lw_buf lw = (if 0 <? maxBytes then str_take (Z.to_nat maxBytes) (str_concat chunks)
               else str_concat chunks) /\
  (short = true <->
   0 < maxBytes /\ exists pre c post, chunks = pre ++ c :: post /\
     slen (str_concat pre) < maxBytes < slen (str_concat pre +:+ c)).
Proof. apply io_Copy_exact. Qed.

