(* ===== verification/AdapterConfig.v ===== *)
(** * The pure half of the nsjail adapter: [internal/nsjail/adapter.go]

    Request validation ([validateCreateRequest]), the translation of a
    sandbox into an nsjail configuration ([buildNsjailConfig]), the naming of
    files inside a sandbox, and the interpretation of a finished command. *)
From S2P Require Import Prelude GoStrings GoPath ApiTypes NsjailConfig.
Open Scope boxy_scope.

Record AdapterConfig := {
  ac_NsjailPath : string;
  ac_DefaultRootfs : string;
  ac_SandboxRoot : string;
  ac_BinariesDir : string;
  ac_MaxOutputBytes : Z;
}.

Record sandbox := {
  sx_req : SandboxCreateBody;
  sx_workspace : string;
  sx_binDir : string;
}.

(** ** Errors *)

Definition errBadRequest (msg : Msg) : Err := ErrAdapter 400 msg.

Definition errConflict (id : string) : Err := ErrAdapter 409 (text ("sandbox already exists: " +:+ id)).

Definition errNotFound (id : string) : Err := ErrAdapter 404 (text ("sandbox not found: " +:+ id)).

Definition errInternal (msg : Msg) : Err := ErrAdapter 500 msg.

(** ** [validateCreateRequest] *)

Definition isUnderPath (child parent : string) : bool :=
  match Rel parent child with
  | Some rel => negb (HasPrefix rel "..")
  | None => false
  end.

(** [strconv.ParseUint(s, 10, 64)]; [None] is an error. *)
Definition ParseUint (s : string) : option Z :=
  let digit c := in_range 48 57 c in
  if (s =?s "") || negb (str_forall digit s) then None
  else
    let fix value acc s :=
      match s with
      | EmptyString => acc
      | String c s' => value (acc * 10 + (byte_val c - 48)) s'
      end in
    let v := value 0 s in
    if v <? 2 ^ 64 then Some v else None.

Definition hostname_char (c : ascii) : bool :=
  in_range 97 122 c || in_range 65 90 c || in_range 48 57 c || is_byte 45 c.

Definition validate_vm (cfg : AdapterConfig) (vm : VMConfig) : error :=
  let parent := Dir (ac_DefaultRootfs cfg) in
  if negb (vm_Image vm =?s "") && (Contains (vm_Image vm) ".." || negb (isUnderPath (vm_Image vm) parent))
  then Some (errBadRequest (text ("vm.image must be under " +:+ parent)))
  else if (vm_User vm =?s "root") || (vm_User vm =?s "0")
  then Some (errBadRequest (text "vm.user 'root'/'0' is not permitted"))
  else if negb (vm_User vm =?s "") && bool_decide (ParseUint (vm_User vm) = Some 0)
  then Some (errBadRequest (text "vm.user uid 0 is not permitted"))
  else if negb (vm_Workdir vm =?s "") &&
          (negb (HasPrefix (vm_Workdir vm) "/") || Contains (vm_Workdir vm) "..")
  then Some (errBadRequest (text "vm.workdir must be an absolute path without '..'"))
  else if negb (str_forall hostname_char (vm_Hostname vm))
  then Some (errBadRequest (text "vm.hostname must contain only alphanumeric characters and hyphens"))
  else None.

Fixpoint validate_binaries (bins : list string) : error :=
  match bins with
  | [] => None
  | bin :: bins' =>
      if (bin =?s "") || Contains bin "/" || Contains bin ".."
      then Some (errBadRequest (MLit "allowed_binaries entry " (MQuote bin
             (MLit " must be a plain filename" MNil))))
      else validate_binaries bins'
  end.

Fixpoint validate_scriptEnv (env : list (string * string)) : error :=
  match env with
  | [] => None
  | (k, _) :: env' =>
      if Contains k "="
      then Some (errBadRequest (MLit "scriptEnv key " (MQuote k (MLit " must not contain '='" MNil))))
      else validate_scriptEnv env'
  end.

Fixpoint validate_volumes (cfg : AdapterConfig) (vols : list VolumeMount) : error :=
  match vols with
  | [] => None
  | vol :: vols' =>
      if vol_Type vol =?s "tmpfs" then validate_volumes cfg vols'
      else if vol_HostPath vol =?s ""
      then Some (errBadRequest (text "volume host_path is required for non-tmpfs volumes"))
      else if Contains (vol_HostPath vol) ".." || negb (isUnderPath (vol_HostPath vol) (ac_SandboxRoot cfg))
      then Some (errBadRequest (text ("volume host_path must be under " +:+ ac_SandboxRoot cfg)))
      else validate_volumes cfg vols'
  end.

Definition validateCreateRequest (cfg : AdapterConfig) (req : SandboxCreateBody) : error :=
  match (match cb_VM req with Some vm => validate_vm cfg vm | None => None end) with
  | Some err => Some err
  | None =>
  match validate_binaries (cb_AllowedBinaries req) with
  | Some err => Some err
  | None =>
  match validate_scriptEnv (cb_ScriptEnv req) with
  | Some err => Some err
  | None => validate_volumes cfg (cb_Volumes req)
  end end end.

(** ** [buildNsjailConfig] *)

(** The last entry for [resource] in [vm.Rlimits], the initial 0 otherwise. *)
Definition rlimit (resource : string) (rls : list VMRlimit) : Z :=
  fold_left (fun acc rl => if rl_Resource rl =?s resource then rl_Soft rl else acc) rls 0.

Definition bind_mount (src dst : string) (rw : bool) : MountPt :=
  {| mp_Src := src; mp_Dst := dst; mp_Fstype := ""; mp_Rw := rw; mp_IsBind := true |}.

Definition tmpfs_mount (dst : string) : MountPt :=
  {| mp_Src := ""; mp_Dst := dst; mp_Fstype := "tmpfs"; mp_Rw := true; mp_IsBind := false |}.

Definition base_mounts (sb : sandbox) : list MountPt :=
  [ bind_mount (sx_workspace sb) "/workspace" true;
    tmpfs_mount "/tmp";
    bind_mount "/dev/null" "/dev/null" true;
    bind_mount "/dev/zero" "/dev/zero" false;
    bind_mount "/dev/urandom" "/dev/urandom" false;
    bind_mount "/dev/random" "/dev/random" false ].

Definition volume_mount (vol : VolumeMount) : MountPt :=
  if vol_Type vol =?s "tmpfs" then tmpfs_mount (vol_GuestPath vol)
  else
    let host := if vol_HostPath vol =?s "" then vol_GuestPath vol else vol_HostPath vol in
    bind_mount host (vol_GuestPath vol) (negb (vol_Readonly vol)).

Definition internet_mounts (net : option SandboxNetworkConfig) : list MountPt :=
  match net with
  | Some n => if nw_AllowInternetAccess n then
      [ bind_mount "/etc/resolv.conf" "/etc/resolv.conf" false;
        bind_mount "/etc/ssl/certs/ca-certificates.crt" "/etc/ssl/certs/ca-certificates.crt" false ]
      else []
  | None => []
  end.

Definition env_line (kv : string * string) : string := kv.1 +:+ "=" +:+ kv.2.

Definition buildNsjailConfig (sb : sandbox) (rootfs : string) (execEnv : list (string * string))
    (timeoutSecs : Z) : NsjailConfig :=
  let req := sx_req sb in
  let vm_str f := match cb_VM req with Some vm => f vm | None => "" end in
  let rl name := match cb_VM req with Some vm => rlimit name (vm_Rlimits vm) | None => 0 end in
  {| nc_Mode := ModeOnce;
     nc_Chroot := rootfs;
     nc_Log := "/dev/null";
     nc_Hostname := vm_str vm_Hostname;
     nc_Cwd := vm_str vm_Workdir;
     nc_User := vm_str vm_User;
     nc_TimeLimit := if 0 <? timeoutSecs then to_uint32 timeoutSecs else 0;
     nc_DisableCloneNewUser := true;
     nc_DisableCloneNewNet :=
       match cb_Network req with
       | Some net => match nw_Enabled net with
                     | Some false => false
                     | _ => nw_AllowInternetAccess net
                     end
       | None => false
       end;
     nc_CloneNewTime := match cb_VM req with Some vm => vm_CloneNewTime vm | None => false end;
     nc_CgroupMemMax :=
       match cb_VM req with
       | Some vm => if 0 <? vm_MemoryMB vm then to_uint64 (to_uint64 (vm_MemoryMB vm) * 1024 * 1024) else 0
       | None => 0
       end;
     nc_RlimitAS := rl "as";
     nc_RlimitCore := rl "core";
     nc_RlimitCPU := rl "cpu";
     nc_RlimitFsize := rl "fsize";
     nc_RlimitNofile := rl "nofile";
     nc_RlimitNproc := rl "nproc";
     nc_RlimitStack := rl "stack";
     nc_Envar :=
       [ "PATH=/usr/local/sbin:/usr/local/bin:/usr/sbin:/usr/bin:/sbin:/bin"; "HOME=/workspace" ] ++
       map env_line (cb_Env req) ++ map env_line execEnv;
     nc_Mounts :=
       base_mounts sb ++ internet_mounts (cb_Network req) ++ map volume_mount (cb_Volumes req) ++
       [ bind_mount (sx_binDir sb) "/usr/local/bin" true ];
     nc_SeccompString := vm_str vm_SeccompString;
     nc_Macvlan :=
       match cb_Network req with
       | Some net => match nw_Macvlan net with
                     | Some m => Some {| mc_Iface := mv_Interface m; mc_IP := mv_IP m;
                         mc_Netmask := mv_Netmask m; mc_Gateway := mv_Gateway m; mc_MAC := mv_MAC m |}
                     | None => None
                     end
       | None => None
       end;
     nc_UsePasta := match cb_Network req with Some net => nw_UsePasta net | None => false end;
     nc_ListenPort := 0 |}.

(** ** File names and command results *)

Definition fileOpTimeoutSecs : Z := 30.

Definition sandboxFilePath (p : string) : string :=
  let p := if (p =?s "~") || HasPrefix p "~/" then TrimPrefix (TrimPrefix p "~") "/" else p in
  if HasPrefix p "/" then p else "/workspace/" +:+ p.

Definition fileOpError (op stderr : string) : string :=
  let s := TrimSpace stderr in
  if negb (s =?s "") then s else op +:+ " failed".

(** How [exec.Cmd.Run] or [Wait] can fail: the process exited with a non-zero
    status ([-1] when a signal killed it), or any other error. *)
Inductive RunErr : Type :=
| ExitError (code : Z)
| RunOther (e : Err).

Definition buildExecResponse (runErr : option RunErr) (deadlineExceeded : bool) (timeoutSecs : Z)
    (stdout stderr : string) : ExecResponseBody + Err :=
  match runErr with
  | Some (ExitError code) =>
      inl {| ex_ExitCode := code; ex_Stdout := stdout; ex_Stderr := stderr;
             ex_TimedOut := (0 <? timeoutSecs) && (code =? 137) |}
  | Some (RunOther e) =>
      if deadlineExceeded
      then inl {| ex_ExitCode := -1; ex_Stdout := ""; ex_Stderr := "execution timed out"; ex_TimedOut := true |}
      else inr (errInternal (MLit "nsjail error: " (MErr e MNil)))
  | None => inl {| ex_ExitCode := 0; ex_Stdout := stdout; ex_Stderr := stderr; ex_TimedOut := false |}
  end.

(** ** Specification vocabulary *)

(** Lexically, [child] is [parent] or lies below it. *)
Definition path_within (child parent : string) : Prop :=
  Clean child = Clean parent \/
  (rooted child = rooted parent /\ exists rest, clean_elems child = clean_elems parent ++ rest).

Definition occurs (sub s : string) : Prop := exists a b, s = a +:+ sub +:+ b.

(** A decimal numeral of value zero. *)
Definition zero_numeral (s : string) : Prop := s <> "" /\ str_forall (is_byte 48) s = true.

Definition vm_ok (cfg : AdapterConfig) (vm : VMConfig) : Prop :=
  (vm_Image vm = "" \/ isUnderPath (vm_Image vm) (Dir (ac_DefaultRootfs cfg)) = true /\ ~ occurs ".." (vm_Image vm)) /\
  vm_User vm <> "root" /\ ~ zero_numeral (vm_User vm) /\
  (vm_Workdir vm = "" \/ (exists p, vm_Workdir vm = "/" +:+ p) /\ ~ occurs ".." (vm_Workdir vm)) /\
  str_forall hostname_char (vm_Hostname vm) = true.

Definition volume_ok (cfg : AdapterConfig) (vol : VolumeMount) : Prop :=
  vol_Type vol = "tmpfs" \/
  (vol_HostPath vol <> "" /\ isUnderPath (vol_HostPath vol) (ac_SandboxRoot cfg) = true /\
   ~ occurs ".." (vol_HostPath vol)).

Definition create_request_ok (cfg : AdapterConfig) (req : SandboxCreateBody) : Prop :=
  (forall vm, cb_VM req = Some vm -> vm_ok cfg vm) /\
  Forall (fun bin => bin <> "" /\ ~ occurs "/" bin /\ ~ occurs ".." bin) (cb_AllowedBinaries req) /\
  Forall (fun kv => ~ occurs "=" kv.1) (cb_ScriptEnv req) /\
  Forall (volume_ok cfg) (cb_Volumes req).

(** The bind sources that do not come from the request's volumes. *)
Definition fixed_sources (sb : sandbox) : list string :=
  [ sx_workspace sb; sx_binDir sb; "/dev/null"; "/dev/zero"; "/dev/urandom"; "/dev/random";
    "/etc/resolv.conf"; "/etc/ssl/certs/ca-certificates.crt" ].

Definition field_name (f : field) : string :=
  match f with FStr n _ => n | FLit n _ => n | FMsg n _ => n end.

Definition fields_named (n : string) (fs : list field) : list field :=
  List.filter (fun f => field_name f =?s n) fs.

(** The network namespace is shared with the pod. *)
Definition internet_granted (req : SandboxCreateBody) : bool :=
  match cb_Network req with
  | Some net => nw_AllowInternetAccess net && negb (bool_decide (nw_Enabled net = Some false))
  | None => false
  end.

(** Concrete inputs. *)
Definition sample_create : SandboxCreateBody :=
  {| cb_SandboxID := "demo"; cb_TTLSeconds := 60; cb_Env := [("A", "1")]; cb_AllowedBinaries := ["jq"];
     cb_VM := Some {| vm_Image := "/rootfs/alpine"; vm_MemoryMB := 64; vm_VCPUs := 1; vm_Workdir := "/workspace";
       vm_Shell := ""; vm_Hostname := "box-1"; vm_User := "1000"; vm_MaxDurationSec := 0;
       vm_IdleTimeoutSec := 0; vm_Rlimits := []; vm_Scripts := []; vm_SeccompString := "";
       vm_CloneNewTime := false |};
     cb_Network := None;
     cb_Volumes := [{| vol_GuestPath := "/data"; vol_Type := "bind"; vol_HostPath := "/var/boxy/shared/data";
       vol_Name := ""; vol_SizeMB := 0; vol_Readonly := true |}];
     cb_Patches := []; cb_SetupScript := ""; cb_TeardownScript := ""; cb_ScriptEnv := [] |}.

Definition sample_cfg : AdapterConfig :=
  {| ac_NsjailPath := "/usr/bin/nsjail"; ac_DefaultRootfs := "/rootfs/ubuntu"; ac_SandboxRoot := "/var/boxy";
     ac_BinariesDir := "/opt/bin"; ac_MaxOutputBytes := 1048576 |}.

Definition sample_sandbox : sandbox :=
  {| sx_req := sample_create; sx_workspace := "/var/boxy/demo/workspace"; sx_binDir := "/var/boxy/demo/bin" |}.

(** ** Lemmas *)

Lemma Contains_occurs (s sub : string) : Contains s sub = true <-> occurs sub s.
Proof. apply Contains_spec. Qed.

Lemma Contains_not_occurs (s sub : string) : Contains s sub = false <-> ~ occurs sub s.
Proof. rewrite <- Contains_occurs. by destruct (Contains s sub). Qed.

Lemma clean_elems_no_dot (p : string) : "." ∉ clean_elems p.
Proof.
  unfold clean_elems. rewrite list_elem_of_In, <- in_rev, <- list_elem_of_In.
  intros Hin. pose proof (clean_steps_ok (rooted p) [] (Split p "/") (Forall_nil_2 _)) as H.
  rewrite Forall_forall in H. by destruct (H _ Hin).
Qed.

Lemma isUnderPath_within (child parent : string) :
  isUnderPath child parent = true -> path_within child parent.
Proof.
  unfold isUnderPath, path_within. destruct (Rel parent child) as [rel|] eqn:Hrel; [|done].
  intros H. bool_hyps. destruct (Rel_down _ _ _ Hrel H) as [?|(Hr & rest & He)]; [by left|right].
  split; [done|]. destruct (clean_elems child) as [|e es] eqn:Hc; [|by exists rest].
  destruct (rooted child); [by exists rest|]. exists [].
  destruct (clean_elems parent) as [|b bs] eqn:Hb; [done|]. simpl in He. simplify_eq.
  exfalso. apply (clean_elems_no_dot parent). rewrite Hb. by left.
Qed.

Lemma ParseUint_zero (s : string) : ParseUint s = Some 0 <-> zero_numeral s.
Proof.
  unfold ParseUint, zero_numeral.
  set (value := fix value (acc : Z) (s : string) : Z := match s with
    | EmptyString => acc | String c s' => value (acc * 10 + (byte_val c - 48)) s' end).
  assert (forall s acc, str_forall (in_range 48 57) s = true -> 0 <= acc ->
    0 <= value acc s /\ (value acc s = 0 <-> acc = 0 /\ str_forall (is_byte 48) s = true)) as Hv.
  { clear s. induction s as [|c s IH]; intros acc Hs Hacc; simpl; [naive_solver|].
    simpl in Hs. bool_hyps. unfold in_range in *. bool_hyps.
    destruct (IH (acc * 10 + (byte_val c - 48))) as [Hge Heq]; [done|lia|].
    split; [done|]. rewrite Heq. unfold is_byte. rewrite andb_true_iff, Z.eqb_eq. intuition lia. }
  destruct (s =?s "") eqn:He; bool_hyps; simpl; [naive_solver|].
  destruct (str_forall (in_range 48 57) s) eqn:Hd; simpl.
  - destruct (Hv s 0 Hd) as [Hn Hz]; [lia|].
    destruct (_ <? _) eqn:Hl; bool_hyps; split; intros H; simplify_eq; try tauto.
    + f_equal. tauto.
    + assert (value 0 s = 0) by tauto. lia.
  - split; [done|]. intros [_ Hz]. rewrite (str_forall_impl (is_byte 48)) in Hd; [done| |done].
    intros c. unfold is_byte, in_range. intros. bool_hyps. apply andb_true_iff. rewrite !Z.leb_le. lia.
Qed.

Lemma validate_vm_spec (cfg : AdapterConfig) (vm : VMConfig) :
  validate_vm cfg vm = None <-> vm_ok cfg vm.
Proof.
  unfold validate_vm, vm_ok. cbv zeta. repeat rewrite guard_None.
  rewrite !andb_false_iff, !negb_false_iff, !orb_false_iff, !negb_false_iff.
  rewrite !String.eqb_eq, !String.eqb_neq, !Contains_not_occurs, bool_decide_eq_false, ParseUint_zero.
  rewrite (HasPrefix_spec (vm_Workdir vm) "/").
  assert (zero_numeral "0") by done.
  assert (~ zero_numeral "") by (by intros [? _]).
  split.
  - intros (Hi & (Hr & _) & Hu & Hw & Hh & _). split_and!; try tauto.
    destruct Hu as [Hu|]; [by rewrite Hu|done].
  - intros (Hi & Hr & Hz & Hw & Hh). split_and!; try tauto. intros E. by rewrite E in Hz.
Qed.

Lemma validate_binaries_spec (bins : list string) :
  validate_binaries bins = None <->
  Forall (fun bin => bin <> "" /\ ~ occurs "/" bin /\ ~ occurs ".." bin) bins.
Proof.
  induction bins as [|b bins IH]; simpl; [by split|].
  rewrite guard_None, IH, Forall_cons, !orb_false_iff, String.eqb_neq, !Contains_not_occurs. tauto.
Qed.

Lemma validate_scriptEnv_spec (env : list (string * string)) :
  validate_scriptEnv env = None <-> Forall (fun kv => ~ occurs "=" kv.1) env.
Proof.
  induction env as [|[k v] env IH]; simpl; [by split|].
  by rewrite guard_None, IH, Forall_cons, Contains_not_occurs.
Qed.

Lemma validate_volumes_spec (cfg : AdapterConfig) (vols : list VolumeMount) :
  validate_volumes cfg vols = None <-> Forall (volume_ok cfg) vols.
Proof.
  induction vols as [|v vols IH]; simpl; [by split|].
  rewrite Forall_cons. unfold volume_ok at 1. destruct (_ =?s "tmpfs") eqn:Ht; bool_hyps; [tauto|].
  repeat rewrite guard_None. rewrite IH, !orb_false_iff, negb_false_iff, String.eqb_neq, Contains_not_occurs.
  tauto.
Qed.

Lemma validateCreateRequest_spec (cfg : AdapterConfig) (req : SandboxCreateBody) :
  validateCreateRequest cfg req = None <-> create_request_ok cfg req.
Proof.
  unfold validateCreateRequest, create_request_ok.
  repeat rewrite option_chain_None.
  rewrite validate_binaries_spec, validate_scriptEnv_spec, validate_volumes_spec.
  destruct (cb_VM req) as [vm|]; [rewrite validate_vm_spec|]; naive_solver.
Qed.

(** Every refusal is a 400. *)
Lemma validateCreateRequest_bad (cfg : AdapterConfig) (req : SandboxCreateBody) (err : Err) :
  validateCreateRequest cfg req = Some err -> exists msg, err = errBadRequest msg.
Proof.
  assert (forall bins e, validate_binaries bins = Some e -> exists msg, e = errBadRequest msg) as Hb.
  { induction bins as [|b bins IH]; simpl; [done|]. intros e. case_goal; [intros [= <-]; eauto|auto]. }
  assert (forall env e, validate_scriptEnv env = Some e -> exists msg, e = errBadRequest msg) as Hs.
  { induction env as [|[k v] env IH]; simpl; [done|]. intros e. case_goal; [intros [= <-]; eauto|auto]. }
  assert (forall vols e, validate_volumes cfg vols = Some e -> exists msg, e = errBadRequest msg) as Hv.
  { induction vols as [|v vols IH]; simpl; [done|]. intros e. repeat case_goal; [auto|intros [= <-]; eauto..|auto]. }
  assert (forall vm e, validate_vm cfg vm = Some e -> exists msg, e = errBadRequest msg) as Hvm.
  { intros vm e. unfold validate_vm. repeat (destruct (_ : bool); [intros [= <-]; eauto|]). done. }
  unfold validateCreateRequest.
  destruct (match cb_VM req with Some vm => validate_vm cfg vm | None => None end) as [e|] eqn:H1.
  { intros [= <-]. destruct (cb_VM req); [eauto|done]. }
  destruct (validate_binaries _) eqn:H2; [intros [= <-]; eauto|].
  destruct (validate_scriptEnv _) eqn:H3; [intros [= <-]; eauto|]. apply Hv.
Qed.

Lemma volume_mount_source (cfg : AdapterConfig) (vol : VolumeMount) :
  volume_ok cfg vol -> mp_IsBind (volume_mount vol) = true ->
  path_within (mp_Src (volume_mount vol)) (ac_SandboxRoot cfg) /\
  ~ occurs ".." (mp_Src (volume_mount vol)).
Proof.
  unfold volume_ok, volume_mount. destruct (_ =?s "tmpfs") eqn:Ht; [done|]. bool_hyps.
  intros [?|(Hne & Hu & Ho)] _; [done|]. apply String.eqb_neq in Hne. rewrite Hne. simpl.
  split; [|done]. by apply isUnderPath_within.
Qed.

Lemma fields_named_app (n : string) (fs gs : list field) :
  fields_named n (fs ++ gs) = fields_named n fs ++ fields_named n gs.
Proof. apply List.filter_app. Qed.

Lemma fields_opt_str (n name v : string) :
  fields_named n (opt_str name v) = if name =?s n then opt_str name v else [].
Proof. unfold opt_str. destruct (nonempty v); simpl; by destruct (name =?s n). Qed.

Lemma fields_opt_num (n name : string) (z : Z) :
  fields_named n (opt_num name z) = if name =?s n then opt_num name z else [].
Proof. unfold opt_num. destruct (0 <? z); simpl; by destruct (name =?s n). Qed.

Lemma fields_opt_lit (n name v : string) (b : bool) :
  fields_named n (opt_lit b name v) = if name =?s n then opt_lit b name v else [].
Proof. unfold opt_lit. destruct b; simpl; by destruct (name =?s n). Qed.

Lemma fields_map {A} (n name : string) (f : A -> field) (l : list A) :
  (forall a, field_name (f a) = name) ->
  fields_named n (map f l) = if name =?s n then map f l else [].
Proof.
  intros Hf. induction l as [|a l IH]; simpl; [by destruct (name =?s n)|].
  unfold fields_named in *. rewrite Hf, IH. by destruct (name =?s n).
Qed.

Lemma fields_config (n : string) (c : NsjailConfig) :
  n = "mount" \/ n = "envar" \/ n = "clone_newnet" \/ n = "time_limit" ->
  fields_named n (config_fields c) =
    (if n =?s "time_limit" then opt_num "time_limit" (nc_TimeLimit c) else []) ++
    (if n =?s "clone_newnet" then opt_lit (nc_DisableCloneNewNet c) "clone_newnet" "false" else []) ++
    (if n =?s "envar" then map (FStr "envar") (nc_Envar c) else []) ++
    (if n =?s "mount" then map mount_field (config_mounts c) else []).
Proof.
  intros Hn. unfold config_fields.
  rewrite !fields_named_app, !fields_opt_str, !fields_opt_num, !fields_opt_lit,
    (fields_map n "envar"), (fields_map n "mount") by done.
  assert (fields_named n (if nonempty (nc_User c)
    then [id_map "uidmap" (nc_User c); id_map "gidmap" (nc_User c)] else []) = []) as ->
    by (destruct (nonempty _); destruct_or! Hn; by subst).
  assert (fields_named n (macvlan_fields (nc_Macvlan c)) = []) as ->.
  { destruct (nc_Macvlan c) as [m|]; [|done]. simpl.
    rewrite !fields_named_app, !fields_opt_str. destruct_or! Hn; by subst. }
  destruct_or! Hn; subst; simpl; by rewrite ?app_nil_r.
Qed.

(** ** Properties *)


(** C15: when the adapter accepted a request, every bind mount of the jail it
    later builds has as its source the sandbox's own workspace or binary
    directory, one of the six fixed host files, or a path lexically at or below
    the configured sandbox root that nowhere contains two consecutive dots; no
    other host path is visible in the jail besides the root file system. *)
Theorem accepted_mounts_confined (cfg : AdapterConfig) (sb : sandbox) (rootfs : string)
    (execEnv : list (string * string)) (timeoutSecs : Z) (m : MountPt) :
  validateCreateRequest cfg (sx_req sb) = None ->
  m ∈ nc_Mounts (buildNsjailConfig sb rootfs execEnv timeoutSecs) ->
  mp_IsBind m = true ->
  mp_Src m ∈ fixed_sources sb \/
  (path_within (mp_Src m) (ac_SandboxRoot cfg) /\ ~ occurs ".." (mp_Src m)).
Proof.
  intros Hv Hm Hb. apply validateCreateRequest_spec in Hv as (_ & _ & _ & Hvols).
  cbn [nc_Mounts buildNsjailConfig] in Hm. rewrite !elem_of_app in Hm.
  destruct Hm as [Hm|[Hm|[Hm|Hm]]].
  - left. unfold base_mounts in Hm. repeat (apply elem_of_cons in Hm as [->|Hm]; [done || set_solver|]). set_solver.
  - left. unfold internet_mounts in Hm. destruct (cb_Network _) as [n|]; [|set_solver].
    destruct (nw_AllowInternetAccess n); [|set_solver].
    repeat (apply elem_of_cons in Hm as [->|Hm]; [set_solver|]). set_solver.
  - right. apply list_elem_of_In, in_map_iff in Hm as (vol & <- & Hin).
    rewrite Forall_forall in Hvols. apply volume_mount_source; [|done].
    apply Hvols. by apply list_elem_of_In.
  - left. apply list_elem_of_singleton in Hm as ->. set_solver.
Qed.

Lemma jail_fields (sb : sandbox) (rootfs : string) (execEnv : list (string * string))
    (timeoutSecs : Z) :
  exists fs,
    read_text (ToTextProto (buildNsjailConfig sb rootfs execEnv timeoutSecs)) = Some fs /\
    fields_named "mount" fs = map mount_field
      ((if nonempty rootfs then [rootfs_mount rootfs] else []) ++ base_mounts sb ++
       internet_mounts (cb_Network (sx_req sb)) ++ map volume_mount (cb_Volumes (sx_req sb)) ++
       [bind_mount (sx_binDir sb) "/usr/local/bin" true]) /\
    fields_named "envar" fs = map (FStr "envar")
      ([ "PATH=/usr/local/sbin:/usr/local/bin:/usr/sbin:/usr/bin:/sbin:/bin"; "HOME=/workspace" ] ++
       map env_line (cb_Env (sx_req sb)) ++ map env_line execEnv) /\
    fields_named "clone_newnet" fs =
      (if internet_granted (sx_req sb) then [FLit "clone_newnet" "false"] else []) /\
    (0 < timeoutSecs < 2 ^ 32 -> fields_named "time_limit" fs = [FLit "time_limit" (pretty timeoutSecs)]).
Proof.
  eexists. split; [apply read_text_reads, reads_config|].
  rewrite !fields_config by auto. simpl. rewrite ?app_nil_r.
  split_and!.
  - done.
  - done.
  - unfold internet_granted, opt_lit. destruct (cb_Network (sx_req sb)) as [n|]; [|done].
    destruct (nw_Enabled n) as [[]|], (nw_AllowInternetAccess n); done.
  - intros Ht. rewrite (proj2 (Z.ltb_lt _ _)) by lia. unfold to_uint32. rewrite wrap_u_small by lia.
    unfold opt_num. by rewrite (proj2 (Z.ltb_lt _ _)) by lia.
Qed.


(** A finished command is reported as timed out exactly when nsjail exited
    with code 137 while a limit was set, or the run failed for a reason other
    than its exit status after the deadline passed.  In particular a process
    killed by the deadline itself, whose exit code Go reports as -1, is returned
    as an ordinary result with [TimedOut] false. *)
Theorem timed_out_exact (runErr : option RunErr) (deadlineExceeded : bool) (timeoutSecs : Z)
    (stdout stderr : string) :
  ((exists r, buildExecResponse runErr deadlineExceeded timeoutSecs stdout stderr = inl r /\ ex_TimedOut r = true) <->
   (0 < timeoutSecs /\ runErr = Some (ExitError 137)) \/
   (deadlineExceeded = true /\ exists e, runErr = Some (RunOther e))) /\
  buildExecResponse (Some (ExitError (-1))) true timeoutSecs stdout stderr =
    inl {| ex_ExitCode := -1; ex_Stdout := stdout; ex_Stderr := stderr; ex_TimedOut := false |}.
Proof.
  split.
  - split.
    + intros (r & Hr & Ht). destruct runErr as [[code|e]|]; simpl in Hr; simplify_eq/=.
      * bool_hyps. subst. left. auto.
      * destruct deadlineExceeded; simplify_eq. right. eauto.
    + intros [[Ht ->]|[-> [e ->]]]; simpl; eexists; (split; [reflexivity|]); simpl; [|done].
      rewrite andb_true_r. by apply Z.ltb_lt.
  - simpl. by rewrite andb_false_r.
Qed.

Lemma accepted_mounts_confined_witness :
  let m := bind_mount "/var/boxy/shared/data" "/data" false in
  mp_Src m ∈ fixed_sources sample_sandbox \/
  (path_within (mp_Src m) (ac_SandboxRoot sample_cfg) /\ ~ occurs ".." (mp_Src m)).
Proof.
  apply (accepted_mounts_confined sample_cfg sample_sandbox "/rootfs/alpine" [] 30).
  - vm_compute. reflexivity.
  - vm_compute. repeat constructor.
  - reflexivity.
Defined.
