(* ===== verification/Adapter.v ===== *)
(** * The nsjail adapter: [internal/nsjail/adapter.go], [pty_linux.go]

    The operations of [NsjailAdapter] as programs over the events they
    perform: the mutex and the map it protects, the file system, and the
    processes they start.  A deferred call is performed where the function
    returns; log lines are left out. *)
From S2P Require Import Prelude Prog GoStrings GoPath ApiTypes NsjailConfig Output AdapterConfig.
Open Scope boxy_scope.

(** A command for [exec.CommandContext]: the deadline is a duration. *)
Record Cmd := {
  cmd_Path : string;
  cmd_Args : list string;
  cmd_Timeout : option Z;
  cmd_Stdin : option string;
}.

(** What a process did when [Run] captures both streams: the chunks read
    from each pipe, and the error of starting or waiting for it. *)
Record RunOutcome := {
  ro_Stdout : list string;
  ro_Stderr : list string;
  ro_Err : option RunErr;
}.

(** What a process did when it is started and its pipes drained. *)
Inductive StreamOutcome : Type :=
| StartFailed (e : Err)
| Streamed (reads : list (stream * string)) (waitErr : option RunErr).

(** The instruments of [cmd/boxy-controller/metrics.go]. *)
Inductive Instrument : Type :=
| sandboxesActive | execTotal | execDuration | outputBytes | throttledTotal.

Inductive AEvent : Type :=
| MuLock | MuUnlock | MuRLock | MuRUnlock
| RegGet (id : string)
| RegSet (id : string) (sb : sandbox)
| RegDelete (id : string)
| RegKeys
| RegLen
| OsMkdirAll (path : string)
| OsRemoveAll (path : string)
| OsOpen (path : string)
| OsOpenFile (path : string)
| IoCopyFile (dst src : string)
| OsCloseFile (path : string)
| OsStat (path : string)
| OsCreateTemp
| OsWriteString (file text : string)
| OsRemove (file : string)
| OsEnviron
| RunScript (script : string) (env : list string) (stdin : SandboxCreateBody)
| StdoutPipe | StderrPipe
| RunCmd (c : Cmd)
| StreamCmd (c : Cmd)
| PtyOpenMaster
| PtyUnlock (fd : Z)
| PtyNumber (fd : Z)
| PtyOpenSlave (path : string)
| PtyClose (fd : Z)
| PtyStart (c : Cmd) (slave : Z)
| PtyWait (master : Z)
| DeadlineExceeded
| SemTryAcquire
| SemRelease
| TimeNow
| Measure (i : Instrument) (value : Z) (attrs : list (string * string)).

(** [OsStat] answers whether the error was nil; [RunScript] answers the error
    of [Run] with the captured stderr; [PtyWait] the chunks read from the
    master and the error of [Wait].  [Measure] adds to a counter or records a
    value; a duration is in nanoseconds. *)
Definition AAnswer (e : AEvent) : Type :=
  match e with
  | MuLock | MuUnlock | MuRLock | MuRUnlock => unit
  | RegGet _ => option sandbox
  | RegSet _ _ | RegDelete _ => unit
  | RegKeys => list string
  | RegLen => Z
  | OsMkdirAll _ | OsRemoveAll _ | OsOpen _ | OsOpenFile _ | IoCopyFile _ _ | OsCloseFile _ => error
  | OsStat _ => bool
  | OsCreateTemp => string + Err
  | OsWriteString _ _ | OsRemove _ => error
  | OsEnviron => list string
  | RunScript _ _ _ => option (Err * string)
  | StdoutPipe | StderrPipe => error
  | RunCmd _ => RunOutcome
  | StreamCmd _ => StreamOutcome
  | PtyOpenMaster => Z + Err
  | PtyUnlock _ => error
  | PtyNumber _ => Z + Err
  | PtyOpenSlave _ => Z + Err
  | PtyClose _ => unit
  | PtyStart _ _ => error
  | PtyWait _ => list string * option RunErr
  | DeadlineExceeded => bool
  | SemTryAcquire => bool
  | SemRelease => unit
  | TimeNow => Z
  | Measure _ _ _ => unit
  end.

#[export] Instance ASig : Sig := {| event := AEvent; answer := AAnswer |}.

(** [trigger] with the answer type computed. *)
Definition perform (e : AEvent) : prog (AAnswer e) := @Vis ASig _ e Ret.

(** ** [copyExec], [runHookScript], [resolveCommandInChroot] *)

Definition copyExec (src dst : string) : prog error :=
  e <- perform (OsOpen src) ;;
  match e with
  | Some err => Ret (Some err)
  | None =>
      e <- perform (OsOpenFile dst) ;;
      match e with
      | Some err => perform (OsCloseFile src) ;;; Ret (Some err)
      | None =>
          e <- perform (IoCopyFile dst src) ;;
          match e with
          | Some err => perform (OsCloseFile dst) ;;; perform (OsCloseFile src) ;;; Ret (Some err)
          | None => r <- perform (OsCloseFile dst) ;; perform (OsCloseFile src) ;;; Ret r
          end
      end
  end.

(** [json.Marshal] of a [SandboxCreateBody] cannot fail, and the script's
    standard input is that encoding: the event carries the body itself. *)
Definition runHookScript (script : string) (sb : sandbox) : prog error :=
  environ <- perform OsEnviron ;;
  let env := environ ++
    [ "BOXY_SANDBOX_ID=" +:+ cb_SandboxID (sx_req sb);
      "BOXY_SANDBOX_ROOT=" +:+ Dir (sx_workspace sb);
      "BOXY_WORKSPACE=" +:+ sx_workspace sb ] ++
    map env_line (cb_ScriptEnv (sx_req sb)) in
  r <- perform (RunScript script env (sx_req sb)) ;;
  match r with
  | Some (err, stderr) => Ret (Some (ErrWrap "" err (": " +:+ stderr)))
  | None => Ret None
  end.

Definition searchDirs : list string :=
  [ "/usr/local/sbin"; "/usr/local/bin"; "/usr/sbin"; "/usr/bin"; "/sbin"; "/bin" ].

Fixpoint search_dirs (dirs : list string) (command chroot : string) : prog string :=
  match dirs with
  | [] => Ret command
  | dir :: dirs' =>
      found <- perform (OsStat (chroot +:+ dir +:+ "/" +:+ command)) ;;
      if found then Ret (dir +:+ "/" +:+ command) else search_dirs dirs' command chroot
  end.

Definition resolveCommandInChroot (command chroot : string) : prog string :=
  if HasPrefix command "/" || Contains command "/" then Ret command
  else search_dirs searchDirs command chroot.

(** ** The registry: [Create], [Delete], [ListIDs], [Count] *)

Definition sandbox_base (cfg : AdapterConfig) (id : string) : string := Join (ac_SandboxRoot cfg) id.

Definition new_sandbox (cfg : AdapterConfig) (req : SandboxCreateBody) : sandbox :=
  let base := sandbox_base cfg (cb_SandboxID req) in
  {| sx_req := req; sx_workspace := Join base "workspace"; sx_binDir := Join base "bin" |}.

(** The loop over [req.AllowedBinaries]. *)
Fixpoint copy_binaries (cfg : AdapterConfig) (base binDir : string) (bins : list string) : prog error :=
  match bins with
  | [] => Ret None
  | bin :: bins' =>
      e <- copyExec (Join (ac_BinariesDir cfg) bin) (Join binDir bin) ;;
      match e with
      | Some err =>
          perform (OsRemoveAll base) ;;;
          Ret (Some (errInternal (MLit "copy binary " (MQuote bin (MLit ": " (MErr err MNil))))))
      | None => copy_binaries cfg base binDir bins'
      end
  end.

(** [Create] between [a.mu.Lock()] and the deferred [a.mu.Unlock()]. *)
Definition create_locked (cfg : AdapterConfig) (req : SandboxCreateBody) : prog error :=
  let id := cb_SandboxID req in
  let base := sandbox_base cfg id in
  let sb := new_sandbox cfg req in
  existing <- perform (RegGet id) ;;
  match existing with
  | Some _ => Ret (Some (errConflict id))
  | None =>
  e <- perform (OsMkdirAll (sx_workspace sb)) ;;
  match e with
  | Some err => Ret (Some (errInternal
      (MLit ("mkdir workspace " +:+ sx_workspace sb +:+ ": ") (MErr err MNil))))
  | None =>
  e <- perform (OsMkdirAll (sx_binDir sb)) ;;
  match e with
  | Some err =>
      perform (OsRemoveAll base) ;;;
      Ret (Some (errInternal (MLit ("mkdir bin " +:+ sx_binDir sb +:+ ": ") (MErr err MNil))))
  | None =>
  e <- copy_binaries cfg base (sx_binDir sb) (cb_AllowedBinaries req) ;;
  match e with
  | Some err => Ret (Some err)
  | None =>
  e <- (if negb (cb_SetupScript req =?s "") then
          perform MuUnlock ;;;
          err <- runHookScript (cb_SetupScript req) sb ;;
          perform MuLock ;;;
          match err with
          | Some err =>
              perform (OsRemoveAll base) ;;;
              Ret (Some (errInternal (MLit "setup script failed: " (MErr err MNil))))
          | None => Ret None
          end
        else Ret None) ;;
  match e with
  | Some err => Ret (Some err)
  | None => perform (RegSet id sb) ;;; Ret None
  end end end end end.

Definition Create (cfg : AdapterConfig) (req : SandboxCreateBody) : prog error :=
  match validateCreateRequest cfg req with
  | Some err => Ret (Some err)
  | None =>
      perform MuLock ;;;
      r <- create_locked cfg req ;;
      perform MuUnlock ;;;
      Ret r
  end.

Definition Delete (sandboxID : string) : prog error :=
  perform MuLock ;;;
  found <- perform (RegGet sandboxID) ;;
  match found with
  | None => perform MuUnlock ;;; Ret (Some (errNotFound sandboxID))
  | Some sb =>
      perform (RegDelete sandboxID) ;;;
      perform MuUnlock ;;;
      (if negb (cb_TeardownScript (sx_req sb) =?s "") then
         runHookScript (cb_TeardownScript (sx_req sb)) sb
       else Ret None) ;;;
      perform (OsRemoveAll (Dir (sx_workspace sb))) ;;;
      Ret None
  end.

Definition ListIDs : prog (list string) :=
  perform MuRLock ;;; ids <- perform RegKeys ;; perform MuRUnlock ;;; Ret ids.

Definition Count : prog Z :=
  perform MuRLock ;;; n <- perform RegLen ;; perform MuRUnlock ;;; Ret n.

(** ** Running commands *)

(** [execContext]: the deadline of the command. *)
Definition execContext (timeoutSecs : Z) : option Z :=
  if 0 <? timeoutSecs then Some (seconds (to_int64 (timeoutSecs + 5))) else None.

Definition sandbox_rootfs (cfg : AdapterConfig) (sb : sandbox) : string :=
  match cb_VM (sx_req sb) with
  | Some vm => if negb (vm_Image vm =?s "") then vm_Image vm else ac_DefaultRootfs cfg
  | None => ac_DefaultRootfs cfg
  end.

(** The common part of [execWithStdin] and [ExecStream]: look the sandbox up,
    write the nsjail configuration to a temporary file, run [k] on the command
    line, and remove the file when the function returns. *)
Definition with_nsjail {X} (fail : Err -> X) (cfg : AdapterConfig) (sandboxID command : string)
    (args : list string) (env : list (string * string)) (timeoutSecs : Z) (stdin : option string)
    (k : Cmd -> prog X) : prog X :=
  perform MuRLock ;;;
  found <- perform (RegGet sandboxID) ;;
  perform MuRUnlock ;;;
  match found with
  | None => Ret (fail (errNotFound sandboxID))
  | Some sb =>
      let rootfs := sandbox_rootfs cfg sb in
      resolvedCmd <- resolveCommandInChroot command rootfs ;;
      let ncfg := buildNsjailConfig sb rootfs env timeoutSecs in
      tmp <- perform OsCreateTemp ;;
      match tmp with
      | inr err => Ret (fail (errInternal (MLit "create temp config: " (MErr err MNil))))
      | inl cfgFile =>
          e <- perform (OsWriteString cfgFile (ToTextProto ncfg)) ;;
          match e with
          | Some err =>
              perform (OsCloseFile cfgFile) ;;;
              perform (OsRemove cfgFile) ;;;
              Ret (fail (errInternal (MLit "write nsjail config: " (MErr err MNil))))
          | None =>
              perform (OsCloseFile cfgFile) ;;;
              r <- k {| cmd_Path := ac_NsjailPath cfg;
                        cmd_Args := ["--config"; cfgFile; "--"; resolvedCmd] ++ args;
                        cmd_Timeout := execContext timeoutSecs;
                        cmd_Stdin := stdin |} ;;
              perform (OsRemove cfgFile) ;;;
              Ret r
          end
      end
  end.

(** [buildExecResponse]; [deadline.Err()] is read only when the run failed
    with something else than an exit status. *)
Definition exec_response (runErr : option RunErr) (timeoutSecs : Z) (stdout stderr : string)
    : prog (ExecResponseBody + Err) :=
  match runErr with
  | Some (RunOther _) =>
      d <- perform DeadlineExceeded ;;
      Ret (buildExecResponse runErr d timeoutSecs stdout stderr)
  | _ => Ret (buildExecResponse runErr false timeoutSecs stdout stderr)
  end.

(** [exec.Cmd.Run] with both streams captured: the error of the process comes
    first, then the first error of the copying goroutines. *)
Definition capture (maxBytes : Z) (o : RunOutcome) : string * string * option RunErr :=
  let '(out, short1) := io_Copy (new_writer maxBytes) (ro_Stdout o) in
  let '(err, short2) := io_Copy (new_writer maxBytes) (ro_Stderr o) in
  (lw_buf out, lw_buf err,
   match ro_Err o with
   | Some e => Some e
   | None => if short1 || short2 then Some (RunOther (ErrMsg "short write")) else None
   end).

(** [openPTY].  The results are named: a [return nil, nil, err] has already
    set [master] to nil when the deferred function closes it, so the descriptor
    that was opened is closed on none of these paths. *)
Definition openPTY : prog (Z * Z + Err) :=
  m <- perform PtyOpenMaster ;;
  match m with
  | inr err => Ret (inr (ErrWrap "open /dev/ptmx: " err ""))
  | inl master =>
      e <- perform (PtyUnlock master) ;;
      match e with
      | Some err => Ret (inr (ErrWrap "TIOCSPTLCK: " err ""))
      | None =>
          n <- perform (PtyNumber master) ;;
          match n with
          | inr err => Ret (inr (ErrWrap "TIOCGPTN: " err ""))
          | inl slaveNum =>
              let slavePath := "/dev/pts/" +:+ pretty slaveNum in
              s <- perform (PtyOpenSlave slavePath) ;;
              match s with
              | inr err => Ret (inr (ErrWrap ("open slave PTY " +:+ slavePath +:+ ": ") err ""))
              | inl slave => Ret (inl (master, slave))
              end
          end
      end
  end.

Definition execPTY (cfg : AdapterConfig) (c : Cmd) (timeoutSecs : Z) : prog (ExecResponseBody + Err) :=
  p <- openPTY ;;
  match p with
  | inr err => Ret (inr (errInternal (MLit "allocate PTY: " (MErr err MNil))))
  | inl (master, slave) =>
      e <- perform (PtyStart c slave) ;;
      match e with
      | Some err =>
          perform (PtyClose slave) ;;; perform (PtyClose master) ;;;
          Ret (inr (errInternal (MLit "nsjail start: " (MErr err MNil))))
      | None =>
          perform (PtyClose slave) ;;;
          r <- perform (PtyWait master) ;;
          perform (PtyClose master) ;;;
          exec_response r.2 timeoutSecs (lw_buf (io_Copy (new_writer (ac_MaxOutputBytes cfg)) r.1).1) ""
      end
  end.

(** [execPTY] where the system is not Linux ([pty_stub.go]). *)
Definition execPTY_stub (c : Cmd) (timeoutSecs : Z) : prog (ExecResponseBody + Err) :=
  Ret (inr (errInternal (text "PTY not supported on this platform"))).

(** [execWithStdin] with the [execPTY] of the system it is built for. *)
Definition execWithStdin_on (pty_exec : Cmd -> Z -> prog (ExecResponseBody + Err)) (cfg : AdapterConfig)
    (sandboxID command : string) (args : list string) (env : list (string * string)) (timeoutSecs : Z) (pty : bool)
    (stdin : option string) : prog (ExecResponseBody + Err) :=
  with_nsjail inr cfg sandboxID command args env timeoutSecs stdin (fun c =>
    if pty then pty_exec c timeoutSecs
    else
      o <- perform (RunCmd c) ;;
      let '(stdout, stderr, runErr) := capture (ac_MaxOutputBytes cfg) o in
      exec_response runErr timeoutSecs stdout stderr).

Definition execWithStdin (cfg : AdapterConfig) (sandboxID command : string) (args : list string)
    (env : list (string * string)) (timeoutSecs : Z) (pty : bool) (stdin : option string)
    : prog (ExecResponseBody + Err) :=
  execWithStdin_on (execPTY cfg) cfg sandboxID command args env timeoutSecs pty stdin.

Definition Exec (cfg : AdapterConfig) (sandboxID command : string) (args : list string)
    (env : list (string * string)) (timeoutSecs : Z) (pty : bool) : prog (ExecResponseBody + Err) :=
  execWithStdin cfg sandboxID command args env timeoutSecs pty None.

(** The calls of [onEvent], in order, and the result. *)
Definition ExecStream (cfg : AdapterConfig) (sandboxID command : string) (args : list string)
    (env : list (string * string)) (timeoutSecs : Z)
    : prog (list (string * string) * (ExecResponseBody + Err)) :=
  let fail err := ([], inr err) in
  with_nsjail fail cfg sandboxID command args env timeoutSecs None (fun c =>
    e <- perform StdoutPipe ;;
    match e with
    | Some err => Ret (fail (errInternal (MLit "stdout pipe: " (MErr err MNil))))
    | None =>
    e <- perform StderrPipe ;;
    match e with
    | Some err => Ret (fail (errInternal (MLit "stderr pipe: " (MErr err MNil))))
    | None =>
    o <- perform (StreamCmd c) ;;
    match o with
    | StartFailed err => Ret (fail (errInternal (MLit "nsjail start: " (MErr err MNil))))
    | Streamed reads waitErr =>
        let st := drain (ac_MaxOutputBytes cfg) reads in
        r <- exec_response waitErr timeoutSecs (lw_buf (ds_stdoutBuf st)) (lw_buf (ds_stderrBuf st)) ;;
        Ret (ds_events st, r)
    end end end).

(** ** Files *)

Definition read_script : string := "cat -- " +:+ DQ +:+ "$1" +:+ DQ.

Definition write_script : string :=
  "mkdir -p -- " +:+ DQ +:+ "$(dirname -- " +:+ DQ +:+ "$1" +:+ DQ +:+ ")" +:+ DQ +:+
  " && cat > " +:+ DQ +:+ "$1" +:+ DQ.

Definition ReadFile (cfg : AdapterConfig) (sandboxID path : string) : prog (string * bool + Err) :=
  res <- Exec cfg sandboxID "sh" ["-c"; read_script; "sh"; sandboxFilePath path] [] fileOpTimeoutSecs false ;;
  match res with
  | inr err => Ret (inr err)
  | inl res =>
      if negb (ex_ExitCode res =? 0) then
        Ret (inr (errBadRequest (text (fileOpError "read" (ex_Stderr res)))))
      else
        let out := ex_Stdout res in
        Ret (inl (out, (0 <? ac_MaxOutputBytes cfg) && (ac_MaxOutputBytes cfg <=? slen out)))
  end.

Definition WriteFile (cfg : AdapterConfig) (sandboxID path content : string) : prog (Z + Err) :=
  res <- execWithStdin cfg sandboxID "sh" ["-c"; write_script; "sh"; sandboxFilePath path] []
           fileOpTimeoutSecs false (Some content) ;;
  match res with
  | inr err => Ret (inr err)
  | inl res =>
      if negb (ex_ExitCode res =? 0) then
        Ret (inr (errBadRequest (text (fileOpError "write" (ex_Stderr res)))))
      else Ret (inl (slen content))
  end.

(** The text of the edited file with the number of replacements, or the error. *)
Definition edit_content (content oldStr newStr : string) (replaceAll : bool) : string * Z + Err :=
  let count := GoStrings.Count content oldStr in
  if count =? 0 then inr (errBadRequest (text "oldString not found in file"))
  else if (1 <? count) && negb replaceAll then
    inr (errBadRequest (text ("oldString is not unique (" +:+ pretty count +:+
      " matches); add context or set replaceAll")))
  else if replaceAll then inl (ReplaceAll content oldStr newStr, count)
  else inl (Replace content oldStr newStr 1, 1).

Definition EditFile (cfg : AdapterConfig) (sandboxID path oldStr newStr : string) (replaceAll : bool)
    : prog (Z + Err) :=
  if oldStr =?s "" then Ret (inr (errBadRequest (text "oldString must not be empty")))
  else
    rd <- ReadFile cfg sandboxID path ;;
    match rd with
    | inr err => Ret (inr err)
    | inl (data, truncated) =>
        if truncated then
          Ret (inr (errBadRequest (text ("file exceeds the " +:+ pretty (ac_MaxOutputBytes cfg) +:+
            "-byte read limit; cannot edit safely, use the bash tool"))))
        else
          match edit_content data oldStr newStr replaceAll with
          | inr err => Ret (inr err)
          | inl (content, count) =>
              wr <- WriteFile cfg sandboxID path content ;;
              match wr with
              | inr err => Ret (inr err)
              | inl _ => Ret (inl count)
              end
          end
    end.

(** ** Specification: the registry *)

(** The map behind the mutex, used by one caller at a time; the operating
    system answers anything. *)
Definition reg_env : env (gmap string sandbox) := fun e m =>
  match e return AAnswer e -> gmap string sandbox -> Prop with
  | RegGet id => fun a m' => a = m !! id /\ m' = m
  | RegSet id sb => fun _ m' => m' = <[id := sb]> m
  | RegDelete id => fun _ m' => m' = delete id m
  | RegKeys => fun a m' => Permutation a (map_to_list m).*1 /\ m' = m
  | RegLen => fun a m' => a = Z.of_nat (size m) /\ m' = m
  | _ => fun _ m' => m' = m
  end.

(** ** Specification: the mutex *)

Inductive LockState : Type := Unlocked | WLocked | RLocked | Violation.

(** Who holds the mutex after an event; [Violation] when the map is touched
    without the lock it needs, or the lock is taken or released wrongly. *)
Definition lock_step (s : LockState) (e : AEvent) : LockState :=
  match e, s with
  | MuLock, Unlocked => WLocked
  | MuUnlock, WLocked => Unlocked
  | MuRLock, Unlocked => RLocked
  | MuRUnlock, RLocked => Unlocked
  | (MuLock | MuUnlock | MuRLock | MuRUnlock), _ => Violation
  | (RegGet _ | RegKeys | RegLen), (WLocked | RLocked) => s
  | (RegSet _ _ | RegDelete _), WLocked => s
  | (RegGet _ | RegKeys | RegLen | RegSet _ _ | RegDelete _), _ => Violation
  | _, _ => s
  end.

Definition lock_env : env LockState := fun e s _ s' => s' = lock_step s e.

(** ** Specification: the commands that were run *)

Definition cmd_env : env (list (Cmd * RunOutcome)) := fun e l =>
  match e return AAnswer e -> list (Cmd * RunOutcome) -> Prop with
  | RunCmd c => fun o l' => l' = l ++ [(c, o)]
  | _ => fun _ l' => l' = l
  end.

(** Events on files, processes and descriptors only. *)
Definition os_event (e : AEvent) : Prop :=
  match e with
  | MuLock | MuUnlock | MuRLock | MuRUnlock
  | RegGet _ | RegSet _ _ | RegDelete _ | RegKeys | RegLen
  | SemTryAcquire | SemRelease | Measure _ _ _ => False
  | _ => True
  end.

(** Whether a directory of the sandbox at [base] exists: set by a successful
    [MkdirAll], cleared by removing [base]. *)
Definition dir_env (base : string) : env bool := fun e s =>
  match e return AAnswer e -> bool -> Prop with
  | OsMkdirAll _ => fun a s' => s' = match a with None => true | Some _ => s end
  | OsRemoveAll p => fun _ s' => s' = if p =?s base then false else s
  | _ => fun _ s' => s' = s
  end.

(** What a successful edit does to the text: the non-overlapping occurrences
    of [old] are replaced, all of them or the only one. *)
Definition edited (data old new content : string) (n : Z) (all : bool) : Prop :=
  0 < n /\ (all = false -> n = 1) /\
  exists pieces, n = llen pieces - 1 /\ data = str_join old pieces /\ content = str_join new pieces /\
    Forall (fun p => ~ occurs old p) pieces.

(** ** Lemmas *)

(** Discharges [only os_event p] by unfolding [p]. *)
Ltac only_tac := simpl; repeat first [done | split | intros ? | progress simpl | case_goal].

Lemma os_inert_reg (e : AEvent) : os_event e -> inert reg_env e.
Proof. unfold inert. by destruct e. Qed.

Lemma os_inert_lock (e : AEvent) : os_event e -> inert lock_env e.
Proof. unfold inert, lock_env. intros He s x s' ->. by destruct e, s. Qed.

Lemma copyExec_os (src dst : string) : only os_event (copyExec src dst).
Proof. only_tac. Qed.

Lemma runHookScript_os (script : string) (sb : sandbox) : only os_event (runHookScript script sb).
Proof. only_tac. Qed.

Lemma search_dirs_stat (dirs : list string) (command chroot : string) :
  only (fun e => exists p, e = OsStat p) (search_dirs dirs command chroot).
Proof.
  induction dirs as [|d dirs IH]; simpl; [done|]. split; [eauto|]. intros []; simpl; auto.
Qed.

Lemma resolve_stat (command chroot : string) :
  only (fun e => exists p, e = OsStat p) (resolveCommandInChroot command chroot).
Proof. unfold resolveCommandInChroot. case_goal; [done|apply search_dirs_stat]. Qed.

Lemma resolve_os (command chroot : string) : only os_event (resolveCommandInChroot command chroot).
Proof. eapply only_mono; [|apply resolve_stat]. by intros e [p ->]. Qed.

Lemma copy_binaries_os (cfg : AdapterConfig) (base binDir : string) (bins : list string) :
  only os_event (copy_binaries cfg base binDir bins).
Proof.
  induction bins as [|b bins IH]; [done|]. cbn [copy_binaries].
  apply only_bind; [apply copyExec_os|]. intros [err|]; [only_tac|done].
Qed.

Lemma exec_response_os (runErr : option RunErr) (t : Z) (out err : string) :
  only os_event (exec_response runErr t out err).
Proof. destruct runErr as [[]|]; only_tac. Qed.

Lemma execPTY_os (cfg : AdapterConfig) (c : Cmd) (t : Z) : only os_event (execPTY cfg c t).
Proof.
  unfold execPTY. apply only_bind; [only_tac|]. intros [[m s]|err]; [|done].
  simpl. split; [done|]. intros [err|]; only_tac. apply exec_response_os.
Qed.
#[export] Hint Resolve copyExec_os runHookScript_os resolve_os copy_binaries_os exec_response_os
  execPTY_os os_inert_reg os_inert_lock : boxy.

(** A subprogram without registry or lock events, inside a larger program. *)
Lemma wp_os {A B S} (R : env S) (p : prog A) (f : A -> prog B) (s : S) (Q : B -> S -> Prop) :
  only os_event p -> (forall e, os_event e -> inert R e) ->
  (forall a, wp R (f a) s Q) -> wp R (bind p f) s Q.
Proof.
  intros Hp HR Hf. eapply wp_bind_spec; [by apply (wp_only R os_event)|]. by intros a s' ->.
Qed.

(** Runs [p] under an environment that is a function of the state, with a case
    analysis at each branch the program takes. *)
Ltac wp_events :=
  repeat first
    [ done
    | progress cbn [wp bind perform]
    | intros ? ? ->
    | intros ? ? [-> ->]
    | match goal with
      | |- wp _ (match ?x with _ => _ end) _ _ => destruct x eqn:?
      | |- wp _ (bind (match ?x with _ => _ end) _) _ _ => destruct x eqn:?
      end ].

Lemma copy_binaries_reg (cfg : AdapterConfig) (base binDir : string) (bins : list string)
    (m : gmap string sandbox) :
  wp reg_env (copy_binaries cfg base binDir bins) m (fun r m' =>
    m' = m /\ forall e, r = Some e -> exists msg, e = errInternal msg).
Proof.
  induction bins as [|b bins IH]; [done|]. cbn [copy_binaries].
  apply wp_os; [auto with boxy..|]. intros [err|]; [|done].
  cbn [wp bind perform]. intros ? ? ->. split; [done|]. intros e [= <-]. by eexists.
Qed.

Lemma create_locked_reg (cfg : AdapterConfig) (req : SandboxCreateBody) (m : gmap string sandbox) :
  wp reg_env (create_locked cfg req) m (fun r m' =>
    match r with
    | None => m !! cb_SandboxID req = None /\ m' = <[cb_SandboxID req := new_sandbox cfg req]> m
    | Some e => m' = m /\
        (e = errConflict (cb_SandboxID req) /\ is_Some (m !! cb_SandboxID req) \/ exists msg, e = errInternal msg)
    end).
Proof.
  unfold create_locked. cbn [wp bind perform]. intros ? ? [-> ->].
  destruct (m !! cb_SandboxID req) as [old|] eqn:Hm; [simpl; eauto|].
  cbn [wp bind perform]. intros [err|] ? ->; [simpl; eauto|].
  cbn [wp bind perform]. intros [err|] ? ->; [wp_events; eauto|].
  eapply wp_bind_spec; [apply copy_binaries_reg|]. intros [err|] ? [-> He]; [simpl; eauto|].
  destruct (negb _); [|by wp_events].
  cbn [bind wp perform]. intros ? ? ->. apply wp_bind, wp_os; [auto with boxy..|].
  intros [err|]; wp_events. eauto.
Qed.

Lemma create_locked_lock (cfg : AdapterConfig) (req : SandboxCreateBody) :
  wp lock_env (create_locked cfg req) WLocked (fun _ s => s = WLocked).
Proof.
  unfold create_locked. cbn [wp bind perform]. intros old ? ->. destruct old; [done|].
  wp_events. apply wp_os; [auto with boxy..|]. intros [err|]; [done|].
  destruct (negb _); [|by wp_events].
  cbn [bind wp perform]. intros ? ? ->. apply wp_bind, wp_os; [auto with boxy..|].
  intros [err|]; by wp_events.
Qed.

(** [with_nsjail] locks only around its lookup. *)
Lemma with_nsjail_lock {X} (fail : Err -> X) cfg id command args env t stdin (k : Cmd -> prog X) :
  (forall c, only os_event (k c)) ->
  wp lock_env (with_nsjail fail cfg id command args env t stdin k) Unlocked (fun _ s => s = Unlocked).
Proof.
  intros Hk. unfold with_nsjail. cbn [wp bind perform]. intros ? ? ->. intros found ? ->. intros ? ? ->.
  destruct found as [sb|]; [|done]. simpl.
  apply wp_os; [auto with boxy..|]. intros rc. wp_events.
  apply wp_os; [auto with boxy..|]. intros r. by wp_events.
Qed.

Lemma execWithStdin_lock cfg id command args env t pty stdin :
  wp lock_env (execWithStdin cfg id command args env t pty stdin) Unlocked (fun _ s => s = Unlocked).
Proof.
  unfold execWithStdin, execWithStdin_on. apply with_nsjail_lock. intros c. destruct pty; [auto with boxy|].
  simpl. split; [done|]. intros o. case_goal. case_goal. auto with boxy.
Qed.

Lemma ReadFile_lock cfg id path :
  wp lock_env (ReadFile cfg id path) Unlocked (fun _ s => s = Unlocked).
Proof.
  eapply wp_bind_spec; [apply execWithStdin_lock|]. intros [res|err] s ->; wp_events.
Qed.

Lemma WriteFile_lock cfg id path content :
  wp lock_env (WriteFile cfg id path content) Unlocked (fun _ s => s = Unlocked).
Proof.
  eapply wp_bind_spec; [apply execWithStdin_lock|]. intros [res|err] s ->; wp_events.
Qed.

(** ** The commands of an exec *)

Lemma resolve_inert_cmd (e : AEvent) : (exists p, e = OsStat p) -> inert cmd_env e.
Proof. by intros [p ->] s x s'. Qed.

(** A plain exec runs one command, or fails before running any; a response
    with exit code 0 carries the captured standard output of that command. *)
Lemma execWithStdin_cmds cfg id command args env t stdin l :
  wp cmd_env (execWithStdin cfg id command args env t false stdin) l (fun r l' =>
    (l' = l /\ exists e, r = inr e) \/
    exists c o, l' = l ++ [(c, o)] /\ cmd_Stdin c = stdin /\
      (exists file rc, cmd_Args c = ["--config"; file; "--"; rc] ++ args) /\
      forall resp, r = inl resp -> ex_ExitCode resp = 0 ->
        ex_Stdout resp = (capture (ac_MaxOutputBytes cfg) o).1.1).
Proof.
  unfold execWithStdin, execWithStdin_on, with_nsjail. cbn [wp bind perform].
  intros ? ? ->. intros found ? ->. intros ? ? ->.
  destruct found as [sb|]; [|simpl; eauto]. simpl.
  eapply wp_bind_spec; [apply (wp_only _ _ _ _ (resolve_stat _ _) resolve_inert_cmd)|].
  intros rc ? ->. cbn [wp bind perform]. intros [file|err] ? ->; [|simpl; eauto].
  cbn [wp bind perform]. intros [err|] ? ->; cbn [wp bind perform]; [intros ? ? -> ? ? ->; simpl; eauto|].
  intros ? ? ->. intros o ? ->. destruct (capture _ o) as [[out err] re] eqn:Hc.
  set (c := {| cmd_Path := _ |}).
  assert (exists file rc, cmd_Args c = ["--config"; file; "--"; rc] ++ args) as Hargs by eauto.
  destruct re as [[code|e]|]; cbn [exec_response wp bind perform].
  - intros ? ? ->. right. exists c, o. split_and!; [done..|]. rewrite Hc. by intros resp [= <-].
  - intros d ? ->. intros ? ? ->. right. exists c, o. split_and!; [done..|]. rewrite Hc.
    intros resp Hr. simpl in Hr. by destruct d; simplify_eq/=.
  - intros ? ? ->. right. exists c, o. split_and!; [done..|]. rewrite Hc. by intros resp [= <-].
Qed.

(** Without terminals, an exec that asks for one is refused and runs nothing. *)
Lemma stub_refuses_pty cfg id command args env t stdin l :
  wp cmd_env (execWithStdin_on execPTY_stub cfg id command args env t true stdin) l (fun r l' =>
    l' = l /\ exists e, r = inr e).
Proof.
  unfold execWithStdin_on, with_nsjail, execPTY_stub. cbn [wp bind perform].
  intros ? ? ->. intros found ? ->. intros ? ? ->. destruct found as [sb|]; [|simpl; eauto]. cbv zeta.
  eapply wp_bind_spec; [apply (wp_only _ _ _ _ (resolve_stat _ _) resolve_inert_cmd)|].
  intros rc ? ->. cbn [wp bind perform]. intros [file|err] ? ->; [|simpl; eauto].
  cbn [wp bind perform]. intros [err|] ? ->; cbn [wp bind perform]; intros ? ? -> ? ? ->; simpl; eauto.
Qed.

Lemma ReadFile_cmds cfg id path l :
  wp cmd_env (ReadFile cfg id path) l (fun r l' =>
    (l' = l /\ exists e, r = inr e) \/
    exists c o, l' = l ++ [(c, o)] /\ cmd_Stdin c = None /\
      forall data truncated, r = inl (data, truncated) ->
        data = (capture (ac_MaxOutputBytes cfg) o).1.1 /\
        (truncated = false -> 0 < ac_MaxOutputBytes cfg -> slen data < ac_MaxOutputBytes cfg)).
Proof.
  unfold ReadFile, Exec. eapply wp_bind_spec; [apply execWithStdin_cmds|].
  intros r l' [[-> [e ->]]|(c & o & -> & Hin & _ & Hout)]; [left; eauto|].
  destruct r as [res|err]; [|right; exists c, o; by split_and!].
  destruct (negb _) eqn:He; right; exists c, o; split_and!; try done.
  intros data truncated [= <- <-]. bool_hyps. split; [by apply Hout|].
  intros Hf Hm. rewrite (proj2 (Z.ltb_lt _ _) Hm) in Hf. simpl in Hf. bool_hyps. done.
Qed.

Lemma WriteFile_cmds cfg id path content l :
  wp cmd_env (WriteFile cfg id path content) l (fun r l' =>
    (l' = l /\ exists e, r = inr e) \/
    exists c o, l' = l ++ [(c, o)] /\ cmd_Stdin c = Some content /\
      exists file rc, cmd_Args c = ["--config"; file; "--"; rc; "-c"; write_script; "sh"; sandboxFilePath path]).
Proof.
  unfold WriteFile. eapply wp_bind_spec; [apply execWithStdin_cmds|].
  intros r l' [[-> [e ->]]|(c & o & -> & Hin & Hargs & _)]; [left; eauto|].
  destruct r as [res|err]; [destruct (negb _)|]; right; exists c, o; by split_and!.
Qed.


(** ** Directories of a sandbox *)

Lemma copy_binaries_dirs (cfg : AdapterConfig) (base binDir : string) (bins : list string) (s : bool) :
  wp (dir_env base) (copy_binaries cfg base binDir bins) s (fun r s' =>
    s' = match r with None => s | Some _ => false end).
Proof.
  assert (forall e, match e with OsOpen _ | OsOpenFile _ | IoCopyFile _ _ | OsCloseFile _ => True | _ => False end ->
    inert (dir_env base) e) as Hin by (by intros [] ? ? ? ?).
  induction bins as [|b bins IH]; [done|]. cbn [copy_binaries].
  eapply wp_bind_spec; [eapply wp_only; [|exact Hin]; only_tac|].
  intros [err|] s' ->; [|done]. cbn [wp bind perform]. intros ? ? ->. simpl.
  by rewrite String.eqb_refl.
Qed.

Lemma hook_dirs (base script : string) (sb : sandbox) (s : bool) :
  wp (dir_env base) (runHookScript script sb) s (fun _ s' => s' = s).
Proof. unfold runHookScript. wp_events. Qed.

(** ** Edits *)

Lemma edit_content_spec (data old new content : string) (all : bool) (n : Z) :
  old <> "" -> edit_content data old new all = inl (content, n) -> edited data old new content n all.
Proof.
  destruct old as [|d sub]; [done|]. intros _. unfold edit_content, GoStrings.Count, Replace, ReplaceAll.
  destruct (split_spec d sub data) as (Hj & Hn & Hall).
  pose proof (count_nonneg d sub data 0) as Hnn.
  assert (Forall (fun p => ~ occurs (String d sub) p) (split_from (String d sub) 0 data)) as Hfree.
  { eapply Forall_impl; [apply split_pieces_free|]. intros p Hp. by apply Contains_not_occurs. }
  destruct (_ =? 0) eqn:Hz; [done|]. destruct (_ && _) eqn:Hu; [done|]. bool_hyps.
  destruct all; intros [= <- <-]; unfold edited.
  - split_and!; [lia|done|]. exists (split_from (String d sub) 0 data). by rewrite Hall.
  - rewrite andb_true_r in Hu. bool_hyps.
    assert (count_from (String d sub) 0 data = 1) as H1 by lia.
    split_and!; [done|done|]. exists (split_from (String d sub) 0 data).
    rewrite replace_once_all, Hall, <- Hn by done. done.
Qed.

(** ** The operations on the map *)

Lemma Create_reg (cfg : AdapterConfig) (req : SandboxCreateBody) (m : gmap string sandbox) :
  wp reg_env (Create cfg req) m (fun r m' =>
    match r with
    | None => create_request_ok cfg req /\ m !! cb_SandboxID req = None /\
              m' = <[cb_SandboxID req := new_sandbox cfg req]> m
    | Some e => m' = m /\
        (e = errConflict (cb_SandboxID req) /\ is_Some (m !! cb_SandboxID req) \/
         exists msg, e = errInternal msg \/ e = errBadRequest msg)
    end).
Proof.
  unfold Create. destruct (validateCreateRequest cfg req) as [err|] eqn:Hv.
  { split; [done|]. apply validateCreateRequest_bad in Hv as [msg ->]. eauto. }
  cbn [wp bind perform]. intros ? ? ->.
  eapply wp_bind_spec; [apply create_locked_reg|]. intros [err|] m'.
  - intros [-> He]. wp_events. naive_solver.
  - intros [Hm ->]. wp_events. split; [by apply validateCreateRequest_spec|done].
Qed.

Lemma Delete_reg (id : string) (m : gmap string sandbox) :
  wp reg_env (Delete id) m (fun r m' => m' = delete id m /\
    match r with None => is_Some (m !! id) | Some e => e = errNotFound id /\ m !! id = None end).
Proof.
  unfold Delete. cbn [wp bind perform]. intros ? ? ->. intros ? ? [-> ->].
  destruct (m !! id) as [sb|] eqn:Hm; [by wp_events|].
  wp_events. by rewrite delete_id.
Qed.

Lemma ListIDs_reg (m : gmap string sandbox) :
  wp reg_env ListIDs m (fun ids m' => m' = m /\ NoDup ids /\ forall id, id ∈ ids <-> is_Some (m !! id)).
Proof.
  unfold ListIDs. cbn [wp bind perform]. intros ? ? ->. intros ids ? [Hp ->]. wp_events.
  split; [done|]. split.
  - rewrite Hp. apply NoDup_fst_map_to_list.
  - intros id. rewrite Hp, list_elem_of_fmap. split.
    + intros ([k v] & -> & Hin). apply elem_of_map_to_list in Hin. eauto.
    + intros [v Hv]. exists (id, v). split; [done|]. by apply elem_of_map_to_list.
Qed.

Lemma Count_reg (m : gmap string sandbox) :
  wp reg_env Count m (fun n m' => m' = m /\ n = Z.of_nat (size m)).
Proof. unfold Count. wp_events. Qed.

(** ** Properties *)

(** C6: run one at a time, the adapter's operations implement a map from
    identifiers to sandboxes.  For any behaviour of the operating system, [Create] either
    returns nil, in which case the request was valid, the identifier was free
    and is now bound to the sandbox built from the request, or returns an error
    and leaves the map as it was, a conflict only if the identifier was bound;
    [Delete] removes the identifier and returns nil if it was bound and not
    found otherwise; [ListIDs] returns the bound identifiers, each once; [Count]
    returns their number. *)
Theorem adapter_registry_refines (cfg : AdapterConfig) (m : gmap string sandbox) :
  (forall req, wp reg_env (Create cfg req) m (fun r m' =>
     match r with
     | None => create_request_ok cfg req /\ m !! cb_SandboxID req = None /\
               m' = <[cb_SandboxID req := new_sandbox cfg req]> m
     | Some e => m' = m /\
         (e = errConflict (cb_SandboxID req) /\ is_Some (m !! cb_SandboxID req) \/
          exists msg, e = errInternal msg \/ e = errBadRequest msg)
     end)) /\
  (forall id, wp reg_env (Delete id) m (fun r m' => m' = delete id m /\
     match r with None => is_Some (m !! id) | Some e => e = errNotFound id /\ m !! id = None end)) /\
  wp reg_env ListIDs m (fun ids m' => m' = m /\ NoDup ids /\ forall id, id ∈ ids <-> is_Some (m !! id)) /\
  wp reg_env Count m (fun n m' => m' = m /\ n = Z.of_nat (size m)).
Proof.
  split_and!.
  - intros req. apply Create_reg.
  - intros id. apply Delete_reg.
  - apply ListIDs_reg.
  - apply Count_reg.
Qed.

(** C35: every operation of the adapter takes and releases the mutex correctly
    whatever the system calls answer: it starts and ends with the mutex free,
    never takes or releases it twice, reads the map only under the read or the
    write lock and changes it only under the write lock. *)
Theorem registry_lock_discipline (cfg : AdapterConfig) (id path s1 s2 : string) (args : list string)
    (env : list (string * string)) (t : Z) (b : bool) (req : SandboxCreateBody) :
  let safe {A} (p : prog A) := wp lock_env p Unlocked (fun _ s => s = Unlocked) in
  safe (Create cfg req) /\ safe (Delete id) /\ safe ListIDs /\ safe Count /\
  safe (Exec cfg id s1 args env t b) /\ safe (ExecStream cfg id s1 args env t) /\
  safe (ReadFile cfg id path) /\ safe (WriteFile cfg id path s1) /\ safe (EditFile cfg id path s1 s2 b).
Proof.
  cbv zeta. split_and!.
  - unfold Create. destruct (validateCreateRequest cfg req); [done|]. cbn [wp bind perform].
    intros ? ? ->. eapply wp_bind_spec; [apply create_locked_lock|]. intros r ? ->. by wp_events.
  - unfold Delete. cbn [wp bind perform]. intros ? ? ->. intros [sb|] ? ->; [|by wp_events].
    by wp_events.
  - unfold ListIDs. by wp_events.
  - unfold Count. by wp_events.
  - apply execWithStdin_lock.
  - unfold ExecStream. apply with_nsjail_lock. intros c. only_tac.
    apply only_bind; [auto with boxy|done].
  - apply ReadFile_lock.
  - apply WriteFile_lock.
  - unfold EditFile. destruct (s1 =?s ""); [done|].
    eapply wp_bind_spec; [apply ReadFile_lock|]. intros [[data []]|err] s ->; [done| |done].
    destruct (edit_content data s1 s2 b) as [[content n]|err]; [|done].
    eapply wp_bind_spec; [apply WriteFile_lock|]. by intros [n'|err] s ->.
Qed.

(** C36: [EditFile] returns a count only after writing, as the standard input
    of the write command, the text it read with every (or, without
    [replaceAll], the only) occurrence of the old string replaced; the count is
    the number of occurrences, the text read was below the output limit, and
    when it returns an error without having run the write command no command
    received any input. *)
Theorem edit_file_correct (cfg : AdapterConfig) (id path old new : string) (all : bool) :
  wp cmd_env (EditFile cfg id path old new all) [] (fun r cmds =>
    match r with
    | inl n => exists c1 o1 c2 o2 content,
        cmds = [(c1, o1); (c2, o2)] /\ cmd_Stdin c1 = None /\ cmd_Stdin c2 = Some content /\
        let data := (capture (ac_MaxOutputBytes cfg) o1).1.1 in
        edited data old new content n all /\
        (0 < ac_MaxOutputBytes cfg -> slen data < ac_MaxOutputBytes cfg)
    | inr _ => (length cmds <= 1)%nat -> Forall (fun co => cmd_Stdin co.1 = None) cmds
    end).
Proof.
  unfold EditFile. destruct (old =?s "") eqn:Ho; [simpl; by constructor|]. bool_hyps.
  eapply wp_bind_spec; [apply ReadFile_cmds|].
  intros rd l [[-> [e ->]]|(c1 & o1 & -> & Hin & Hdata)]; [simpl; by constructor|].
  destruct rd as [[data truncated]|err]; [|simpl; by repeat constructor].
  destruct (Hdata _ _ eq_refl) as [-> Hlim]. destruct truncated; [simpl; by repeat constructor|].
  destruct (edit_content _ old new all) as [[content n]|err] eqn:He; [|simpl; by repeat constructor].
  apply edit_content_spec in He; [|done].
  eapply wp_bind_spec; [apply WriteFile_cmds|].
  intros wr l [[-> [e ->]]|(c2 & o2 & -> & Hin2 & _)]; [simpl; by repeat constructor|].
  destruct wr as [k|err]; simpl; [|lia]. exists c1, o1, c2, o2, content. by split_and!; auto.
Qed.

