(* ===== verification/AdapterRace.v ===== *)
(** * Concurrent requests to the adapter

    [Create] releases the mutex while the setup script runs.  This file runs
    several operations of [Adapter] against one shared world, one event at a
    time in the order of a schedule, and shows what that window allows. *)
From S2P Require Import Prelude Prog GoStrings GoPath ApiTypes AdapterConfig Adapter Output.
Open Scope boxy_scope.

(** The mutex, the map, the directories that exist, and the outcome of each
    setup script that will be run ([true] succeeds). *)
Record World := {
  w_lock : LockState;
  w_reg : gmap string sandbox;
  w_dirs : list string;
  w_scripts : list bool;
}.

Definition with_lock (w : World) (l : LockState) : World :=
  {| w_lock := l; w_reg := w_reg w; w_dirs := w_dirs w; w_scripts := w_scripts w |}.

Definition with_reg (w : World) (m : gmap string sandbox) : World :=
  {| w_lock := w_lock w; w_reg := m; w_dirs := w_dirs w; w_scripts := w_scripts w |}.

Definition with_dirs (w : World) (ds : list string) : World :=
  {| w_lock := w_lock w; w_reg := w_reg w; w_dirs := ds; w_scripts := w_scripts w |}.

Definition is_unlocked (l : LockState) : bool := match l with Unlocked => true | _ => false end.

(** The operating system at its best: every call succeeds except the scripts
    the world says fail; [MuLock] blocks while the mutex is held. *)
Definition world_step (e : AEvent) : World -> option (AAnswer e * World) :=
  match e return World -> option (AAnswer e * World) with
  | MuLock => fun w => if is_unlocked (w_lock w) then Some (tt, with_lock w WLocked) else None
  | MuUnlock => fun w => Some (tt, with_lock w Unlocked)
  | MuRLock => fun w => if is_unlocked (w_lock w) then Some (tt, with_lock w RLocked) else None
  | MuRUnlock => fun w => Some (tt, with_lock w Unlocked)
  | RegGet id => fun w => Some (w_reg w !! id, w)
  | RegSet id sb => fun w => Some (tt, with_reg w (<[id := sb]> (w_reg w)))
  | RegDelete id => fun w => Some (tt, with_reg w (delete id (w_reg w)))
  | RegKeys => fun w => Some ((map_to_list (w_reg w)).*1, w)
  | RegLen => fun w => Some (Z.of_nat (size (w_reg w)), w)
  | OsMkdirAll p => fun w => Some (None, with_dirs w (p :: w_dirs w))
  | OsRemoveAll p => fun w =>
      Some (None, with_dirs w (List.filter (fun d => negb (HasPrefix d (p +:+ "/"))) (w_dirs w)))
  | RunScript _ _ _ => fun w =>
      match w_scripts w with
      | ok :: rest =>
          Some (if ok then None else Some (ErrMsg "exit status 1", ""),
                {| w_lock := w_lock w; w_reg := w_reg w; w_dirs := w_dirs w; w_scripts := rest |})
      | [] => Some (None, w)
      end
  | OsEnviron => fun w => Some ([], w)
  | OsOpen _ => fun w => Some (None, w)
  | OsOpenFile _ => fun w => Some (None, w)
  | IoCopyFile _ _ => fun w => Some (None, w)
  | OsCloseFile _ => fun w => Some (None, w)
  | _ => fun _ => None
  end.

Definition racing_create : SandboxCreateBody :=
  {| cb_SandboxID := "demo"; cb_TTLSeconds := 0; cb_Env := []; cb_AllowedBinaries := []; cb_VM := None;
     cb_Network := None; cb_Volumes := []; cb_Patches := []; cb_SetupScript := "/opt/setup.sh";
     cb_TeardownScript := ""; cb_ScriptEnv := [] |}.

Definition world0 (scripts : list bool) : World :=
  {| w_lock := Unlocked; w_reg := ∅; w_dirs := []; w_scripts := scripts |}.

(** The first request runs up to its setup script and waits there while the
    second runs to completion; then the first finishes. *)
Definition window_schedule : list nat := replicate 6 0%nat ++ replicate 12 1%nat ++ replicate 6 0%nat.

(** Two concurrent [Create] calls for one identifier with a setup script
    can both pass the duplicate check: under [window_schedule] the second
    returns nil and its sandbox is registered, then the first one's script fails
    and its clean-up deletes the directories of the registered sandbox.  With two
    succeeding scripts both calls return nil. *)
Theorem duplicate_create_race :
  let creates := [Create sample_cfg racing_create; Create sample_cfg racing_create] in
  (let '(pool, w) := run_pool world_step window_schedule creates (world0 [true; false]) in
   (exists err, pool = [Ret (Some err); Ret None]) /\ is_Some (w_reg w !! "demo") /\
   w_dirs w = [] /\ w_lock w = Unlocked) /\
  (run_pool world_step window_schedule creates (world0 [true; true])).1 = [Ret None; Ret None].
Proof. vm_compute. split; [split_and!; eauto|reflexivity]. Qed.
