(* ===== verification/CtrlMetrics.v ===== *)
(** * Metrics of the controller: [cmd/boxy-controller/metrics.go]

    The instruments the server updates.  A nil [*controllerMetrics] is valid and
    records nothing, so the presence of the metrics is a parameter of every
    method; an update is an event whose answer carries no information.  The
    instruments are created at start-up, in [Process]. *)
From S2P Require Import Prelude Prog ApiTypes Adapter.
Open Scope boxy_scope.

(** Whether [s.metrics] is not nil. *)
Class CtrlMetrics := cm_present : bool.

Definition execResult (r : option ExecResponseBody) : string :=
  match r with
  | None => "error"
  | Some r => if ex_TimedOut r then "timeout"
              else if negb (ex_ExitCode r =? 0) then "nonzero"
              else "ok"
  end.

Section methods.
Context {M : CtrlMetrics}.

Definition recordExec (sandboxID result : string) (duration bytes : Z) : prog unit :=
  if cm_present then
    let attrs := [("sandbox_id", sandboxID); ("result", result)] in
    perform (Measure execTotal 1 attrs) ;;;
    perform (Measure execDuration duration attrs) ;;;
    if 0 <? bytes then perform (Measure outputBytes bytes [("sandbox_id", sandboxID)]) else Ret tt
  else Ret tt.

Definition sandboxCreated : prog unit :=
  if cm_present then perform (Measure sandboxesActive 1 []) else Ret tt.

Definition sandboxDeleted : prog unit :=
  if cm_present then perform (Measure sandboxesActive (-1) []) else Ret tt.

Definition execThrottled : prog unit :=
  if cm_present then perform (Measure throttledTotal 1 []) else Ret tt.

(** [time.Since(start)]. *)
Definition since (start : Z) : prog Z := now <- perform TimeNow ;; Ret (now - start).

End methods.
