(* ===== verification/Controller.v ===== *)
(** * The controller's HTTP server: [cmd/boxy-controller/server.go]

    The handlers are programs over the adapter they were given, an instance of
    [AdapterOps] (the Go interface [nsjail.Adapter]); what they rely on is
    [AdapterLaws], which [NsjailAdapter] satisfies.  A request is given by what
    [json.Decode] makes of its body for each request type; log lines are left
    out. *)
From S2P Require Import Prelude Prog GoStrings GoPath GoMux ApiTypes NsjailConfig Output AdapterConfig Adapter CtrlMetrics.
Open Scope boxy_scope.

(** ** The interface [nsjail.Adapter] *)

Class AdapterOps := {
  op_Create : SandboxCreateBody -> prog error;
  op_Exec : string -> string -> list string -> list (string * string) -> Z -> bool ->
            prog (ExecResponseBody + Err);
  op_ExecStream : string -> string -> list string -> list (string * string) -> Z ->
            prog (list (string * string) * (ExecResponseBody + Err));
  op_ReadFile : string -> string -> prog (string * bool + Err);
  op_WriteFile : string -> string -> string -> prog (Z + Err);
  op_EditFile : string -> string -> string -> string -> bool -> prog (Z + Err);
  op_Delete : string -> prog error;
  op_ListIDs : prog (list string);
  op_Count : prog Z;
}.

#[export] Instance NsjailOps (cfg : AdapterConfig) : AdapterOps := {|
  op_Create := Create cfg;
  op_Exec := Exec cfg;
  op_ExecStream := ExecStream cfg;
  op_ReadFile := ReadFile cfg;
  op_WriteFile := WriteFile cfg;
  op_EditFile := EditFile cfg;
  op_Delete := Delete;
  op_ListIDs := ListIDs;
  op_Count := Count;
|}.

(** The adapter where the system is not Linux. *)
Definition StubOps (cfg : AdapterConfig) : AdapterOps := {|
  op_Create := Create cfg;
  op_Exec id cmd args env t pty := execWithStdin_on execPTY_stub cfg id cmd args env t pty None;
  op_ExecStream := ExecStream cfg;
  op_ReadFile := ReadFile cfg;
  op_WriteFile := WriteFile cfg;
  op_EditFile := EditFile cfg;
  op_Delete := Delete;
  op_ListIDs := ListIDs;
  op_Count := Count;
|}.

(** ** Pure helpers *)

(** [b[:len(b)-1]]. *)
Definition drop_last (s : string) : string := str_take (pred (String.length s)) s.

Fixpoint trim_partial (n : nat) (b : string) : string :=
  match n with
  | O => b
  | S n' => if (b =?s "") || Valid b then b else trim_partial n' (drop_last b)
  end.

(** At most [utf8.UTFMax - 1] bytes are dropped. *)
Definition trimPartialRune (b : string) : string := trim_partial 3 b.

Definition notice : string := NL +:+ "[output truncated]".

Definition truncateOutput (maxOutputBytes : Z) (out : string) : string :=
  if (maxOutputBytes <=? 0) || (slen out <=? maxOutputBytes) then out
  else
    let cut := maxOutputBytes - slen notice in
    let cut := if cut <? 0 then 0 else cut in
    str_take (Z.to_nat cut) out +:+ notice.

(** [errors.As(err, &ae)] for an [*AdapterError]. *)
Fixpoint as_adapter (e : Err) : option (Z * Msg) :=
  match e with
  | ErrAdapter code msg => Some (code, msg)
  | ErrWrap _ e' _ => as_adapter e'
  | _ => None
  end.

Definition adapterErrToHTTP (err : Err) : Z * Msg :=
  match as_adapter err with
  | Some cm => cm
  | None => (500, MErr err MNil)
  end.

(** [base64.StdEncoding.DecodeString]: line breaks are skipped, the rest is
    groups of four digits, the last one padded. *)
Definition b64_digit (c : ascii) : option N :=
  let n := N_of_ascii c in
  if in_range 65 90 c then Some (n - 65)%N
  else if in_range 97 122 c then Some (n - 71)%N
  else if in_range 48 57 c then Some (n + 4)%N
  else if is_byte 43 c then Some 62%N
  else if is_byte 47 c then Some 63%N
  else None.

Fixpoint skip_breaks (s : string) : string :=
  match s with
  | EmptyString => ""
  | String c s' => if is_byte 10 c || is_byte 13 c then skip_breaks s' else String c (skip_breaks s')
  end.

Definition byte_of (n : N) : ascii := ascii_of_N (n mod 256).

Fixpoint b64_groups (s : string) : option string :=
  match s with
  | EmptyString => Some ""
  | String c0 (String c1 (String c2 (String c3 s'))) =>
      match b64_digit c0, b64_digit c1 with
      | Some d0, Some d1 =>
          let b0 := byte_of (d0 * 4 + d1 / 16) in
          match b64_digit c2, b64_digit c3 with
          | Some d2, Some d3 =>
              let b1 := byte_of (d1 * 16 + d2 / 4) in
              let b2 := byte_of (d2 * 64 + d3) in
              match b64_groups s' with
              | Some r => Some (String b0 (String b1 (String b2 r)))
              | None => None
              end
          | Some d2, None =>
              if is_byte 61 c3 && (s' =?s "") then Some (String b0 (String (byte_of (d1 * 16 + d2 / 4)) ""))
              else None
          | None, _ =>
              if is_byte 61 c2 && is_byte 61 c3 && (s' =?s "") then Some (String b0 "") else None
          end
      | _, _ => None
      end
  | _ => None
  end.

Definition DecodeString (s : string) : option string := b64_groups (skip_breaks s).

(** ** Responses *)

Inductive RespBody : Type :=
| BNone
| BText (s : string)
| BError (msg : Msg)
| BCreated (sandboxID : string)
| BList (ids : list string)
| BExec (r : ExecResult)
| BStream (events : list (string * string)) (last : ExecResponseBody + Err)
| BFileRead (r : FileReadResult)
| BFileWrite (r : FileWriteResult)
| BFileEdit (r : FileEditResult).

Record Response := { resp_code : Z; resp_body : RespBody }.

Definition writeErr (code : Z) (msg : Msg) : Response := {| resp_code := code; resp_body := BError msg |}.

Definition adapter_failed (err : Err) : Response :=
  let '(code, msg) := adapterErrToHTTP err in writeErr code msg.

Definition invalid_json : Response := writeErr 400 (text "invalid json").

Definition throttled : Response := writeErr 429 (text "concurrency limit reached, try again later").

Record config := {
  cc_port : Z;
  cc_mtlsDisabled : bool;
  cc_tlsCertPath : string;
  cc_tlsKeyPath : string;
  cc_tlsCAPath : string;
  cc_controllerToken : string;
  cc_maxSandboxes : Z;
  cc_maxExecConcurrency : Z;
  cc_maxOutputBytes : Z;
  cc_metricsPort : Z;
  cc_adapterConfig : AdapterConfig;
}.

(** The capacity [newServer] gives the channel of the execution slots. *)
Definition exec_slots (cfg : config) : Z := if cc_maxExecConcurrency cfg <=? 0 then 50 else cc_maxExecConcurrency cfg.

(** ** Handlers *)

(** The adapter's request built from the decoded one. *)
Definition create_body (req : CreateSandboxReq) : SandboxCreateBody :=
  {| cb_SandboxID := cr_SandboxID req; cb_TTLSeconds := cr_TTLSeconds req; cb_Env := cr_Env req;
     cb_AllowedBinaries := cr_AllowedBinaries req; cb_VM := cr_VM req; cb_Network := cr_Network req;
     cb_Volumes := cr_Volumes req; cb_Patches := cr_Patches req; cb_SetupScript := cr_SetupScript req;
     cb_TeardownScript := cr_TeardownScript req; cb_ScriptEnv := cr_ScriptEnv req |}.

Section handlers.
Context (cfg : config) {O : AdapterOps} {M : CtrlMetrics}.

(** [select { case s.execSem <- struct{}{}: defer ...; default: ... }]. *)
Definition with_slot (body : prog Response) : prog Response :=
  acquired <- perform SemTryAcquire ;;
  if acquired : bool then
    r <- body ;;
    perform SemRelease ;;;
    Ret r
  else execThrottled ;;; Ret throttled.

Definition handleCreate (decoded : option CreateSandboxReq) : prog Response :=
  match decoded with
  | None => Ret invalid_json
  | Some req =>
      if TrimSpace (cr_SandboxID req) =?s "" then Ret (writeErr 400 (text "sandbox_id required"))
      else
        n <- op_Count ;;
        if cc_maxSandboxes cfg <=? n then Ret (writeErr 503 (text "controller at capacity"))
        else
          e <- op_Create (create_body req) ;;
          match e with
          | Some err => Ret (adapter_failed err)
          | None => sandboxCreated ;;; Ret {| resp_code := 201; resp_body := BCreated (cr_SandboxID req) |}
          end
  end.

Definition handleList : prog Response :=
  ids <- op_ListIDs ;; Ret {| resp_code := 200; resp_body := BList ids |}.

Definition handleDelete (decoded : option DeleteSandboxReq) : prog Response :=
  match decoded with
  | None => Ret invalid_json
  | Some req =>
      if TrimSpace (dr_SandboxID req) =?s "" then Ret (writeErr 400 (text "sandbox_id required"))
      else
        e <- op_Delete (dr_SandboxID req) ;;
        match e with
        | Some err => Ret (adapter_failed err)
        | None => sandboxDeleted ;;; Ret {| resp_code := 204; resp_body := BNone |}
        end
  end.

(** The checks the two exec handlers share, and the timeout they use. *)
Definition check_exec (decoded : option ExecReq) (k : ExecReq -> Z -> prog Response) : prog Response :=
  match decoded with
  | None => Ret invalid_json
  | Some req =>
      if TrimSpace (xr_SandboxID req) =?s "" then Ret (writeErr 400 (text "sandbox_id required"))
      else if TrimSpace (xr_Command req) =?s "" then Ret (writeErr 400 (text "command required"))
      else k req (if xr_TimeoutSeconds req <=? 0 then 30 else xr_TimeoutSeconds req)
  end.

Definition handleExec (decoded : option ExecReq) : prog Response :=
  check_exec decoded (fun req timeoutSeconds =>
    with_slot (
      start <- perform TimeNow ;;
      r <- op_Exec (xr_SandboxID req) (xr_Command req) (xr_Args req) (xr_Env req) timeoutSeconds (xr_PTY req) ;;
      match r with
      | inr err =>
          d <- since start ;;
          recordExec (xr_SandboxID req) "error" d 0 ;;;
          Ret (adapter_failed err)
      | inl result =>
          d <- since start ;;
          recordExec (xr_SandboxID req) (execResult (Some result)) d (slen (ex_Stdout result) + slen (ex_Stderr result)) ;;;
          Ret {| resp_code := 200; resp_body := BExec {|
            xs_Stdout := truncateOutput (cc_maxOutputBytes cfg) (ex_Stdout result);
            xs_Stderr := truncateOutput (cc_maxOutputBytes cfg) (ex_Stderr result);
            xs_ExitCode := ex_ExitCode result;
            xs_TimedOut := ex_TimedOut result |} |}
      end)).

(** The status is 200 as soon as a line is written; the last line is the exit
    event, or an error event when the adapter failed. *)
Definition handleExecStream (decoded : option ExecReq) : prog Response :=
  check_exec decoded (fun req timeoutSeconds =>
    with_slot (
      start <- perform TimeNow ;;
      r <- op_ExecStream (xr_SandboxID req) (xr_Command req) (xr_Args req) (xr_Env req) timeoutSeconds ;;
      d <- since start ;;
      match r.2 with
      | inr _ => recordExec (xr_SandboxID req) "error" d 0
      | inl result =>
          recordExec (xr_SandboxID req) (execResult (Some result)) d (slen (ex_Stdout result) + slen (ex_Stderr result))
      end ;;;
      Ret {| resp_code := 200; resp_body := BStream r.1 r.2 |})).

Definition read_notice (maxOutputBytes : Z) : string :=
  NL +:+ NL +:+ "[boxy: output truncated at the " +:+ pretty maxOutputBytes +:+
  "-byte read limit; use the bash tool to read the full file]".

(** The response to what [ReadFile] returned. *)
Definition read_response (req : FileReadReq) (r : string * bool + Err) : Response :=
  match r with
  | inr err => adapter_failed err
  | inl (data, truncated) =>
      let data := if truncated then trimPartialRune data else data in
      if negb (Valid data) then
        writeErr 400 (text "file is not valid UTF-8 text; use the bash tool for binary files")
      else
        let content := if truncated then data +:+ read_notice (cc_maxOutputBytes cfg) else data in
        {| resp_code := 200; resp_body := BFileRead {| frr_Path := fr_Path req; frr_Content := content |} |}
  end.

Definition handleFileRead (decoded : option FileReadReq) : prog Response :=
  match decoded with
  | None => Ret invalid_json
  | Some req =>
      if TrimSpace (fr_SandboxID req) =?s "" then Ret (writeErr 400 (text "sandbox_id required"))
      else if TrimSpace (fr_Path req) =?s "" then Ret (writeErr 400 (text "path required"))
      else with_slot (
        r <- op_ReadFile (fr_SandboxID req) (fr_Path req) ;;
        Ret (read_response req r))
  end.

(** The content to write, or the error response. *)
Definition decode_content (req : FileWriteReq) : string + Response :=
  let enc := ToLower (TrimSpace (fw_Encoding req)) in
  if (enc =?s "") || (enc =?s "utf-8") || (enc =?s "utf8") then inl (fw_Content req)
  else if enc =?s "base64" then
    match DecodeString (fw_Content req) with
    | Some decoded => inl decoded
    | None => inr (writeErr 400 (text "invalid base64 content"))
    end
  else inr (writeErr 400 (text "encoding must be 'utf-8' or 'base64'")).

Definition handleFileWrite (decoded : option FileWriteReq) : prog Response :=
  match decoded with
  | None => Ret invalid_json
  | Some req =>
      if TrimSpace (fw_SandboxID req) =?s "" then Ret (writeErr 400 (text "sandbox_id required"))
      else if TrimSpace (fw_Path req) =?s "" then Ret (writeErr 400 (text "path required"))
      else with_slot (
        match decode_content req with
        | inr resp => Ret resp
        | inl content =>
            r <- op_WriteFile (fw_SandboxID req) (fw_Path req) content ;;
            match r with
            | inr err => Ret (adapter_failed err)
            | inl n => Ret {| resp_code := 200;
                resp_body := BFileWrite {| fwr_Path := fw_Path req; fwr_BytesWritten := n |} |}
            end
        end)
  end.

Definition handleFileEdit (decoded : option FileEditReq) : prog Response :=
  match decoded with
  | None => Ret invalid_json
  | Some req =>
      if TrimSpace (fe_SandboxID req) =?s "" then Ret (writeErr 400 (text "sandbox_id required"))
      else if TrimSpace (fe_Path req) =?s "" then Ret (writeErr 400 (text "path required"))
      else if fe_OldString req =?s "" then Ret (writeErr 400 (text "old_string required"))
      else with_slot (
        r <- op_EditFile (fe_SandboxID req) (fe_Path req) (fe_OldString req) (fe_NewString req) (fe_ReplaceAll req) ;;
        match r with
        | inr err => Ret (adapter_failed err)
        | inl n => Ret {| resp_code := 200;
            resp_body := BFileEdit {| fer_Path := fe_Path req; fer_Replacements := n |} |}
        end)
  end.

Definition handleHealth : prog Response := Ret {| resp_code := 200; resp_body := BText ("ok" +:+ NL) |}.

(** A request: its method, the path of the request line, the token header, and
    its body by what decoding it into each type gives. *)
Record Request := {
  rq_Method : string;
  rq_Path : string;
  rq_Token : string;
  rq_Create : option CreateSandboxReq;
  rq_Delete : option DeleteSandboxReq;
  rq_Exec : option ExecReq;
  rq_Read : option FileReadReq;
  rq_Write : option FileWriteReq;
  rq_Edit : option FileEditReq;
}.

(** The patterns [handler] registers; [metricsHandler] is the page of the
    telemetry library, if there is one. *)
Definition routes (metricsHandler : option (Request -> Response)) : ServeMux (Request -> prog Response) :=
  [("GET /healthz", fun _ => handleHealth)] ++
  match metricsHandler with Some h => [("GET /metrics", fun rq => Ret (h rq))] | None => [] end ++
  [("POST /v1/sandboxes", fun rq => handleCreate (rq_Create rq));
   ("GET /v1/sandboxes", fun _ => handleList);
   ("DELETE /v1/sandboxes", fun rq => handleDelete (rq_Delete rq));
   ("POST /v1/exec", fun rq => handleExec (rq_Exec rq));
   ("POST /v1/exec/stream", fun rq => handleExecStream (rq_Exec rq));
   ("POST /v1/files/read", fun rq => handleFileRead (rq_Read rq));
   ("POST /v1/files/write", fun rq => handleFileWrite (rq_Write rq));
   ("POST /v1/files/edit", fun rq => handleFileEdit (rq_Edit rq))].

(** [mux.ServeHTTP]. *)
Definition dispatch (metricsHandler : option (Request -> Response)) (rq : Request) : Served (prog Response) :=
  match EscapedPath (rq_Path rq) with
  | None => BadTarget
  | Some esc =>
      match findHandler (routes metricsHandler) (rq_Method rq) esc with
      | Handled pat h vs => Handled pat (h rq) vs
      | Moved l => Moved l
      | MethodNotAllowed => MethodNotAllowed
      | PageNotFound => PageNotFound
      | BadTarget => BadTarget
      end
  end.

Definition unauthorized : Response := writeErr 401 (text "missing or invalid controller token").

Definition tokenMiddleware (next : Request -> Served (prog Response)) (rq : Request) : Served (prog Response) :=
  match URL_Path (rq_Path rq) with
  | None => BadTarget
  | Some path =>
      if cc_controllerToken cfg =?s "" then next rq
      else if (path =?s "/healthz") || (path =?s "/metrics") then next rq
      else if negb (rq_Token rq =?s cc_controllerToken cfg) then Handled "" (Ret unauthorized) []
      else next rq
  end.

Definition handler (metricsHandler : option (Request -> Response)) (rq : Request) : Served (prog Response) :=
  tokenMiddleware (dispatch metricsHandler) rq.

End handlers.

(** ** What the handlers rely on *)

Definition no_sem (e : AEvent) : Prop :=
  match e with SemTryAcquire | SemRelease => False | _ => True end.

(** Neither a slot nor a sandboxed command. *)
Definition unslotted (e : AEvent) : Prop :=
  match e with SemTryAcquire | SemRelease | RunCmd _ | StreamCmd _ | PtyStart _ _ | PtyWait _ => False | _ => True end.

(** An adapter touches neither the slots nor the instruments of the server. *)
Definition adapter_event (e : AEvent) : Prop :=
  match e with SemTryAcquire | SemRelease | Measure _ _ _ => False | _ => True end.

(** Running a command in a sandbox leaves the registry alone. *)
Definition worker_event (e : AEvent) : Prop :=
  match e with RegSet _ _ | RegDelete _ => False | _ => adapter_event e end.

(** An adapter event that is not a sandboxed command. *)
Definition quiet (e : AEvent) : Prop := adapter_event e /\ unslotted e.

Definition http_code (e : Err) : Z := (adapterErrToHTTP e).1.

(** An adapter's error is reported with an error status. *)
Definition reported (e : error) : Prop := match e with Some err => 400 <= http_code err | None => True end.

Definition failure {A} (r : A + Err) : error := match r with inr err => Some err | inl _ => None end.

Class AdapterLaws (O : AdapterOps) : Prop := {
  law_Create req m : wp reg_env (op_Create req) m (fun r m' =>
    match r with
    | None => m !! cb_SandboxID req = None /\ exists sb, m' = <[cb_SandboxID req := sb]> m
    | Some e => m' = m /\
        (http_code e = 409 /\ is_Some (m !! cb_SandboxID req) \/ http_code e = 400 \/ http_code e = 500)
    end);
  law_Delete id m : wp reg_env (op_Delete id) m (fun r m' => m' = delete id m /\
    match r with None => is_Some (m !! id) | Some e => http_code e = 404 /\ m !! id = None end);
  law_Count m : wp reg_env op_Count m (fun n m' => m' = m /\ n = Z.of_nat (size m));
  law_ListIDs m : wp reg_env op_ListIDs m (fun ids m' =>
    m' = m /\ NoDup ids /\ forall id, id ∈ ids <-> is_Some (m !! id));
  law_registry_quiet req id : only quiet (op_Create req) /\ only quiet (op_Delete id) /\
    only quiet op_ListIDs /\ only quiet op_Count;
  law_exec_own id cmd args env t pty : only worker_event (op_Exec id cmd args env t pty);
  law_stream_own id cmd args env t : only worker_event (op_ExecStream id cmd args env t);
  law_read_own id p : only worker_event (op_ReadFile id p);
  law_write_own id p c : only worker_event (op_WriteFile id p c);
  law_edit_own id p o n b : only worker_event (op_EditFile id p o n b);
  law_create_status req : results reported (op_Create req);
  law_delete_status id : results reported (op_Delete id);
  law_exec_status id cmd args env t pty : results (fun r => reported (failure r)) (op_Exec id cmd args env t pty);
  law_read_status id p : results (fun r => reported (failure r)) (op_ReadFile id p);
  law_write_status id p c : results (fun r => reported (failure r)) (op_WriteFile id p c);
  law_edit_status id p o n b : results (fun r => reported (failure r)) (op_EditFile id p o n b);
}.

(** Whether this request holds a slot; [None] when a sandboxed command is
    started without one, or a slot is taken or given back twice. *)
Definition sem_env : env (option bool) := fun e s =>
  match e return AAnswer e -> option bool -> Prop with
  | SemTryAcquire => fun a s' => s' = match s with Some false => Some a | _ => None end
  | SemRelease => fun _ s' => s' = match s with Some true => Some false | _ => None end
  | RunCmd _ | StreamCmd _ | PtyStart _ _ | PtyWait _ => fun _ s' =>
      s' = match s with Some true => Some true | _ => None end
  | _ => fun _ s' => s' = s
  end.

(** ** [NsjailAdapter] satisfies the laws *)

Lemma os_own {A} (p : prog A) : only os_event p -> only worker_event p.
Proof. apply only_mono. by intros []. Qed.

Lemma with_nsjail_own {X} (fail : Err -> X) cfg id command args env t stdin (k : Cmd -> prog X) :
  (forall c, only worker_event (k c)) -> only worker_event (with_nsjail fail cfg id command args env t stdin k).
Proof.
  intros Hk. unfold with_nsjail. split; [done|]. intros ?. split; [done|]. intros found.
  split; [done|]. intros ?. destruct found as [sb|]; [|done]. cbn [bind].
  apply only_bind; [apply os_own, resolve_os|]. intros rc.
  split; [done|]. intros [file|err]; [|done]. split; [done|]. intros [err|]; [only_tac|].
  split; [done|]. intros ?. cbn [bind]. apply only_bind; [done|]. intros r. only_tac.
Qed.

Lemma execWithStdin_on_own pty_exec cfg id cmd args env t pty stdin :
  (forall c t, @only ASig _ os_event (pty_exec c t)) ->
  only worker_event (execWithStdin_on pty_exec cfg id cmd args env t pty stdin).
Proof.
  intros Hpty. unfold execWithStdin_on. apply with_nsjail_own. intros c. destruct pty; [by apply os_own|].
  split; [done|]. intros o. cbn [bind]. destruct (capture _ o) as [[out err] re].
  apply os_own, exec_response_os.
Qed.

Lemma execWithStdin_own cfg id cmd args env t pty stdin :
  only worker_event (execWithStdin cfg id cmd args env t pty stdin).
Proof. unfold execWithStdin. apply execWithStdin_on_own. apply execPTY_os. Qed.

Lemma ReadFile_own cfg id p : only worker_event (ReadFile cfg id p).
Proof. unfold ReadFile. apply only_bind; [apply execWithStdin_own|]. intros [r|e]; only_tac. Qed.

Lemma WriteFile_own cfg id p c : only worker_event (WriteFile cfg id p c).
Proof. unfold WriteFile. apply only_bind; [apply execWithStdin_own|]. intros [r|e]; only_tac. Qed.

Lemma copyExec_quiet src dst : only quiet (copyExec src dst).
Proof. only_tac. Qed.

Lemma hook_quiet script sb : only quiet (runHookScript script sb).
Proof. only_tac. Qed.

Lemma copy_binaries_quiet cfg base binDir bins : only quiet (copy_binaries cfg base binDir bins).
Proof.
  induction bins as [|b bins IH]; [done|]. cbn [copy_binaries].
  apply only_bind; [apply copyExec_quiet|]. intros [e|]; [only_tac|done].
Qed.

Lemma Create_quiet cfg req : only quiet (Create cfg req).
Proof.
  unfold Create, create_locked. destruct (validateCreateRequest cfg req); [done|].
  split; [done|]. intros ?. cbn [bind]. apply (only_bind _ _ (fun r => bind (perform MuUnlock) (fun _ => Ret r))); [|intros r; only_tac].
  split; [done|]. intros [sb|]; [done|]. split; [done|]. intros [e|]; [done|].
  split; [done|]. intros [e|]; [only_tac|]. cbn [bind].
  apply only_bind; [apply copy_binaries_quiet|]. intros [e|]; [done|].
  apply only_bind; [|intros [e|]; only_tac]. destruct (negb _); [|done].
  split; [done|]. intros ?. cbn [bind]. apply only_bind; [apply hook_quiet|]. intros [e|]; only_tac.
Qed.

(** *** The statuses of its errors *)

Lemma error_statuses (msg : Msg) (id : string) :
  reported (Some (errInternal msg)) /\ reported (Some (errBadRequest msg)) /\ reported (Some (errNotFound id)) /\
  reported (Some (errConflict id)).
Proof. by vm_compute. Qed.

Lemma with_nsjail_status {X} (Q : X -> Prop) (fail : Err -> X) cfg id command args env t stdin (k : Cmd -> prog X) :
  (forall err, reported (Some err) -> Q (fail err)) -> (forall c, results Q (k c)) ->
  results Q (with_nsjail fail cfg id command args env t stdin k).
Proof.
  intros Hf Hk. unfold with_nsjail. cbn [bind perform results]. intros _ [sb|] _; [|by apply Hf].
  eapply results_bind; [apply results_any|]. intros cmd _. cbn [bind perform results].
  intros [file|err]; [|by apply Hf]. cbn [bind perform results].
  intros [err|]; cbn [bind perform results]; intros _; [by intros _; apply Hf|].
  eapply results_bind; [apply Hk|]. intros r Hr _. exact Hr.
Qed.

Lemma exec_response_status runErr t stdout stderr :
  results (fun r => reported (failure r)) (exec_response runErr t stdout stderr).
Proof. destruct runErr as [[code|e]|]; [done| |done]. by intros []. Qed.

Lemma execWithStdin_on_status pty_exec cfg id cmd args env t pty stdin :
  (forall c t, results (fun r => reported (failure r)) (pty_exec c t)) ->
  results (fun r => reported (failure r)) (execWithStdin_on pty_exec cfg id cmd args env t pty stdin).
Proof.
  intros Hpty. unfold execWithStdin_on. apply with_nsjail_status; [by intros err Herr|]. intros c. destruct pty; [apply Hpty|].
  cbn [bind perform results]. intros o. destruct (capture _ o) as [[stdout stderr] runErr]. apply exec_response_status.
Qed.

Lemma execWithStdin_status cfg id cmd args env t pty stdin :
  results (fun r => reported (failure r)) (execWithStdin cfg id cmd args env t pty stdin).
Proof.
  unfold execWithStdin. apply execWithStdin_on_status. intros c t'. unfold execPTY.
  eapply results_bind; [apply results_any|]. intros [[master slave]|err] _; [|done].
  cbn [bind perform results]. intros [err|]; [done|]. cbn [bind perform results]. intros _ r _. apply exec_response_status.
Qed.

Lemma file_statuses cfg id p content :
  results (fun r => reported (failure r)) (ReadFile cfg id p) /\
  results (fun r => reported (failure r)) (WriteFile cfg id p content).
Proof.
  split; (eapply results_bind; [apply execWithStdin_status|]);
    (intros [res|err] Hr; [|done]); by destruct (negb _).
Qed.

Lemma EditFile_status cfg id p o n b : results (fun r => reported (failure r)) (EditFile cfg id p o n b).
Proof.
  unfold EditFile. destruct (o =?s ""); [done|].
  eapply results_bind; [by apply (file_statuses cfg id p "")|]. intros [[data []]|err] Hr; [done| |done].
  unfold edit_content. repeat case_goal; try done.
  all: (eapply results_bind; [by apply file_statuses|]); by intros [].
Qed.

Lemma Create_status cfg req : results reported (Create cfg req).
Proof.
  unfold Create. destruct (validateCreateRequest cfg req) as [err|] eqn:Hv.
  { apply validateCreateRequest_bad in Hv as [msg ->]. done. }
  cbn [bind perform results]. intros _. apply (results_bind reported); [|intros r Hr _; exact Hr].
  unfold create_locked. cbn [bind perform results]. intros [sb|]; [done|]. cbn [bind perform results].
  intros [err|]; [done|]. cbn [bind perform results]. intros [err|]; [done|].
  apply (results_bind reported).
  { generalize (cb_AllowedBinaries req). intros bins. induction bins as [|b bins IH]; [done|]. cbn [copy_binaries].
    eapply results_bind; [apply results_any|]. by intros [err|] _. }
  intros [err|] Hr; [done|]. apply (results_bind reported); [|by intros [err|] ?].
  destruct (negb _); [|done]. cbn [bind perform results]. intros _.
  eapply results_bind; [apply results_any|]. by intros [err|] _.
Qed.

Lemma Delete_status id : results reported (Delete id).
Proof.
  unfold Delete. cbn [bind perform results]. intros _ [sb|]; [|done]. cbn [bind perform results]. intros _ _.
  eapply results_bind; [apply results_any|]. done.
Qed.

#[export] Instance NsjailLaws (cfg : AdapterConfig) : AdapterLaws (NsjailOps cfg).
Proof.
  constructor.
  - intros req m. eapply wp_mono; [|apply Create_reg]. intros [e|] m'; [|naive_solver].
    intros [-> [[-> Hm]|[msg [-> | ->]]]]; (split; [done|]); unfold http_code; simpl; auto.
  - intros id m. eapply wp_mono; [|apply Delete_reg]. intros [e|] m'; [|done].
    by intros (-> & -> & Hm).
  - intros m. apply Count_reg.
  - intros m. apply ListIDs_reg.
  - intros req id. split_and!; [apply Create_quiet|only_tac..].
  - intros. cbn [op_Exec NsjailOps]. unfold Exec. apply execWithStdin_own.
  - intros. unfold op_ExecStream, NsjailOps, ExecStream. apply with_nsjail_own. intros c.
    only_tac. apply only_bind; [apply os_own, exec_response_os|done].
  - intros. apply ReadFile_own.
  - intros. apply WriteFile_own.
  - intros. simpl. unfold EditFile. destruct (o =?s ""); [done|].
    apply only_bind; [apply ReadFile_own|]. intros [[data []]|err]; [done| |done].
    destruct (edit_content data o n b) as [[c k]|e]; [|done].
    apply only_bind; [apply WriteFile_own|]. by intros [].
  - intros. apply Create_status.
  - intros. apply Delete_status.
  - intros. cbn [op_Exec NsjailOps]. unfold Exec. apply execWithStdin_status.
  - intros. by apply (file_statuses cfg id p "").
  - intros. by apply file_statuses.
  - intros. apply EditFile_status.
Qed.

(** The adapter built for another system satisfies them too. *)
#[export] Instance StubLaws (cfg : AdapterConfig) : AdapterLaws (StubOps cfg).
Proof.
  destruct (NsjailLaws cfg). constructor; try assumption.
  - intros. cbn [op_Exec StubOps]. by apply execWithStdin_on_own.
  - intros. cbn [op_Exec StubOps]. by apply execWithStdin_on_status.
Qed.

(** ** Lemmas *)

Lemma adapter_failed_code (e : Err) : resp_code (adapter_failed e) = http_code e.
Proof. unfold adapter_failed, http_code. by destruct (adapterErrToHTTP e). Qed.

Lemma worker_no_sem {A} (p : prog A) : only worker_event p -> only no_sem p.
Proof. apply only_mono. by intros []. Qed.

Lemma quiet_unslotted {A} (p : prog A) : only quiet p -> only unslotted p.
Proof. apply only_mono. by intros e []. Qed.

(** The methods of the metrics only measure. *)
Definition measures (e : AEvent) : Prop :=
  match e with TimeNow | Measure _ _ _ => True | _ => False end.

Lemma metrics_measure {M : CtrlMetrics} id res d n :
  only measures (recordExec id res d n) /\ only measures sandboxCreated /\ only measures sandboxDeleted /\
  only measures execThrottled /\ only measures (since d).
Proof. unfold recordExec, sandboxCreated, sandboxDeleted, execThrottled. split_and!; only_tac. Qed.

Lemma measures_only {A} (P : AEvent -> Prop) (p : prog A) :
  (forall e, measures e -> P e) -> only measures p -> only P p.
Proof. apply (@only_mono ASig). Qed.

Lemma measures_reg {A} (p : prog A) (m : gmap string sandbox) :
  only measures p -> wp reg_env p m (fun _ m' => m' = m).
Proof. intros Hp. apply (wp_stay reg_env measures); [done|]. intros [] x m' He; by try done. Qed.

(** Holding a slot, a program without slot events keeps it. *)
Lemma with_slot_sem {M : CtrlMetrics} (body : prog Response) :
  only no_sem body -> wp sem_env (with_slot body) (Some false) (fun _ s => s = Some false).
Proof.
  intros Hb. unfold with_slot. cbn [wp bind perform]. intros [] ? ->.
  2: { unfold execThrottled. destruct cm_present; [|done]. by intros ? ? ->. }
  eapply wp_bind_spec.
  - apply (wp_stay sem_env no_sem); [done|]. intros [] x s' Hn; by try done.
  - intros r s ->. cbn [wp bind perform]. by intros ? ? ->.
Qed.

Lemma unslotted_sem {A} (p : prog A) : only unslotted p -> wp sem_env p (Some false) (fun _ s => s = Some false).
Proof. intros Hp. apply (wp_stay sem_env unslotted); [done|]. intros [] x s' Hq; by try done. Qed.

Lemma drop_last_length (s : string) : String.length (drop_last s) = pred (String.length s).
Proof. unfold drop_last. rewrite str_take_length. lia. Qed.

Lemma str_take_take (a b : nat) (s : string) : str_take a (str_take b s) = str_take (Nat.min a b) s.
Proof.
  revert a b. induction s as [|c s IH]; intros [|a] [|b]; simpl; try done. by rewrite IH.
Qed.

(** Dropping bytes until the text is valid, within [n] steps. *)
Lemma trim_partial_spec (n k : nat) (b : string) :
  (k <= n)%nat -> (k <= String.length b)%nat -> Valid (str_take (String.length b - k) b) = true ->
  exists j, (j <= k)%nat /\ trim_partial n b = str_take (String.length b - j) b /\
    Valid (trim_partial n b) = true /\
    forall i, (i < j)%nat -> Valid (str_take (String.length b - i) b) = false.
Proof.
  revert k b. induction n as [|n IH]; intros k b Hk Hlen Hv.
  { exists 0%nat. assert (k = 0%nat) as -> by lia. rewrite Nat.sub_0_r, str_take_ge in * by done.
    simpl. split_and!; [done..|]. intros i Hi. lia. }
  simpl. destruct (b =?s "") eqn:He; bool_hyps; simpl.
  { subst. exists 0%nat. split_and!; [lia|done|done|]. intros i Hi. lia. }
  destruct (Valid b) eqn:Hvb; simpl.
  { exists 0%nat. rewrite Nat.sub_0_r, str_take_ge by done. split_and!; [lia|done|done|]. intros i Hi. lia. }
  assert (0 < String.length b)%nat as Hpos by (destruct b; simpl; [done|lia]).
  destruct k as [|k]; [rewrite Nat.sub_0_r, str_take_ge, Hvb in Hv by done; done|].
  pose proof (drop_last_length b) as Hd.
  destruct (IH k (drop_last b)) as (j & Hj & Ht & Hval & Hmin); [lia|lia| |].
  { rewrite Hd. unfold drop_last. rewrite str_take_take.
    replace (Nat.min _ _) with (String.length b - S k)%nat by lia. done. }
  exists (S j). split_and!; [lia| |done|].
  - rewrite Ht, Hd. unfold drop_last. rewrite str_take_take. f_equal. lia.
  - intros [|i] Hi; [by rewrite Nat.sub_0_r, str_take_ge by done|].
    specialize (Hmin i ltac:(lia)). rewrite Hd in Hmin. unfold drop_last in Hmin.
    rewrite str_take_take in Hmin. rewrite <- Hmin. do 2 f_equal. lia.
Qed.

(** ** Properties *)

(** Some chunk of the output goes over the limit. *)
Definition crosses (maxBytes : Z) (chunks : list string) : Prop :=
  0 < maxBytes /\ exists pre c post, chunks = pre ++ c :: post /\
    slen (str_concat pre) < maxBytes < slen (str_concat pre +:+ c).

Lemma copy_limited (maxBytes : Z) (chunks : list string) :
  (0 < maxBytes -> slen (lw_buf (io_Copy (new_writer maxBytes) chunks).1) <= maxBytes) /\
  ((io_Copy (new_writer maxBytes) chunks).2 = true <-> crosses maxBytes chunks).
Proof.
  pose proof (io_Copy_exact maxBytes chunks) as H. destruct (io_Copy _ _) as [lw short]. simpl.
  destruct H as [Hb Hs]. split; [|done]. intros Hm.
  rewrite Hb, (proj2 (Z.ltb_lt _ _) Hm), slen_take. lia.
Qed.

Lemma truncate_fits (maxBytes : Z) (out : string) :
  (0 < maxBytes -> slen out <= maxBytes) -> truncateOutput maxBytes out = out.
Proof.
  intros H. unfold truncateOutput. destruct (maxBytes <=? 0) eqn:Hm; bool_hyps; [done|].
  by rewrite (proj2 (Z.leb_le _ _) (H Hm)).
Qed.

Section properties.
Context (cfg : config) {O : AdapterOps} {M : CtrlMetrics}.

(** Run one at a time, create requests never push the number of sandboxes
    of a controller above its limit; the response is 201 exactly when a new
    sandbox was registered under a free identifier, every other response leaves
    the registry alone, 409 means the identifier was taken and 503 that the
    controller was full. *)
Theorem controller_create_contract (L : AdapterLaws O) (decoded : option CreateSandboxReq)
    (m : gmap string sandbox) :
  wp reg_env (handleCreate cfg decoded) m (fun resp m' =>
    Z.of_nat (size m') <= Z.max (cc_maxSandboxes cfg) (Z.of_nat (size m)) /\
    (resp_code resp = 201 <-> exists req sb, decoded = Some req /\
       m !! cr_SandboxID req = None /\ m' = <[cr_SandboxID req := sb]> m) /\
    (resp_code resp <> 201 -> m' = m) /\
    (resp_code resp = 409 -> exists req, decoded = Some req /\ is_Some (m !! cr_SandboxID req)) /\
    (resp_code resp = 503 -> cc_maxSandboxes cfg <= Z.of_nat (size m))).
Proof.
  assert (forall (k : string) sb, m !! k = None -> m <> <[k := sb]> m) as Hne.
  { intros k sb Hk Heq. rewrite Heq, lookup_insert_eq in Hk. done. }
  assert (forall resp, resp_code resp <> 201 -> resp_code resp <> 409 ->
    (resp_code resp = 503 -> cc_maxSandboxes cfg <= Z.of_nat (size m)) ->
    Z.of_nat (size m) <= Z.max (cc_maxSandboxes cfg) (Z.of_nat (size m)) /\
    (resp_code resp = 201 <-> exists req sb, decoded = Some req /\
       m !! cr_SandboxID req = None /\ m = <[cr_SandboxID req := sb]> m) /\
    (resp_code resp <> 201 -> m = m) /\
    (resp_code resp = 409 -> exists req, decoded = Some req /\ is_Some (m !! cr_SandboxID req)) /\
    (resp_code resp = 503 -> cc_maxSandboxes cfg <= Z.of_nat (size m))) as Hsame.
  { intros resp H1 H4 H5. split_and!; [lia|split; [done|]|done|done|done].
    intros (req & sb & _ & Hk & Heq). by apply Hne in Heq. }
  unfold handleCreate. destruct decoded as [req|]; [|by apply Hsame].
  destruct (_ =?s ""); [by apply Hsame|].
  eapply wp_bind_spec; [apply law_Count|]. intros n m' [-> ->].
  destruct (_ <=? _) eqn:Hcap; bool_hyps; [by apply Hsame|].
  eapply wp_bind_spec; [apply law_Create|]. intros [err|] m'; simpl.
  - intros [-> [[Hc Hm]|Hc]].
    + rewrite adapter_failed_code, Hc. split_and!; [lia| |done|eauto|done]. split; [done|].
      intros (req' & sb & [= <-] & Hk & _). rewrite Hk in Hm. by destruct Hm.
    + apply (Hsame (adapter_failed err)); rewrite adapter_failed_code; lia.
  - intros [Hk [sb ->]]. eapply wp_bind_spec; [by apply measures_reg, (metrics_measure "" "" 0 0)|].
    intros _ m' ->. split_and!; [|split; [eauto|done]|done|done|done].
    rewrite map_size_insert_None by done. lia.
Qed.

(** A handler that takes a slot, behind its checks. *)
Lemma slot_handlers_sem (L : AdapterLaws O) ex rd wr ed :
  let safe p := wp sem_env p (Some false) (fun _ s => s = Some false) in
  safe (handleExec cfg ex) /\ safe (handleExecStream ex) /\ safe (handleFileRead cfg rd) /\
  safe (handleFileWrite wr) /\ safe (handleFileEdit ed).
Proof.
  cbv zeta. unfold handleExec, handleExecStream, check_exec, handleFileRead, handleFileWrite, handleFileEdit.
  split_and!.
  - destruct ex as [r|]; [|done]. repeat (case_goal; [done|]). all: apply with_slot_sem.
    all: split; [done|]; intros start; cbn [bind]; apply only_bind; [apply worker_no_sem, law_exec_own|].
    all: intros []; apply only_bind; try (intros ?; apply only_bind); try done.
    all: by apply measures_only, (metrics_measure _ _ _ _); intros [].
  - destruct ex as [r|]; [|done]. repeat (case_goal; [done|]). all: apply with_slot_sem.
    all: split; [done|]; intros start; cbn [bind]; apply only_bind; [apply worker_no_sem, law_stream_own|].
    all: intros [evs res]; apply only_bind; [by apply measures_only, (metrics_measure "" "" start 0); intros []|].
    all: intros d; apply only_bind; [|done].
    all: by destruct res; apply measures_only, (metrics_measure _ _ _ _); intros [].
  - destruct rd as [r|]; [|done]. repeat (case_goal; [done|]). apply with_slot_sem.
    apply only_bind; [apply worker_no_sem, law_read_own|done].
  - destruct wr as [r|]; [|done]. do 2 (case_goal; [done|]). apply with_slot_sem.
    destruct (decode_content r); [|done]. apply only_bind; [apply worker_no_sem, law_write_own|by intros []].
  - destruct ed as [r|]; [|done]. do 3 (case_goal; [done|]). apply with_slot_sem.
    apply only_bind; [apply worker_no_sem, law_edit_own|by intros []].
Qed.

Lemma quiet_handlers_sem (L : AdapterLaws O) cr de :
  let safe p := wp sem_env p (Some false) (fun _ s => s = Some false) in
  safe (handleCreate cfg cr) /\ safe handleList /\ safe (handleDelete de).
Proof.
  pose proof (law_registry_quiet (O := O)) as Hq. pose proof (metrics_measure "" "" 0 0) as Hm.
  assert (forall A (p : prog A), only measures p -> only unslotted p) as Hu
    by (intros A p; apply measures_only; by intros []).
  cbv zeta. unfold handleCreate, handleList, handleDelete. split_and!.
  - destruct cr as [r|]; [|done]. destruct (_ =?s ""); [done|]. apply unslotted_sem.
    apply only_bind; [by apply quiet_unslotted, (Hq sample_create "")|]. intros n. destruct (_ <=? n); [done|].
    apply only_bind; [apply quiet_unslotted, Hq, ""|]. intros []; [done|]. by apply only_bind; [apply Hu, Hm|].
  - apply unslotted_sem, only_bind; [by apply quiet_unslotted, (Hq sample_create "")|done].
  - destruct de as [r|]; [|done]. destruct (_ =?s ""); [done|]. apply unslotted_sem.
    apply only_bind; [by apply quiet_unslotted, (Hq sample_create)|]. intros []; [done|].
    by apply only_bind; [apply Hu, Hm|].
Qed.

(** What a request reaches is a page of its own, or one of the handlers. *)
Lemma handler_cases (P : string -> prog Response -> Prop) (page : option (Request -> Response)) (rq : Request) :
  (forall r, P "" (Ret r)) ->
  Forall (fun e : string * (Request -> prog Response) => P e.1 (e.2 rq)) (routes cfg page) ->
  match handler cfg page rq with Handled pat p _ => P pat p | _ => True end.
Proof.
  intros Hret Hall. unfold handler, tokenMiddleware, dispatch.
  destruct (URL_Path _) as [path|]; [|done]. destruct (EscapedPath _) as [esc|]; [|by repeat case_goal].
  assert (match findHandler (routes cfg page) (rq_Method rq) esc with Handled pat h _ => P pat (h rq) | _ => True end) as Hf.
  { destruct (findHandler _ _ _) as [pat h vs| | | |] eqn:Hf; try done.
    apply findHandler_elem in Hf. rewrite Forall_forall in Hall. by apply (Hall _ Hf). }
  destruct (findHandler _ _ _); by repeat case_goal.
Qed.

(** For every request, whatever the system calls answer, the server starts a
    sandboxed command, and waits for it, only while the request holds one of the
    execution slots, takes at most one slot and gives back on every path the one
    it took. *)
Lemma commands_run_in_slot (L : AdapterLaws O) (page : option (Request -> Response)) (rq : Request) :
  match handler cfg page rq with
  | Handled _ p _ => wp sem_env p (Some false) (fun _ s => s = Some false)
  | _ => True
  end.
Proof.
  destruct (slot_handlers_sem L (rq_Exec rq) (rq_Read rq) (rq_Write rq) (rq_Edit rq)) as (?&?&?&?&?).
  destruct (quiet_handlers_sem L (rq_Create rq) (rq_Delete rq)) as (?&?&?).
  apply (handler_cases (fun _ p => wp sem_env p (Some false) (fun _ s => s = Some false))); [done|].
  unfold routes. destruct page; by repeat constructor.
Qed.

(** The exempt paths lead to their pages only. *)
Lemma exempt_route (page : option (Request -> Response)) (method esc w pat : string) h vs :
  w = "healthz" \/ w = "metrics" -> PathUnescape esc = Some ("/" +:+ w) ->
  findHandler (routes cfg page) method esc = Handled pat h vs -> pat = "GET /healthz" \/ pat = "GET /metrics".
Proof.
  intros Hw Hu Hf. assert (w <> "" /\ slashless w = true) as [Hne Hsl] by (by destruct Hw; subst).
  destruct (path_segs_one esc w Hu Hne Hsl) as [Hsegs|Hsegs];
    (apply findHandler_segs in Hf as [Hin Hv]; [rewrite Hsegs in Hv|rewrite Hsegs; by repeat constructor]);
    unfold routes in Hin; destruct page;
    repeat (apply elem_of_cons in Hin as [[= -> _]|Hin];
      [by destruct Hw; subst; first [left; reflexivity | right; reflexivity | vm_compute in Hv]|]);
    by apply not_elem_of_nil in Hin.
Qed.

(** C24: when a controller token is configured, a request that does not carry it
    is answered 401 or reaches nothing but the health and metrics pages, however
    its path is escaped; one that carries it is handled as if no token were
    configured. *)
Theorem token_required (page : option (Request -> Response)) (rq : Request) :
  cc_controllerToken cfg <> "" ->
  if rq_Token rq =?s cc_controllerToken cfg then
    handler cfg page rq = match URL_Path (rq_Path rq) with Some _ => dispatch cfg page rq | None => BadTarget end
  else match handler cfg page rq with
       | Handled pat p _ => (pat = "" /\ p = Ret unauthorized) \/ pat = "GET /healthz" \/ pat = "GET /metrics"
       | _ => True
       end.
Proof.
  intros Ht. unfold handler, tokenMiddleware. apply String.eqb_neq in Ht. rewrite Ht.
  destruct (URL_Path (rq_Path rq)) as [path|] eqn:Hp; [|by case_goal].
  destruct (rq_Token rq =?s cc_controllerToken cfg); cbn [negb]; [by case_goal|].
  destruct (_ || _) eqn:He; [|by left]. unfold dispatch.
  destruct (EscapedPath (rq_Path rq)) as [esc|] eqn:Hesc; [|done]. apply escaped_decodes in Hesc. rewrite Hp in Hesc.
  destruct (findHandler _ _ _) as [pat h vs| | | |] eqn:Hf; try done. right.
  apply orb_true_iff in He.
  destruct He as [He|He]; bool_hyps; subst path; (eapply exempt_route; [|exact Hesc|exact Hf]); auto.
Qed.

(** Reading a text file that was cut at the output limit always succeeds:
    if the bytes returned by the adapter are a prefix of valid UTF-8 text, the
    content of the response is the longest valid prefix of those bytes, at most
    three bytes shorter, followed by the notice. *)
Theorem cut_text_file_readable (req : FileReadReq) (data rest : string) :
  Valid (data +:+ rest) = true ->
  exists j, (j <= 3)%nat /\
    let kept := str_take (String.length data - j) data in
    Valid kept = true /\
    (forall i, (i < j)%nat -> Valid (str_take (String.length data - i) data) = false) /\
    read_response cfg req (inl (data, true)) = {| resp_code := 200;
      resp_body := BFileRead {| frr_Path := fr_Path req;
        frr_Content := kept +:+ read_notice (cc_maxOutputBytes cfg) |} |}.
Proof.
  intros Hv. destruct (valid_prefix data rest Hv) as (k & Hk & Hlen & Hval).
  destruct (trim_partial_spec 3 k data Hk Hlen Hval) as (j & Hj & Ht & Hval' & Hmin).
  exists j. split; [lia|]. cbv zeta. rewrite <- Ht. split_and!; [done|done|].
  unfold read_response, trimPartialRune. by rewrite Hval'.
Qed.

End properties.

(** A plain exec never returns truncated output: if some chunk of the
    command's output crosses the limit the copy ends with a short write, and a
    command that exited with status 0 is answered with an internal error instead
    of its output; otherwise the captured output is at most the limit, so the
    server's own truncation notice is never added. *)
Theorem over_limit_exec_outcome (maxBytes timeoutSecs : Z) (o : RunOutcome) :
  let '(out, err, runErr) := capture maxBytes o in
  truncateOutput maxBytes out = out /\ truncateOutput maxBytes err = err /\
  (ro_Err o = None ->
    (crosses maxBytes (ro_Stdout o) \/ crosses maxBytes (ro_Stderr o) ->
       buildExecResponse runErr false timeoutSecs out err =
         inr (errInternal (MLit "nsjail error: " (MErr (ErrMsg "short write") MNil)))) /\
    (~ crosses maxBytes (ro_Stdout o) -> ~ crosses maxBytes (ro_Stderr o) ->
       buildExecResponse runErr false timeoutSecs out err =
         inl {| ex_ExitCode := 0; ex_Stdout := out; ex_Stderr := err; ex_TimedOut := false |})).
Proof.
  unfold capture. pose proof (copy_limited maxBytes (ro_Stdout o)) as [Ho Hso].
  pose proof (copy_limited maxBytes (ro_Stderr o)) as [He Hse].
  destruct (io_Copy _ (ro_Stdout o)) as [out short1], (io_Copy _ (ro_Stderr o)) as [err short2].
  simpl in *. split_and!; [by apply truncate_fits..|]. intros ->.
  destruct short1, short2; simpl; (split; [try done; intuition congruence|]); try done; intuition congruence.
Qed.

Definition sample_config : config :=
  {| cc_port := 8080; cc_mtlsDisabled := true; cc_tlsCertPath := ""; cc_tlsKeyPath := ""; cc_tlsCAPath := "";
     cc_controllerToken := "secret"; cc_maxSandboxes := 2; cc_maxExecConcurrency := 50; cc_maxOutputBytes := 4;
     cc_metricsPort := 9090; cc_adapterConfig := sample_cfg |}.

Definition sample_request : Request :=
  {| rq_Method := "POST"; rq_Path := "/v1/exec"; rq_Token := "guess"; rq_Create := None; rq_Delete := None;
     rq_Exec := Some {| xr_SandboxID := "demo"; xr_Command := "ls"; xr_Args := []; xr_Env := [];
                        xr_TimeoutSeconds := 0; xr_PTY := false |};
     rq_Read := None; rq_Write := None; rq_Edit := None |}.

Lemma controller_create_contract_witness :
  wp reg_env (handleCreate (O := NsjailOps sample_cfg) (M := true) sample_config None) ∅ (fun resp m' =>
    Z.of_nat (size m') <= Z.max (cc_maxSandboxes sample_config) (Z.of_nat (size (∅ : gmap string sandbox))) /\
    (resp_code resp = 201 <-> exists req sb, None = Some req /\
       (∅ : gmap string sandbox) !! cr_SandboxID req = None /\ m' = <[cr_SandboxID req := sb]> ∅) /\
    (resp_code resp <> 201 -> m' = ∅) /\
    (resp_code resp = 409 -> exists req, None = Some req /\ is_Some ((∅ : gmap string sandbox) !! cr_SandboxID req)) /\
    (resp_code resp = 503 -> cc_maxSandboxes sample_config <= Z.of_nat (size (∅ : gmap string sandbox)))).
Proof. exact (controller_create_contract (M := true) sample_config (NsjailLaws sample_cfg) None ∅). Defined.

Lemma token_required_witness :
  match handler (O := NsjailOps sample_cfg) (M := true) sample_config None sample_request with
  | Handled pat p _ => (pat = "" /\ p = Ret unauthorized) \/ pat = "GET /healthz" \/ pat = "GET /metrics"
  | _ => True
  end.
Proof.
  apply (token_required (O := NsjailOps sample_cfg) (M := true) sample_config None sample_request). discriminate.
Defined.

Lemma cut_text_file_readable_witness :
  let data := "abc" +:+ String "195" "" in
  exists j, (j <= 3)%nat /\
    let kept := str_take (String.length data - j) data in
    Valid kept = true /\
    (forall i, (i < j)%nat -> Valid (str_take (String.length data - i) data) = false) /\
    read_response sample_config {| fr_SandboxID := "demo"; fr_Path := "notes.txt" |} (inl (data, true)) =
    {| resp_code := 200; resp_body := BFileRead {| frr_Path := "notes.txt";
        frr_Content := kept +:+ read_notice (cc_maxOutputBytes sample_config) |} |}.
Proof.
  apply (cut_text_file_readable sample_config {| fr_SandboxID := "demo"; fr_Path := "notes.txt" |} _ (String "169" "")).
  vm_compute. reflexivity.
Defined.
