(* ===== verification/CtrlAccounting.v ===== *)
(** * What the controller's metrics count

    The gauge of active sandboxes against the registry, and the exec counters
    against the execution slots, for every sequence of requests that are handled
    one at a time; and the execution slots themselves, for requests that are
    handled concurrently. *)
From stdpp Require Import relations.
From S2P Require Import Prelude Prog Slots GoStrings GoMux ApiTypes AdapterConfig Adapter CtrlMetrics Controller.
Open Scope boxy_scope.

(** What an event adds to the gauge [sandboxesActive]. *)
Definition gauge_change (e : AEvent) : Z :=
  match e with Measure sandboxesActive v _ => v | _ => 0 end.

(** The registry with the gauge beside it. *)
Definition gauge_env : env (gmap string sandbox * Z) := fun e s a s' =>
  reg_env e s.1 a s'.1 /\ s'.2 = s.2 + gauge_change e.

(** What one request acquired and was refused, and what was counted. *)
Record Tally := { ta_acquired : Z; ta_refused : Z; ta_execs : Z; ta_throttled : Z }.

Definition tally_env : env Tally := fun e t =>
  match e return AAnswer e -> Tally -> Prop with
  | SemTryAcquire => fun a t' =>
      t' = {| ta_acquired := ta_acquired t + (if a : bool then 1 else 0);
              ta_refused := ta_refused t + (if a : bool then 0 else 1);
              ta_execs := ta_execs t; ta_throttled := ta_throttled t |}
  | Measure execTotal v _ => fun _ t' =>
      t' = {| ta_acquired := ta_acquired t; ta_refused := ta_refused t;
              ta_execs := ta_execs t + v; ta_throttled := ta_throttled t |}
  | Measure throttledTotal v _ => fun _ t' =>
      t' = {| ta_acquired := ta_acquired t; ta_refused := ta_refused t;
              ta_execs := ta_execs t; ta_throttled := ta_throttled t + v |}
  | _ => fun _ t' => t' = t
  end.

(** The execution slots: a command counts from its start until it was waited for. *)
Definition os_failure (e : AEvent) : AAnswer e :=
  let err := ErrMsg "failed" in
  match e return AAnswer e with
  | MuLock | MuUnlock | MuRLock | MuRUnlock => tt
  | RegGet _ => None
  | RegSet _ _ | RegDelete _ => tt
  | RegKeys => []
  | RegLen => 0
  | OsMkdirAll _ | OsRemoveAll _ | OsOpen _ | OsOpenFile _ | IoCopyFile _ _ | OsCloseFile _ => Some err
  | OsStat _ => false
  | OsCreateTemp => inr err
  | OsWriteString _ _ | OsRemove _ => Some err
  | OsEnviron => []
  | RunScript _ _ _ => Some (err, "")
  | StdoutPipe | StderrPipe => Some err
  | RunCmd _ => {| ro_Stdout := []; ro_Stderr := []; ro_Err := None |}
  | StreamCmd _ => StartFailed err
  | PtyOpenMaster => inr err
  | PtyUnlock _ => Some err
  | PtyNumber _ => inr err
  | PtyOpenSlave _ => inr err
  | PtyClose _ => tt
  | PtyStart _ _ => Some err
  | PtyWait _ => ([], None)
  | DeadlineExceeded => false
  | SemTryAcquire => false
  | SemRelease => tt
  | TimeNow => 0
  | Measure _ _ _ => tt
  end.

#[export] Instance exec_sem : Slots ASig := {|
  slot_kind := fun e => match e with
    | SemTryAcquire => Acquire
    | SemRelease => Release
    | RunCmd _ | StreamCmd _ | PtyStart _ _ | PtyWait _ => Work
    | _ => Other
    end;
  got_slot := fun e => match e return AAnswer e -> bool with SemTryAcquire => fun b => b | _ => fun _ => false end;
  some_answer := os_failure;
|}.

(** ** Lemmas *)

(** A specification against the registry alone, for a program that does not
    measure the gauge. *)
Lemma wp_gauge {A} (p : prog A) (m : gmap string sandbox) (g : Z) (Q : A -> gmap string sandbox -> Prop) :
  only (fun e => gauge_change e = 0) p -> wp reg_env p m Q -> wp gauge_env p (m, g) (fun a s' => Q a s'.1 /\ s'.2 = g).
Proof.
  revert m g. induction p as [a|e k IH]; intros m g Hp Hw; simpl in *; [done|].
  destruct Hp as [He Hk]. intros x [m' g'] [Hr Hg]. simpl in Hr, Hg.
  replace g' with g by (subst; lia). by apply IH, Hw.
Qed.

Lemma adapter_gauge {A} (p : prog A) : only adapter_event p -> only (fun e => gauge_change e = 0) p.
Proof. apply (@only_mono ASig). by intros []. Qed.

Lemma quiet_adapter {A} (p : prog A) : only quiet p -> only adapter_event p.
Proof. apply (@only_mono ASig). by intros e []. Qed.

Lemma worker_reg {A} (p : prog A) (m : gmap string sandbox) :
  only worker_event p -> wp reg_env p m (fun _ m' => m' = m).
Proof.
  intros Hp. apply (wp_stay reg_env worker_event); [done|]. intros [] x m' He; simpl in He |- *; naive_solver.
Qed.

(** No handler that only works in sandboxes changes registry or gauge. *)
Definition steady (e : AEvent) : Prop :=
  match e with RegSet _ _ | RegDelete _ | Measure sandboxesActive _ _ => False | _ => True end.

Lemma steady_stays {A} (p : prog A) (s : gmap string sandbox * Z) :
  only steady p -> wp gauge_env p s (fun _ s' => s' = s).
Proof.
  intros Hp. apply (wp_stay gauge_env steady); [done|]. intros e x [m' g'] He [Hr Hg].
  destruct s as [m g]. simpl in Hr, Hg.
  assert (m' = m) as -> by (destruct e; naive_solver).
  f_equal. destruct e; simpl in *; try (match goal with i : Instrument |- _ => destruct i end); first [done|lia].
Qed.

Lemma worker_steady {A} (p : prog A) : only worker_event p -> only steady p.
Proof. apply (@only_mono ASig). by intros []. Qed.

#[local] Hint Resolve worker_steady : boxy.

(** The metrics methods other than those of the gauge. *)
Lemma exec_metrics_steady {M : CtrlMetrics} id res d n :
  only steady (recordExec id res d n) /\ only steady execThrottled /\ only steady (since d).
Proof. unfold recordExec, execThrottled, since. split_and!; only_tac. Qed.

Section gauge.
Context (cfg : config) {O : AdapterOps} {M : CtrlMetrics} {L : AdapterLaws O}.

Lemma with_slot_steady (body : prog Response) : only steady body -> only steady (with_slot body).
Proof.
  intros Hb. split; [done|]. intros []; cbn [bind].
  - apply only_bind; [done|]. intros r. by split.
  - by apply only_bind; [apply (exec_metrics_steady "" "" 0 0)|].
Qed.

Lemma slot_handlers_steady ex rd wr ed :
  only steady (handleExec cfg ex) /\ only steady (handleExecStream ex) /\ only steady (handleFileRead cfg rd) /\
  only steady (handleFileWrite wr) /\ only steady (handleFileEdit ed).
Proof.
  unfold handleExec, handleExecStream, check_exec, handleFileRead, handleFileWrite, handleFileEdit.
  assert (forall id res d n, only steady (recordExec id res d n)) as Hr by (intros; apply exec_metrics_steady).
  split_and!.
  - destruct ex as [r|]; [|done]. repeat (case_goal; [done|]). all: apply with_slot_steady.
    all: split; [done|]; intros start; cbn [bind]; apply only_bind; [apply worker_steady, law_exec_own|].
    all: intros []; apply only_bind; [apply (exec_metrics_steady "" "" start 0)| |apply (exec_metrics_steady "" "" start 0)|].
    all: by intros d; apply only_bind.
  - destruct ex as [r|]; [|done]. repeat (case_goal; [done|]). all: apply with_slot_steady.
    all: split; [done|]; intros start; cbn [bind]; apply only_bind; [apply worker_steady, law_stream_own|].
    all: intros [evs res]; apply only_bind; [apply (exec_metrics_steady "" "" start 0)|].
    all: intros d; apply only_bind; [destruct res; apply Hr|done].
  - destruct rd as [r|]; [|done]. do 2 (case_goal; [done|]). apply with_slot_steady.
    apply only_bind; [apply worker_steady, law_read_own|done].
  - destruct wr as [r|]; [|done]. do 2 (case_goal; [done|]). apply with_slot_steady.
    destruct (decode_content r); [|done]. apply only_bind; [apply worker_steady, law_write_own|by intros []].
  - destruct ed as [r|]; [|done]. do 3 (case_goal; [done|]). apply with_slot_steady.
    apply only_bind; [apply worker_steady, law_edit_own|by intros []].
Qed.

(** One request: the change of the gauge is the change of the number of
    registered sandboxes, or nothing without metrics. *)
Definition gauge_follows (s s' : gmap string sandbox * Z) : Prop :=
  if cm_present then s'.2 - s.2 = Z.of_nat (size s'.1) - Z.of_nat (size s.1) else s'.2 = s.2.

Lemma gauge_follows_refl s : gauge_follows s s.
Proof. unfold gauge_follows. destruct cm_present; [lia|done]. Qed.

Lemma handleCreate_gauge decoded s :
  wp gauge_env (handleCreate cfg decoded) s (fun _ s' => gauge_follows s s' /\
    Z.of_nat (size s'.1) <= Z.max (cc_maxSandboxes cfg) (Z.of_nat (size s.1))).
Proof.
  pose proof (gauge_follows_refl s) as Hrefl. destruct s as [m g]. unfold handleCreate.
  assert (gauge_follows (m, g) (m, g) /\
    Z.of_nat (size m) <= Z.max (cc_maxSandboxes cfg) (Z.of_nat (size m))) as Hsame by (split; [done|lia]).
  destruct decoded as [req|]; [|done]. destruct (_ =?s ""); [done|].
  pose proof (law_registry_quiet (O := O) (create_body req) "") as (Hqc & _ & _ & Hqn).
  eapply wp_bind_spec; [apply wp_gauge; [by apply adapter_gauge, quiet_adapter|apply law_Count]|].
  intros n [m' g']; simpl. intros [[-> ->] ->]. destruct (_ <=? _) eqn:Hcap; bool_hyps; [done|].
  eapply wp_bind_spec; [apply wp_gauge; [by apply adapter_gauge, quiet_adapter|apply law_Create]|].
  intros [err|] [m' g']; simpl; [by intros [[-> _] ->]|].
  intros [[Hk [sb ->]] ->]. unfold sandboxCreated, gauge_follows.
  destruct cm_present eqn:Hp; cbn [wp bind perform].
  - intros ? [m' g'] [Hm Hg]. simpl in Hm, Hg |- *. subst. rewrite map_size_insert_None by done. lia.
  - simpl. rewrite map_size_insert_None by done. lia.
Qed.

Lemma handleDelete_gauge decoded s :
  wp gauge_env (handleDelete decoded) s (fun _ s' => gauge_follows s s' /\ Z.of_nat (size s'.1) <= Z.of_nat (size s.1)).
Proof.
  pose proof (gauge_follows_refl s) as Hrefl. destruct s as [m g]. unfold handleDelete.
  assert (gauge_follows (m, g) (m, g) /\ Z.of_nat (size m) <= Z.of_nat (size m)) as Hsame by (split; [done|lia]).
  destruct decoded as [req|]; [|done]. destruct (_ =?s ""); [done|].
  pose proof (law_registry_quiet (O := O) sample_create (dr_SandboxID req)) as (_ & Hqd & _).
  eapply wp_bind_spec; [apply wp_gauge; [by apply adapter_gauge, quiet_adapter|apply law_Delete]|].
  intros [err|] [m' g']; simpl.
  - intros [(-> & _ & Hk) ->]. by rewrite delete_id.
  - intros [(-> & [sb Hk]) ->]. pose proof (map_size_delete_Some (dr_SandboxID req) m (ex_intro _ sb Hk)) as Hsz.
    assert (size m <> 0%nat) by (apply map_size_non_empty_iff; intros ->; done).
    unfold sandboxDeleted, gauge_follows. destruct cm_present; cbn [wp bind perform].
    + intros ? [m' g'] [Hm Hg]. simpl in Hm, Hg |- *. subst. lia.
    + simpl. lia.
Qed.

Lemma handleList_gauge s : wp gauge_env handleList s (fun _ s' => s' = s).
Proof.
  destruct s as [m g]. pose proof (law_registry_quiet (O := O) sample_create "") as (_ & _ & Hql & _).
  eapply wp_bind_spec; [apply wp_gauge; [by apply adapter_gauge, quiet_adapter|apply law_ListIDs]|].
  intros ids [m' g']; simpl. by intros [[-> _] ->].
Qed.

End gauge.

(** ** Slots and counters of one request *)

Lemma adapter_tally {A} (p : prog A) (t : Tally) : only adapter_event p -> wp tally_env p t (fun _ t' => t' = t).
Proof. intros Hp. apply (wp_stay tally_env adapter_event); [done|]. intros [] x t' He; by try done. Qed.

Lemma worker_adapter {A} (p : prog A) : only worker_event p -> only adapter_event p.
Proof. apply (@only_mono ASig). by intros []. Qed.

Section tally.
Context (cfg : config) {O : AdapterOps} {L : AdapterLaws O}.
#[local] Instance metrics_given : CtrlMetrics := true.

(** A request that was refused a slot is counted as throttled; one that got it
    counts [n] execs. *)
Definition counted (n : Z) (t t' : Tally) : Prop :=
  ta_throttled t' - ta_throttled t = ta_refused t' - ta_refused t /\
  ta_execs t' - ta_execs t = n * (ta_acquired t' - ta_acquired t) /\
  0 <= ta_acquired t' - ta_acquired t /\ 0 <= ta_refused t' - ta_refused t /\
  (ta_acquired t' - ta_acquired t) + (ta_refused t' - ta_refused t) <= 1.

Lemma counted_refl (n : Z) (t : Tally) : counted n t t.
Proof. unfold counted. lia. Qed.

Lemma with_slot_tally (body : prog Response) (n : Z) (t : Tally) :
  (forall t, wp tally_env body t (fun _ t' => t' =
     {| ta_acquired := ta_acquired t; ta_refused := ta_refused t; ta_execs := ta_execs t + n;
        ta_throttled := ta_throttled t |})) ->
  wp tally_env (with_slot body) t (fun _ t' => counted n t t').
Proof.
  intros Hb. unfold with_slot. cbn [wp bind perform]. intros [] t1 ->.
  - eapply wp_bind_spec; [apply Hb|]. intros r t2 ->. cbn [wp bind perform]. intros ? ? ->.
    unfold counted. simpl. lia.
  - cbn [wp bind perform execThrottled cm_present metrics_given]. intros ? ? ->. unfold counted. simpl. lia.
Qed.

Lemma record_tally (id res : string) (start n : Z) (k : prog Response) (t : Tally) :
  (forall t, wp tally_env k t (fun _ t' => t' = t)) ->
  wp tally_env (d <- since start ;; recordExec id res d n ;;; k) t (fun _ t' => t' =
     {| ta_acquired := ta_acquired t; ta_refused := ta_refused t; ta_execs := ta_execs t + 1;
        ta_throttled := ta_throttled t |}).
Proof.
  intros Hk. unfold since, recordExec. cbn [wp bind perform cm_present metrics_given].
  intros now t0 ->. intros ? ? ->. intros ? ? ->. destruct (0 <? n); cbn [wp bind perform]; [intros ? ? ->|]; apply Hk.
Qed.

Lemma exec_handlers_tally ex t :
  wp tally_env (handleExec cfg ex) t (fun _ t' => counted 1 t t') /\
  wp tally_env (handleExecStream ex) t (fun _ t' => counted 1 t t').
Proof.
  pose proof (counted_refl 1 t) as Hr. unfold handleExec, handleExecStream, check_exec. split.
  - destruct ex as [r|]; [|done]. repeat (case_goal; [done|]). all: apply with_slot_tally; clear t Hr; intros t.
    all: cbn [wp bind perform]; intros start t0 ->.
    all: eapply wp_bind_spec; [apply adapter_tally, worker_adapter, law_exec_own|].
    all: by intros [] t1 ->; apply record_tally.
  - destruct ex as [r|]; [|done]. repeat (case_goal; [done|]). all: apply with_slot_tally; clear t Hr; intros t.
    all: cbn [wp bind perform]; intros start t0 ->.
    all: eapply wp_bind_spec; [apply adapter_tally, worker_adapter, law_stream_own|].
    all: by intros [evs []] t1 ->; apply record_tally.
Qed.

Lemma file_handlers_tally rd wr ed t :
  wp tally_env (handleFileRead cfg rd) t (fun _ t' => counted 0 t t') /\
  wp tally_env (handleFileWrite wr) t (fun _ t' => counted 0 t t') /\
  wp tally_env (handleFileEdit ed) t (fun _ t' => counted 0 t t').
Proof.
  pose proof (counted_refl 0 t) as Hr. unfold handleFileRead, handleFileWrite, handleFileEdit.
  assert (forall t : Tally, t = {| ta_acquired := ta_acquired t; ta_refused := ta_refused t;
    ta_execs := ta_execs t + 0; ta_throttled := ta_throttled t |}) as Heta by (intros []; simpl; f_equal; lia).
  split_and!.
  - destruct rd as [r|]; [|done]. do 2 (case_goal; [done|]). apply with_slot_tally. intros t1.
    eapply wp_bind_spec; [apply adapter_tally, worker_adapter, law_read_own|]. intros a t2 ->. apply Heta.
  - destruct wr as [r|]; [|done]. do 2 (case_goal; [done|]). apply with_slot_tally. intros t1.
    destruct (decode_content r); [|apply Heta].
    eapply wp_bind_spec; [apply adapter_tally, worker_adapter, law_write_own|]. intros [] t2 ->; apply Heta.
  - destruct ed as [r|]; [|done]. do 3 (case_goal; [done|]). apply with_slot_tally. intros t1.
    eapply wp_bind_spec; [apply adapter_tally, worker_adapter, law_edit_own|]. intros [] t2 ->; apply Heta.
Qed.

Lemma registry_handlers_tally cr de t :
  wp tally_env (handleCreate cfg cr) t (fun _ t' => t' = t) /\ wp tally_env handleList t (fun _ t' => t' = t) /\
  wp tally_env (handleDelete de) t (fun _ t' => t' = t).
Proof.
  pose proof (law_registry_quiet (O := O)) as Hq. unfold handleCreate, handleList, handleDelete.
  unfold sandboxCreated, sandboxDeleted, cm_present, metrics_given. split_and!.
  - destruct cr as [r|]; [|done]. destruct (_ =?s ""); [done|].
    eapply wp_bind_spec; [by apply adapter_tally, quiet_adapter, (Hq sample_create "")|]. intros n t1 ->.
    destruct (_ <=? n); [done|].
    eapply wp_bind_spec; [by apply adapter_tally, quiet_adapter, (Hq _ "")|]. intros [] t1 ->; [done|].
    cbn [wp bind perform]. by intros ? ? ->.
  - eapply wp_bind_spec; [by apply adapter_tally, quiet_adapter, (Hq sample_create "")|]. by intros n t1 ->.
  - destruct de as [r|]; [|done]. destruct (_ =?s ""); [done|].
    eapply wp_bind_spec; [by apply adapter_tally, quiet_adapter, (Hq sample_create)|]. intros [] t1 ->; [done|].
    cbn [wp bind perform]. by intros ? ? ->.
Qed.

End tally.

(** ** Properties *)

Section properties.
Context (cfg : config) {O : AdapterOps}.

(** Requests handled one after the other. *)
Definition serve {M : CtrlMetrics} (page : option (Request -> Response)) (rqs : list Request) : prog (list Response) :=
  for_each rqs (fun acc rq =>
    match handler cfg page rq with
    | Handled _ p _ => r <- p ;; Ret (acc ++ [r])
    | _ => Ret acc
    end) [].

(** The requests the server handles. *)
Definition handled {M : CtrlMetrics} (page : option (Request -> Response)) (p : prog Response) : Prop :=
  exists rq pat vs, handler cfg page rq = Handled pat p vs.

(** C13: However many requests are handled concurrently, and whatever the system
    calls answer: never more than the configured number of sandboxed commands run
    at a time, and when all requests have ended every execution slot is free
    again. *)
Theorem commands_bounded (L : AdapterLaws O) (M : CtrlMetrics) (page : option (Request -> Response))
    (requests : list (prog Response)) (held : Z) :
  rtc (pool_step (exec_slots cfg) (handled page)) ([], 0) (requests, held) ->
  count working requests <= exec_slots cfg /\ (forallb ended requests = true -> held = 0).
Proof.
  intros Hr. assert (0 <= exec_slots cfg) as Hcap.
  { unfold exec_slots. destruct (_ <=? 0) eqn:He; bool_hyps; lia. }
  destruct (pool_bounded (exec_slots cfg) (handled page) (requests, held) Hcap) as (Hw & Hle & Hend); [|done|simpl in *; split; [lia|done]].
  intros p (rq & pat & vs & Hh). pose proof (commands_run_in_slot cfg L page rq) as Hs. rewrite Hh in Hs.
  apply (wp_weaken discipline sem_env); [|exact Hs]. intros [] s x s'; by cbn.
Qed.


(** Every refused execution slot is counted as one throttled request, every
    exec that got a slot is counted once whatever its outcome, and no request
    takes more than one slot. *)
Theorem exec_counters_exact (L : AdapterLaws O) (page : option (Request -> Response)) (rq : Request) (t : Tally) :
  match handler (M := metrics_given) cfg page rq with
  | Handled pat p _ => wp tally_env p t (fun _ t' =>
      counted (if existsb (String.eqb pat) ["POST /v1/exec"; "POST /v1/exec/stream"] then 1 else 0) t t')
  | _ => True
  end.
Proof.
  destruct (exec_handlers_tally cfg (rq_Exec rq) t) as [? ?].
  destruct (file_handlers_tally cfg (rq_Read rq) (rq_Write rq) (rq_Edit rq) t) as (? & ? & ?).
  destruct (registry_handlers_tally cfg (rq_Create rq) (rq_Delete rq) t) as (Hc & Hl & Hd).
  assert (forall p : prog Response, wp tally_env p t (fun _ t' => t' = t) -> wp tally_env p t (fun _ t' => counted 0 t t')) as Hz.
  { intros p Hp. eapply wp_mono; [|exact Hp]. intros ? ? ->. apply counted_refl. }
  apply Hz in Hc, Hl, Hd. pose proof (counted_refl 0 t) as Hr.
  apply (handler_cases (M := metrics_given) cfg (fun pat p => wp tally_env p t (fun _ t' =>
    counted (if existsb (String.eqb pat) ["POST /v1/exec"; "POST /v1/exec/stream"] then 1 else 0) t t'))); [done|].
  unfold routes. destruct page; repeat (apply Forall_cons; split); by first [done | apply Forall_nil].
Qed.

End properties.

(** One request that waits for an execution slot. *)
Lemma commands_bounded_witness :
  exists p, working (SL := exec_sem) p = false /\
  rtc (pool_step (exec_slots sample_config) (handled (O := NsjailOps sample_cfg) sample_config (M := true) None)) ([], 0) ([p], 0) /\
  count (working (SL := exec_sem)) [p] <= exec_slots sample_config /\ (forallb ended [p] = true -> 0 = 0).
Proof.
  destruct (handler (O := NsjailOps sample_cfg) (M := true) sample_config None sample_request) as [pat p vs| | | |] eqn:Hh;
    try (vm_compute in Hh; discriminate Hh).
  assert (rtc (pool_step (exec_slots sample_config) (handled (O := NsjailOps sample_cfg) sample_config (M := true) None))
    ([], 0) ([p], 0)) as Hr.
  { apply rtc_once. apply (arrives (exec_slots sample_config) _ p [] 0). exists sample_request, pat, vs. exact Hh. }
  exists p. split; [|split; [exact Hr|exact (commands_bounded sample_config (NsjailLaws sample_cfg) true None [p] 0 Hr)]].
  vm_compute in Hh. injection Hh as _ <- _. reflexivity.
Defined.


Lemma exec_counters_exact_witness :
  match handler (O := NsjailOps sample_cfg) (M := metrics_given) sample_config None sample_request with
  | Handled pat p _ => wp tally_env p {| ta_acquired := 0; ta_refused := 0; ta_execs := 0; ta_throttled := 0 |} (fun _ t' =>
      counted (if existsb (String.eqb pat) ["POST /v1/exec"; "POST /v1/exec/stream"] then 1 else 0)
        {| ta_acquired := 0; ta_refused := 0; ta_execs := 0; ta_throttled := 0 |} t')
  | _ => True
  end.
Proof.
  exact (exec_counters_exact sample_config (NsjailLaws sample_cfg) None sample_request
    {| ta_acquired := 0; ta_refused := 0; ta_execs := 0; ta_throttled := 0 |}).
Defined.
