(* ===== verification/Kube.v ===== *)
(** * The world of the operator and the router

    The calls both components make: the Kubernetes API (sessions, sandbox
    configurations, controller pools, pods, the StatefulSet, token and access
    reviews), HTTP requests to a controller, the clock, and the router's own
    shared state.  The API server and the controllers are outside: every event
    can be answered by a result or an error, and an update answers with the
    object as the server stored it, which replaces the caller's copy. *)
From S2P Require Import Prelude Prog ApiTypes.

(** Requests to a controller, by the client method that sends them. *)
Inductive CtrlReq : Type :=
| CRCreate (r : CreateSandboxReq)
| CRExec (r : ExecReq)
| CRExecStream (r : ExecReq)
| CRReadFile (r : FileReadReq)
| CRWriteFile (r : FileWriteReq)
| CREditFile (r : FileEditReq)
| CRDelete (r : DeleteSandboxReq).

(** What decoding the body of a response below 300 gives: for a stream, the
    lines (a line that is not an event is [None]) and the scanner's error. *)
Definition CtrlOut (r : CtrlReq) : Type :=
  match r with
  | CRCreate _ | CRDelete _ => unit
  | CRExec _ => ExecResult + Err
  | CRExecStream _ => list (option StreamEvt) * error
  | CRReadFile _ => FileReadResult + Err
  | CRWriteFile _ => FileWriteResult + Err
  | CREditFile _ => FileEditResult + Err
  end.

(** [errorText] is the decoded error body, when it decodes. *)
Inductive HttpAnswer (A : Type) : Type :=
| NoResponse (msg : string)
| HttpResponse (status : Z) (errorText : option string) (out : A).

Arguments NoResponse {A} msg.
Arguments HttpResponse {A} status errorText out.

(** The fields of [authv1.UserInfo] that are used. *)
Record UserInfo := {
  ui_Username : string;
  ui_UID : string;
  ui_Groups : list string;
}.

(** [TokenReview.Status] and [SubjectAccessReview.Status]. *)
Record ReviewStatus := { rv_Authenticated : bool; rv_Error : string; rv_User : UserInfo }.

Record AccessStatus := { as_Allowed : bool; as_Reason : string }.

Record AccessQuery := {
  aq_User : UserInfo;
  aq_Namespace : string;
  aq_Resource : string;
  aq_Verb : string;
  aq_Name : string;
}.

Record CachedResult := { ca_user : UserInfo; ca_storedAt : Z }.

Definition labels : Type := list (string * string).

(** The instruments of the router's and the operator's metrics. *)
Inductive KInstrument : Type :=
| requests | duration | inflight
| scaleUpCount | scaleDownCount | readyReplicasGauge | activeSandboxesGauge.

#[export] Instance KInstrument_eq_dec : EqDecision KInstrument.
Proof. solve_decision. Defined.

Inductive KEvent : Type :=
| GetSession (ns name : string)
| ListSessions (ns : string) (sel : labels)
| CreateSession (s : Session)
| UpdateSession (s : Session)
| StatusUpdateSession (s : Session)
| StatusPatchSession (base modified : Session)
| DeleteSession (s : Session)
| GetSandbox (ns name : string)
| ListSandboxes (ns : string) (sel : labels)
| CreateSandboxCR (sb : Sandbox)
| UpdateSandbox (sb : Sandbox)
| PatchSandbox (base modified : Sandbox)
| DeleteSandboxCR (sb : Sandbox)
| GetPool (ns name : string)
| ListPools (ns : string)
| StatusUpdatePool (p : ControllerPool)
| ListPods (ns : string) (sel : labels)
| GetStatefulSet (ns name : string)
| UpdateStatefulSet (s : StatefulSet)
| TokenReview (token : string)
| SubjectAccessReview (q : AccessQuery)
| Http (url : string) (r : CtrlReq)
| Now
| Sleep (d : Z)
| RandomID
| CacheRLock | CacheRUnlock | CacheLock | CacheUnlock
| CacheGet (key : string)
| CacheSet (key : string) (e : CachedResult)
| CacheDelete (key : string)
| CacheEntries
| SlotTryAcquire | SlotRelease
| GoTouch (s : Session)
| Tick
| Observe (i : KInstrument) (value : Z) (attrs : list (string * string)).

(** [Sleep] answers whether the context ended first; [RandomID] the eight
    bytes of [rand.Read]; [Tick] which case of [select { case <-tick.C: ...
    case <-ctx.Done(): }] ran, the first for [true]. *)
Definition KAnswer (e : KEvent) : Type :=
  match e with
  | GetSession _ _ | UpdateSession _ | StatusUpdateSession _ | StatusPatchSession _ _ => Session + Err
  | ListSessions _ _ => list Session + Err
  | CreateSession _ | DeleteSession _ => error
  | GetSandbox _ _ | UpdateSandbox _ | PatchSandbox _ _ => Sandbox + Err
  | ListSandboxes _ _ => list Sandbox + Err
  | CreateSandboxCR _ | DeleteSandboxCR _ => error
  | GetPool _ _ | StatusUpdatePool _ => ControllerPool + Err
  | ListPools _ => list ControllerPool + Err
  | ListPods _ _ => list Pod + Err
  | GetStatefulSet _ _ | UpdateStatefulSet _ => StatefulSet + Err
  | TokenReview _ => ReviewStatus + Err
  | SubjectAccessReview _ => AccessStatus + Err
  | Http _ r => HttpAnswer (CtrlOut r)
  | Now => Z
  | Sleep _ => option Err
  | RandomID => list Z
  | CacheRLock | CacheRUnlock | CacheLock | CacheUnlock => unit
  | CacheGet _ => option CachedResult
  | CacheSet _ _ | CacheDelete _ => unit
  | CacheEntries => list (string * CachedResult)
  | SlotTryAcquire => bool
  | SlotRelease => unit
  | GoTouch _ => unit
  | Tick => bool
  | Observe _ _ _ => unit
  end.

#[export] Instance KSig : Sig := {| event := KEvent; answer := KAnswer |}.

(** [trigger] with the answer type computed. *)
Definition call (e : KEvent) : prog (KAnswer e) := @Vis KSig _ e Ret.

(** A world in which nothing works. *)
Definition unavailable (e : KEvent) : KAnswer e :=
  let err := ErrMsg "unavailable" in
  match e return KAnswer e with
  | GetSession _ _ | UpdateSession _ | StatusUpdateSession _ | StatusPatchSession _ _ => inr err
  | ListSessions _ _ => inr err
  | CreateSession _ | DeleteSession _ => Some err
  | GetSandbox _ _ | UpdateSandbox _ | PatchSandbox _ _ => inr err
  | ListSandboxes _ _ => inr err
  | CreateSandboxCR _ | DeleteSandboxCR _ => Some err
  | GetPool _ _ | StatusUpdatePool _ => inr err
  | ListPools _ => inr err
  | ListPods _ _ => inr err
  | GetStatefulSet _ _ | UpdateStatefulSet _ => inr err
  | TokenReview _ => inr err
  | SubjectAccessReview _ => inr err
  | Http _ _ => NoResponse "unavailable"
  | Now => 0
  | Sleep _ => Some err
  | RandomID => []
  | CacheRLock | CacheRUnlock | CacheLock | CacheUnlock => tt
  | CacheGet _ => None
  | CacheSet _ _ | CacheDelete _ => tt
  | CacheEntries => []
  | SlotTryAcquire => false
  | SlotRelease => tt
  | GoTouch _ => tt
  | Tick => false
  | Observe _ _ _ => tt
  end.
