(* ===== verification/CtrlClient.v ===== *)
(** * The client of the controllers: [internal/controller/client.go]

    Each method sends one request; its errors are those of [postJSON] and
    [deleteJSON].  A request that gets no response fails with a [*url.Error],
    which implements [net.Error]. *)
From S2P Require Import Prelude Prog GoStrings ApiTypes Errors Kube.
Open Scope boxy_scope.

Definition newHTTPError (method url : string) (status : Z) (errorText : option string) : HTTPError :=
  {| he_Method := method; he_URL := url; he_Status := status;
     he_Message := match errorText with Some t => TrimSpace t | None => "" end |}.

(** [errors.As(err, &he)] and [errors.As(err, &ne)]. *)
Fixpoint as_http (e : Err) : option HTTPError :=
  match e with
  | ErrHTTP he => Some he
  | ErrWrap _ e' _ => as_http e'
  | _ => None
  end.

Fixpoint as_net (e : Err) : bool :=
  match e with
  | ErrNet _ => true
  | ErrWrap _ e' _ => as_net e'
  | _ => false
  end.

Definition IsStaleRouteError (err : error) : bool :=
  match err with
  | None => false
  | Some e => match as_http e with
              | Some he => he_Status he =? 404
              | None => as_net e
              end
  end.

(** Send a request and keep the body of a response below 300. *)
Definition send (method url : string) (r : CtrlReq) : prog (CtrlOut r + Err) :=
  a <- call (Http url r) ;;
  match a : HttpAnswer (CtrlOut r) with
  | NoResponse msg => Ret (inr (ErrNet msg))
  | HttpResponse status errorText out =>
      if 300 <=? status then Ret (inr (ErrHTTP (newHTTPError method url status errorText)))
      else Ret (inl out)
  end.

(** [postJSON] with a result to decode. *)
Definition flatten {A} (r : (A + Err) + Err) : A + Err :=
  match r with inl x => x | inr e => inr e end.

Definition as_error {A} (r : A + Err) : error := match r with inl _ => None | inr e => Some e end.

Definition CreateSandbox (baseURL : string) (req : CreateSandboxReq) : prog error :=
  r <- send "POST" (baseURL +:+ "/v1/sandboxes") (CRCreate req) ;; Ret (as_error r).

Definition ClientExec (baseURL : string) (req : ExecReq) : prog (ExecResult + Err) :=
  r <- send "POST" (baseURL +:+ "/v1/exec") (CRExec req) ;; Ret (flatten r).

Definition ClientReadFile (baseURL : string) (req : FileReadReq) : prog (FileReadResult + Err) :=
  r <- send "POST" (baseURL +:+ "/v1/files/read") (CRReadFile req) ;; Ret (flatten r).

Definition ClientWriteFile (baseURL : string) (req : FileWriteReq) : prog (FileWriteResult + Err) :=
  r <- send "POST" (baseURL +:+ "/v1/files/write") (CRWriteFile req) ;; Ret (flatten r).

Definition ClientEditFile (baseURL : string) (req : FileEditReq) : prog (FileEditResult + Err) :=
  r <- send "POST" (baseURL +:+ "/v1/files/edit") (CREditFile req) ;; Ret (flatten r).

Definition DeleteSandbox (baseURL : string) (req : DeleteSandboxReq) : prog error :=
  r <- send "DELETE" (baseURL +:+ "/v1/sandboxes") (CRDelete req) ;; Ret (as_error r).

(** The loop over the lines of a streamed response: the calls of [onEvent],
    and the result so far or the error of an error event. *)
Fixpoint stream_lines (lines : list (option StreamEvt)) (evs : list (string * string)) (res : ExecResult)
    : list (string * string) * (ExecResult + Err) :=
  match lines with
  | [] => (evs, inl res)
  | None :: lines' => stream_lines lines' evs res
  | Some e :: lines' =>
      if (se_Type e =?s "stdout") || (se_Type e =?s "stderr") || (se_Type e =?s "truncated") then
        stream_lines lines' (evs ++ [(se_Type e, se_Data e)]) res
      else if se_Type e =?s "exit" then
        stream_lines lines' evs {| xs_Stdout := xs_Stdout res; xs_Stderr := xs_Stderr res;
                                   xs_ExitCode := se_Code e; xs_TimedOut := se_TimedOut e |}
      else if se_Type e =?s "error" then (evs, inr (ErrMsg ("exec stream: " +:+ se_Data e)))
      else stream_lines lines' evs res
  end.

Definition empty_result : ExecResult :=
  {| xs_Stdout := ""; xs_Stderr := ""; xs_ExitCode := 0; xs_TimedOut := false |}.

Definition ClientExecStream (baseURL : string) (req : ExecReq)
    : prog (list (string * string) * (ExecResult + Err)) :=
  r <- send "POST" (baseURL +:+ "/v1/exec/stream") (CRExecStream req) ;;
  match r with
  | inr err => Ret ([], inr err)
  | inl (lines, scanErr) =>
      let '(evs, res) := stream_lines lines [] empty_result in
      match res, scanErr with
      | inr err, _ => Ret (evs, inr err)
      | inl _, Some err => Ret (evs, inr (ErrWrap "read stream: " err ""))
      | inl result, None => Ret (evs, inl result)
      end
  end.

(** ** Properties of the client *)

(** The route was stale: the controller did not know the sandbox, or could not
    be reached. *)
Definition gone {A} (a : HttpAnswer A) : Prop :=
  match a with
  | NoResponse _ => True
  | HttpResponse status _ _ => status = 404
  end.

Definition accepted {A} (a : HttpAnswer A) : Prop :=
  match a with
  | NoResponse _ => False
  | HttpResponse status _ _ => status < 300
  end.

(** The error of a request without a result, by the answer it got. *)
Definition reply_error {A} (method url : string) (a : HttpAnswer A) : error :=
  match a with
  | NoResponse msg => Some (ErrNet msg)
  | HttpResponse status t _ => if 300 <=? status then Some (ErrHTTP (newHTTPError method url status t)) else None
  end.

Lemma DeleteSandbox_answer {S} (R : env S) (base : string) (req : DeleteSandboxReq) (s : S) (Q : error -> S -> Prop) :
  wp R (DeleteSandbox base req) s Q <->
  forall a s', R (Http (base +:+ "/v1/sandboxes") (CRDelete req)) s a s' ->
    Q (reply_error "DELETE" (base +:+ "/v1/sandboxes") a) s'.
Proof.
  unfold DeleteSandbox, send. cbn [wp bind call]. split; intros H a s' Hs; specialize (H a s' Hs);
    destruct a as [msg|status t out]; simpl in *; try done; destruct (300 <=? status); done.
Qed.

Lemma CreateSandbox_answer {S} (R : env S) (base : string) (req : CreateSandboxReq) (s : S) (Q : error -> S -> Prop) :
  wp R (CreateSandbox base req) s Q <->
  forall a s', R (Http (base +:+ "/v1/sandboxes") (CRCreate req)) s a s' ->
    Q (reply_error "POST" (base +:+ "/v1/sandboxes") a) s'.
Proof.
  unfold CreateSandbox, send. cbn [wp bind call]. split; intros H a s' Hs; specialize (H a s' Hs);
    destruct a as [msg|status t out]; simpl in *; try done; destruct (300 <=? status); done.
Qed.

Lemma reply_error_None {A} (method url : string) (a : HttpAnswer A) :
  reply_error method url a = None <-> accepted a.
Proof.
  destruct a as [msg|status t out]; simpl; [done|].
  destruct (300 <=? status) eqn:H; bool_hyps; split; try done; lia.
Qed.

Lemma reply_error_stale {A} (method url : string) (a : HttpAnswer A) :
  IsStaleRouteError (reply_error method url a) = true <-> gone a.
Proof.
  destruct a as [msg|status t out]; simpl; [done|].
  destruct (300 <=? status) eqn:H; bool_hyps; simpl; [apply Z.eqb_eq|]. split; [done|lia].
Qed.
