(* ===== verification/Wire.v ===== *)
(** * Between client and controller: requests and responses as text

    What [internal/controller/client.go] sends and what
    [cmd/boxy-controller/server.go] makes of it, and back: the JSON of each
    request, the response bodies written by [writeJSON], [writeErr] and the
    stream's [writeEvent], the client's decoding of them, and the [bufio.Scanner]
    that cuts a stream into lines.  The theorems compose both sides: a request
    reaches its handler, and a result its caller, as it was given up to bytes
    that are not UTF-8 and the order of maps. *)
From S2P Require Import Prelude Prog GoStrings GoMux GoJson GoCodec ApiTypes ApiCodec Errors Output AdapterConfig Adapter CtrlMetrics.
From S2P Require Import Controller Kube CtrlClient.
Open Scope boxy_scope.

(** ** The controller's side *)

(** [json.NewDecoder(r.Body).Decode(&req)], for every request type. *)
Definition receive (method path token body : string) : Request :=
  {| rq_Method := method; rq_Path := path; rq_Token := token;
     rq_Create := DecodeText (C := Server.createSandboxReq_codec) body;
     rq_Delete := DecodeText (C := Server.deleteSandboxReq_codec) body;
     rq_Exec := DecodeText (C := Server.execReq_codec) body;
     rq_Read := DecodeText (C := Server.fileReadReq_codec) body;
     rq_Write := DecodeText (C := Server.fileWriteReq_codec) body;
     rq_Edit := DecodeText (C := Server.fileEditReq_codec) body |}.

Section wire.
Context {U : Unicode}.

(** [writeEvent], and the exit event. *)
Definition event_line (e : string * string) : string := EncodeText (C := Server.event_codec) e.

Definition last_line (r : ExecResponseBody + Err) : string :=
  match r with
  | inl result => EncodeText (C := Server.exitEvent_codec) ("exit", (ex_ExitCode result, ex_TimedOut result))
  | inr err => event_line ("error", Error err)
  end.

(** The bytes of a response's body ([writeJSON] for all but streams). *)
Definition body_text (b : RespBody) : string :=
  match b with
  | BNone => ""
  | BText s => s
  | BError m => EncodeText {| et_Error := msg_text m; et_Code := "" |}
  | BCreated id => EncodeText (C := Server.createSandboxResp_codec) id
  | BList ids => EncodeText (C := Server.listSandboxesResp_codec) ids
  | BExec r => EncodeText (C := Server.execResp_codec) r
  | BStream events last => str_concat (map event_line events) +:+ last_line last
  | BFileRead r => EncodeText (C := Server.fileReadResp_codec) r
  | BFileWrite r => EncodeText (C := Server.fileWriteResp_codec) r
  | BFileEdit r => EncodeText (C := Server.fileEditResp_codec) r
  end.

(** ** The client's side *)

(** The method, path and body of each request. *)
Definition wire_method (r : CtrlReq) : string := match r with CRDelete _ => "DELETE" | _ => "POST" end.

Definition wire_path (r : CtrlReq) : string :=
  match r with
  | CRCreate _ | CRDelete _ => "/v1/sandboxes"
  | CRExec _ => "/v1/exec"
  | CRExecStream _ => "/v1/exec/stream"
  | CRReadFile _ => "/v1/files/read"
  | CRWriteFile _ => "/v1/files/write"
  | CREditFile _ => "/v1/files/edit"
  end.

Definition wire_body (r : CtrlReq) : string :=
  match r with
  | CRCreate q => MarshalText (C := Client.CreateSandboxReq_codec) q
  | CRExec q | CRExecStream q => MarshalText (C := Client.ExecReq_codec) q
  | CRReadFile q => MarshalText (C := Client.FileReadReq_codec) q
  | CRWriteFile q => MarshalText (C := Client.FileWriteReq_codec) q
  | CREditFile q => MarshalText (C := Client.FileEditReq_codec) q
  | CRDelete q => MarshalText (C := Client.DeleteSandboxReq_codec) q
  end.

(** The scanner's buffer, and the error of a line that does not fit it. *)
Definition maxTokenSize : Z := 65536.

Definition ErrTooLong : Err := ErrMsg "bufio.Scanner: token too long".

Fixpoint dropCR (line : string) : string :=
  match line with
  | EmptyString => ""
  | String c rest => if is_byte 13 c && (rest =?s "") then "" else String c (dropCR rest)
  end.

(** [scanner.Scan] until it stops: the lines, and its error. *)
Fixpoint scan_lines (pieces : list string) : list string * error :=
  match pieces with
  | [] => ([], None)
  | line :: rest =>
      if maxTokenSize <=? slen line then ([], Some ErrTooLong)
      else if (line =?s "") && match rest with [] => true | _ => false end then ([], None)
      else let '(lines, err) := scan_lines rest in (dropCR line :: lines, err)
  end.

Definition scan (s : string) : list string * error := scan_lines (Split s NL).

(** Decoding into the result, [badJSON] being the decoder's error. *)
Definition decoded {A} (C : Codec A) (badJSON : Err) (s : string) : A + Err :=
  match DecodeText (C := C) s with Some x => inl x | None => inr badJSON end.

Definition wire_out (badJSON : Err) (r : CtrlReq) (s : string) : CtrlOut r :=
  match r with
  | CRCreate _ | CRDelete _ => tt
  | CRExec _ => decoded Client.ExecResult_codec badJSON s
  | CRExecStream _ =>
      let '(lines, err) := scan s in (map (UnmarshalText (C := Client.evt_codec)) lines, err)
  | CRReadFile _ => decoded Client.FileReadResult_codec badJSON s
  | CRWriteFile _ => decoded Client.FileWriteResult_codec badJSON s
  | CREditFile _ => decoded Client.FileEditResult_codec badJSON s
  end.

(** The error text [newHTTPError] reads, from the first 64 KiB of the body. *)
Definition maxErrorBytes : Z := 65536.

Definition wire_error (s : string) : option string :=
  match DecodeText (C := ErrorBody_codec) (str_take (Z.to_nat maxErrorBytes) s) with
  | Some body => Some (et_Error body)
  | None => None
  end.

(** The client's answer for a response. *)
Definition wire_answer (badJSON : Err) (r : CtrlReq) (resp : Response) : HttpAnswer (CtrlOut r) :=
  let s := body_text (resp_body resp) in
  HttpResponse (resp_code resp) (wire_error s) (wire_out badJSON r s).

End wire.

(** ** Requests *)

(** The tags of both sides are the same. *)
Lemma tags_agree :
  Server.createSandboxReq_codec = Client.CreateSandboxReq_codec /\
  Server.execReq_codec = Client.ExecReq_codec /\
  Server.fileReadReq_codec = Client.FileReadReq_codec /\
  Server.fileWriteReq_codec = Client.FileWriteReq_codec /\
  Server.fileEditReq_codec = Client.FileEditReq_codec /\
  Server.deleteSandboxReq_codec = Client.DeleteSandboxReq_codec /\
  Server.execResp_codec = Client.ExecResult_codec /\
  Server.fileReadResp_codec = Client.FileReadResult_codec /\
  Server.fileWriteResp_codec = Client.FileWriteResult_codec /\
  Server.fileEditResp_codec = Client.FileEditResult_codec.
Proof. done. Qed.

(** Integers of the machine's width, and maps whose keys stay different. *)
Definition request_fits (r : CtrlReq) : Prop :=
  match r with
  | CRCreate q => fits (C := Client.CreateSandboxReq_codec) q
  | CRExec q | CRExecStream q => fits (C := Client.ExecReq_codec) q
  | CRReadFile q => fits (C := Client.FileReadReq_codec) q
  | CRWriteFile q => fits (C := Client.FileWriteReq_codec) q
  | CREditFile q => fits (C := Client.FileEditReq_codec) q
  | CRDelete q => fits (C := Client.DeleteSandboxReq_codec) q
  end.

(** The pattern and the handler each request is meant for. *)
Definition request_pattern (r : CtrlReq) : string := wire_method r +:+ " " +:+ wire_path r.

Definition request_handler (cfg : config) {O : AdapterOps} {M : CtrlMetrics} (r : CtrlReq) : @prog ASig Response :=
  match r with
  | CRCreate q => handleCreate cfg (Some (received (C := Client.CreateSandboxReq_codec) q))
  | CRExec q => handleExec cfg (Some (received (C := Client.ExecReq_codec) q))
  | CRExecStream q => handleExecStream (Some (received (C := Client.ExecReq_codec) q))
  | CRReadFile q => handleFileRead cfg (Some (received (C := Client.FileReadReq_codec) q))
  | CRWriteFile q => handleFileWrite (Some (received (C := Client.FileWriteReq_codec) q))
  | CREditFile q => handleFileEdit (Some (received (C := Client.FileEditReq_codec) q))
  | CRDelete q => handleDelete (Some (received (C := Client.DeleteSandboxReq_codec) q))
  end.

Lemma body_received {A} {C : Codec A} {L : CodecLaws C} (x : A) :
  (nest C <= 100)%nat -> fits x -> DecodeText (C := C) (MarshalText x) = Some (received x).
Proof.
  intros Hn Hx. rewrite <- (str_app_nil_r (MarshalText x)). by apply DecodeText_Encode.
Qed.

Lemma request_dispatch (cfg : config) {O : AdapterOps} {M : CtrlMetrics} (page : option (Request -> Response))
    (r : CtrlReq) (token : string) :
  request_fits r ->
  dispatch cfg page (receive (wire_method r) (wire_path r) token (wire_body r)) =
    Handled (request_pattern r) (request_handler cfg r) [].
Proof.
  intros Hf. unfold dispatch. cbn [receive rq_Path rq_Method].
  assert (EscapedPath (wire_path r) = Some (wire_path r)) as -> by (by destruct r).
  assert (findHandler (routes cfg page) (wire_method r) (wire_path r) =
    Handled (request_pattern r) (match r with
      | CRCreate _ => fun rq => handleCreate cfg (rq_Create rq)
      | CRExec _ => fun rq => handleExec cfg (rq_Exec rq)
      | CRExecStream _ => fun rq => handleExecStream (rq_Exec rq)
      | CRReadFile _ => fun rq => handleFileRead cfg (rq_Read rq)
      | CRWriteFile _ => fun rq => handleFileWrite (rq_Write rq)
      | CREditFile _ => fun rq => handleFileEdit (rq_Edit rq)
      | CRDelete _ => fun rq => handleDelete (rq_Delete rq)
      end) []) as -> by (by destruct r, page).
  f_equal. destruct r; cbn [request_handler receive rq_Create rq_Exec rq_Read rq_Write rq_Edit rq_Delete wire_body];
    f_equal; apply body_received; (done || (vm_compute; lia)).
Qed.

(** A request of the controller's client with the controller's token reaches the
    handler it is meant for, decoded to the request that was sent: the
    controller's own request types have the client's tags, and the path leads to
    the pattern registered for the method. *)
Lemma request_dispatched (cfg : config) {O : AdapterOps} {M : CtrlMetrics}
    (page : option (Request -> Response)) (r : CtrlReq) :
  request_fits r ->
  handler cfg page (receive (wire_method r) (wire_path r) (cc_controllerToken cfg) (wire_body r)) =
    Handled (request_pattern r) (request_handler cfg r) [].
Proof.
  intros Hf. unfold handler, tokenMiddleware. cbn [receive rq_Path rq_Token].
  rewrite String.eqb_refl. cbn [negb].
  assert (exists p, URL_Path (wire_path r) = Some p) as [p ->] by (by destruct r; eexists).
  rewrite request_dispatch by done. repeat case_match; done.
Qed.

(** With any token, a request gets to its handler or is refused. *)
Lemma handler_reached (cfg : config) {O : AdapterOps} {M : CtrlMetrics} (page : option (Request -> Response))
    (r : CtrlReq) (token pat : string) (p : @prog ASig Response) (vs : list string) :
  request_fits r ->
  handler cfg page (receive (wire_method r) (wire_path r) token (wire_body r)) = Handled pat p vs ->
  p = Ret unauthorized \/ p = request_handler cfg r.
Proof.
  intros Hf. unfold handler, tokenMiddleware. cbn [receive rq_Path rq_Token].
  destruct (URL_Path (wire_path r)); [|done].
  pose proof (request_dispatch cfg page r token Hf) as Hd.
  repeat case_match; rewrite ?Hd; intros [= <- <- <-]; auto.
Qed.

(** ** Results *)

(** The network gives the client the response. *)
Definition wired {U : Unicode} (badJSON : Err) (resp : Response) : @env KSig unit := fun e _ x _ =>
  match e as e return KAnswer e -> Prop with
  | Http _ r => fun a => a = wire_answer badJSON r resp
  | _ => fun _ => False
  end x.

Definition is_stream (r : CtrlReq) : bool := match r with CRExecStream _ => true | _ => false end.

(** The responses the handler of [r] gives: an error with an error status, or a
    result of the right type with the status of success. *)
Definition shaped (r : CtrlReq) (resp : Response) : Prop :=
  match resp_body resp, r with
  | BError _, _ => 400 <= resp_code resp
  | BCreated _, CRCreate _ | BNone, CRDelete _ | BExec _, CRExec _ | BFileRead _, CRReadFile _
  | BFileWrite _, CRWriteFile _ | BFileEdit _, CREditFile _ => resp_code resp < 300
  | _, _ => False
  end.

(** An error text within the client's limit, integers of the machine's width. *)
Definition measured {U : Unicode} (resp : Response) : Prop :=
  match resp_body resp with
  | BError _ => slen (body_text (resp_body resp)) <= maxErrorBytes
  | BExec x => fits (C := Client.ExecResult_codec) x
  | BFileRead x => fits (C := Client.FileReadResult_codec) x
  | BFileWrite x => fits (C := Client.FileWriteResult_codec) x
  | BFileEdit x => fits (C := Client.FileEditResult_codec) x
  | _ => True
  end.

Lemma adapter_failed_shaped (r : CtrlReq) (err : Err) : reported (Some err) -> shaped r (adapter_failed err).
Proof.
  unfold reported. rewrite <- adapter_failed_code. unfold shaped, adapter_failed.
  by destruct (adapterErrToHTTP err).
Qed.

Lemma with_slot_shaped {M : CtrlMetrics} (r : CtrlReq) (body : @prog ASig Response) :
  results (shaped r) body -> results (shaped r) (with_slot body).
Proof.
  intros Hb. unfold with_slot. cbn [bind perform results]. intros [].
  - eapply results_bind; [exact Hb|]. intros resp Hr _. exact Hr.
  - eapply results_bind; [apply results_any|]. done.
Qed.

Lemma decode_content_shaped (r : CtrlReq) (resp : Response) (q : FileWriteReq) :
  decode_content q = inr resp -> shaped r resp.
Proof. unfold decode_content. intros Hd. repeat case_match; simplify_eq; done. Qed.

Lemma request_handler_shaped (cfg : config) {O : AdapterOps} {M : CtrlMetrics} {L : AdapterLaws O} (r : CtrlReq) :
  is_stream r = false -> results (shaped r) (request_handler cfg r).
Proof.
  destruct r as [q|q|q|q|q|q|q]; intros Hs; try done; cbn [request_handler];
    unfold handleCreate, handleExec, check_exec, handleFileRead, handleFileWrite, handleFileEdit, handleDelete;
    repeat match goal with |- results _ (if ?b then _ else _) => destruct b; [done|] end; try apply with_slot_shaped.
  - eapply results_bind; [apply results_any|]. intros n _. case_goal; [done|].
    eapply results_bind; [apply law_create_status|]. intros [err|] He; [by apply adapter_failed_shaped|].
    eapply results_bind; [apply results_any|]. done.
  - cbn [bind perform results]. intros start. eapply results_bind; [apply law_exec_status|]. intros [res|err] He;
      (eapply results_bind; [apply results_any|]; intros d _; eapply results_bind; [apply results_any|]; intros _ _);
      [done|by apply adapter_failed_shaped].
  - eapply results_bind; [apply law_read_status|]. intros [[data cut]|err] He; [|by apply adapter_failed_shaped].
    cbn [results read_response]. by destruct cut, (negb _).
  - destruct (decode_content _) as [content|resp] eqn:Hd; [|exact (decode_content_shaped (CRWriteFile q) resp _ Hd)].
    eapply results_bind; [apply law_write_status|]. intros [n|err] He; [done|by apply adapter_failed_shaped].
  - eapply results_bind; [apply law_edit_status|]. intros [n|err] He; [done|by apply adapter_failed_shaped].
  - eapply results_bind; [apply law_delete_status|]. intros [err|] He; [by apply adapter_failed_shaped|].
    eapply results_bind; [apply results_any|]. done.
Qed.

(** What the client returns for it. *)
Definition delivered {U : Unicode} (method url : string) (r : CtrlReq) (resp : Response) : CtrlOut r + Err :=
  match resp_body resp with
  | BError m => inr (ErrHTTP {| he_Method := method; he_URL := url; he_Status := resp_code resp;
                                he_Message := TrimSpace (ToValidUTF8 (msg_text m)) |})
  | b => inl (
      match r as r return CtrlOut r with
      | CRCreate _ | CRDelete _ => tt
      | CRExec _ =>
          match b with BExec x => inl (received (C := Client.ExecResult_codec) x) | _ => inr (ErrMsg "") end
      | CRExecStream _ => ([], None)
      | CRReadFile _ =>
          match b with BFileRead x => inl (received (C := Client.FileReadResult_codec) x) | _ => inr (ErrMsg "") end
      | CRWriteFile _ =>
          match b with BFileWrite x => inl (received (C := Client.FileWriteResult_codec) x) | _ => inr (ErrMsg "") end
      | CREditFile _ =>
          match b with BFileEdit x => inl (received (C := Client.FileEditResult_codec) x) | _ => inr (ErrMsg "") end
      end)
  end.

Lemma encoded_received {A} {C : Codec A} {L : CodecLaws C} (x : A) :
  (nest C <= 100)%nat -> fits x -> DecodeText (C := C) (EncodeText x) = Some (received x).
Proof. intros Hn Hx. by apply DecodeText_Encode. Qed.

Lemma wire_error_received {U : Unicode} (m : Msg) :
  slen (body_text (BError m)) <= maxErrorBytes -> wire_error (body_text (BError m)) = Some (ToValidUTF8 (msg_text m)).
Proof.
  intros Hl. unfold wire_error. rewrite str_take_ge by (unfold slen in Hl; lia).
  cbn [body_text]. rewrite encoded_received; [done|vm_compute; lia|done].
Qed.

Lemma response_delivered {U : Unicode} (badJSON : Err) (method url : string) (r : CtrlReq) (resp : Response) :
  shaped r resp -> measured resp ->
  wp (wired badJSON resp) (send method url r) tt (fun x _ => x = delivered method url r resp).
Proof.
  intros Hp Hx. unfold send. cbn [bind call wp]. intros a s' Ha. cbn [wired] in Ha. subst a. unfold wire_answer.
  unfold shaped in Hp. unfold measured in Hx. unfold delivered.
  destruct (resp_body resp) as [|s|m|id|ids|x|evs l|x|x|x] eqn:Hb; destruct r; try done.
  all: try (rewrite (proj2 (Z.leb_le 300 (resp_code resp))) by lia; cbn [wp]; unfold newHTTPError;
            rewrite wire_error_received by done; reflexivity).
  all: rewrite (proj2 (Z.leb_gt 300 (resp_code resp))) by lia; cbn [wp wire_out]; try done.
  all: unfold decoded; cbn [body_text]; rewrite encoded_received; [done|vm_compute; lia|done].
Qed.

(** C10: whatever the system calls of a request that is not a stream answer, what
    its handler returns is what the client's caller gets: the result with its
    strings as valid UTF-8, or an [HTTPError] with the handler's status and the
    controller's own message, provided that the integers of the result have the
    machine's width and the text of the error is within the 64 KiB the client
    reads. *)
Theorem answer_delivered {U : Unicode} (cfg : config) {O : AdapterOps} {M : CtrlMetrics} {L : AdapterLaws O}
    (badJSON : Err) (method url : string) (r : CtrlReq) :
  is_stream r = false ->
  results (fun resp => measured resp ->
    wp (wired badJSON resp) (send method url r) tt (fun x _ => x = delivered method url r resp))
    (request_handler cfg r).
Proof.
  intros Hs. eapply results_mono; [|by apply request_handler_shaped].
  intros resp Hr Hm. by apply response_delivered.
Qed.

(** ** Streams *)

(** A text on one line. *)
Definition line_ok (l : string) : Prop := l <> "" /\ str_forall printed l = true /\ slen l < maxTokenSize.

Lemma Split_line (l rest : string) : str_forall printed l = true -> Split (l +:+ NL +:+ rest) NL = l :: Split rest NL.
Proof.
  unfold Split. induction l as [|c l IH]; intros Hl; simpl in Hl; bool_hyps; [done|].
  cbn [String.append split_from]. assert (HasPrefix (String c (l +:+ NL +:+ rest)) NL = false) as ->.
  { simpl. assert (Ascii.eqb c "010" = false) as Hc; [|by rewrite Hc].
    apply Ascii.eqb_neq. intros ->. done. }
  by rewrite IH.
Qed.

Lemma dropCR_line (l : string) : str_forall printed l = true -> dropCR l = l.
Proof.
  induction l as [|c l IH]; intros Hl; simpl in *; bool_hyps; [done|].
  unfold printed in *. assert (is_byte 13 c = false) as ->; [unfold is_byte; lia|]. simpl. by rewrite IH.
Qed.

Lemma scan_line (l rest : string) :
  line_ok l -> scan (l +:+ NL +:+ rest) = (l :: (scan rest).1, (scan rest).2).
Proof.
  intros (Hne & Hp & Hl). unfold scan. rewrite Split_line by done. cbn [scan_lines].
  rewrite (proj2 (Z.leb_gt _ _)) by done. rewrite (proj2 (String.eqb_neq l "")) by done. cbn [andb].
  destruct (scan_lines (Split rest NL)). by rewrite dropCR_line.
Qed.

Lemma scan_all (ls : list string) :
  Forall line_ok ls -> scan (str_concat (map (fun l => l +:+ NL) ls)) = (ls, None).
Proof.
  induction 1 as [|l ls Hl Hls IH]; [done|]. cbn [map str_concat foldr]. fold (str_concat (map (fun l => l +:+ NL) ls)).
  rewrite str_app_assoc, scan_line, IH by done. done.
Qed.

(** An event a [drain] goroutine sends: a piece of at most one read of 4096
    bytes. *)
Definition chunk_event (e : string * string) : Prop :=
  (e.1 = "stdout" \/ e.1 = "stderr" \/ e.1 = "truncated") /\ slen e.2 <= 4096.

Lemma drain_chunks (maxBytes : Z) (reads : list (stream * string)) :
  Forall (fun r => slen r.2 <= 4096) reads -> Forall chunk_event (ds_events (drain maxBytes reads)).
Proof.
  unfold drain. intros Hr. assert (Forall chunk_event (ds_events (drain_init maxBytes))) as H0 by constructor.
  revert H0. generalize (drain_init maxBytes) as st. induction Hr as [|[s data] reads Hd Hr IH]; [done|].
  intros st Hst. cbn [fold_left]. apply IH. unfold drain_step. simpl in Hd.
  assert (slen (drain_account maxBytes (ds_totalRead st) (ds_truncated st) data).1.1.1 <= 4096) as Ha.
  { unfold drain_account. repeat case_match; simpl; first [lia|done|rewrite slen_take; lia]. }
  destruct (drain_account _ _ _ _) as [[[toSend emit] total] trunc]. simpl in *.
  apply Forall_app. split; [done|]. unfold sent_events. apply Forall_app. split; case_match; try apply Forall_nil_2;
    apply Forall_singleton; (split; [destruct s; simpl; auto|done]).
Qed.

Lemma event_members (t d : string) : enc (Codec := Server.event_codec) (t, d) =
  JObj (("type", JStr t) :: if d =?s "" then [] else [("data", JStr d)]).
Proof. cbn. by destruct (d =?s ""). Qed.

Lemma event_line_ok (e : string * string) : chunk_event e -> line_ok (MarshalText (C := Server.event_codec) e).
Proof.
  destruct e as [t d]. intros [Ht Hd]. cbn [fst snd] in *.
  assert (integral (enc (Codec := Server.event_codec) (t, d)) = true) as Hi.
  { rewrite event_members. by destruct (d =?s ""). }
  unfold line_ok, MarshalText. split_and!; [|by apply Marshal_printed|].
  - destruct (Marshal_head _ Hi) as (c & s & -> & _). done.
  - assert (slen t <= 9) by (destruct Ht as [->|[->| ->]]; done). rewrite event_members.
    pose proof (quote_length t). pose proof (quote_length d). unfold slen in *.
    destruct (d =?s ""); cbn [map Marshal str_join fst snd]; rewrite !str_app_length;
      change (String.length (quote "type")) with 6%nat; try change (String.length (quote "data")) with 6%nat;
      cbn [String.length]; unfold maxTokenSize; lia.
Qed.

Lemma exit_members (c : Z) (b : bool) : enc (Codec := Server.exitEvent_codec) ("exit", (c, b)) =
  JObj ([("type", JStr "exit"); ("code", JInt c)] ++ if b then [("timedOut", JBool true)] else []).
Proof. by destruct b. Qed.

Lemma exit_line_ok (c : Z) (b : bool) :
  - 2 ^ 63 <= c <= 2 ^ 63 - 1 -> line_ok (MarshalText (C := Server.exitEvent_codec) ("exit", (c, b))).
Proof.
  intros Hc. assert (integral (enc (Codec := Server.exitEvent_codec) ("exit", (c, b))) = true) as Hi.
  { rewrite exit_members. by destruct b. }
  unfold line_ok, MarshalText. split_and!; [|by apply Marshal_printed|].
  - destruct (Marshal_head _ Hi) as (x & s & -> & _). done.
  - rewrite exit_members. destruct (pretty_digits c) as (sign & d & Hp & Hs & _ & Hl).
    specialize (Hl ltac:(lia)). assert (String.length sign <= 1)%nat by (destruct Hs as [->| ->]; simpl; lia).
    unfold slen. destruct b; cbn [app map Marshal str_join fst snd]; rewrite Hp, !str_app_length;
      change (String.length (quote "type")) with 6%nat; change (String.length (quote "exit")) with 6%nat;
      change (String.length (quote "code")) with 6%nat; try change (String.length (quote "timedOut")) with 10%nat;
      cbn [String.length]; unfold maxTokenSize; lia.
Qed.

(** What the client reads from each line. *)
Lemma event_read (t d : string) : ToValidUTF8 t = t ->
  UnmarshalText (C := Client.evt_codec) (MarshalText (C := Server.event_codec) (t, d)) =
    Some {| se_Type := t; se_Data := ToValidUTF8 d; se_Code := 0; se_TimedOut := false |}.
Proof.
  intros Ht. unfold UnmarshalText, MarshalText. rewrite event_members.
  rewrite Unmarshal_Marshal by (by destruct (d =?s "")). cbn [clean map fst snd]. rewrite Ht.
  destruct (d =?s "") eqn:Hd; [|done]. apply String.eqb_eq in Hd as ->. done.
Qed.

Lemma exit_read (c : Z) (b : bool) : - 2 ^ 63 <= c <= 2 ^ 63 - 1 ->
  UnmarshalText (C := Client.evt_codec) (MarshalText (C := Server.exitEvent_codec) ("exit", (c, b))) =
    Some {| se_Type := "exit"; se_Data := ""; se_Code := c; se_TimedOut := b |}.
Proof.
  intros Hc. unfold UnmarshalText, MarshalText. rewrite exit_members. rewrite Unmarshal_Marshal by (by destruct b).
  assert ((- 2 ^ 63 <=? c) && (c <=? 2 ^ 63 - 1) = true) as Hr by (apply andb_true_iff; lia).
  destruct b; cbn -[Z.leb Z.pow Z.sub Z.opp]; by rewrite Hr.
Qed.

Lemma stream_text_scanned {U : Unicode} (evs : list (string * string)) (res : ExecResponseBody) :
  Forall chunk_event evs -> - 2 ^ 63 <= ex_ExitCode res <= 2 ^ 63 - 1 ->
  scan (body_text (BStream evs (inl res))) =
    (map (MarshalText (C := Server.event_codec)) evs ++
     [MarshalText (C := Server.exitEvent_codec) ("exit", (ex_ExitCode res, ex_TimedOut res))], None).
Proof.
  intros Hev Hc. cbn [body_text last_line].
  set (last := MarshalText (C := Server.exitEvent_codec) ("exit", (ex_ExitCode res, ex_TimedOut res))).
  assert (str_concat (map event_line evs) +:+ EncodeText (C := Server.exitEvent_codec)
      ("exit", (ex_ExitCode res, ex_TimedOut res)) =
    str_concat (map (fun l => l +:+ NL) (map (MarshalText (C := Server.event_codec)) evs ++ [last]))) as ->.
  { rewrite map_app, str_concat_app, map_map. cbn [map str_concat foldr]. by rewrite str_app_nil_r. }
  apply scan_all. apply Forall_app. split; [|by apply Forall_singleton, exit_line_ok].
  apply Forall_map. eapply Forall_impl; [exact Hev|]. intros e. apply event_line_ok.
Qed.

(** The events the caller's [onEvent] gets. *)
Definition heard (evs : list (string * string)) : list (string * string) := map (fun e => (e.1, ToValidUTF8 e.2)) evs.

Lemma stream_lines_heard (evs acc : list (string * string)) (res : ExecResult) (rest : list (option StreamEvt)) :
  Forall chunk_event evs ->
  stream_lines (map (fun e => UnmarshalText (C := Client.evt_codec) (MarshalText (C := Server.event_codec) e)) evs ++ rest)
    acc res = stream_lines rest (acc ++ heard evs) res.
Proof.
  intros H. revert acc. induction H as [|[t d] evs [Ht _] Hevs IH]; intros acc; [by rewrite app_nil_r|].
  cbn [fst] in Ht. cbn [map app]. rewrite event_read by (by destruct Ht as [->|[->| ->]]).
  cbn [stream_lines se_Type se_Data].
  assert ((t =?s "stdout") || (t =?s "stderr") || (t =?s "truncated") = true) as -> by (by destruct Ht as [->|[->| ->]]).
  rewrite IH, <- app_assoc. done.
Qed.

(** A streamed exec arrives whole.  However the two pipes are read, in
    reads of at most 4096 bytes as [drain]'s buffer allows, every line of the
    stream fits the client's scanner, the caller hears the events in the order
    they were sent, each with its data as valid UTF-8, and gets the exit code and
    whether the command timed out. *)
Theorem stream_delivered {U : Unicode} (badJSON : Err) (base : string) (req : ExecReq) (maxBytes : Z)
    (reads : list (stream * string)) (res : ExecResponseBody) :
  Forall (fun r => slen r.2 <= 4096) reads -> - 2 ^ 63 <= ex_ExitCode res <= 2 ^ 63 - 1 ->
  let evs := ds_events (drain maxBytes reads) in
  wp (wired badJSON {| resp_code := 200; resp_body := BStream evs (inl res) |}) (ClientExecStream base req) tt
    (fun x _ => x = (heard evs, inl {| xs_Stdout := ""; xs_Stderr := ""; xs_ExitCode := ex_ExitCode res;
                                       xs_TimedOut := ex_TimedOut res |})).
Proof.
  intros Hr Hc evs. pose proof (drain_chunks maxBytes reads Hr) as Hev. fold evs in Hev.
  unfold ClientExecStream, send. cbn [bind call wp]. intros a s' Ha. cbn [wired] in Ha. subst a.
  unfold wire_answer. cbn [resp_code resp_body wire_out]. rewrite stream_text_scanned by done.
  change (300 <=? 200) with false. cbv iota. cbn [bind]. rewrite map_app, map_map. cbn [map].
  rewrite exit_read by done. rewrite stream_lines_heard by done. done.
Qed.

(** ** Instances of the theorems *)

Definition ascii_only : Unicode := fun _ => false.

Definition sample_exec : ExecReq :=
  {| xr_SandboxID := "s1"; xr_Command := "echo"; xr_Args := ["<hi>"]; xr_Env := [("B", "2"); ("A", "1")];
     xr_TimeoutSeconds := 5; xr_PTY := false |}.

Lemma sample_exec_fits : request_fits (CRExec sample_exec).
Proof.
  cbn. split_and!; try done; try lia; [by repeat constructor|].
  apply NoDup_cons. split; [by vm_compute; intros ?%list_elem_of_singleton|apply NoDup_singleton].
Qed.

Lemma answer_delivered_witness :
  results (fun resp => @measured ascii_only resp ->
    wp (@wired ascii_only (ErrMsg "") resp) (send "POST" "u/v1/exec" (CRExec sample_exec)) tt
      (fun x _ => x = @delivered ascii_only "POST" "u/v1/exec" (CRExec sample_exec) resp))
    (request_handler (O := NsjailOps sample_cfg) (M := true) sample_config (CRExec sample_exec)) /\
  @measured ascii_only (adapter_failed (errNotFound "s1")) /\
  @delivered ascii_only "POST" "u/v1/exec" (CRExec sample_exec) (adapter_failed (errNotFound "s1")) =
    inr (ErrHTTP {| he_Method := "POST"; he_URL := "u/v1/exec"; he_Status := 404;
                    he_Message := "sandbox not found: s1" |}).
Proof.
  split; [|split; [vm_compute; intros H; discriminate H|vm_compute; reflexivity]].
  apply (@answer_delivered ascii_only sample_config (NsjailOps sample_cfg) true (NsjailLaws sample_cfg)). reflexivity.
Defined.

Lemma stream_delivered_witness :
  wp (@wired ascii_only (ErrMsg "") {| resp_code := 200; resp_body := BStream [("stdout", "ab"); ("truncated", "")]
        (inl {| ex_ExitCode := 3; ex_Stdout := "ab"; ex_Stderr := ""; ex_TimedOut := false |}) |})
    (ClientExecStream "u" sample_exec) tt
    (fun x _ => x = ([("stdout", "ab"); ("truncated", "")],
       inl {| xs_Stdout := ""; xs_Stderr := ""; xs_ExitCode := 3; xs_TimedOut := false |})).
Proof.
  apply (@stream_delivered ascii_only (ErrMsg "") "u" sample_exec 2 [(Stdout, "abc")]
    {| ex_ExitCode := 3; ex_Stdout := "ab"; ex_Stderr := ""; ex_TimedOut := false |}).
  - apply Forall_singleton. vm_compute. discriminate.
  - simpl. lia.
Defined.
