(* ===== verification/Process.v ===== *)
(** * Processes: what a program does before it serves

    The calls the three programs make while they start and stop: files and key
    pairs, the telemetry libraries, the Kubernetes client libraries, the HTTP
    servers and goroutines of a process.  All of them are outside and can fail;
    the parts of the repository between them are programs here:
    [internal/telemetry/telemetry.go], the instruments of the three components
    ([newControllerMetrics], [newRouterMetrics], [NewOperatorMetrics]) with
    [cmd/boxy-controller/cgroup.go], [internal/kube/factory.go],
    [internal/router/k8s.go], and both sides of mutual TLS ([buildTLSConfig] of
    the controller, [NewClient] of its client).  Parsing certificates is a
    parameter. *)
From Stdlib Require Import SpecFloat.
From S2P Require Import Prelude Prog GoStrings GoPath ApiTypes Errors Wire.
Open Scope boxy_scope.

(** ** TLS *)

(** A certificate chain with its key, as loaded. *)
Definition Certificate : Type := string.

Inductive ClientAuthType : Type :=
| NoClientCert
| RequestClientCert
| RequireAnyClientCert
| VerifyClientCertIfGiven
| RequireAndVerifyClientCert.

Definition VersionTLS12 : Z := 771.

(** [tls.Config] of a server; a pool is the PEM text it was filled from. *)
Record ServerTLS := {
  st_Certificate : Certificate;
  st_ClientAuth : ClientAuthType;
  st_ClientCAs : string;
  st_MinVersion : Z;
}.

(** [tls.Config] of a client. *)
Record ClientTLS := { ct_Certificate : Certificate; ct_RootCAs : string; ct_ServerName : string }.

(** What a server asks of the certificate of a client; [verify] says whether a
    chain leads to a pool. *)
Definition handshake (verify : string -> Certificate -> bool) (t : ServerTLS) (client : option Certificate) : bool :=
  match st_ClientAuth t, client with
  | NoClientCert, _ | RequestClientCert, _ => true
  | RequireAnyClientCert, c => match c with Some _ => true | None => false end
  | VerifyClientCertIfGiven, Some c => verify (st_ClientCAs t) c
  | VerifyClientCertIfGiven, None => true
  | RequireAndVerifyClientCert, Some c => verify (st_ClientCAs t) c
  | RequireAndVerifyClientCert, None => false
  end.

(** ** Servers, goroutines, and the calls *)

(** [http.Server], with the patterns of its mux. *)
Record HttpServer := {
  sv_Addr : string;
  sv_Patterns : list string;
  sv_TLS : option ServerTLS;
  sv_ReadHeaderTimeout : Z;
}.

(** The goroutines [main] starts; those of the token cache and of the scaler
    are [Auth.evictLoop] and [SessionReconciler.RunScaleDownLoop]. *)
Inductive Thread : Type :=
| MetricsThread (s : HttpServer)
| ApiThread (s : HttpServer) (tls : bool)
| CacheThread
| EvictThread (ttl : Z)
| ScaleDownThread.

Inductive InstrumentKind : Type := Counter | UpDownCounter | Histogram | ObservableGauge | ObservableCounter.

(** Bucket bounds are in milliseconds. *)
Record InstrumentSpec := {
  is_Kind : InstrumentKind;
  is_Name : string;
  is_Unit : string;
  is_Buckets : list Z;
}.

(** [rest.Config], by where it comes from. *)
Inductive RestConfig : Type :=
| FromFile (path : string)
| InCluster
| FromFlags.

(** The controllers [SetupWithManager] registers: the kind they reconcile, and
    the kinds whose changes are mapped to it. *)
Record ControllerSpec := { cs_Name : string; cs_For : string; cs_Watches : list string }.

(** A [runtime.Scheme], by the group, version and kind of each type it knows;
    and what the Kubernetes libraries register. *)
Definition Scheme : Type := list ((string * string) * string).

Record SchemeLibrary := {
  sl_clientgo : Scheme;
  sl_AddToGroupVersion : string * string -> Scheme;
}.

Record ManagerOptions := {
  mo_Scheme : Scheme;
  mo_LeaderElection : bool;
  mo_LeaderElectionID : string;
  mo_LeaderElectionNamespace : string;
  mo_HealthProbeBindAddress : string;
  mo_MetricsBindAddress : string;
  mo_Namespaces : list string;
}.

Inductive PEvent : Type :=
| ReadFile (path : string)
| Stat (path : string)
| UserHomeDir
| LoadX509KeyPair (certFile keyFile : string)
| ResourceNew (serviceName : string)
| PrometheusNew (fresh : bool)
| OtlpNew
| SetMeterProvider (noop : bool)
| MeterShutdown
| OtlpShutdown
| NewInstrument (meter : string) (spec : InstrumentSpec)
| RegisterCallback (meter : string) (instruments : list string)
| BuildConfigFromFlags (path : string)
| InClusterConfig
| GetConfig
| NewCache (cfg : RestConfig) (scheme : Scheme) (namespaces : list string)
| NewK8sClient (cfg : RestConfig) (scheme : Scheme)
| NewForConfig (cfg : RestConfig)
| NewManager (cfg : RestConfig) (opts : ManagerOptions)
| SetupController (spec : ControllerSpec)
| AddHealthzCheck (name : string)
| AddReadyzCheck (name : string)
| NotifyContext
| Go (t : Thread)
| CacheStart
| WaitForCacheSync
| EnsureDefault
| ListenAndServe (s : HttpServer)
| ListenAndServeTLS (s : HttpServer)
| Stop
| Done
| ShutdownServer (s : HttpServer)
| MgrStart.

(** The resource comes with whether it can be used despite the error. *)
Definition PAnswer (e : PEvent) : Type :=
  match e with
  | ReadFile _ | UserHomeDir => string + Err
  | LoadX509KeyPair _ _ => Certificate + Err
  | ResourceNew _ => bool * error
  | BuildConfigFromFlags _ | InClusterConfig | GetConfig => RestConfig + Err
  | SetMeterProvider _ | NotifyContext | Go _ | Stop | Done => unit
  | WaitForCacheSync => bool
  | Stat _ | PrometheusNew _ | OtlpNew | MeterShutdown | OtlpShutdown | NewInstrument _ _ | RegisterCallback _ _
  | NewCache _ _ _ | NewK8sClient _ _ | NewForConfig _ | NewManager _ _ | SetupController _ | AddHealthzCheck _
  | AddReadyzCheck _ | CacheStart | EnsureDefault | ListenAndServe _ | ListenAndServeTLS _ | ShutdownServer _
  | MgrStart => error
  end.

#[export] Instance PSig : Sig := {| event := PEvent; answer := PAnswer |}.

Definition sys (e : PEvent) : @prog PSig (PAnswer e) := @Vis PSig _ e Ret.

Abbreviation proc := (@prog PSig).

(** How [main] ends: [os.Exit] runs no deferred call, a panic does. *)
Inductive Exit : Type :=
| Exited (code : Z)
| Panicked (msg : Msg)
| Returned.

Definition deferred (d : proc unit) (body : proc Exit) : proc Exit :=
  r <- body ;;
  match r with
  | Exited _ => Ret r
  | _ => d ;;; Ret r
  end.

(** [if err != nil { slog.Error(...); os.Exit(1) }]. *)
Definition or_exit (step : proc error) (rest : proc Exit) : proc Exit :=
  err <- step ;; match err with Some _ => Ret (Exited 1) | None => rest end.

(** ** [internal/telemetry] *)

(** [Provider]: without an SDK its meter, page and shutdown do nothing;
    [pv_otlp] is whether [otlpExporter] is not nil. *)
Record Provider := { pv_noop : bool; pv_gathers : bool; pv_otlp : bool }.

Record Options := { op_ServiceName : string; op_Registerer : bool }.

Definition ShutdownTimeout : Z := 5 * Second.

Section telemetry.
Context (getenv : string -> string).

Definition disabled : bool :=
  existsb (String.eqb (TrimSpace (ToLower (getenv "OTEL_SDK_DISABLED")))) ["1"; "true"; "yes"; "on"].

Definition endpointConfigured : bool :=
  negb (TrimSpace (getenv "OTEL_EXPORTER_OTLP_ENDPOINT") =?s "") ||
  negb (TrimSpace (getenv "OTEL_EXPORTER_OTLP_METRICS_ENDPOINT") =?s "").

(** [otlpmetricgrpc.New], when an endpoint is configured. *)
Definition init_otlp : proc (bool + Err) :=
  if endpointConfigured then
    err <- sys OtlpNew ;;
    match err with
    | Some err => Ret (inr (ErrWrap "telemetry: otlp exporter: " err ""))
    | None => Ret (inl true)
    end
  else Ret (inl false).

Definition Init (opts : Options) : proc (Provider + Err) :=
  if TrimSpace (op_ServiceName opts) =?s "" then Ret (inr (ErrMsg "telemetry: ServiceName is required"))
  else if disabled then
    sys (SetMeterProvider true) ;;;
    Ret (inl {| pv_noop := true; pv_gathers := false; pv_otlp := false |})
  else
    res <- sys (ResourceNew (op_ServiceName opts)) ;;
    match res with
    | (false, Some err) => Ret (inr (ErrWrap "telemetry: build resource: " err ""))
    | _ =>
        err <- sys (PrometheusNew (negb (op_Registerer opts))) ;;
        match err with
        | Some err => Ret (inr (ErrWrap "telemetry: prometheus exporter: " err ""))
        | None =>
            otlp <- init_otlp ;;
            match otlp with
            | inr err => Ret (inr err)
            | inl otlp =>
                sys (SetMeterProvider false) ;;;
                Ret (inl {| pv_noop := false; pv_gathers := negb (op_Registerer opts); pv_otlp := otlp |})
            end
        end
    end.

End telemetry.

Definition Shutdown (p : Provider) : proc error :=
  if pv_noop p then Ret None
  else
    err <- sys MeterShutdown ;;
    if pv_otlp p then
      e <- sys OtlpShutdown ;;
      Ret (match err with Some _ => err | None => e end)
    else Ret err.

(** The deferred shutdown of every [main]; its error is dropped. *)
Definition flush (p : Provider) : proc unit := Shutdown p ;;; Ret tt.

(** ** The instruments *)

Definition duration_buckets : list Z := [10; 50; 100; 250; 500; 1000; 2500; 5000; 10000; 30000; 60000; 300000].

(** [if x, err = ...; err != nil { return nil, err }], for each in turn. *)
Fixpoint first_error (steps : list (proc error)) : proc error :=
  match steps with
  | [] => Ret None
  | step :: steps' => err <- step ;; match err with Some _ => Ret err | None => first_error steps' end
  end.

Definition instrument (meter : string) (kind : InstrumentKind) (name unit : string) (buckets : list Z) : proc error :=
  sys (NewInstrument meter {| is_Kind := kind; is_Name := name; is_Unit := unit; is_Buckets := buckets |}).

Definition registerPodResourceGauges (m : string) : proc error :=
  first_error
    [instrument m ObservableGauge "boxy.controller.pod.memory.usage" "By" [];
     instrument m ObservableCounter "boxy.controller.pod.cpu.time" "s" [];
     sys (RegisterCallback m ["boxy.controller.pod.memory.usage"; "boxy.controller.pod.cpu.time"])].

Definition newControllerMetrics (m : string) : proc error :=
  first_error
    [instrument m UpDownCounter "boxy.controller.sandboxes.active" "{sandbox}" [];
     instrument m Counter "boxy.controller.exec" "{exec}" [];
     instrument m Histogram "boxy.controller.exec.duration" "s" duration_buckets;
     instrument m Counter "boxy.controller.exec.output" "By" [];
     instrument m Counter "boxy.controller.throttled" "{request}" [];
     registerPodResourceGauges m].

Definition newRouterMetrics (m : string) : proc error :=
  first_error
    [instrument m Counter "boxy.router.requests" "{request}" [];
     instrument m Histogram "boxy.router.request.duration" "s" duration_buckets;
     instrument m UpDownCounter "boxy.router.requests.inflight" "{request}" [];
     instrument m ObservableGauge "boxy.router.concurrency.limit" "{request}" []].

Definition NewOperatorMetrics (m : string) : proc error :=
  first_error
    [instrument m Counter "boxy.operator.scale.up" "{operation}" [];
     instrument m Counter "boxy.operator.scale.down" "{operation}" [];
     instrument m ObservableGauge "boxy.operator.controller.replicas.ready" "{replica}" [];
     instrument m ObservableGauge "boxy.operator.sandboxes.active" "{sandbox}" []].

(** ** [cmd/boxy-controller/cgroup.go] *)

Definition cgroupMemCurrentPath : string := "/sys/fs/cgroup/memory.current".
Definition cgroupCPUStatPath : string := "/sys/fs/cgroup/cpu.stat".

Definition readCgroupMemoryBytes : proc (option Z) :=
  data <- sys (ReadFile cgroupMemCurrentPath) ;;
  match data with
  | inr _ => Ret None
  | inl data => Ret (ParseUint (TrimSpace data))
  end.

(** [float64(usec) / 1e6], in binary64. *)
Definition float64_of (n : Z) : spec_float := binary_normalize 53 1024 n 0 false.

Definition usec_seconds (usec : Z) : spec_float := SFdiv 53 1024 (float64_of usec) (float64_of 1000000).

(** The first [usage_usec] line decides. *)
Fixpoint usage_usec (lines : list string) : option Z :=
  match lines with
  | [] => None
  | line :: lines' =>
      match Fields line with
      | [f0; f1] => if f0 =?s "usage_usec" then ParseUint f1 else usage_usec lines'
      | _ => usage_usec lines'
      end
  end.

(** Opening the file and scanning its lines. *)
Definition readCgroupCPUSeconds : proc (option spec_float) :=
  f <- sys (ReadFile cgroupCPUStatPath) ;;
  match f with
  | inr _ => Ret None
  | inl text => Ret (usec_seconds <$> usage_usec (scan text).1)
  end.

(** The callback: what it observes of the pod. *)
Definition pod_resources : proc (option Z * option spec_float) :=
  mem <- readCgroupMemoryBytes ;;
  cpu <- readCgroupCPUSeconds ;;
  Ret (to_int64 <$> mem, cpu).

(** ** [internal/kube], [internal/router/k8s.go] *)

Section kube.
Context (getenv : string -> string).

(** [filepath.Join] of the two last elements is ".kube/config" already. *)
Definition BuildConfig : proc (RestConfig + Err) :=
  let kube := getenv "KUBECONFIG" in
  if negb (kube =?s "") then sys (BuildConfigFromFlags kube)
  else
    home <- sys UserHomeDir ;;
    match home with
    | inr _ => sys InClusterConfig
    | inl home =>
        let def := Join home ".kube/config" in
        err <- sys (Stat def) ;;
        match err with
        | None => sys (BuildConfigFromFlags def)
        | Some _ => sys InClusterConfig
        end
    end.

Definition NewClientset : proc error :=
  cfg <- BuildConfig ;;
  match cfg with
  | inr err => Ret (Some (ErrWrap "kube config: " err ""))
  | inl cfg => sys (NewForConfig cfg)
  end.

Definition BuildK8sCache (scheme : Scheme) (namespace : string) : proc error :=
  cfg <- BuildConfig ;;
  match cfg with inr err => Ret (Some err) | inl cfg => sys (NewCache cfg scheme [namespace]) end.

Definition BuildK8sClient (scheme : Scheme) : proc error :=
  cfg <- BuildConfig ;;
  match cfg with inr err => Ret (Some err) | inl cfg => sys (NewK8sClient cfg scheme) end.

Definition BuildClientset : proc error :=
  cfg <- BuildConfig ;;
  match cfg with inr err => Ret (Some err) | inl cfg => sys (NewForConfig cfg) end.

End kube.

(** ** The API group *)

Definition GroupVersion : string * string := ("boxy.dev", "v1alpha1").

Section scheme.
(** [metav1.AddToGroupVersion]: the kinds the library adds to a version. *)
Context (lib : SchemeLibrary).

(** [scheme.AddKnownTypes]: a kind is the name of the Go type. *)
Definition AddKnownTypes (gv : string * string) (kinds : list string) (scheme : Scheme) : Scheme :=
  scheme ++ map (fun kind => (gv, kind)) kinds.

Definition addKnownTypes (scheme : Scheme) : Scheme :=
  AddKnownTypes GroupVersion
    ["Sandbox"; "SandboxList"; "Session"; "SessionList"; "ControllerPool"; "ControllerPoolList"] scheme ++
  sl_AddToGroupVersion lib GroupVersion.

(** [schemeBuilder.AddToScheme]. *)
Definition AddToScheme (scheme : Scheme) : Scheme := addKnownTypes scheme.

Definition NewScheme : Scheme := AddToScheme (sl_clientgo lib).

End scheme.

(** The scheme of the router and the operator knows all the objects they send. *)
Lemma scheme_knows (lib : SchemeLibrary) (kind : string) :
  kind ∈ ["Sandbox"; "SandboxList"; "Session"; "SessionList"; "ControllerPool"; "ControllerPoolList"] ->
  (GroupVersion, kind) ∈ NewScheme lib.
Proof.
  intros Hk. unfold NewScheme, AddToScheme, addKnownTypes, AddKnownTypes. rewrite !elem_of_app. left. right.
  apply list_elem_of_fmap. by exists kind.
Qed.

(** ** Mutual TLS *)

Definition mtlsServerName : string := "boxy-controller".

Section tls.
(** [x509.CertPool.AppendCertsFromPEM]: whether the text holds a certificate. *)
Context (AppendCertsFromPEM : string -> bool).

Definition buildTLSConfig (certPath keyPath caPath : string) : proc (ServerTLS + Err) :=
  cert <- sys (LoadX509KeyPair certPath keyPath) ;;
  match cert with
  | inr err => Ret (inr (ErrWrap "load server keypair: " err ""))
  | inl cert =>
      caPEM <- sys (ReadFile caPath) ;;
      match caPEM with
      | inr err => Ret (inr (ErrWrap "read CA cert: " err ""))
      | inl caPEM =>
          if negb (AppendCertsFromPEM caPEM) then Ret (inr (ErrMsg "parse CA cert: no valid certs found"))
          else Ret (inl {| st_Certificate := cert; st_ClientAuth := RequireAndVerifyClientCert;
                           st_ClientCAs := caPEM; st_MinVersion := VersionTLS12 |})
      end
  end.

(** The client's side. *)
Record ClientConfig := {
  kc_MTLSDisabled : bool;
  kc_CACertPath : string;
  kc_ClientCert : string;
  kc_ClientKey : string;
  kc_ControllerToken : string;
}.

Inductive Transport : Type :=
| DefaultTransport
| MTLSTransport (c : ClientTLS)
| TokenTransport (token : string) (base : Transport).

(** The right is a panic. *)
Definition buildMTLSTransport (cfg : ClientConfig) : proc (Transport + Msg) :=
  caCert <- sys (ReadFile (kc_CACertPath cfg)) ;;
  match caCert with
  | inr err => Ret (inr (MLit "read CA cert " (MLit (kc_CACertPath cfg) (MLit ": " (MErr err MNil)))))
  | inl caCert =>
      if negb (AppendCertsFromPEM caCert) then Ret (inr (MLit "failed to append CA cert" MNil))
      else
        cert <- sys (LoadX509KeyPair (kc_ClientCert cfg) (kc_ClientKey cfg)) ;;
        match cert with
        | inr err => Ret (inr (MLit "load client keypair: " (MErr err MNil)))
        | inl cert => Ret (inl (MTLSTransport
            {| ct_Certificate := cert; ct_RootCAs := caCert; ct_ServerName := mtlsServerName |}))
        end
  end.

Definition NewClient (cfg : ClientConfig) : proc (Transport + Msg) :=
  base <- (if kc_MTLSDisabled cfg then Ret (inl DefaultTransport) else buildMTLSTransport cfg) ;;
  match base with
  | inr msg => Ret (inr msg)
  | inl base => Ret (inl (if negb (kc_ControllerToken cfg =?s "") then TokenTransport (kc_ControllerToken cfg) base
                          else base))
  end.

(** A header value the transport sends: no control bytes but tabs. *)
Definition ValidHeaderFieldValue (v : string) : bool :=
  str_forall (fun c => (is_byte 9 c || negb (in_range 0 31 c)) && negb (is_byte 127 c)) v.

(** [RoundTrip]: the token header a request leaves with, and the TLS it uses;
    [token] is the header it came with.  [None] is an error. *)
Fixpoint RoundTrip (t : Transport) (token : string) : option (string * option ClientTLS) :=
  match t with
  | DefaultTransport => if ValidHeaderFieldValue token then Some (token, None) else None
  | MTLSTransport c => if ValidHeaderFieldValue token then Some (token, Some c) else None
  | TokenTransport tok base => RoundTrip base tok
  end.

End tls.

(** The router's own names ([controller_client.go]); for the requests and the
    stale-route test they are the client's. *)
Definition ControllerClientConfig : Type := ClientConfig.

Definition ControllerHTTPError : Type := HTTPError.

Definition NewControllerClient : (string -> bool) -> ControllerClientConfig -> proc (Transport + Msg) := NewClient.
