(* ===== verification/SessionReconciler.v ===== *)
(** * The session reconciler: [internal/operator/session_reconciler.go] and
    [session_scaler.go]

    One [Reconcile] reads a session and moves it one step along its life
    cycle: Pending, Creating, Running, Deleting, Terminated.  Metrics and log
    lines are left out. *)
From S2P Require Import Prelude Prog GoStrings ApiTypes Kube CtrlClient.
Open Scope boxy_scope.

Record ReconcilerConfig := {
  rc_Namespace : string;
  rc_StatefulSetName : string;
  rc_HeadlessServiceName : string;
  rc_ControllerPoolName : string;
  rc_ControllerPort : Z;
  rc_MaxSandboxesPerCtrl : Z;
  rc_MaxControllerReplicas : Z;
  rc_MinControllerReplicas : Z;
  rc_TerminatedRetentionSec : Z;
  rc_ScaleDownCooldown : Z;
  rc_MTLSDisabled : bool;
  rc_Metrics : bool;
}.

(** The defaults [NewSessionReconciler] fills in. *)
Definition NewSessionReconciler (cfg : ReconcilerConfig) : ReconcilerConfig :=
  let dflt v d := if v <=? 0 then d else v in
  {| rc_Namespace := rc_Namespace cfg;
     rc_StatefulSetName := rc_StatefulSetName cfg;
     rc_HeadlessServiceName := rc_HeadlessServiceName cfg;
     rc_ControllerPoolName := rc_ControllerPoolName cfg;
     rc_ControllerPort := dflt (rc_ControllerPort cfg) 8080;
     rc_MaxSandboxesPerCtrl := dflt (rc_MaxSandboxesPerCtrl cfg) 20;
     rc_MaxControllerReplicas := dflt (rc_MaxControllerReplicas cfg) 50;
     rc_MinControllerReplicas := dflt (rc_MinControllerReplicas cfg) 1;
     rc_TerminatedRetentionSec := dflt (rc_TerminatedRetentionSec cfg) 3600;
     rc_ScaleDownCooldown := dflt (rc_ScaleDownCooldown cfg) (5 * Minute);
     rc_MTLSDisabled := rc_MTLSDisabled cfg;
     rc_Metrics := rc_Metrics cfg |}.

(** [ctrl.Result]. *)
Record Result := { r_Requeue : bool; r_RequeueAfter : Z }.

Definition no_requeue : Result := {| r_Requeue := false; r_RequeueAfter := 0 |}.

Definition requeue : Result := {| r_Requeue := true; r_RequeueAfter := 0 |}.

Definition requeue_after (d : Z) : Result := {| r_Requeue := false; r_RequeueAfter := d |}.

Definition failed (err : Err) : Result * error := (no_requeue, Some err).

Definition phase_of (s : Session) : string := st_Phase (se_Status s).

Definition address_of (s : Session) : string := st_ControllerAddress (se_Status s).

Section reconciler.
Context (cfg : ReconcilerConfig).

Definition sessionControllerURL (s : Session) : string :=
  (if rc_MTLSDisabled cfg then "http" else "https") +:+ "://" +:+ address_of s +:+ ":" +:+
  pretty (st_Port (se_Status s)).

(** The loop of [fetchSandboxConfig] over the listed items. *)
Fixpoint find_sandbox (sandboxID : string) (items : list Sandbox) : option Sandbox :=
  match items with
  | [] => None
  | sb :: items' =>
      if (sp_SandboxID (sb_Spec sb) =?s sandboxID) && not_deleted (sb_Meta sb) then Some sb
      else find_sandbox sandboxID items'
  end.

Definition fetchSandboxConfig (sandboxID : string) : prog (option Sandbox + Err) :=
  l <- call (ListSandboxes (rc_Namespace cfg) [(LabelSandboxID, sandboxID)]) ;;
  match l with
  | inr err => Ret (inr err)
  | inl items => Ret (inl (find_sandbox sandboxID items))
  end.

(** ** Placing a session *)

Definition podRunningReady (p : Pod) : bool :=
  if negb (pod_Phase p =?s "Running") then false
  else existsb (fun c => (c.1 =?s "Ready") && (c.2 =?s "True")) (pod_Conditions p).

(** A session that occupies a place on its controller. *)
Definition occupies (s : Session) : bool :=
  negb ((phase_of s =?s SandboxPhaseTerminated) || (phase_of s =?s SandboxPhaseDeleting)) &&
  negb (st_ControllerPod (se_Status s) =?s "").

(** [podCounts[name]]. *)
Definition podCount (sessions : list Session) (name : string) : Z :=
  llen (List.filter (fun s => occupies s && (st_ControllerPod (se_Status s) =?s name)) sessions).

Record best := { b_Pod : string; b_Addr : string; b_Remaining : Z }.

Definition pick_step (sessions : list Session) (b : best) (p : Pod) : best :=
  let name := om_Name (pod_Meta p) in
  if negb (not_deleted (pod_Meta p)) then b
  else if negb (podRunningReady p) then b
  else
    let remaining := rc_MaxSandboxesPerCtrl cfg - podCount sessions name in
    if remaining <=? 0 then b
    else if (b_Remaining b <? 0) || (remaining <? b_Remaining b) then
      {| b_Pod := name;
         b_Addr := name +:+ "." +:+ rc_HeadlessServiceName cfg +:+ "." +:+ rc_Namespace cfg +:+ ".svc";
         b_Remaining := remaining |}
    else b.

Definition pick_pod (sessions : list Session) (pods : list Pod) : best :=
  fold_left (pick_step sessions) pods {| b_Pod := ""; b_Addr := ""; b_Remaining := -1 |}.

Definition controller_label : labels := [("app", "boxy-controller")].

Definition current_replicas (sts : StatefulSet) : Z :=
  match sts_Replicas sts with Some n => n | None => 1 end.

Definition set_Replicas (n : Z) (sts : StatefulSet) : StatefulSet :=
  {| sts_Meta := sts_Meta sts; sts_Replicas := Some n; sts_ReadyReplicas := sts_ReadyReplicas sts |}.

Definition scaleStatefulSet (adjustFn : Z -> Z + Err) : prog error :=
  g <- call (GetStatefulSet (rc_Namespace cfg) (rc_StatefulSetName cfg)) ;;
  match g with
  | inr err => Ret (Some (ErrWrap "get statefulset: " err ""))
  | inl sts =>
      let current := current_replicas sts in
      match adjustFn current with
      | inr err => Ret (Some err)
      | inl desired =>
          if desired =? current then Ret None
          else
            u <- call (UpdateStatefulSet (set_Replicas desired sts)) ;;
            match u with
            | inr err => Ret (Some (ErrWrap "update statefulset replicas: " err ""))
            | inl _ => Ret None
            end
      end
  end.

(** The methods of [OperatorMetrics], which do nothing on a nil receiver. *)
Definition ScaledUp : prog unit := if rc_Metrics cfg then call (Observe scaleUpCount 1 []) else Ret tt.

Definition ScaledDown : prog unit := if rc_Metrics cfg then call (Observe scaleDownCount 1 []) else Ret tt.

Definition SetPoolState (readyReplicas activeSandboxes : Z) : prog unit :=
  if rc_Metrics cfg then
    call (Observe readyReplicasGauge readyReplicas []) ;;;
    call (Observe activeSandboxesGauge activeSandboxes [])
  else Ret tt.

Definition scaleUp : prog error :=
  e <- scaleStatefulSet (fun current =>
    if rc_MaxControllerReplicas cfg <=? current
    then inr (ErrMsg ("already at max controller replicas (" +:+ pretty (rc_MaxControllerReplicas cfg) +:+ ")"))
    else inl (to_int32 (current + 1))) ;;
  match e with
  | Some err => Ret (Some err)
  | None => ScaledUp ;;; Ret None
  end.

Definition assignController : prog (string * string + Err) :=
  pl <- call (ListPods (rc_Namespace cfg) controller_label) ;;
  match pl with
  | inr err => Ret (inr (ErrWrap "list controller pods: " err ""))
  | inl pods =>
      sl <- call (ListSessions (rc_Namespace cfg) []) ;;
      match sl with
      | inr err => Ret (inr (ErrWrap "list sessions: " err ""))
      | inl sessions =>
          let b := pick_pod sessions pods in
          if b_Pod b =?s "" then
            e <- scaleUp ;;
            match e with
            | Some err => Ret (inr (ErrWrap "no capacity and scale-up failed: " err ""))
            | None => Ret (inr (ErrMsg "no capacity; scaled up, will retry"))
            end
          else Ret (inl (b_Pod b, b_Addr b))
      end
  end.

(** ** The phases *)

(** [if err := r.Status().Update(ctx, session); err != nil { return ctrl.Result{}, err }],
    then [k] on the object as stored. *)
Definition update_status (s : Session) (k : Session -> prog (Result * error)) : prog (Result * error) :=
  u <- call (StatusUpdateSession s) ;;
  match u with
  | inr err => Ret (failed err)
  | inl s' => k s'
  end.

Definition config_missing (s : Session) : prog (Result * error) :=
  update_status (set_Message (text "sandbox config not found") (set_Phase SandboxPhaseDeleting s))
    (fun _ => Ret (requeue, None)).

(** [if !ContainsFinalizer(session) { AddFinalizer; Update }]. *)
Definition ensure_finalizer (s : Session) : prog (Session + Err) :=
  if ContainsFinalizer (se_Meta s) FinalizerSessionCleanup then Ret (inl s)
  else call (UpdateSession (set_Meta (AddFinalizer (se_Meta s) FinalizerSessionCleanup) s)).

Definition place (podName address : string) (now : Z) (sb : Sandbox) (s : Session) : Session :=
  let s := set_Controller (rc_ControllerPoolName cfg) podName address (rc_ControllerPort cfg)
             (set_Phase SandboxPhaseCreating s) in
  let s := set_CreatedAt now s in
  if 0 <? sp_TTLSeconds (sb_Spec sb) then set_ExpiresAt (now + seconds (sp_TTLSeconds (sb_Spec sb))) s
  else s.

Definition reconcilePending (s : Session) : prog (Result * error) :=
  f <- ensure_finalizer s ;;
  match f with
  | inr err => Ret (failed err)
  | inl s =>
      c <- fetchSandboxConfig (ss_SandboxID (se_Spec s)) ;;
      match c with
      | inr err => Ret (failed err)
      | inl None => config_missing s
      | inl (Some sb) =>
          a <- assignController ;;
          match a with
          | inr _ => Ret (requeue_after (5 * Second), None)
          | inl (podName, address) =>
              now <- call Now ;;
              update_status (place podName address now sb s) (fun _ => Ret (requeue, None))
          end
      end
  end.

Definition create_request (s : Session) (sb : Sandbox) : CreateSandboxReq :=
  let sp := sb_Spec sb in
  {| cr_SandboxID := ss_SessionID (se_Spec s); cr_Env := sp_Env sp;
     cr_AllowedBinaries := sp_AllowedBinaries sp; cr_VM := sp_VM sp; cr_Network := sp_Network sp;
     cr_Volumes := sp_Volumes sp; cr_Patches := sp_Patches sp; cr_TTLSeconds := sp_TTLSeconds sp;
     cr_SetupScript := sp_SetupScript sp; cr_TeardownScript := sp_TeardownScript sp;
     cr_ScriptEnv := sp_ScriptEnv sp |}.

(** The session sent back to Pending: pod and address are cleared. *)
Definition unplace (err : Err) (s : Session) : Session :=
  let st := se_Status s in
  set_Message (MLit "controller unreachable: " (MErr err MNil))
    (set_Controller (st_ControllerPool st) "" "" (st_Port st) (set_Phase SandboxPhasePending s)).

Definition reconcileCreating (s : Session) : prog (Result * error) :=
  c <- fetchSandboxConfig (ss_SandboxID (se_Spec s)) ;;
  match c with
  | inr err => Ret (failed err)
  | inl None => config_missing s
  | inl (Some sb) =>
      e <- CreateSandbox (sessionControllerURL s) (create_request s sb) ;;
      match e with
      | Some err =>
          if IsStaleRouteError (Some err) then
            update_status (unplace err s) (fun _ => Ret (requeue_after (2 * Second), None))
          else Ret (requeue_after (5 * Second), None)
      | None =>
          update_status (set_Message MNil (set_Phase SandboxPhaseRunning s)) (fun s =>
            match st_ExpiresAt (se_Status s) with
            | Some exp => now <- call Now ;; Ret (requeue_after (exp - now), None)
            | None => Ret (no_requeue, None)
            end)
      end
  end.

(** The end of [reconcileRunning], once the expiry is known. *)
Definition check_expiry (now expiry : Z) (s : Session) : prog (Result * error) :=
  if expiry <? now then
    update_status (set_Phase SandboxPhaseDeleting s) (fun _ => Ret (requeue, None))
  else
    now' <- call Now ;;
    Ret (requeue_after (expiry - now'), None).

Definition reconcileRunning (s : Session) : prog (Result * error) :=
  now <- call Now ;;
  match st_ExpiresAt (se_Status s) with
  | None => Ret (requeue_after (5 * Minute), None)
  | Some expiry =>
      match st_LastExecAt (se_Status s) with
      | None => check_expiry now expiry s
      | Some lastExec =>
          c <- fetchSandboxConfig (ss_SandboxID (se_Spec s)) ;;
          match c with
          | inl (Some sb) =>
              let slidingExpiry := lastExec + seconds (sp_TTLSeconds (sb_Spec sb)) in
              if (0 <? sp_TTLSeconds (sb_Spec sb)) && (expiry <? slidingExpiry) then
                update_status (set_ExpiresAt slidingExpiry s) (check_expiry now slidingExpiry)
              else check_expiry now expiry s
          | _ => check_expiry now expiry s
          end
      end
  end.

(** Ask the controller to delete the sandbox of a session; [false] when the
    request failed and must be retried. *)
Definition release (s : Session) : prog bool :=
  e <- DeleteSandbox (sessionControllerURL s) {| dr_SandboxID := ss_SessionID (se_Spec s) |} ;;
  match e with
  | Some err => Ret (IsStaleRouteError (Some err))
  | None => Ret true
  end.

Definition reconcileDeleting (s : Session) : prog (Result * error) :=
  ok <- (if negb (address_of s =?s "") then release s else Ret true) ;;
  if ok : bool then
    now <- call Now ;;
    update_status (set_Message MNil (set_TerminatedAt now (set_Phase SandboxPhaseTerminated s))) (fun _ =>
      let retention := seconds (rc_TerminatedRetentionSec cfg) in
      if retention <=? 0 then Ret (requeue, None) else Ret (requeue_after retention, None))
  else Ret (requeue_after (5 * Second), None).

(** The last part of [reconcileTerminated]. *)
Definition remove_terminated (s : Session) : prog (Result * error) :=
  e <- call (DeleteSession s) ;;
  match e with
  | Some err => if IsNotFound err then Ret (no_requeue, None) else Ret (failed err)
  | None => Ret (no_requeue, None)
  end.

Definition reconcileTerminated (s : Session) : prog (Result * error) :=
  if bool_decide (map_get "boxy.dev/retain" (om_Annotations (se_Meta s)) = Some "true")
  then Ret (no_requeue, None)
  else
    let retention := seconds (rc_TerminatedRetentionSec cfg) in
    match st_TerminatedAt (se_Status s) with
    | Some t =>
        if 0 <? retention then
          now <- call Now ;;
          let elapsed := now - t in
          if elapsed <? retention then Ret (requeue_after (retention - elapsed), None)
          else remove_terminated s
        else remove_terminated s
    | None => remove_terminated s
    end.

Definition handleDeletion (s : Session) : prog (Result * error) :=
  if negb (ContainsFinalizer (se_Meta s) FinalizerSessionCleanup) then Ret (no_requeue, None)
  else
    ok <- (if ((phase_of s =?s SandboxPhaseRunning) || (phase_of s =?s SandboxPhaseCreating)) &&
              negb (address_of s =?s "")
           then release s else Ret true) ;;
    if ok : bool then
      u <- call (UpdateSession (set_Meta (RemoveFinalizer (se_Meta s) FinalizerSessionCleanup) s)) ;;
      match u with
      | inr err => Ret (failed err)
      | inl _ => Ret (no_requeue, None)
      end
    else Ret (requeue_after (5 * Second), None).

Definition Reconcile (ns name : string) : prog (Result * error) :=
  g <- call (GetSession ns name) ;;
  match g with
  | inr err => if IsNotFound err then Ret (no_requeue, None) else Ret (failed err)
  | inl s =>
      if negb (not_deleted (se_Meta s)) then handleDeletion s
      else if (phase_of s =?s "") || (phase_of s =?s SandboxPhasePending) then reconcilePending s
      else if phase_of s =?s SandboxPhaseCreating then reconcileCreating s
      else if phase_of s =?s SandboxPhaseRunning then reconcileRunning s
      else if phase_of s =?s SandboxPhaseDeleting then reconcileDeleting s
      else if phase_of s =?s SandboxPhaseTerminated then reconcileTerminated s
      else Ret (no_requeue, None)
  end.

(** ** Scaling down *)

(** [sort.Slice] by decreasing name. *)
Definition name_gt (a b : Pod) : bool :=
  match String.compare (om_Name (pod_Meta a)) (om_Name (pod_Meta b)) with Gt => true | _ => false end.

Fixpoint insert_pod (p : Pod) (l : list Pod) : list Pod :=
  match l with
  | [] => [p]
  | q :: l' => if name_gt q p then q :: insert_pod p l' else p :: l
  end.

Definition sort_pods (l : list Pod) : list Pod := foldr insert_pod [] l.

Fixpoint scale_down_loop (sessions : list Session) (pods : list Pod) (sts : StatefulSet) (current : Z)
    : prog error :=
  match pods with
  | [] => Ret None
  | p :: pods' =>
      if current <=? rc_MinControllerReplicas cfg then Ret None
      else if 0 <? podCount sessions (om_Name (pod_Meta p)) then scale_down_loop sessions pods' sts current
      else
        now <- call Now ;;
        if now <? om_CreationTimestamp (pod_Meta p) + rc_ScaleDownCooldown cfg
        then scale_down_loop sessions pods' sts current
        else
          let desired := to_int32 (current - 1) in
          u <- call (UpdateStatefulSet (set_Replicas desired sts)) ;;
          match u with
          | inr err => Ret (Some (ErrWrap "scale down: " err ""))
          | inl sts' => ScaledDown ;;; scale_down_loop sessions pods' sts' desired
          end
  end.

Definition tryScaleDown : prog error :=
  g <- call (GetStatefulSet (rc_Namespace cfg) (rc_StatefulSetName cfg)) ;;
  match g with
  | inr err => Ret (Some (ErrWrap "get statefulset: " err ""))
  | inl sts =>
      let current := current_replicas sts in
      if current <=? rc_MinControllerReplicas cfg then Ret None
      else
        pl <- call (ListPods (rc_Namespace cfg) controller_label) ;;
        match pl with
        | inr err => Ret (Some (ErrWrap "list controller pods: " err ""))
        | inl pods =>
            sl <- call (ListSessions (rc_Namespace cfg) []) ;;
            match sl with
            | inr err => Ret (Some (ErrWrap "list sessions: " err ""))
            | inl sessions => scale_down_loop sessions (sort_pods pods) sts current
            end
        end
  end.

(** [RunScaleDownLoop], for at most [n] rounds; a failed check is only logged. *)
Definition RunScaleDownLoop (n : nat) : prog (option unit) :=
  loop n (fun _ : unit =>
    t <- call Tick ;;
    if t : bool then tryScaleDown ;;; Ret (inl tt) else Ret (inr tt)) tt.

End reconciler.

(** ** Specification: the life cycle of a session *)

Definition unplaced (p : string) : Prop := p = "" \/ p = SandboxPhasePending.

(** The moves a reconciliation may write. *)
Inductive phase_step : string -> string -> Prop :=
| step_place p : unplaced p -> phase_step p SandboxPhaseCreating
| step_orphan p : unplaced p \/ p = SandboxPhaseCreating -> phase_step p SandboxPhaseDeleting
| step_start : phase_step SandboxPhaseCreating SandboxPhaseRunning
| step_reset : phase_step SandboxPhaseCreating SandboxPhasePending
| step_extend : phase_step SandboxPhaseRunning SandboxPhaseRunning
| step_expire : phase_step SandboxPhaseRunning SandboxPhaseDeleting
| step_end : phase_step SandboxPhaseDeleting SandboxPhaseTerminated.

(** A write: the session it was computed from (the one last read or stored),
    whether the controller has confirmed since the read that the session's
    sandbox is gone, and what was written. *)
Record Write := { wr_from : option Session; wr_freed : bool; wr_to : Session }.

Record Monitor := {
  mo_cur : option Session;
  mo_freed : bool;
  mo_status : list Write;
  mo_meta : list Write;
}.

Definition start : Monitor := {| mo_cur := None; mo_freed := false; mo_status := []; mo_meta := [] |}.

(** The controller deleted the sandbox, does not know it, or is unreachable. *)
Definition confirms {A} (a : HttpAnswer A) : bool :=
  match a with
  | NoResponse _ => true
  | HttpResponse status _ _ => (status <? 300) || (status =? 404)
  end.

(** A delete request for the sandbox of [s], at the address of [s]. *)
Definition asks_release (cfg : ReconcilerConfig) (cur : option Session) (url : string) (r : DeleteSandboxReq) : bool :=
  match cur with
  | Some s => (url =?s sessionControllerURL cfg s +:+ "/v1/sandboxes") && (dr_SandboxID r =?s ss_SessionID (se_Spec s))
  | None => false
  end.

(** Records the writes; every event may be answered in any way. *)
Definition session_env (cfg : ReconcilerConfig) : env Monitor := fun e m =>
  match e return KAnswer e -> Monitor -> Prop with
  | GetSession _ _ => fun a m' => m' = match a with
      | inl s => {| mo_cur := Some s; mo_freed := false; mo_status := mo_status m; mo_meta := mo_meta m |}
      | inr _ => m
      end
  | StatusUpdateSession s => fun a m' => m' =
      {| mo_cur := match a with inl _ => Some s | inr _ => mo_cur m end; mo_freed := mo_freed m;
         mo_status := mo_status m ++ [{| wr_from := mo_cur m; wr_freed := mo_freed m; wr_to := s |}];
         mo_meta := mo_meta m |}
  | UpdateSession s => fun a m' => m' =
      {| mo_cur := mo_cur m; mo_freed := mo_freed m; mo_status := mo_status m;
         mo_meta := mo_meta m ++ [{| wr_from := mo_cur m; wr_freed := mo_freed m; wr_to := s |}] |}
  | Http url (CRDelete r) => fun a m' => m' =
      if asks_release cfg (mo_cur m) url r
      then {| mo_cur := mo_cur m; mo_freed := confirms a; mo_status := mo_status m; mo_meta := mo_meta m |}
      else m
  | _ => fun _ m' => m' = m
  end.

Definition status_write_ok (w : Write) : Prop :=
  exists s, wr_from w = Some s /\ not_deleted (se_Meta s) = true /\
    phase_step (phase_of s) (phase_of (wr_to w)) /\
    (phase_of (wr_to w) = SandboxPhaseTerminated -> address_of s <> "" -> wr_freed w = true).

(** A metadata write adds the finalizer to a live session, or removes it from
    one that is being deleted and whose sandbox, if it was placed, is gone. *)
Definition meta_write_ok (w : Write) : Prop :=
  exists s, wr_from w = Some s /\
    if ContainsFinalizer (se_Meta (wr_to w)) FinalizerSessionCleanup
    then not_deleted (se_Meta s) = true
    else not_deleted (se_Meta s) = false /\
         (phase_of s = SandboxPhaseRunning \/ phase_of s = SandboxPhaseCreating ->
          address_of s <> "" -> wr_freed w = true).

Definition writes_ok (m : Monitor) : Prop :=
  Forall status_write_ok (mo_status m) /\ Forall meta_write_ok (mo_meta m).

(** Events that neither write nor release a session. *)
Definition neutral (e : KEvent) : Prop :=
  match e with
  | ListSandboxes _ _ | ListPods _ _ | ListSessions _ _ | GetStatefulSet _ _ | UpdateStatefulSet _
  | Now | Http _ (CRCreate _) | DeleteSession _ | Observe _ _ _ => True
  | _ => False
  end.

(** ** Lemmas *)

Lemma neutral_inert (cfg : ReconcilerConfig) (e : KEvent) : neutral e -> inert (session_env cfg) e.
Proof. intros He s x s'. destruct e; try done. by destruct r. Qed.

Lemma fetch_neutral (cfg : ReconcilerConfig) (id : string) : only neutral (fetchSandboxConfig cfg id).
Proof. split; [done|]. by intros []. Qed.

Lemma scaleStatefulSet_neutral (cfg : ReconcilerConfig) (f : Z -> Z + Err) :
  only neutral (scaleStatefulSet cfg f).
Proof.
  split; [done|]. intros [sts|err]; [|done]. cbn [bind]. case_goal; [|done]. case_goal; [done|].
  split; [done|]. by intros [].
Qed.

(** Metrics are only observations. *)
Definition observing (e : KEvent) : Prop := match e with Observe _ _ _ => True | _ => False end.

Lemma operator_metrics_observe (cfg : ReconcilerConfig) :
  only observing (ScaledUp cfg) /\ only observing (ScaledDown cfg) /\
  forall ready active, only observing (SetPoolState cfg ready active).
Proof. unfold ScaledUp, ScaledDown, SetPoolState. by destruct (rc_Metrics cfg). Qed.

(** A scale-up performs only what scaling and observing do. *)
Lemma scaleUp_only (cfg : ReconcilerConfig) (P : KEvent -> Prop) :
  (forall f, only P (scaleStatefulSet cfg f)) -> (forall e, observing e -> P e) -> only P (scaleUp cfg).
Proof.
  intros Hs Ho. apply only_bind; [apply Hs|]. intros [err|]; [done|].
  apply only_bind; [|done]. eapply (@only_mono KSig); [exact Ho|apply operator_metrics_observe].
Qed.

Lemma assign_neutral (cfg : ReconcilerConfig) : only neutral (assignController cfg).
Proof.
  split; [done|]. intros [pods|err]; [|done]. split; [done|]. intros [ss|err]; [|done].
  cbn [bind]. destruct (_ =?s ""); [|done].
  apply only_bind; [|by intros []]. apply scaleUp_only; [apply scaleStatefulSet_neutral|by intros []].
Qed.

Lemma CreateSandbox_neutral (url : string) (r : CreateSandboxReq) : only neutral (CreateSandbox url r).
Proof. split; [done|]. intros [msg|st t out]; [done|]. cbn [bind]. by destruct (300 <=? st). Qed.

Lemma wp_neutral {A B} (cfg : ReconcilerConfig) (p : prog A) (f : A -> prog B) (m : Monitor)
    (Q : B -> Monitor -> Prop) :
  only neutral p -> (forall a, wp (session_env cfg) (f a) m Q) -> wp (session_env cfg) (bind p f) m Q.
Proof.
  intros Hp Hf. eapply wp_bind_spec; [apply (wp_only (session_env cfg) neutral); [done|apply neutral_inert]|].
  by intros a m' ->.
Qed.
#[export] Hint Resolve fetch_neutral assign_neutral CreateSandbox_neutral : boxy.

(** The monitor of a session that was read and not yet written. *)
Definition reading (s : Session) (freed : bool) : Monitor :=
  {| mo_cur := Some s; mo_freed := freed; mo_status := []; mo_meta := [] |}.

Lemma release_mon (cfg : ReconcilerConfig) (s : Session) :
  wp (session_env cfg) (release cfg s) (reading s false) (fun ok m =>
    exists freed, m = reading s freed /\ (ok = true -> freed = true)).
Proof.
  unfold release. apply wp_bind, DeleteSandbox_answer. intros a m' Hm. simpl in Hm.
  rewrite !String.eqb_refl in Hm. simpl in Hm. subst m'.
  assert (Hc : confirms a = true <-> gone a \/ accepted a).
  { destruct a as [|st t out]; simpl; [tauto|]. rewrite orb_true_iff, Z.ltb_lt, Z.eqb_eq. tauto. }
  destruct (reply_error _ _ a) as [err|] eqn:Hr; exists (confirms a); (split; [done|]).
  - rewrite <- Hr, reply_error_stale. tauto.
  - intros _. apply Hc. right. by apply (reply_error_None "DELETE" (sessionControllerURL cfg s +:+ "/v1/sandboxes")).
Qed.

(** A single status write from the session that was read, then no more. *)
Lemma update_status_mon (cfg : ReconcilerConfig) (s s' : Session) (freed : bool)
    (metas : list Write) (k : Session -> prog (Result * error)) :
  status_write_ok {| wr_from := Some s; wr_freed := freed; wr_to := s' |} ->
  Forall meta_write_ok metas ->
  (forall s'', only neutral (k s'')) ->
  wp (session_env cfg) (update_status s' k)
    {| mo_cur := Some s; mo_freed := freed; mo_status := []; mo_meta := metas |} (fun _ m => writes_ok m).
Proof.
  intros Hw Hm Hk. unfold update_status. cbn [wp bind call]. intros [s''|err] m' ->; [|split; [by constructor|done]].
  eapply wp_mono; [|apply (wp_only (session_env cfg) neutral); [apply Hk|apply neutral_inert]].
  intros a m' ->. split; [by constructor|done].
Qed.

Lemma AddFinalizer_contains (m : ObjectMeta) (f : string) : ContainsFinalizer (AddFinalizer m f) f = true.
Proof.
  unfold AddFinalizer. destruct (ContainsFinalizer m f) eqn:H; [done|].
  apply ContainsFinalizer_spec. simpl. set_solver.
Qed.

Lemma RemoveFinalizer_not_contains (m : ObjectMeta) (f : string) :
  ContainsFinalizer (RemoveFinalizer m f) f = false.
Proof.
  apply not_true_is_false. rewrite ContainsFinalizer_spec, RemoveFinalizer_spec. by intros [? _].
Qed.

Section phases.
Context (cfg : ReconcilerConfig) (s : Session).
Hypothesis live : not_deleted (se_Meta s) = true.

(** A status write to a phase other than Terminated. *)
Lemma status_write_other (freed : bool) (s' : Session) :
  phase_step (phase_of s) (phase_of s') -> phase_of s' <> SandboxPhaseTerminated ->
  status_write_ok {| wr_from := Some s; wr_freed := freed; wr_to := s' |}.
Proof. intros Hs Ht. exists s. split_and!; [done..|]. intros ?. done. Qed.

Lemma config_missing_mon (s' : Session) (metas : list Write) :
  unplaced (phase_of s) \/ phase_of s = SandboxPhaseCreating -> Forall meta_write_ok metas ->
  wp (session_env cfg) (config_missing s')
    {| mo_cur := Some s; mo_freed := false; mo_status := []; mo_meta := metas |} (fun _ m => writes_ok m).
Proof.
  intros Hp Hm. apply update_status_mon; [|done|done].
  apply status_write_other; [by constructor|done].
Qed.

Lemma pending_mon :
  unplaced (phase_of s) ->
  wp (session_env cfg) (reconcilePending cfg s) (reading s false) (fun _ m => writes_ok m).
Proof.
  intros Hp. unfold reconcilePending. apply (wp_bind_spec (session_env cfg) _ _ _ (fun _ m =>
    exists metas, m = {| mo_cur := Some s; mo_freed := false; mo_status := []; mo_meta := metas |} /\
      Forall meta_write_ok metas)).
  - unfold ensure_finalizer. destruct (ContainsFinalizer _ _) eqn:Hf; [by exists []|].
    cbn [wp call]. intros a m ->. eexists [_]. split; [reflexivity|]. constructor; [|constructor].
    exists s. simpl. rewrite AddFinalizer_contains. done.
  - intros f m (metas & -> & Hm). destruct f as [s1|err]; [|split; [constructor|done]].
    apply wp_neutral; [auto with boxy|]. intros [[sb|]|err]; [|by apply config_missing_mon; [left|]|by split].
    apply wp_neutral; [auto with boxy|]. intros [[pod addr]|err]; [|by split].
    cbn [wp bind call]. intros now ? ->. apply update_status_mon; [|done|done].
    apply status_write_other; unfold place; simpl; destruct (0 <? _); by try constructor.
Qed.

Lemma creating_mon :
  phase_of s = SandboxPhaseCreating ->
  wp (session_env cfg) (reconcileCreating cfg s) (reading s false) (fun _ m => writes_ok m).
Proof.
  intros Hp. unfold reconcileCreating.
  apply wp_neutral; [auto with boxy|]. intros [[sb|]|err]; [|by apply config_missing_mon; [right|]|by split].
  apply wp_neutral; [auto with boxy|]. intros [err|].
  - destruct (IsStaleRouteError _); [|by split].
    apply update_status_mon; [|done|done]. apply status_write_other; [|done]. rewrite Hp. constructor.
  - apply update_status_mon; [|done|].
    + apply status_write_other; [|done]. rewrite Hp. constructor.
    + intros s''. by destruct (st_ExpiresAt _).
Qed.

Lemma check_expiry_mon (now expiry : Z) (s1 s2 : Session) (ws : list Write) :
  not_deleted (se_Meta s1) = true -> phase_of s1 = SandboxPhaseRunning -> Forall status_write_ok ws ->
  wp (session_env cfg) (check_expiry now expiry s2)
    {| mo_cur := Some s1; mo_freed := false; mo_status := ws; mo_meta := [] |} (fun _ m => writes_ok m).
Proof.
  intros Hl Hp Hw. unfold check_expiry, update_status. destruct (expiry <? now).
  - cbn [wp bind call]. intros [s3|err] m ->; (split; [|done]); apply Forall_app; (split; [done|]);
      (constructor; [|done]); exists s1; (split_and!; [done|done| |done]); simpl; rewrite Hp; apply step_expire.
  - cbn [wp bind call]. intros n m ->. by split.
Qed.

Lemma running_mon :
  phase_of s = SandboxPhaseRunning ->
  wp (session_env cfg) (reconcileRunning cfg s) (reading s false) (fun _ m => writes_ok m).
Proof.
  intros Hp. unfold reconcileRunning. cbn [wp bind call]. intros now ? ->.
  destruct (st_ExpiresAt _) as [expiry|]; [|by split].
  destruct (st_LastExecAt _) as [lastExec|]; [|by apply check_expiry_mon].
  apply wp_neutral; [auto with boxy|]. intros [[sb|]|err]; [|by apply check_expiry_mon..].
  destruct (_ && _); [|by apply check_expiry_mon].
  assert (status_write_ok {| wr_from := Some s; wr_freed := false;
    wr_to := set_ExpiresAt (lastExec + seconds (sp_TTLSeconds (sb_Spec sb))) s |}) as Hw.
  { assert (forall t, phase_of (set_ExpiresAt t s) = phase_of s) as He by done.
    apply status_write_other; rewrite He, Hp; [apply step_extend|done]. }
  unfold update_status at 1. cbn [wp bind call]. intros [s1|err] m ->.
  - by apply check_expiry_mon; [| |constructor].
  - split; [by constructor|done].
Qed.

Lemma deleting_mon :
  phase_of s = SandboxPhaseDeleting ->
  wp (session_env cfg) (reconcileDeleting cfg s) (reading s false) (fun _ m => writes_ok m).
Proof.
  intros Hp. unfold reconcileDeleting. apply (wp_bind_spec (session_env cfg) _ _ _ (fun ok m =>
    exists freed, m = reading s freed /\ (ok = true -> address_of s <> "" -> freed = true))).
  - destruct (negb _) eqn:Ha; bool_hyps; [|by exists false].
    eapply wp_mono; [|apply release_mon]. intros ok m (freed & -> & Hok). exists freed. auto.
  - intros ok m (freed & -> & Hok). destruct ok; [|by split].
    cbn [wp bind call]. intros now ? ->. apply update_status_mon; [|done|].
    + exists s. split_and!; [done|done| |auto]. simpl. rewrite Hp. constructor.
    + intros s''. by destruct (_ <=? 0).
Qed.

Lemma terminated_mon :
  wp (session_env cfg) (reconcileTerminated cfg s) (reading s false) (fun _ m => writes_ok m).
Proof.
  eapply wp_mono; [|apply (wp_only (session_env cfg) neutral); [|apply neutral_inert]].
  { intros a m ->. by split. }
  assert (only neutral (remove_terminated s)) as Hr.
  { split; [done|]. intros [err|]; [|done]. cbn [bind]. by destruct (IsNotFound err). }
  unfold reconcileTerminated. destruct (bool_decide _); [done|]. destruct (st_TerminatedAt _); [|done].
  destruct (0 <? _); [|done]. split; [done|]. intros now. cbn [bind]. by destruct (_ <? _).
Qed.

End phases.

Lemma deletion_mon (cfg : ReconcilerConfig) (s : Session) :
  not_deleted (se_Meta s) = false ->
  wp (session_env cfg) (handleDeletion cfg s) (reading s false) (fun _ m => writes_ok m).
Proof.
  intros Hd. unfold handleDeletion. destruct (negb _); [by split|].
  apply (wp_bind_spec (session_env cfg) _ _ _ (fun ok m => exists freed, m = reading s freed /\
    (ok = true -> phase_of s = SandboxPhaseRunning \/ phase_of s = SandboxPhaseCreating ->
     address_of s <> "" -> freed = true))).
  - destruct (_ && _) eqn:Hc.
    + eapply wp_mono; [|apply release_mon]. intros ok m (freed & -> & Hok). exists freed. auto.
    + exists false. split; [done|]. intros _ Hp Ha. exfalso.
      apply String.eqb_neq in Ha. rewrite Ha in Hc. simpl in Hc. rewrite andb_true_r in Hc. bool_hyps. tauto.
  - intros ok m (freed & -> & Hok). destruct ok; [|by split].
    cbn [wp bind call]. intros [s'|err] m ->; (split; [done|]); (constructor; [|done]); exists s;
      (split; [done|]); simpl; rewrite RemoveFinalizer_not_contains; auto.
Qed.

Lemma reconcile_mon (cfg : ReconcilerConfig) (ns name : string) :
  wp (session_env cfg) (Reconcile cfg ns name) start (fun _ m => writes_ok m).
Proof.
  unfold Reconcile. cbn [wp bind call]. intros [s|err] m ->; [|by destruct (IsNotFound err)].
  change (wp (session_env cfg) ?p ?m ?Q) with (wp (session_env cfg) p (reading s false) Q).
  destruct (not_deleted (se_Meta s)) eqn:Hl; cbn [negb]; [|by apply deletion_mon].
  destruct (_ || _) eqn:H1.
  { apply pending_mon; [done|]. apply orb_true_iff in H1 as [?|?]; bool_hyps; [by left|by right]. }
  destruct (_ =?s SandboxPhaseCreating) eqn:H2; bool_hyps; [by apply creating_mon|].
  destruct (_ =?s SandboxPhaseRunning) eqn:H3; bool_hyps; [by apply running_mon|].
  destruct (_ =?s SandboxPhaseDeleting) eqn:H4; bool_hyps; [by apply deleting_mon|].
  destruct (_ =?s SandboxPhaseTerminated) eqn:H5; bool_hyps; [by apply terminated_mon|by split].
Qed.

(** ** Best fit *)

Section placement.
Context (cfg : ReconcilerConfig) (sessions : list Session).

Definition remaining (p : Pod) : Z :=
  rc_MaxSandboxesPerCtrl cfg - podCount sessions (om_Name (pod_Meta p)).

Definition eligible (p : Pod) : Prop :=
  not_deleted (pod_Meta p) = true /\ podRunningReady p = true /\ 0 < remaining p.

Definition chosen (p : Pod) : best :=
  {| b_Pod := om_Name (pod_Meta p);
     b_Addr := om_Name (pod_Meta p) +:+ "." +:+ rc_HeadlessServiceName cfg +:+ "." +:+ rc_Namespace cfg +:+ ".svc";
     b_Remaining := remaining p |}.

Definition no_pod : best := {| b_Pod := ""; b_Addr := ""; b_Remaining := -1 |}.

(** [b] is the first pod of the list with the least room among the eligible
    ones, or none is eligible. *)
Definition best_of (pods : list Pod) (b : best) : Prop :=
  (b = no_pod /\ Forall (fun p => ~ eligible p) pods) \/
  exists pre p post, pods = pre ++ p :: post /\ b = chosen p /\ eligible p /\
    Forall (fun q => eligible q -> remaining p < remaining q) pre /\
    Forall (fun q => eligible q -> remaining p <= remaining q) post.

Lemma pick_step_spec (b : best) (p : Pod) :
  pick_step cfg sessions b p = b /\ ~ (eligible p /\ (b_Remaining b < 0 \/ remaining p < b_Remaining b)) \/
  pick_step cfg sessions b p = chosen p /\ eligible p /\ (b_Remaining b < 0 \/ remaining p < b_Remaining b).
Proof.
  unfold pick_step, eligible. fold (remaining p).
  destruct (not_deleted _) eqn:Hd; simpl; [|left; split; [done|]; naive_solver].
  destruct (podRunningReady p) eqn:Hr; simpl; [|left; split; [done|]; naive_solver].
  destruct (remaining p <=? 0) eqn:H0; bool_hyps; [left; split; [done|]; lia|].
  destruct (_ || _) eqn:Hb.
  - right. apply orb_true_iff in Hb. rewrite !Z.ltb_lt in Hb. split_and!; done.
  - left. bool_hyps. split; [done|]. lia.
Qed.

Lemma pick_pod_snoc (pods : list Pod) (p : Pod) :
  pick_pod cfg sessions (pods ++ [p]) = pick_step cfg sessions (pick_pod cfg sessions pods) p.
Proof. unfold pick_pod. by rewrite fold_left_app. Qed.

Lemma pick_pod_best (pods : list Pod) : best_of pods (pick_pod cfg sessions pods).
Proof.
  induction pods as [|p pods IH] using rev_ind; [left; by split|]. rewrite pick_pod_snoc.
  destruct (pick_step_spec (pick_pod cfg sessions pods) p) as [[-> Hno]|(-> & Hel & Hlt)].
  - destruct IH as [[Hb Hall]|(pre & q & post & Hp & Hb & Hq & Hpre & Hpost)].
    + left. split; [done|]. apply Forall_app. split; [done|]. constructor; [|done].
      intros Hel. apply Hno. split; [done|]. rewrite Hb. simpl. lia.
    + right. exists pre, q, (post ++ [p]). split_and!; [|done..|].
      * by rewrite Hp, <- app_assoc.
      * apply Forall_app. split; [done|]. constructor; [|done]. intros Hel. rewrite Hb in Hno. simpl in Hno.
        destruct (decide (remaining q <= remaining p)); [done|]. exfalso. apply Hno. split; [done|]. right. lia.
  - right. exists pods, p, []. split_and!; try done.
    destruct IH as [[Hb Hall]|(pre & q & post & Hp & Hb & Hq & Hpre & Hpost)].
    + eapply Forall_impl; [done|]. naive_solver.
    + rewrite Hb in Hlt. simpl in Hlt. destruct Hq as (_ & _ & Hq).
      rewrite Hp. apply Forall_app. split.
      { eapply Forall_impl; [exact Hpre|]. simpl. intros r Hr He. specialize (Hr He). lia. }
      constructor; [intros _; lia|]. eapply Forall_impl; [exact Hpost|]. simpl. intros r Hr He. specialize (Hr He). lia.
Qed.

End placement.
