(* ===== verification/SessionProofs.v ===== *)
(** * What the session reconciler guarantees

    The capacity of the controllers against a store of sessions, the bounds of
    scaling, the expiry of a running session, and the life-cycle theorems that
    follow from the write monitor of [SessionReconciler]. *)
From S2P Require Import Prelude Prog GoStrings ApiTypes Kube CtrlClient SessionReconciler.
Open Scope boxy_scope.

(** ** The store of sessions

    What the API server promises a single writer: a read returns the stored
    object, a list all of them, an update of the main resource keeps the stored
    status, a status update stores the status; any call may also fail. *)
Definition name_of (s : Session) : string := om_Name (se_Meta s).

Definition stored (m : gmap string Session) : list Session := (map_to_list m).*2.

Definition store_env : env (gmap string Session) := fun e m =>
  match e return KAnswer e -> gmap string Session -> Prop with
  | GetSession _ name => fun a m' => m' = m /\ match a with inl s => m !! name = Some s | inr _ => True end
  | ListSessions _ _ => fun a m' => m' = m /\ match a with inl l => Permutation l (stored m) | inr _ => True end
  | UpdateSession s => fun a m' =>
      match a with
      | inl s' => (exists s0, m !! name_of s = Some s0 /\ se_Status s' = se_Status s0) /\ name_of s' = name_of s /\
                  (m' = <[name_of s := s']> m \/ m' = delete (name_of s) m)
      | inr _ => m' = m
      end
  | StatusUpdateSession s => fun a m' =>
      match a with
      | inl s' => is_Some (m !! name_of s) /\ se_Status s' = se_Status s /\ name_of s' = name_of s /\
                  m' = <[name_of s := s']> m
      | inr _ => m' = m
      end
  | DeleteSession s => fun a m' => match a with None => m' = delete (name_of s) m \/ m' = m | Some _ => m' = m end
  | _ => fun _ m' => m' = m
  end.

(** Sessions are stored under their name, and no pod holds more than the limit. *)
Definition within_capacity (cfg : ReconcilerConfig) (m : gmap string Session) : Prop :=
  map_Forall (fun k s => name_of s = k) m /\
  forall pod, podCount (stored m) pod <= rc_MaxSandboxesPerCtrl cfg.

(** ** Counting sessions *)

Definition contrib (s : Session) (pod : string) : Z :=
  if occupies s && (st_ControllerPod (se_Status s) =?s pod) then 1 else 0.

Lemma podCount_cons (s : Session) (l : list Session) (pod : string) :
  podCount (s :: l) pod = contrib s pod + podCount l pod.
Proof. unfold podCount, contrib, llen. simpl. destruct (_ && _); simpl; lia. Qed.

(** The order in which sessions are listed does not matter. *)
#[export] Instance podCount_Proper : Proper (Permutation ==> eq ==> eq) podCount.
Proof. intros l k Hp pod ? <-. induction Hp; rewrite ?podCount_cons; try lia. Qed.

Lemma podCount_insert (m : gmap string Session) (k : string) (s : Session) (pod : string) :
  podCount (stored (<[k := s]> m)) pod = contrib s pod + podCount (stored (delete k m)) pod.
Proof.
  unfold stored. rewrite <- insert_delete_eq, map_to_list_insert by apply lookup_delete_eq. simpl.
  apply podCount_cons.
Qed.

Lemma podCount_split (m : gmap string Session) (k : string) (s : Session) (pod : string) :
  m !! k = Some s -> podCount (stored m) pod = contrib s pod + podCount (stored (delete k m)) pod.
Proof. intros Hk. rewrite <- (insert_id m k s Hk) at 1. apply podCount_insert. Qed.

Lemma contrib_nonneg (s : Session) (pod : string) : 0 <= contrib s pod.
Proof. unfold contrib. destruct (_ && _); lia. Qed.

Lemma podCount_delete (m : gmap string Session) (k pod : string) :
  podCount (stored (delete k m)) pod <= podCount (stored m) pod.
Proof.
  destruct (m !! k) as [s|] eqn:Hk; [|by rewrite delete_id].
  rewrite (podCount_split m k s) by done. pose proof (contrib_nonneg s pod). lia.
Qed.

(** Storing a session that takes no more room keeps the capacity. *)
Lemma within_replace (cfg : ReconcilerConfig) (m : gmap string Session) (s0 s : Session) :
  within_capacity cfg m -> m !! name_of s = Some s0 ->
  (forall pod, contrib s pod <= contrib s0 pod) -> within_capacity cfg (<[name_of s := s]> m).
Proof.
  intros [Hn Hc] Hk Hle. split; [by apply map_Forall_insert_2|].
  intros pod. rewrite podCount_insert. specialize (Hc pod). specialize (Hle pod).
  rewrite (podCount_split m _ s0) in Hc by done. lia.
Qed.

Lemma within_delete (cfg : ReconcilerConfig) (m : gmap string Session) (k : string) :
  within_capacity cfg m -> within_capacity cfg (delete k m).
Proof.
  intros [Hn Hc]. split; [by apply map_Forall_delete|].
  intros pod. pose proof (podCount_delete m k pod). specialize (Hc pod). lia.
Qed.

(** A session placed on a pod with room. *)
Lemma within_place (cfg : ReconcilerConfig) (m : gmap string Session) (s : Session) (pod : string) :
  within_capacity cfg m -> st_ControllerPod (se_Status s) = pod ->
  podCount (stored m) pod < rc_MaxSandboxesPerCtrl cfg -> within_capacity cfg (<[name_of s := s]> m).
Proof.
  intros [Hn Hc] Hp Hlt. split; [by apply map_Forall_insert_2|].
  intros pod'. rewrite podCount_insert. pose proof (podCount_delete m (name_of s) pod').
  specialize (Hc pod'). unfold contrib. rewrite Hp.
  destruct (pod =?s pod') eqn:He; bool_hyps; [subst pod'|]; destruct (occupies s); simpl; lia.
Qed.

Lemma contrib_eq (s s' : Session) (pod : string) :
  se_Status s = se_Status s' -> contrib s pod = contrib s' pod.
Proof. intros H. unfold contrib, occupies, phase_of. by rewrite H. Qed.

Lemma contrib_ended (s : Session) (pod : string) :
  phase_of s = SandboxPhaseDeleting \/ phase_of s = SandboxPhaseTerminated -> contrib s pod = 0.
Proof. intros H. unfold contrib, occupies. destruct H as [-> | ->]; done. Qed.

(** ** Reconciling against the store *)

Section capacity.
Context (cfg : ReconcilerConfig).

Definition keeps {A} (p : prog A) (m : gmap string Session) : Prop :=
  wp store_env p m (fun _ m' => within_capacity cfg m').

(** Events that leave the store alone. *)
Definition reads (e : KEvent) : Prop :=
  match e with
  | ListSandboxes _ _ | ListPods _ _ | ListSessions _ _ | GetStatefulSet _ _ | UpdateStatefulSet _
  | Now | Http _ _ | Observe _ _ _ => True
  | _ => False
  end.

Lemma reads_inert (e : KEvent) : reads e -> inert store_env e.
Proof. intros He s x s'. by destruct e; try done; intros [-> _]. Qed.

Lemma keeps_reads {A B} (p : prog A) (f : A -> prog B) (m : gmap string Session) :
  only reads p -> (forall a, keeps (f a) m) -> keeps (bind p f) m.
Proof.
  intros Hp Hf. eapply wp_bind_spec; [apply (wp_only store_env reads); [done|apply reads_inert]|].
  intros a m' ->. apply Hf.
Qed.

Lemma fetch_reads (id : string) : only reads (fetchSandboxConfig cfg id).
Proof. split; [done|]. by intros []. Qed.

Lemma release_reads (s : Session) : only reads (release cfg s).
Proof.
  unfold release, DeleteSandbox, send. split; [done|]. intros [msg|st t out]; [done|].
  cbn [bind]. by destruct (300 <=? st).
Qed.

Lemma CreateSandbox_reads (url : string) (r : CreateSandboxReq) : only reads (CreateSandbox url r).
Proof. split; [done|]. intros [msg|st t out]; [done|]. cbn [bind]. by destruct (300 <=? st). Qed.

Lemma scaleUp_reads : only reads (scaleUp cfg).
Proof.
  apply scaleUp_only; [|by intros []]. intros f. split; [done|]. intros [sts|err]; [|done]. cbn [bind].
  destruct (f _); [|done]. destruct (_ =? _); [done|]. split; [done|]. by intros [].
Qed.

(** A controller that was assigned has room. *)
Lemma assign_room (m : gmap string Session) :
  wp store_env (assignController cfg) m (fun r m' => m' = m /\
    forall pod addr, r = inl (pod, addr) -> podCount (stored m) pod < rc_MaxSandboxesPerCtrl cfg).
Proof.
  assert (wp store_env (bind (scaleUp cfg) (fun e => match e with
    | Some err => Ret (inr (ErrWrap "no capacity and scale-up failed: " err ""))
    | None => Ret (inr (ErrMsg "no capacity; scaled up, will retry")) end)) m (fun (r : string * string + Err) m' => m' = m /\
    forall pod addr, r = inl (pod, addr) -> podCount (stored m) pod < rc_MaxSandboxesPerCtrl cfg)) as Hup.
  { eapply wp_bind_spec; [apply (wp_only store_env reads); [apply scaleUp_reads|apply reads_inert]|].
    intros [err|] m' ->; by split. }
  unfold assignController. cbn [wp bind call]. intros [pods|err] ? ->; [|done].
  cbn [wp bind call]. intros [ss|err] ? [-> Hl]; [|done].
  destruct (_ =?s "") eqn:He; [done|]. bool_hyps.
  destruct (pick_pod_best cfg ss pods) as [[Hb _]|(pre & p & post & _ & Hb & (_ & _ & Hr) & _)]; rewrite Hb in *; [done|].
  split; [done|]. intros pod addr [= <- <-]. unfold remaining in Hr. rewrite Hl in Hr. lia.
Qed.

(** A status write that keeps the capacity, then nothing that matters. *)
Lemma update_status_keeps (m : gmap string Session) (s : Session) (k : Session -> prog (Result * error)) :
  within_capacity cfg m ->
  (forall s', is_Some (m !! name_of s) -> se_Status s' = se_Status s -> name_of s' = name_of s ->
     within_capacity cfg (<[name_of s := s']> m) /\
     (within_capacity cfg (<[name_of s := s']> m) -> keeps (k s') (<[name_of s := s']> m))) ->
  keeps (update_status s k) m.
Proof.
  intros Hm H. unfold update_status, keeps. cbn [wp bind call].
  intros [s'|err] m'; [|by intros ->]. intros (Hs & Hst & Hn & ->).
  destruct (H s' Hs Hst Hn) as [Hw Hk]. by apply Hk.
Qed.

Lemma keeps_return {A} (a : A) (m : gmap string Session) : within_capacity cfg m -> keeps (Ret a) m.
Proof. done. Qed.

(** A write that takes no more room than the stored session. *)
Lemma update_smaller_keeps (m : gmap string Session) (s : Session) (k : Session -> prog (Result * error)) :
  within_capacity cfg m ->
  (forall s1, m !! name_of s = Some s1 -> forall pod, contrib s pod <= contrib s1 pod) ->
  (forall s', is_Some (m !! name_of s) -> se_Status s' = se_Status s -> name_of s' = name_of s ->
     within_capacity cfg (<[name_of s := s']> m) -> keeps (k s') (<[name_of s := s']> m)) ->
  keeps (update_status s k) m.
Proof.
  intros Hm Hle Hk. apply update_status_keeps; [done|]. intros s' [s1 H1] Hst Hn.
  split; [|intros Hw; apply Hk; [by eexists|done..]].
  rewrite <- Hn. apply (within_replace cfg m s1); [done|by rewrite Hn|].
  intros pod. rewrite (contrib_eq s' s) by done. by apply Hle.
Qed.

(** A write of a phase that frees the place. *)
Lemma update_ended_keeps (m : gmap string Session) (s : Session) (k : Session -> prog (Result * error)) :
  within_capacity cfg m -> phase_of s = SandboxPhaseDeleting \/ phase_of s = SandboxPhaseTerminated ->
  (forall s' m', within_capacity cfg m' -> keeps (k s') m') -> keeps (update_status s k) m.
Proof.
  intros Hm Hp Hk. apply update_smaller_keeps; [done| |auto].
  intros s1 _ pod. rewrite contrib_ended by done. apply contrib_nonneg.
Qed.

Lemma config_missing_keeps (m : gmap string Session) (s : Session) :
  within_capacity cfg m -> keeps (config_missing s) m.
Proof. intros Hm. by apply update_ended_keeps; [|left|]. Qed.

Lemma contrib_set_ExpiresAt (s : Session) (t : Z) (pod : string) : contrib (set_ExpiresAt t s) pod = contrib s pod.
Proof. done. Qed.

Section one_session.
Context (m : gmap string Session) (s : Session).
Hypothesis fits : within_capacity cfg m.
Hypothesis held : m !! name_of s = Some s.

Lemma ensure_finalizer_keeps (f : Session + Err -> prog (Result * error)) :
  (forall s' m', within_capacity cfg m' -> name_of s' = name_of s -> keeps (f (inl s')) m') ->
  (forall err, keeps (f (inr err)) m) -> keeps (bind (ensure_finalizer s) f) m.
Proof.
  intros Hf He. unfold ensure_finalizer. destruct (ContainsFinalizer _ _); [by apply Hf|].
  assert (forall mm, name_of (set_Meta (AddFinalizer mm FinalizerSessionCleanup) s) = om_Name mm) as Hname.
  { intros mm. unfold name_of, AddFinalizer. simpl. by destruct (ContainsFinalizer _ _). }
  unfold keeps. cbn [wp bind call]. intros [s'|err] m'; [|by intros ->; apply He].
  intros ((s0 & Hs0 & Hst) & Hn & Hm'). rewrite Hname in Hs0, Hn, Hm'. apply Hf; [|done].
  assert (s0 = s) as -> by (unfold name_of in *; congruence).
  destruct Hm' as [-> | ->]; [|by apply within_delete].
  rewrite <- Hn. apply (within_replace cfg m s); [done|by rewrite Hn|].
  intros pod. rewrite (contrib_eq s' s) by done. lia.
Qed.

Lemma pending_keeps : keeps (reconcilePending cfg s) m.
Proof.
  unfold reconcilePending. apply ensure_finalizer_keeps; [|by intros err].
  intros s' m' Hm' Hn. apply keeps_reads; [apply fetch_reads|].
  intros [[sb|]|err]; [|by apply config_missing_keeps|done].
  eapply wp_bind_spec; [apply assign_room|]. intros [[pod addr]|err] ? [-> Hroom]; [|done].
  cbn [wp bind call]. intros now ? ->. apply update_status_keeps; [done|].
  intros s'' _ Hst Hn''. split; [|done]. rewrite <- Hn''.
  apply (within_place cfg m' s'' pod); [done| |by eapply Hroom].
  rewrite Hst. unfold place. by destruct (0 <? _).
Qed.

Lemma creating_keeps : phase_of s = SandboxPhaseCreating -> keeps (reconcileCreating cfg s) m.
Proof.
  intros Hp. unfold reconcileCreating. apply keeps_reads; [apply fetch_reads|].
  intros [[sb|]|err]; [|by apply config_missing_keeps|done].
  apply keeps_reads; [apply CreateSandbox_reads|]. intros [err|].
  - destruct (IsStaleRouteError _); [|done]. apply update_smaller_keeps; [done| |done].
    intros s1 H1 pod. unfold contrib at 1, unplace, occupies. simpl. apply contrib_nonneg.
  - apply update_smaller_keeps; [done| |].
    + intros s1 H1 pod. assert (s1 = s) as -> by (unfold name_of in *; simpl in *; congruence).
      unfold contrib, occupies, phase_of in *. simpl. rewrite Hp. simpl. lia.
    + intros s' _ _ _ Hw. destruct (st_ExpiresAt _); [|done]. unfold keeps. cbn [wp bind call]. by intros n ? ->.
Qed.

Lemma check_expiry_keeps (m' : gmap string Session) (now expiry : Z) (s' : Session) :
  within_capacity cfg m' -> keeps (check_expiry now expiry s') m'.
Proof.
  intros Hm'. unfold check_expiry. destruct (expiry <? now); [by apply update_ended_keeps; [|left|]|].
  unfold keeps. cbn [wp bind call]. by intros n ? ->.
Qed.

Lemma running_keeps : keeps (reconcileRunning cfg s) m.
Proof.
  unfold reconcileRunning, keeps. cbn [wp bind call]. intros now ? ->.
  destruct (st_ExpiresAt _) as [expiry|]; [|done].
  destruct (st_LastExecAt _) as [lastExec|]; [|by apply check_expiry_keeps].
  apply keeps_reads; [apply fetch_reads|]. intros [[sb|]|err]; [|by apply check_expiry_keeps..].
  destruct (_ && _); [|by apply check_expiry_keeps].
  apply update_smaller_keeps; [done| |intros; by apply check_expiry_keeps].
  intros s1 H1 pod. assert (s1 = s) as -> by (unfold name_of in *; simpl in *; congruence). rewrite contrib_set_ExpiresAt. lia.
Qed.

Lemma deleting_keeps : keeps (reconcileDeleting cfg s) m.
Proof.
  unfold reconcileDeleting. apply keeps_reads; [destruct (negb _); [apply release_reads|done]|].
  intros []; [|done]. unfold keeps. cbn [wp bind call]. intros now ? ->.
  apply update_ended_keeps; [done|by right|]. intros s' m' Hm'. by destruct (_ <=? 0).
Qed.

Lemma terminated_keeps : keeps (reconcileTerminated cfg s) m.
Proof.
  assert (keeps (remove_terminated s) m) as Hr.
  { unfold remove_terminated, keeps. cbn [wp bind call]. intros [err|] m'.
    - intros ->. by destruct (IsNotFound err).
    - intros [-> | ->]; [by apply within_delete|done]. }
  unfold reconcileTerminated. destruct (bool_decide _); [done|]. destruct (st_TerminatedAt _); [|done].
  destruct (0 <? _); [|done]. unfold keeps. cbn [wp bind call]. intros now ? ->. by destruct (_ <? _).
Qed.

Lemma deletion_keeps : keeps (handleDeletion cfg s) m.
Proof.
  unfold handleDeletion. destruct (negb _); [done|].
  apply keeps_reads; [destruct (_ && _); [apply release_reads|done]|].
  intros []; [|done]. unfold keeps. cbn [wp bind call]. intros [s'|err] m'; [|by intros ->].
  intros ((s0 & Hs0 & Hst) & Hn & [-> | ->]); [|by apply within_delete].
  assert (s0 = s) as -> by (unfold name_of in *; simpl in *; congruence).
  change (name_of (set_Meta (RemoveFinalizer (se_Meta s) FinalizerSessionCleanup) s)) with (name_of s) in *.
  rewrite <- Hn. apply (within_replace cfg m s); [done|by rewrite Hn|].
  intros pod. rewrite (contrib_eq s' s) by done. lia.
Qed.

End one_session.

Lemma reconcile_keeps (m : gmap string Session) (ns name : string) :
  within_capacity cfg m -> keeps (Reconcile cfg ns name) m.
Proof.
  intros Hm. unfold Reconcile, keeps. cbn [wp bind call].
  intros [s|err] ? [-> Hs]; [|by destruct (IsNotFound err)].
  assert (m !! name_of s = Some s) as Hheld by (by rewrite (proj1 Hm _ _ Hs)).
  destruct (negb _); [by apply deletion_keeps|].
  destruct (_ || _); [by apply pending_keeps|].
  destruct (_ =?s SandboxPhaseCreating) eqn:H2; bool_hyps; [by apply creating_keeps|].
  destruct (_ =?s SandboxPhaseRunning); [by apply running_keeps|].
  destruct (_ =?s SandboxPhaseDeleting); [by apply deleting_keeps|].
  destruct (_ =?s SandboxPhaseTerminated); [by apply terminated_keeps|done].
Qed.

End capacity.

(** ** Replica counts *)

Definition int32_range (z : Z) : Prop := - 2 ^ 31 <= z < 2 ^ 31.

(** The replica count last seen or stored, and each change asked for. *)
Record Scaling := { sg_current : Z; sg_changes : list (Z * Z) }.

Definition scale_env : env Scaling := fun e s =>
  match e return KAnswer e -> Scaling -> Prop with
  | GetStatefulSet _ _ => fun a s' =>
      match a with
      | inl sts => int32_range (current_replicas sts) /\
          s' = {| sg_current := current_replicas sts; sg_changes := sg_changes s |}
      | inr _ => s' = s
      end
  | UpdateStatefulSet sts => fun a s' => s' =
      {| sg_current := match a with inl _ => current_replicas sts | inr _ => sg_current s end;
         sg_changes := sg_changes s ++ [(sg_current s, current_replicas sts)] |}
  | _ => fun _ s' => s' = s
  end.

Definition up_ok (cfg : ReconcilerConfig) (c : Z * Z) : Prop := c.2 = c.1 + 1 /\ c.2 <= rc_MaxControllerReplicas cfg.

Definition down_ok (cfg : ReconcilerConfig) (c : Z * Z) : Prop := c.2 = c.1 - 1 /\ rc_MinControllerReplicas cfg <= c.2.

Lemma to_int32_small (z : Z) : int32_range z -> to_int32 z = z.
Proof. unfold int32_range, to_int32. intros H. apply wrap_s_small; [lia|]. simpl. lia. Qed.

Lemma current_set_Replicas (n : Z) (sts : StatefulSet) : current_replicas (set_Replicas n sts) = n.
Proof. done. Qed.

Definition not_scaling (e : KEvent) : Prop :=
  match e with GetStatefulSet _ _ | UpdateStatefulSet _ => False | _ => True end.

Lemma observing_not_scaling {A} (p : prog A) : only observing p -> only not_scaling p.
Proof. apply (@only_mono KSig). by intros []. Qed.

Lemma not_scaling_inert (e : KEvent) : not_scaling e -> inert scale_env e.
Proof. intros He s x s'. by destruct e. Qed.

Lemma scale_skip {A B} (p : prog A) (f : A -> prog B) (s : Scaling) (Q : B -> Scaling -> Prop) :
  only not_scaling p -> (forall a, wp scale_env (f a) s Q) -> wp scale_env (bind p f) s Q.
Proof.
  intros Hp Hf. eapply wp_bind_spec; [apply (wp_only scale_env not_scaling); [done|apply not_scaling_inert]|].
  by intros a s' ->.
Qed.

(** A program that only scales through [assignController] or not at all. *)
Lemma not_scaling_keeps {A} (cfg : ReconcilerConfig) (p : prog A) (s : Scaling) :
  only not_scaling p -> Forall (up_ok cfg) (sg_changes s) ->
  wp scale_env p s (fun _ s' => Forall (up_ok cfg) (sg_changes s')).
Proof.
  intros Hp Hs. eapply wp_mono; [|apply (wp_only scale_env not_scaling); [done|apply not_scaling_inert]].
  by intros a s' ->.
Qed.

Lemma scaleUp_bounded (cfg : ReconcilerConfig) (s : Scaling) :
  int32_range (rc_MaxControllerReplicas cfg) -> Forall (up_ok cfg) (sg_changes s) ->
  wp scale_env (scaleUp cfg) s (fun _ s' => Forall (up_ok cfg) (sg_changes s')).
Proof.
  intros Hmax Hs. unfold scaleUp. eapply (wp_bind_spec _ _ _ _ (fun _ s' => Forall (up_ok cfg) (sg_changes s'))).
  - unfold scaleStatefulSet. cbn [wp bind call]. intros [sts|err] s'; [|by intros ->]. intros [Hr ->].
    destruct (_ <=? current_replicas sts) eqn:Hm; [done|]. bool_hyps. cbn [wp bind call].
    rewrite to_int32_small by (unfold int32_range in *; lia).
    destruct (_ =? _); [done|]. cbn [wp bind call].
    intros [sts'|err] s' ->; simpl; apply Forall_app; (split; [done|]); (constructor; [|done]); unfold up_ok; simpl;
      rewrite current_set_Replicas; lia.
  - intros [err|] s' Hs'; [done|]. apply scale_skip; [|done]. apply observing_not_scaling, operator_metrics_observe.
Qed.

Lemma assign_bounded (cfg : ReconcilerConfig) (s : Scaling) :
  int32_range (rc_MaxControllerReplicas cfg) -> Forall (up_ok cfg) (sg_changes s) ->
  wp scale_env (assignController cfg) s (fun _ s' => Forall (up_ok cfg) (sg_changes s')).
Proof.
  intros Hm Hs. unfold assignController. cbn [wp bind call]. intros [pods|err] ? ->; [|done].
  cbn [wp bind call]. intros [ss|err] ? ->; [|done].
  destruct (_ =?s ""); [|done]. eapply wp_bind_spec; [by apply scaleUp_bounded|]. by intros [err|] s' Hs'.
Qed.

Lemma update_status_not_scaling (s : Session) (k : Session -> prog (Result * error)) :
  (forall s', only not_scaling (k s')) -> only not_scaling (update_status s k).
Proof. intros Hk. split; [done|]. intros [s'|err]; [apply Hk|done]. Qed.

Lemma pending_bounded (cfg : ReconcilerConfig) (se : Session) (s : Scaling) :
  int32_range (rc_MaxControllerReplicas cfg) -> Forall (up_ok cfg) (sg_changes s) ->
  wp scale_env (reconcilePending cfg se) s (fun _ s' => Forall (up_ok cfg) (sg_changes s')).
Proof.
  intros Hm Hs. unfold reconcilePending. apply scale_skip.
  { unfold ensure_finalizer. by destruct (ContainsFinalizer _ _). }
  intros [se'|err]; [|done]. apply scale_skip; [split; [done|]; by intros []|].
  intros [[sb|]|err]; [|apply not_scaling_keeps; [by apply update_status_not_scaling|done]|done].
  eapply wp_bind_spec; [by apply assign_bounded|]. intros [[pod addr]|err] s' Hs'; [|done].
  apply not_scaling_keeps; [|done]. split; [done|]. intros now. by apply update_status_not_scaling.
Qed.

(** The other phases never scale. *)
Lemma creating_not_scaling (cfg : ReconcilerConfig) (se : Session) : only not_scaling (reconcileCreating cfg se).
Proof.
  apply only_bind; [split; [done|]; by intros []|].
  intros [[sb|]|err]; [|by apply update_status_not_scaling|done].
  apply only_bind; [split; [done|]; intros [|st t out]; [done|]; cbn [bind]; by destruct (300 <=? st)|].
  intros [err|].
  - destruct (IsStaleRouteError _); [|done]. by apply update_status_not_scaling.
  - apply update_status_not_scaling. intros s'. by destruct (st_ExpiresAt _).
Qed.

Lemma check_expiry_not_scaling (now expiry : Z) (se : Session) : only not_scaling (check_expiry now expiry se).
Proof. unfold check_expiry. destruct (_ <? _); [by apply update_status_not_scaling|done]. Qed.

Lemma running_not_scaling (cfg : ReconcilerConfig) (se : Session) : only not_scaling (reconcileRunning cfg se).
Proof.
  pose proof check_expiry_not_scaling as Hc.
  unfold reconcileRunning. split; [done|]. intros now. cbn [bind]. destruct (st_ExpiresAt _); [|done].
  destruct (st_LastExecAt _); [|done].
  apply only_bind; [split; [done|]; by intros []|]. intros [[sb|]|err]; [|done..].
  destruct (_ && _); [|done]. by apply update_status_not_scaling.
Qed.

Lemma release_not_scaling (cfg : ReconcilerConfig) (se : Session) : only not_scaling (release cfg se).
Proof.
  unfold release, DeleteSandbox, send. split; [done|]. intros [msg|st t out]; [done|].
  cbn [bind]. by destruct (300 <=? st).
Qed.

Lemma reconcile_bounded (cfg : ReconcilerConfig) (ns name : string) (s : Scaling) :
  int32_range (rc_MaxControllerReplicas cfg) -> Forall (up_ok cfg) (sg_changes s) ->
  wp scale_env (Reconcile cfg ns name) s (fun _ s' => Forall (up_ok cfg) (sg_changes s')).
Proof.
  intros Hm Hs. unfold Reconcile. cbn [wp bind call]. intros [se|err] ? ->; [|by destruct (IsNotFound err)].
  destruct (negb _).
  { apply not_scaling_keeps; [|done]. unfold handleDeletion. destruct (negb _); [done|].
    apply only_bind; [destruct (_ && _); [apply release_not_scaling|done]|]. intros []; [|done].
    split; [done|]. by intros []. }
  destruct (_ || _); [by apply pending_bounded|]. apply not_scaling_keeps; [|done].
  destruct (_ =?s SandboxPhaseCreating); [apply creating_not_scaling|].
  destruct (_ =?s SandboxPhaseRunning); [apply running_not_scaling|].
  destruct (_ =?s SandboxPhaseDeleting).
  { unfold reconcileDeleting. apply only_bind; [destruct (negb _); [apply release_not_scaling|done]|].
    intros []; [|done]. split; [done|]. intros now. apply update_status_not_scaling. intros s'. by destruct (_ <=? 0). }
  destruct (_ =?s SandboxPhaseTerminated); [|done].
  unfold reconcileTerminated. destruct (bool_decide _); [done|].
  assert (only not_scaling (remove_terminated se)) as Hr.
  { split; [done|]. intros [err|]; [|done]. cbn [bind]. by destruct (IsNotFound err). }
  destruct (st_TerminatedAt _); [|done]. destruct (0 <? _); [|done].
  split; [done|]. intros now. cbn [bind]. by destruct (_ <? _).
Qed.

Lemma scale_down_bounded (cfg : ReconcilerConfig) (ss : list Session) (pods : list Pod) (sts : StatefulSet)
    (s : Scaling) :
  int32_range (rc_MinControllerReplicas cfg) -> int32_range (sg_current s) ->
  Forall (down_ok cfg) (sg_changes s) ->
  wp scale_env (scale_down_loop cfg ss pods sts (sg_current s)) s (fun _ s' => Forall (down_ok cfg) (sg_changes s')).
Proof.
  intros Hmin. revert sts s. induction pods as [|p pods IH]; intros sts s Hr Hs; [done|]. cbn [scale_down_loop].
  destruct (_ <=? _) eqn:Hm; [done|]. bool_hyps. destruct (0 <? podCount _ _); [by apply IH|].
  cbn [wp bind call]. intros now ? ->. destruct (now <? _); [by apply IH|].
  rewrite to_int32_small by (unfold int32_range in *; lia). cbn [wp bind call].
  assert (Forall (down_ok cfg) (sg_changes s ++ [(sg_current s, sg_current s - 1)])) as Hs'.
  { apply Forall_app. split; [done|]. constructor; [|done]. unfold down_ok. simpl. lia. }
  intros [sts'|err] ? ->; [|done]. apply scale_skip; [apply observing_not_scaling, operator_metrics_observe|].
  intros _. simpl. apply (IH sts' {| sg_current := sg_current s - 1; sg_changes := _ |}); [|done].
  simpl. unfold int32_range in *. lia.
Qed.

Lemma tryScaleDown_bounded (cfg : ReconcilerConfig) (s : Scaling) :
  int32_range (rc_MinControllerReplicas cfg) -> Forall (down_ok cfg) (sg_changes s) ->
  wp scale_env (tryScaleDown cfg) s (fun _ s' => Forall (down_ok cfg) (sg_changes s')).
Proof.
  intros Hmin Hs. unfold tryScaleDown. cbn [wp bind call]. intros [sts|err] s'; [|by intros ->]. intros [Hr ->].
  destruct (_ <=? _); [done|]. cbn [wp bind call]. intros [pods|err] ? ->; [|done].
  cbn [wp bind call]. intros [ss|err] ? ->; [|done].
  by apply (scale_down_bounded cfg ss _ sts {| sg_current := current_replicas sts; sg_changes := sg_changes s |}).
Qed.

(** ** Expiry

    The clock readings, the answer to listing sandbox configurations, and the
    status writes, each stored as written. *)
Record ExpWorld := {
  xw_clock : list Z;
  xw_sandboxes : list Sandbox + Err;
  xw_log : list Session;
}.

Definition exp_step (e : KEvent) (w : ExpWorld) : KAnswer e * ExpWorld :=
  match e return KAnswer e * ExpWorld with
  | Now => (hd 0 (xw_clock w),
            {| xw_clock := tl (xw_clock w); xw_sandboxes := xw_sandboxes w; xw_log := xw_log w |})
  | ListSandboxes _ _ => (xw_sandboxes w, w)
  | StatusUpdateSession s =>
      (inl s, {| xw_clock := xw_clock w; xw_sandboxes := xw_sandboxes w; xw_log := xw_log w ++ [s] |})
  | e => (unavailable e, w)
  end.

(** The expiry a sandbox configuration and the last exec give a session. *)
Definition effective_expiry (s : Session) (expiry : Z) (sbs : list Sandbox + Err) : Z :=
  match st_LastExecAt (se_Status s), sbs with
  | Some lastExec, inl items =>
      match find_sandbox (ss_SandboxID (se_Spec s)) items with
      | Some sb => if 0 <? sp_TTLSeconds (sb_Spec sb)
                   then Z.max expiry (lastExec + seconds (sp_TTLSeconds (sb_Spec sb))) else expiry
      | None => expiry
      end
  | _, _ => expiry
  end.

Lemma run_check_expiry (now expiry now' : Z) (s : Session) (sbs : list Sandbox + Err) (log : list Session) :
  run exp_step (check_expiry now expiry s) {| xw_clock := [now']; xw_sandboxes := sbs; xw_log := log |} =
  if expiry <? now
  then ((requeue, None), {| xw_clock := [now']; xw_sandboxes := sbs;
                            xw_log := log ++ [set_Phase SandboxPhaseDeleting s] |})
  else ((requeue_after (expiry - now'), None), {| xw_clock := []; xw_sandboxes := sbs; xw_log := log |}).
Proof. unfold check_expiry. by destruct (expiry <? now). Qed.

Lemma run_running (cfg : ReconcilerConfig) (s : Session) (expiry now now' : Z) (sbs : list Sandbox + Err) :
  st_ExpiresAt (se_Status s) = Some expiry ->
  let eff := effective_expiry s expiry sbs in
  let s' := if expiry <? eff then set_ExpiresAt eff s else s in
  let log := if expiry <? eff then [s'] else [] in
  run exp_step (reconcileRunning cfg s) {| xw_clock := [now; now']; xw_sandboxes := sbs; xw_log := [] |} =
  if eff <? now
  then ((requeue, None), {| xw_clock := [now']; xw_sandboxes := sbs;
                            xw_log := log ++ [set_Phase SandboxPhaseDeleting s'] |})
  else ((requeue_after (eff - now'), None), {| xw_clock := []; xw_sandboxes := sbs; xw_log := log |}).
Proof.
  intros He. cbv zeta. unfold reconcileRunning, effective_expiry. cbn [bind call run exp_step hd tl xw_clock xw_sandboxes xw_log]. rewrite He.
  destruct (st_LastExecAt _) as [lastExec|]; [|by rewrite Z.ltb_irrefl, run_check_expiry].
  unfold fetchSandboxConfig. cbn [bind call run exp_step xw_clock xw_sandboxes xw_log].
  destruct sbs as [items|err]; cbn [bind run]; [|by rewrite Z.ltb_irrefl, run_check_expiry].
  destruct (find_sandbox _ items) as [sb|]; [|by rewrite Z.ltb_irrefl, run_check_expiry].
  destruct (0 <? sp_TTLSeconds (sb_Spec sb)); cbn [andb]; [|by rewrite Z.ltb_irrefl, run_check_expiry].
  set (sl := lastExec + _). destruct (expiry <? sl) eqn:Hs; bool_hyps.
  - rewrite Z.max_r by lia. rewrite (proj2 (Z.ltb_lt _ _) Hs). cbn [update_status bind call run exp_step xw_clock xw_sandboxes xw_log].
    by rewrite run_check_expiry.
  - rewrite Z.max_l by lia. by rewrite Z.ltb_irrefl, run_check_expiry.
Qed.

(** Concrete inputs. *)
Definition sample_rcfg : ReconcilerConfig :=
  {| rc_Namespace := "boxy"; rc_StatefulSetName := "ctrl"; rc_HeadlessServiceName := "hl";
     rc_ControllerPoolName := "pool"; rc_ControllerPort := 8080; rc_MaxSandboxesPerCtrl := 2;
     rc_MaxControllerReplicas := 5; rc_MinControllerReplicas := 1; rc_TerminatedRetentionSec := 60;
     rc_ScaleDownCooldown := 5 * Minute; rc_MTLSDisabled := true; rc_Metrics := true |}.

Definition sample_meta (name : string) : ObjectMeta :=
  {| om_Name := name; om_Namespace := "boxy"; om_ResourceVersion := "1"; om_Labels := []; om_Annotations := [];
     om_Finalizers := [FinalizerSessionCleanup]; om_DeletionTimestamp := None; om_CreationTimestamp := 0 |}.

Definition sample_status (phase pod addr : string) (exp : option Z) : SessionStatus :=
  {| st_Phase := phase; st_ControllerPool := ""; st_ControllerPod := pod; st_ControllerAddress := addr;
     st_Port := 8080; st_CreatedAt := None; st_ExpiresAt := exp; st_LastExecAt := None;
     st_TerminatedAt := None; st_Message := MNil |}.

Definition sample_session (phase pod addr : string) (exp : option Z) : Session :=
  {| se_Meta := sample_meta "s1";
     se_Spec := {| ss_SessionID := "s1"; ss_SandboxID := "demo"; ss_Owner := "" |};
     se_Status := sample_status phase pod addr exp |}.

Definition sample_sandbox_cr : Sandbox :=
  {| sb_Meta := sample_meta "demo";
     sb_Spec := {| sp_SandboxID := "demo"; sp_TTLSeconds := 60; sp_Env := []; sp_AllowedBinaries := [];
       sp_VM := None; sp_Network := None; sp_Volumes := []; sp_Patches := []; sp_SetupScript := "";
       sp_TeardownScript := ""; sp_ScriptEnv := [] |} |}.

Definition sample_pod (name : string) : Pod :=
  {| pod_Meta := sample_meta name; pod_Phase := "Running"; pod_Conditions := [("Ready", "True")] |}.

Definition sample_sts (n : Z) : StatefulSet :=
  {| sts_Meta := sample_meta "ctrl"; sts_Replicas := Some n; sts_ReadyReplicas := n |}.

(** ** Properties *)


(** Whatever is answered, a reconciliation adds the clean-up finalizer only
    to a live session and removes it only from one that is being deleted; and
    when that session was Creating or Running with an address, only after the
    controller confirmed in the same reconciliation that its sandbox is gone. *)
Theorem finalizer_guards_release (cfg : ReconcilerConfig) (ns name : string) :
  wp (session_env cfg) (Reconcile cfg ns name) start (fun _ m => Forall meta_write_ok (mo_meta m)).
Proof. eapply wp_mono; [|apply reconcile_mon]. by intros r m [_ ?]. Qed.

(** C30: a session is placed by best fit: the pod chosen is ready, not being
    deleted, holds fewer sessions than the limit, and has the least room among
    all such pods, the first of the list among equals; no pod is chosen only if
    there is none. *)
Theorem best_fit_placement (cfg : ReconcilerConfig) (sessions : list Session) (pods : list Pod) :
  best_of cfg sessions pods (pick_pod cfg sessions pods).
Proof. apply pick_pod_best. Qed.

(** Reconciling sessions one at a time against an up-to-date store never
    places more sessions on a controller pod than its limit, whatever calls fail
    on the way. *)
Theorem capacity_preserved (cfg : ReconcilerConfig) (m : gmap string Session) (ns name : string) :
  within_capacity cfg m ->
  wp store_env (Reconcile cfg ns name) m (fun _ m' => within_capacity cfg m').
Proof. apply reconcile_keeps. Qed.

Lemma capacity_preserved_witness :
  wp store_env (Reconcile sample_rcfg "boxy" "s1") {["s1" := sample_session "" "" "" None]}
    (fun _ m' => within_capacity sample_rcfg m').
Proof.
  apply (capacity_preserved sample_rcfg {["s1" := sample_session "" "" "" None]} "boxy" "s1").
  split.
  - apply map_Forall_singleton. reflexivity.
  - intros pod. unfold stored. rewrite map_to_list_singleton. vm_compute. intros H. discriminate H.
Defined.

(** C31: scaling stays within its bounds: with 32-bit limits, every replica
    count a reconciliation asks for is one more than the current one and at most
    the maximum, and every one the scale-down loop asks for, in any number of
    rounds, is one less than the current one and at least the minimum, whatever is
    answered. *)
Theorem replicas_bounded (cfg : ReconcilerConfig) (ns name : string) (c : Z) (n : nat) :
  int32_range (rc_MaxControllerReplicas cfg) -> int32_range (rc_MinControllerReplicas cfg) ->
  wp scale_env (Reconcile cfg ns name) {| sg_current := c; sg_changes := [] |}
    (fun _ s => Forall (up_ok cfg) (sg_changes s)) /\
  wp scale_env (RunScaleDownLoop cfg n) {| sg_current := c; sg_changes := [] |}
    (fun _ s => Forall (down_ok cfg) (sg_changes s)).
Proof.
  intros Hmax Hmin. split; [by apply reconcile_bounded|].
  eapply wp_mono; [|apply (wp_rounds scale_env _ (fun _ s => Forall (down_ok cfg) (sg_changes s))
    (fun _ s => Forall (down_ok cfg) (sg_changes s)))]; [by intros [] s'; [|intros [_ ?]]|constructor|].
  intros [] s Hs. cbn [wp bind call]. intros [] ? ->; [|done].
  eapply wp_bind_spec; [by apply tryScaleDown_bounded|]. by intros e s' Hs'.
Qed.

Lemma replicas_bounded_witness :
  wp scale_env (Reconcile sample_rcfg "boxy" "s1") {| sg_current := 1; sg_changes := [] |}
    (fun _ s => Forall (up_ok sample_rcfg) (sg_changes s)) /\
  wp scale_env (RunScaleDownLoop sample_rcfg 100) {| sg_current := 1; sg_changes := [] |}
    (fun _ s => Forall (down_ok sample_rcfg) (sg_changes s)).
Proof. apply (replicas_bounded sample_rcfg "boxy" "s1" 1 100); vm_compute; split; discriminate || reflexivity. Defined.

(** C32: a Running session expires exactly when the clock is past the later of
    its stored expiry and, if its configuration still has a time to live, the
    last exec plus that time: it is then written as Deleting and requeued at
    once; otherwise it is requeued for the remaining time, and a later expiry is
    stored first whenever there is one. *)
Theorem running_expiry_exact (cfg : ReconcilerConfig) (s : Session) (expiry now now' : Z) (sbs : list Sandbox + Err) :
  st_ExpiresAt (se_Status s) = Some expiry ->
  let eff := effective_expiry s expiry sbs in
  let s' := if expiry <? eff then set_ExpiresAt eff s else s in
  let log := if expiry <? eff then [s'] else [] in
  run exp_step (reconcileRunning cfg s) {| xw_clock := [now; now']; xw_sandboxes := sbs; xw_log := [] |} =
  if eff <? now
  then ((requeue, None), {| xw_clock := [now']; xw_sandboxes := sbs;
                            xw_log := log ++ [set_Phase SandboxPhaseDeleting s'] |})
  else ((requeue_after (eff - now'), None), {| xw_clock := []; xw_sandboxes := sbs; xw_log := log |}).
Proof. apply run_running. Qed.

Lemma running_expiry_exact_witness :
  let s := sample_session SandboxPhaseRunning "ctrl-0" "ctrl-0.hl.boxy.svc" (Some 500) in
  run exp_step (reconcileRunning sample_rcfg s)
    {| xw_clock := [400; 410]; xw_sandboxes := inl []; xw_log := [] |} =
  ((requeue_after 90, None), {| xw_clock := []; xw_sandboxes := inl []; xw_log := [] |}).
Proof.
  apply (running_expiry_exact sample_rcfg
    (sample_session SandboxPhaseRunning "ctrl-0" "ctrl-0.hl.boxy.svc" (Some 500)) 500 400 410 (inl [])).
  reflexivity.
Defined.
