(* ===== verification/Lifecycle.v ===== *)
(** * Progress of a session

    A cluster in which every call succeeds: one session, its sandbox
    configuration, the controller pods, the StatefulSet, a clock, and the set
    of sandboxes the controllers hold, answered as [Controller] answers a
    create or delete request.  Running [Reconcile] against it takes a session
    through its whole life. *)
From S2P Require Import Prelude Prog GoStrings ApiTypes Kube CtrlClient SessionReconciler SessionProofs.
Open Scope boxy_scope.

Record ClusterState := {
  cl_session : option Session;
  cl_sandboxes : list Sandbox;
  cl_pods : list Pod;
  cl_sts : StatefulSet;
  cl_now : Z;
  cl_held : gset string;
}.

Definition with_session (w : ClusterState) (s : option Session) : ClusterState :=
  {| cl_session := s; cl_sandboxes := cl_sandboxes w; cl_pods := cl_pods w; cl_sts := cl_sts w;
     cl_now := cl_now w; cl_held := cl_held w |}.

Definition with_held (w : ClusterState) (h : gset string) : ClusterState :=
  {| cl_session := cl_session w; cl_sandboxes := cl_sandboxes w; cl_pods := cl_pods w; cl_sts := cl_sts w;
     cl_now := cl_now w; cl_held := h |}.

Definition at_time (w : ClusterState) (t : Z) : ClusterState :=
  {| cl_session := cl_session w; cl_sandboxes := cl_sandboxes w; cl_pods := cl_pods w; cl_sts := cl_sts w;
     cl_now := t; cl_held := cl_held w |}.

Definition no_session : Err := ErrK8s NotFound "session not found".

(** An object without finalizers goes away as soon as it is being deleted. *)
Definition persist (s : Session) : option Session :=
  match om_DeletionTimestamp (se_Meta s), om_Finalizers (se_Meta s) with
  | Some _, [] => None
  | _, _ => Some s
  end.

Definition mark_deleted (t : Z) (m : ObjectMeta) : ObjectMeta :=
  {| om_Name := om_Name m; om_Namespace := om_Namespace m;
     om_ResourceVersion := om_ResourceVersion m; om_Labels := om_Labels m;
     om_Annotations := om_Annotations m; om_Finalizers := om_Finalizers m;
     om_DeletionTimestamp := Some t; om_CreationTimestamp := om_CreationTimestamp m |}.

Definition answer_create (w : ClusterState) (r : CreateSandboxReq) : HttpAnswer unit * ClusterState :=
  if decide (cr_SandboxID r ∈ cl_held w)
  then (HttpResponse 409 (Some ("sandbox already exists: " +:+ cr_SandboxID r)) tt, w)
  else (HttpResponse 201 None tt, with_held w ({[cr_SandboxID r]} ∪ cl_held w)).

Definition answer_delete (w : ClusterState) (r : DeleteSandboxReq) : HttpAnswer unit * ClusterState :=
  if decide (dr_SandboxID r ∈ cl_held w)
  then (HttpResponse 204 None tt, with_held w (cl_held w ∖ {[dr_SandboxID r]}))
  else (HttpResponse 404 (Some ("sandbox not found: " +:+ dr_SandboxID r)) tt, w).

Definition cluster_step (e : KEvent) (w : ClusterState) : KAnswer e * ClusterState :=
  match e return KAnswer e * ClusterState with
  | GetSession _ _ => (match cl_session w with Some s => inl s | None => inr no_session end, w)
  | ListSessions _ _ => (inl (match cl_session w with Some s => [s] | None => [] end), w)
  | UpdateSession s =>
      match cl_session w with
      | Some s0 => let s' := set_Status s (se_Status s0) in (inl s', with_session w (persist s'))
      | None => (inr no_session, w)
      end
  | StatusUpdateSession s =>
      match cl_session w with
      | Some s0 => let s' := set_Status s0 (se_Status s) in (inl s', with_session w (Some s'))
      | None => (inr no_session, w)
      end
  | DeleteSession s =>
      match cl_session w with
      | Some s0 => (None, with_session w (persist (set_Meta (mark_deleted (cl_now w) (se_Meta s0)) s0)))
      | None => (Some no_session, w)
      end
  | ListSandboxes _ _ => (inl (cl_sandboxes w), w)
  | ListPods _ _ => (inl (cl_pods w), w)
  | GetStatefulSet _ _ => (inl (cl_sts w), w)
  | Now => (cl_now w, w)
  | Http _ (CRCreate r) => answer_create w r
  | Http _ (CRDelete r) => answer_delete w r
  | e => (unavailable e, w)
  end.

(** The state after one reconciliation. *)
Definition reconcile_once (cfg : ReconcilerConfig) (ns name : string) (w : ClusterState) : ClusterState :=
  (run cluster_step (Reconcile cfg ns name) w).2.

(** A session that waits to be placed, and a cluster that can place it. *)
Definition placeable (cfg : ReconcilerConfig) (w : ClusterState) (s : Session) (sb : Sandbox) : Prop :=
  cl_session w = Some s /\ not_deleted (se_Meta s) = true /\ unplaced (phase_of s) /\
  find_sandbox (ss_SandboxID (se_Spec s)) (cl_sandboxes w) = Some sb /\
  b_Pod (pick_pod cfg [s] (cl_pods w)) <> "" /\
  ss_SessionID (se_Spec s) ∉ cl_held w.

(** ** One reconciliation per phase *)

Section steps.
Context (cfg : ReconcilerConfig) (ns name : string).

(** The session after [ensure_finalizer]. *)
Definition finalized (s : Session) : Session :=
  set_Meta (AddFinalizer (se_Meta s) FinalizerSessionCleanup) s.

Lemma AddFinalizer_deletion (m : ObjectMeta) (f : string) :
  om_DeletionTimestamp (AddFinalizer m f) = om_DeletionTimestamp m.
Proof. unfold AddFinalizer. by destruct (ContainsFinalizer m f). Qed.

Lemma set_Meta_same (s : Session) : set_Meta (se_Meta s) s = s.
Proof. by destruct s. Qed.

Lemma finalized_same (s : Session) :
  ContainsFinalizer (se_Meta s) FinalizerSessionCleanup = true -> finalized s = s.
Proof. intros H. unfold finalized, AddFinalizer. rewrite H. apply set_Meta_same. Qed.

Lemma pick_pod_counts (ss ss' : list Session) (l : list Pod) :
  (forall n, podCount ss n = podCount ss' n) -> pick_pod cfg ss l = pick_pod cfg ss' l.
Proof.
  intros H. unfold pick_pod. generalize {| b_Pod := ""; b_Addr := ""; b_Remaining := -1 |}.
  induction l as [|p l IH]; intros b; [done|]. cbn [fold_left]. rewrite IH. f_equal.
  unfold pick_step. by rewrite H.
Qed.

Lemma pick_pod_finalized (s : Session) (l : list Pod) : pick_pod cfg [finalized s] l = pick_pod cfg [s] l.
Proof. apply pick_pod_counts. intros n. by rewrite !podCount_cons. Qed.

Lemma persist_live (s : Session) : not_deleted (se_Meta s) = true -> persist s = Some s.
Proof. unfold not_deleted, persist. by destruct (om_DeletionTimestamp (se_Meta s)). Qed.

Lemma run_ensure_finalizer (w : ClusterState) (s : Session) :
  cl_session w = Some s -> not_deleted (se_Meta s) = true ->
  run cluster_step (ensure_finalizer s) w = (inl (finalized s), with_session w (Some (finalized s))).
Proof.
  intros Hs Hl. unfold ensure_finalizer. destruct (ContainsFinalizer _ _) eqn:Hf.
  - rewrite finalized_same by done. simpl. destruct w; simpl in *. by subst.
  - simpl. rewrite Hs. unfold set_Status. simpl. rewrite persist_live; [by destruct s|].
    unfold not_deleted in *. simpl. by rewrite AddFinalizer_deletion.
Qed.

(** Placing, creating, expiring and deleting, each on the state it needs. *)
Lemma once_pending (w : ClusterState) (s : Session) (sb : Sandbox) :
  placeable cfg w s sb ->
  let b := pick_pod cfg [s] (cl_pods w) in
  reconcile_once cfg ns name w =
    with_session w (Some (place cfg (b_Pod b) (b_Addr b) (cl_now w) sb (finalized s))).
Proof.
  intros (Hs & Hl & Hp & Hsb & Hpod & Hheld). unfold reconcile_once, Reconcile.
  cbn [bind call run cluster_step]. rewrite Hs, Hl. cbn [negb].
  rewrite (proj2 (orb_true_iff _ _)) by (rewrite !String.eqb_eq; apply Hp).
  unfold reconcilePending. rewrite run_bind, run_ensure_finalizer by done.
  cbn [bind call run cluster_step fetchSandboxConfig with_session cl_sandboxes se_Spec finalized set_Meta].
  rewrite Hsb. unfold assignController. cbn [bind call run cluster_step with_session cl_pods cl_session].
  rewrite pick_pod_finalized. rewrite (proj2 (String.eqb_neq _ _) Hpod).
  unfold update_status. cbn [bind call run cluster_step with_session cl_session cl_now snd].
  f_equal. f_equal. unfold place. destruct (0 <? _); by destruct s as [[] ? ?].
Qed.

Lemma once_creating (w : ClusterState) (s : Session) (sb : Sandbox) :
  cl_session w = Some s -> not_deleted (se_Meta s) = true -> phase_of s = SandboxPhaseCreating ->
  find_sandbox (ss_SandboxID (se_Spec s)) (cl_sandboxes w) = Some sb ->
  ss_SessionID (se_Spec s) ∉ cl_held w ->
  reconcile_once cfg ns name w =
    with_session (with_held w ({[ss_SessionID (se_Spec s)]} ∪ cl_held w))
      (Some (set_Message MNil (set_Phase SandboxPhaseRunning s))).
Proof.
  intros Hs Hl Hp Hsb Hheld. unfold reconcile_once, Reconcile.
  cbn [bind call run cluster_step]. rewrite Hs, Hl, Hp. cbn [negb orb].
  change (SandboxPhaseCreating =?s "") with false. change (SandboxPhaseCreating =?s SandboxPhasePending) with false.
  change (SandboxPhaseCreating =?s SandboxPhaseCreating) with true. cbn [orb].
  unfold reconcileCreating. cbn [bind call run cluster_step fetchSandboxConfig]. rewrite Hsb.
  unfold CreateSandbox, send. cbn [bind call run cluster_step create_request].
  unfold answer_create. cbn [cr_SandboxID]. rewrite decide_False by done. change (300 <=? 201) with false.
  cbn [bind run as_error].
  unfold update_status. cbn [bind call run cluster_step with_held cl_session]. rewrite Hs.
  match goal with |- context [match st_ExpiresAt ?st with _ => _ end] => destruct (st_ExpiresAt st) end; by destruct s.
Qed.

Lemma once_expired (w : ClusterState) (s : Session) (expiry : Z) :
  cl_session w = Some s -> not_deleted (se_Meta s) = true -> phase_of s = SandboxPhaseRunning ->
  st_ExpiresAt (se_Status s) = Some expiry ->
  effective_expiry s expiry (inl (cl_sandboxes w)) < cl_now w ->
  exists s', reconcile_once cfg ns name w = with_session w (Some s') /\
    phase_of s' = SandboxPhaseDeleting /\ se_Meta s' = se_Meta s /\ se_Spec s' = se_Spec s /\
    address_of s' = address_of s.
Proof.
  intros Hs Hl Hp He Hlt. unfold reconcile_once, Reconcile.
  cbn [bind call run cluster_step]. rewrite Hs, Hl, Hp. cbn [negb orb].
  change (SandboxPhaseRunning =?s "") with false. change (SandboxPhaseRunning =?s SandboxPhasePending) with false.
  change (SandboxPhaseRunning =?s SandboxPhaseCreating) with false.
  change (SandboxPhaseRunning =?s SandboxPhaseRunning) with true. cbn [orb].
  unfold reconcileRunning. cbn [bind call run cluster_step]. rewrite He.
  assert (forall w' s1 s2 e, cl_session w' = Some s1 -> e < cl_now w ->
    exists s', snd (run cluster_step (check_expiry (cl_now w) e s2) w') = with_session w' (Some s') /\
      se_Meta s' = se_Meta s1 /\ se_Spec s' = se_Spec s1 /\ phase_of s' = SandboxPhaseDeleting /\
      address_of s' = address_of s2) as Hce.
  { intros w' s1 s2 e Hs1 Hel. unfold check_expiry. rewrite (proj2 (Z.ltb_lt _ _) Hel).
    unfold update_status. cbn [bind call run cluster_step]. rewrite Hs1. simpl. eexists. split; [reflexivity|done]. }
  unfold effective_expiry in Hlt.
  destruct (st_LastExecAt _) as [le|];
    [|destruct (Hce w s s expiry Hs Hlt) as (s' & ? & ? & ? & ? & ?); exists s'; by split_and!].
  unfold fetchSandboxConfig. cbn [bind call run cluster_step].
  destruct (find_sandbox _ _) as [sb|];
    [|destruct (Hce w s s expiry Hs Hlt) as (s' & ? & ? & ? & ? & ?); exists s'; by split_and!].
  destruct (0 <? sp_TTLSeconds _); cbn [andb];
    [|destruct (Hce w s s expiry Hs Hlt) as (s' & ? & ? & ? & ? & ?); exists s'; by split_and!].
  destruct (expiry <? _) eqn:Hx; bool_hyps.
  - rewrite Z.max_r in Hlt by lia. unfold update_status. cbn [bind call run cluster_step]. rewrite Hs.
    set (s1 := set_Status _ _). edestruct (Hce (with_session w (Some s1)) s1 s1) as (s' & Hr & ? & ? & ? & ?);
      [done|exact Hlt|]. exists s'. rewrite Hr. by split_and!.
  - rewrite Z.max_l in Hlt by lia.
    destruct (Hce w s s expiry Hs Hlt) as (s' & ? & ? & ? & ? & ?). exists s'. by split_and!.
Qed.

Lemma run_release (w : ClusterState) (s : Session) :
  run cluster_step (release cfg s) w =
    (true, with_held w (cl_held w ∖ {[ss_SessionID (se_Spec s)]})).
Proof.
  unfold release, DeleteSandbox, send. cbn [bind call run cluster_step]. unfold answer_delete. cbn [dr_SandboxID].
  destruct (decide (ss_SessionID (se_Spec s) ∈ cl_held w)) as [Hin|Hin].
  - by cbn.
  - change (300 <=? 404) with true. cbn [bind run as_error IsStaleRouteError as_http newHTTPError he_Status].
    f_equal. rewrite difference_disjoint_L by set_solver. by destruct w.
Qed.

Lemma once_deleting (w : ClusterState) (s : Session) :
  cl_session w = Some s -> not_deleted (se_Meta s) = true -> phase_of s = SandboxPhaseDeleting ->
  address_of s <> "" ->
  reconcile_once cfg ns name w =
    with_session (with_held w (cl_held w ∖ {[ss_SessionID (se_Spec s)]}))
      (Some (set_Message MNil (set_TerminatedAt (cl_now w) (set_Phase SandboxPhaseTerminated s)))).
Proof.
  intros Hs Hl Hp Ha. unfold reconcile_once, Reconcile.
  cbn [bind call run cluster_step]. rewrite Hs, Hl, Hp. cbn [negb orb].
  change (SandboxPhaseDeleting =?s "") with false. change (SandboxPhaseDeleting =?s SandboxPhasePending) with false.
  change (SandboxPhaseDeleting =?s SandboxPhaseCreating) with false.
  change (SandboxPhaseDeleting =?s SandboxPhaseRunning) with false.
  change (SandboxPhaseDeleting =?s SandboxPhaseDeleting) with true. cbn [orb].
  unfold reconcileDeleting. rewrite (proj2 (String.eqb_neq _ _) Ha). cbn [negb].
  rewrite run_bind, run_release. unfold update_status. cbn [bind call run cluster_step with_held cl_session cl_now].
  rewrite Hs. cbv zeta. destruct (_ <=? 0); by destruct s.
Qed.

Lemma once_terminated (w : ClusterState) (s : Session) (t : Z) :
  cl_session w = Some s -> not_deleted (se_Meta s) = true -> phase_of s = SandboxPhaseTerminated ->
  map_get "boxy.dev/retain" (om_Annotations (se_Meta s)) <> Some "true" ->
  st_TerminatedAt (se_Status s) = Some t -> seconds (rc_TerminatedRetentionSec cfg) <= cl_now w - t ->
  om_Finalizers (se_Meta s) <> [] ->
  reconcile_once cfg ns name w =
    with_session w (Some (set_Meta (mark_deleted (cl_now w) (se_Meta s)) s)).
Proof.
  intros Hs Hl Hp Hr Ht He Hf. unfold reconcile_once, Reconcile.
  cbn [bind call run cluster_step]. rewrite Hs, Hl, Hp. cbn [negb orb].
  change (SandboxPhaseTerminated =?s "") with false. change (SandboxPhaseTerminated =?s SandboxPhasePending) with false.
  change (SandboxPhaseTerminated =?s SandboxPhaseCreating) with false.
  change (SandboxPhaseTerminated =?s SandboxPhaseRunning) with false.
  change (SandboxPhaseTerminated =?s SandboxPhaseDeleting) with false.
  change (SandboxPhaseTerminated =?s SandboxPhaseTerminated) with true. cbn [orb].
  assert (snd (run cluster_step (remove_terminated s) w) =
    with_session w (Some (set_Meta (mark_deleted (cl_now w) (se_Meta s)) s))) as Hrm.
  { unfold remove_terminated. cbn [bind call run cluster_step]. rewrite Hs. cbn [bind run snd].
    f_equal. unfold persist. simpl. by destruct (om_Finalizers _). }
  unfold reconcileTerminated. rewrite bool_decide_eq_false_2 by done. rewrite Ht.
  destruct (0 <? _); [|done]. cbn [bind call run cluster_step].
  rewrite (proj2 (Z.ltb_ge _ _)) by lia. done.
Qed.

Lemma once_deleted (w : ClusterState) (s : Session) (t : Z) :
  cl_session w = Some s -> om_DeletionTimestamp (se_Meta s) = Some t -> phase_of s = SandboxPhaseTerminated ->
  om_Finalizers (se_Meta s) = [FinalizerSessionCleanup] ->
  reconcile_once cfg ns name w = with_session w None.
Proof.
  intros Hs Hd Hp Hf. unfold reconcile_once, Reconcile.
  cbn [bind call run cluster_step]. rewrite Hs. unfold not_deleted. rewrite Hd. cbn [negb].
  unfold handleDeletion, ContainsFinalizer. rewrite Hf. cbn [existsb]. rewrite String.eqb_refl. cbn [orb negb].
  rewrite Hp. change (SandboxPhaseTerminated =?s SandboxPhaseRunning) with false.
  change (SandboxPhaseTerminated =?s SandboxPhaseCreating) with false. cbn [orb andb bind call run cluster_step].
  rewrite Hs. cbn [snd run]. f_equal. unfold persist, RemoveFinalizer. simpl. rewrite Hd, Hf. done.
Qed.

End steps.

(** ** Properties *)

Definition sample_cluster (s : Session) (held : gset string) (now : Z) : ClusterState :=
  {| cl_session := Some s; cl_sandboxes := [sample_sandbox_cr]; cl_pods := [sample_pod "ctrl-0"];
     cl_sts := sample_sts 1; cl_now := now; cl_held := held |}.




