(* ===== verification/PoolReconciler.v ===== *)
(** * The controller-pool and sandbox-configuration reconcilers:
    [internal/operator/pool_reconciler.go], [sandbox_config_reconciler.go] *)
From S2P Require Import Prelude Prog GoStrings ApiTypes Kube SessionReconciler.
Open Scope boxy_scope.

(** ** Controller pools *)

Definition conditionReady : string := "Ready".

(** The phases that count as active. *)
Definition active_phase (p : string) : bool :=
  (p =?s SandboxPhasePending) || (p =?s SandboxPhaseCreating) || (p =?s SandboxPhaseRunning).

Definition count_active (l : list Session) : Z :=
  to_int32 (llen (List.filter (fun s => active_phase (phase_of s)) l)).

(** Replace the first condition of the type, or append it. *)
Fixpoint put_condition (updated : Condition) (cs : list Condition) : list Condition :=
  match cs with
  | [] => [updated]
  | c :: cs' =>
      if co_Type c =?s conditionReady then
        {| co_Type := co_Type updated; co_Status := co_Status updated; co_Reason := co_Reason updated;
           co_Message := co_Message updated;
           co_LastTransitionTime := if co_Status c =?s co_Status updated
                                    then co_LastTransitionTime c else co_LastTransitionTime updated |} :: cs'
      else c :: put_condition updated cs'
  end.

Definition ready_condition (minReplicas readyReplicas now : Z) : Condition :=
  let minReplicas := if minReplicas <=? 0 then 1 else minReplicas in
  if readyReplicas <? minReplicas then
    {| co_Type := conditionReady; co_Status := "False"; co_Reason := "InsufficientReplicas";
       co_Message := "need " +:+ pretty minReplicas +:+ " ready replicas, have " +:+ pretty readyReplicas;
       co_LastTransitionTime := now |}
  else
    {| co_Type := conditionReady; co_Status := "True"; co_Reason := "PoolReady";
       co_Message := pretty readyReplicas +:+ "/" +:+ pretty minReplicas +:+ " replicas ready";
       co_LastTransitionTime := now |}.

Definition set_PoolStatus (p : ControllerPool) (st : ControllerPoolStatus) : ControllerPool :=
  {| cp_Meta := cp_Meta p; cp_Spec := cp_Spec p; cp_Status := st |}.

Section reconcilers.
Context (cfg : ReconcilerConfig).

Definition countActiveSessions : prog (Z + Err) :=
  l <- call (ListSessions (rc_Namespace cfg) []) ;;
  match l with
  | inr err => Ret (inr (ErrWrap "list sessions: " err ""))
  | inl items => Ret (inl (count_active items))
  end.

Definition readyReplicas : prog (Z + Err) :=
  g <- call (GetStatefulSet (rc_Namespace cfg) (rc_StatefulSetName cfg)) ;;
  match g with
  | inr err => if IsNotFound err then Ret (inl 0) else Ret (inr (ErrWrap "get statefulset: " err ""))
  | inl sts => Ret (inl (sts_ReadyReplicas sts))
  end.

Definition setReadyCondition (pool : ControllerPool) (ready : Z) : prog ControllerPool :=
  now <- call Now ;;
  let st := cp_Status pool in
  Ret (set_PoolStatus pool
    {| cst_ReadyReplicas := cst_ReadyReplicas st; cst_ActiveSandboxCount := cst_ActiveSandboxCount st;
       cst_LastScaleTime := cst_LastScaleTime st;
       cst_Conditions := put_condition (ready_condition (cps_MinReplicas (cp_Spec pool)) ready now)
                           (cst_Conditions st) |}).

Definition ReconcilePool (ns name : string) : prog (Result * error) :=
  g <- call (GetPool ns name) ;;
  match g with
  | inr err => if IsNotFound err then Ret (no_requeue, None) else Ret (failed err)
  | inl pool =>
      a <- countActiveSessions ;;
      match a with
      | inr err => Ret (failed err)
      | inl active =>
          r <- readyReplicas ;;
          match r with
          | inr err => Ret (failed err)
          | inl ready =>
              let st := cp_Status pool in
              SetPoolState cfg ready active ;;;
              pool <- setReadyCondition (set_PoolStatus pool
                {| cst_ReadyReplicas := ready; cst_ActiveSandboxCount := active;
                   cst_LastScaleTime := cst_LastScaleTime st; cst_Conditions := cst_Conditions st |}) ready ;;
              u <- call (StatusUpdatePool pool) ;;
              match u with
              | inr err => Ret (failed err)
              | inl _ => Ret (no_requeue, None)
              end
          end
      end
  end.

(** The pools to reconcile when a session changes. *)
Definition sessionToPool : prog (list (string * string)) :=
  l <- call (ListPools (rc_Namespace cfg)) ;;
  match l with
  | inr _ => Ret []
  | inl pools => Ret (map (fun p => (om_Namespace (cp_Meta p), om_Name (cp_Meta p))) pools)
  end.

(** ** Sandbox configurations *)

(** One iteration over the sessions of the configuration: how many are active. *)
Definition drain_session (active : Z) (s : Session) : prog Z :=
  if phase_of s =?s SandboxPhaseTerminated then Ret active
  else if negb (not_deleted (se_Meta s)) then Ret active
  else
    (if negb (phase_of s =?s SandboxPhaseDeleting)
     then call (StatusPatchSession s (set_Phase SandboxPhaseDeleting s)) ;;; Ret tt
     else Ret tt) ;;;
    Ret (active + 1).

Definition set_SandboxMeta (m : ObjectMeta) (sb : Sandbox) : Sandbox :=
  {| sb_Meta := m; sb_Spec := sb_Spec sb |}.

Definition update_sandbox (sb : Sandbox) : prog (Result * error) :=
  u <- call (UpdateSandbox sb) ;;
  match u with
  | inr err => Ret (failed err)
  | inl _ => Ret (no_requeue, None)
  end.

Definition handleSandboxDeletion (sb : Sandbox) : prog (Result * error) :=
  l <- call (ListSessions (rc_Namespace cfg) [(LabelSandboxID, sp_SandboxID (sb_Spec sb))]) ;;
  match l with
  | inr err => Ret (failed err)
  | inl sessions =>
      active <- for_each sessions drain_session 0 ;;
      if 0 <? active then Ret (requeue_after (5 * Second), None)
      else update_sandbox (set_SandboxMeta (RemoveFinalizer (sb_Meta sb) FinalizerSandboxConfigCleanup) sb)
  end.

Definition ReconcileSandbox (ns name : string) : prog (Result * error) :=
  g <- call (GetSandbox ns name) ;;
  match g with
  | inr err => if IsNotFound err then Ret (no_requeue, None) else Ret (failed err)
  | inl sb =>
      if negb (ContainsFinalizer (sb_Meta sb) FinalizerSandboxConfigCleanup) then
        update_sandbox (set_SandboxMeta (AddFinalizer (sb_Meta sb) FinalizerSandboxConfigCleanup) sb)
      else if not_deleted (sb_Meta sb) then Ret (no_requeue, None)
      else handleSandboxDeletion sb
  end.

End reconcilers.

(** ** Specification *)

(** A session that keeps its configuration from going away. *)
Definition blocks (s : Session) : bool :=
  negb (phase_of s =?s SandboxPhaseTerminated) && not_deleted (se_Meta s).

(** The configuration that was read, its sessions as listed, the sessions that
    were told to stop, and the configurations that were written. *)
Record CfgMonitor := {
  cm_read : option Sandbox;
  cm_listed : option (list Session);
  cm_stopped : list Session;
  cm_written : list (option Sandbox * option (list Session) * Sandbox);
}.

Definition cfg_start : CfgMonitor := {| cm_read := None; cm_listed := None; cm_stopped := []; cm_written := [] |}.

Definition cfg_env : env CfgMonitor := fun e m =>
  match e return KAnswer e -> CfgMonitor -> Prop with
  | GetSandbox _ _ => fun a m' => m' = match a with
      | inl sb => {| cm_read := Some sb; cm_listed := cm_listed m; cm_stopped := cm_stopped m; cm_written := cm_written m |}
      | inr _ => m end
  | ListSessions _ _ => fun a m' => m' = match a with
      | inl l => {| cm_read := cm_read m; cm_listed := Some l; cm_stopped := cm_stopped m; cm_written := cm_written m |}
      | inr _ => m end
  | StatusPatchSession _ s' => fun _ m' => m' =
      {| cm_read := cm_read m; cm_listed := cm_listed m; cm_stopped := cm_stopped m ++ [s']; cm_written := cm_written m |}
  | UpdateSandbox sb => fun _ m' => m' =
      {| cm_read := cm_read m; cm_listed := cm_listed m; cm_stopped := cm_stopped m;
         cm_written := cm_written m ++ [(cm_read m, cm_listed m, sb)] |}
  | _ => fun _ m' => m' = m
  end.

(** A configuration loses its finalizer only while being deleted and when none
    of its listed sessions blocks. *)
Definition cfg_write_ok (w : option Sandbox * option (list Session) * Sandbox) : Prop :=
  let '(read, listed, sb) := w in
  ContainsFinalizer (sb_Meta sb) FinalizerSandboxConfigCleanup = true \/
  exists sb0 l, read = Some sb0 /\ listed = Some l /\ not_deleted (sb_Meta sb0) = false /\
    Forall (fun s => blocks s = false) l.

(** The sessions that had to be told to stop: those that block and are not
    already stopping, with the phase set to Deleting. *)
Definition to_stop (l : list Session) : list Session :=
  map (set_Phase SandboxPhaseDeleting)
    (List.filter (fun s => blocks s && negb (phase_of s =?s SandboxPhaseDeleting)) l).

(** ** Lemmas *)

Lemma drain_session_mon (s : Session) (active : Z) (m : CfgMonitor) :
  wp cfg_env (drain_session active s) m (fun active' m' =>
    active' = active + (if blocks s then 1 else 0) /\
    m' = {| cm_read := cm_read m; cm_listed := cm_listed m;
            cm_stopped := cm_stopped m ++ to_stop [s]; cm_written := cm_written m |}).
Proof.
  unfold drain_session, to_stop, blocks. simpl.
  destruct (phase_of s =?s SandboxPhaseTerminated); simpl.
  { rewrite app_nil_r. destruct m. split; [lia|done]. }
  destruct (not_deleted (se_Meta s)); simpl.
  2: { rewrite app_nil_r. destruct m. split; [lia|done]. }
  destruct (phase_of s =?s SandboxPhaseDeleting); simpl.
  { rewrite app_nil_r. destruct m. split; [lia|done]. }
  by intros a m' ->.
Qed.

Lemma drain_sessions_mon (l : list Session) (m : CfgMonitor) :
  wp cfg_env (for_each l drain_session 0) m (fun active m' =>
    active = llen (List.filter blocks l) /\
    m' = {| cm_read := cm_read m; cm_listed := cm_listed m;
            cm_stopped := cm_stopped m ++ to_stop l; cm_written := cm_written m |}).
Proof.
  apply (wp_for_each cfg_env l drain_session (fun done active m' =>
    active = llen (List.filter blocks done) /\
    m' = {| cm_read := cm_read m; cm_listed := cm_listed m;
            cm_stopped := cm_stopped m ++ to_stop done; cm_written := cm_written m |})).
  - unfold to_stop. simpl. rewrite app_nil_r. by destruct m.
  - intros d x rest active m' _ [-> ->]. eapply wp_mono; [|apply drain_session_mon].
    intros a m' [-> ->]. simpl. unfold to_stop, llen. rewrite !List.filter_app, map_app, length_app, <- app_assoc.
    split; [|done]. simpl. destruct (blocks x); simpl; lia.
Qed.

Lemma no_blocker (l : list Session) : llen (List.filter blocks l) <= 0 -> Forall (fun s => blocks s = false) l.
Proof.
  unfold llen. induction l as [|s l IH]; simpl; [constructor|].
  destruct (blocks s) eqn:Hb; simpl; [lia|]. intros H. constructor; [done|]. by apply IH.
Qed.

Definition is_ready (c : Condition) : bool := co_Type c =?s conditionReady.

Definition at_transition (c : Condition) (t : Z) : Condition :=
  {| co_Type := co_Type c; co_Status := co_Status c; co_Reason := co_Reason c; co_Message := co_Message c;
     co_LastTransitionTime := t |}.

Lemma put_condition_others (u : Condition) (cs : list Condition) :
  is_ready u = true ->
  List.filter (fun c => negb (is_ready c)) (put_condition u cs) = List.filter (fun c => negb (is_ready c)) cs.
Proof.
  unfold is_ready. intros Hu. induction cs as [|c cs IH]; simpl; [by rewrite Hu|].
  destruct (co_Type c =?s conditionReady) eqn:Hc; simpl; rewrite ?Hu, ?Hc; simpl; [done|]. by rewrite IH.
Qed.

Lemma put_condition_ready (u : Condition) (cs : list Condition) :
  is_ready u = true ->
  match List.find is_ready cs with
  | None => put_condition u cs = cs ++ [u]
  | Some c => length (put_condition u cs) = length cs /\
      List.find is_ready (put_condition u cs) =
        Some (at_transition u (if co_Status c =?s co_Status u then co_LastTransitionTime c else co_LastTransitionTime u))
  end.
Proof.
  unfold is_ready. intros Hu. induction cs as [|c cs IH]; simpl; [done|].
  destruct (co_Type c =?s conditionReady) eqn:Hc; simpl; [by rewrite Hu|].
  rewrite Hc. destruct (List.find _ cs) as [c'|].
  - destruct IH as [-> ->]. done.
  - by rewrite IH.
Qed.

(** ** Properties *)

(** C22: a sandbox configuration loses its clean-up finalizer only while it is
    being deleted and when every session listed for it is terminated or itself
    being deleted; and once the sessions are listed, exactly those that are
    neither, and not already stopping, are moved to Deleting. *)
Theorem config_kept_while_sessions_live (cfg : ReconcilerConfig) (ns name : string) :
  wp cfg_env (ReconcileSandbox cfg ns name) cfg_start (fun _ m =>
    Forall cfg_write_ok (cm_written m) /\
    cm_stopped m = match cm_listed m with Some l => to_stop l | None => [] end).
Proof.
  unfold ReconcileSandbox. cbn [wp bind call].
  intros [sb|err] m ->; [|destruct (IsNotFound err); split; (constructor || done)].
  destruct (ContainsFinalizer _ _) eqn:Hf; cbn [negb].
  - destruct (not_deleted (sb_Meta sb)) eqn:Hd; [by split; [constructor|]|].
    unfold handleSandboxDeletion. cbn [wp bind call]. intros [l|err] m ->; [|by split; [constructor|]].
    eapply wp_bind_spec; [apply drain_sessions_mon|]. intros active m [-> ->].
    destruct (0 <? _) eqn:Ha; bool_hyps; [by split; [constructor|]|].
    unfold update_sandbox. cbn [wp bind call].
    intros [sb'|err] m ->; (split; [|done]); (constructor; [|constructor]); right; exists sb, l;
      (split_and!; [done..|by apply no_blocker]).
  - unfold update_sandbox. cbn [wp bind call].
    intros [sb'|err] m ->; (split; [|done]); (constructor; [|constructor]); left; apply AddFinalizer_contains.
Qed.

(** The Ready condition of a pool is True exactly when the ready replicas
    reach the minimum (at least one); updating the conditions keeps all
    conditions of other types in place, replaces the Ready condition or appends
    it, and changes its transition time only when its status changes. *)
Theorem pool_condition_exact (minReplicas ready now : Z) (cs : list Condition) :
  let u := ready_condition minReplicas ready now in
  let cs' := put_condition u cs in
  co_Type u = conditionReady /\
  (co_Status u = "True" <-> Z.max 1 minReplicas <= ready) /\
  (co_Status u = "False" <-> ready < Z.max 1 minReplicas) /\
  List.filter (fun c => negb (is_ready c)) cs' = List.filter (fun c => negb (is_ready c)) cs /\
  match List.find is_ready cs with
  | None => cs' = cs ++ [u]
  | Some c => length cs' = length cs /\
      List.find is_ready cs' =
        Some (at_transition u (if co_Status c =?s co_Status u then co_LastTransitionTime c else now))
  end.
Proof.
  intros u cs'.
  assert (is_ready u = true) as Hu by (unfold u, ready_condition; by destruct (ready <? _)).
  assert (co_LastTransitionTime u = now) as Ht by (unfold u, ready_condition; by destruct (ready <? _)).
  split; [by apply String.eqb_eq in Hu|]. split_and!.
  - unfold u, ready_condition. destruct (minReplicas <=? 0) eqn:Hm; bool_hyps;
      destruct (ready <? _) eqn:Hr; bool_hyps; simpl; split; (done || lia).
  - unfold u, ready_condition. destruct (minReplicas <=? 0) eqn:Hm; bool_hyps;
      destruct (ready <? _) eqn:Hr; bool_hyps; simpl; split; (done || lia).
  - by apply put_condition_others.
  - pose proof (put_condition_ready u cs Hu) as H. rewrite Ht in H. done.
Qed.
