(* ===== verification/Auth.v ===== *)
(** * Authentication and authorization

    The router's [tokenReviewer] ([internal/router/auth.go]): bearer tokens are
    confirmed by a TokenReview of the API server, with a cache keyed by the
    SHA-256 of the token and guarded by a read-write lock, and access is decided
    by a SubjectAccessReview.  Other requests use the cache concurrently: in the
    environment [auth_env] they may do anything to it that keeps its invariant
    whenever the lock is acquired. *)
From S2P Require Import Prelude Prog GoSha256 ApiTypes Kube.

Open Scope boxy_scope.

Record tokenReviewer := { tr_ttl : Z; tr_devToken : string }.

(** The map of entries starts empty, and [evictLoop] runs beside the reviewer. *)
Definition newTokenReviewer (ttl : Z) (devToken : string) : tokenReviewer := {| tr_ttl := ttl; tr_devToken := devToken |}.

Definition tokenHash (token : string) : string := EncodeToString (Sum256 token).

Definition dev_user : UserInfo := {| ui_Username := "dev-token"; ui_UID := ""; ui_Groups := [] |}.

Section reviewer.
Context (tr : tokenReviewer).

(** The part of [authenticate] after a cache miss. *)
Definition review_token (token key : string) : prog (UserInfo + Err) :=
  rev <- call (TokenReview token) ;;
  match rev with
  | inr err => Ret (inr (ErrWrap "tokenreview: " err ""))
  | inl st =>
      if negb (rv_Authenticated st) then
        Ret (inr (ErrMsg (if rv_Error st =?s "" then "not authenticated" else rv_Error st)))
      else
        call CacheLock ;;;
        now <- call Now ;;
        call (CacheSet key {| ca_user := rv_User st; ca_storedAt := now |}) ;;;
        call CacheUnlock ;;;
        Ret (inl (rv_User st))
  end.

Definition authenticate (token : string) : prog (UserInfo + Err) :=
  if negb (tr_devToken tr =?s "") && (token =?s tr_devToken tr) then Ret (inl dev_user)
  else
    let key := tokenHash token in
    call CacheRLock ;;;
    hit <- call (CacheGet key) ;;
    match hit with
    | Some e =>
        now <- call Now ;;
        call CacheRUnlock ;;;
        if now - ca_storedAt e <? tr_ttl tr then Ret (inl (ca_user e)) else review_token token key
    | None => call CacheRUnlock ;;; review_token token key
    end.

Definition authorizeResource (user : option UserInfo) (namespace verb resource name : string) : prog error :=
  match user with
  | None => Ret (Some (ErrMsg "missing authenticated user"))
  | Some u =>
      if ui_Username u =?s "" then Ret (Some (ErrMsg "missing authenticated user"))
      else if negb (tr_devToken tr =?s "") && (ui_Username u =?s "dev-token") then Ret None
      else
        sar <- call (SubjectAccessReview {| aq_User := u; aq_Namespace := namespace; aq_Resource := resource;
                                            aq_Verb := verb; aq_Name := name |}) ;;
        match sar with
        | inr err => Ret (Some (ErrWrap "subjectaccessreview: " err ""))
        | inl st =>
            if as_Allowed st then Ret None
            else Ret (Some (ErrMsg (if as_Reason st =?s "" then "access denied" else as_Reason st)))
        end
  end.

(** One tick of [evictLoop]. *)
Definition evict_entry (_ : unit) (ke : string * CachedResult) : prog unit :=
  now <- call Now ;;
  if tr_ttl tr <=? now - ca_storedAt ke.2 then call (CacheDelete ke.1) else Ret tt.

Definition evict_pass : prog unit :=
  call CacheLock ;;;
  entries <- call CacheEntries ;;
  for_each entries evict_entry tt ;;;
  call CacheUnlock.

(** How [evictLoop] ends: with its context, or at once by the panic of
    [time.NewTicker] on a period that is not positive. *)
Inductive LoopEnd : Type := Stopped | Panicked.

Definition tick_period : Z := to_int64 (tr_ttl tr * 2).

(** [evictLoop], for at most [n] rounds. *)
Definition evictLoop (n : nat) : prog (option LoopEnd) :=
  if tick_period <=? 0 then Ret (Some Panicked)
  else loop n (fun _ : unit =>
    t <- call Tick ;;
    if t : bool then evict_pass ;;; Ret (inl tt) else Ret (inr Stopped)) tt.

End reviewer.

(** ** The environment of the cache *)

Inductive CacheLockState : Type := Free | Reading | Writing | Broken.

Record AuthState := {
  au_cache : gmap string CachedResult;
  au_reviews : list (string * UserInfo * Z);
  au_clock : Z;
  au_lock : CacheLockState;
}.

Definition with_cache (s : AuthState) (m : gmap string CachedResult) (l : CacheLockState) : AuthState :=
  {| au_cache := m; au_reviews := au_reviews s; au_clock := au_clock s; au_lock := l |}.

(** Every entry comes from a review of a token with that hash which the API
    server confirmed, not after the entry was stored. *)
Definition cache_ok (s : AuthState) : Prop :=
  forall k e, au_cache s !! k = Some e ->
    exists t tm, tokenHash t = k /\ (t, ca_user e, tm) ∈ au_reviews s /\ tm <= ca_storedAt e.

(** What other requests may do meanwhile. *)
Definition others (s s' : AuthState) : Prop :=
  cache_ok s' /\ au_clock s <= au_clock s' /\ (forall r, r ∈ au_reviews s -> r ∈ au_reviews s') /\
  au_lock s' = au_lock s.

Definition move (from to : CacheLockState) (l : CacheLockState) : CacheLockState :=
  match from, l with
  | Free, Free | Reading, Reading | Writing, Writing => to
  | _, _ => Broken
  end.

Definition can_read (l : CacheLockState) : CacheLockState :=
  match l with Reading => Reading | Writing => Writing | _ => Broken end.

Definition auth_env : env AuthState := fun e s =>
  match e return KAnswer e -> AuthState -> Prop with
  | CacheRLock => fun _ s' => exists s0, others s s0 /\ s' = with_cache s0 (au_cache s0) (move Free Reading (au_lock s))
  | CacheLock => fun _ s' => exists s0, others s s0 /\ s' = with_cache s0 (au_cache s0) (move Free Writing (au_lock s))
  | CacheRUnlock => fun _ s' => s' = with_cache s (au_cache s) (move Reading Free (au_lock s))
  | CacheUnlock => fun _ s' => s' = with_cache s (au_cache s) (move Writing Free (au_lock s))
  | CacheGet k => fun x s' => x = au_cache s !! k /\ s' = with_cache s (au_cache s) (can_read (au_lock s))
  | CacheEntries => fun x s' => x ≡ₚ map_to_list (au_cache s) /\ s' = with_cache s (au_cache s) (can_read (au_lock s))
  | CacheSet k c => fun _ s' => s' = with_cache s (<[k := c]> (au_cache s)) (move Writing Writing (au_lock s))
  | CacheDelete k => fun _ s' => s' = with_cache s (delete k (au_cache s)) (move Writing Writing (au_lock s))
  | TokenReview t => fun x s' =>
      exists now, au_clock s <= now /\
      s' = {| au_cache := au_cache s; au_clock := now; au_lock := au_lock s;
              au_reviews := match x with
                            | inl st => if rv_Authenticated st then (t, rv_User st, now) :: au_reviews s
                                        else au_reviews s
                            | inr _ => au_reviews s
                            end |}
  | Tick => fun _ s' => others s s'
  | Now => fun x s' => au_clock s <= x /\
      s' = {| au_cache := au_cache s; au_reviews := au_reviews s; au_clock := x; au_lock := au_lock s |}
  | _ => fun _ s' => s' = s
  end.

(** A user the router may act for after [token] was presented at [s]. *)
Definition vouched (tr : tokenReviewer) (s : AuthState) (token : string) (u : UserInfo) (s' : AuthState) : Prop :=
  (tr_devToken tr <> "" /\ token = tr_devToken tr /\ u = dev_user) \/
  (exists tm, (token, u, tm) ∈ au_reviews s' /\ au_clock s <= tm) \/
  (exists t tm stored, tokenHash t = tokenHash token /\ (t, u, tm) ∈ au_reviews s' /\
     tm <= stored /\ au_clock s' - stored < tr_ttl tr).

(** Time goes on and reviews stay. *)
Definition onward (s s' : AuthState) : Prop :=
  au_clock s <= au_clock s' /\ forall r, r ∈ au_reviews s -> r ∈ au_reviews s'.

#[export] Instance onward_preorder : PreOrder onward.
Proof. split; [done|]. intros s1 s2 s3 [? ?] [? ?]. split; [lia|auto]. Qed.

Lemma auth_env_onward (e : KEvent) (s : AuthState) (x : KAnswer e) (s' : AuthState) : auth_env e s x s' -> onward s s'.
Proof.
  unfold auth_env, onward, others.
  destruct e; simpl; try (by intros ->); try (by intros [_ ->]); try (by intros [? ->]);
    try (by intros (s0 & (? & ? & ? & ?) & ->)); try (by intros (? & ? & ? & ?)).
  intros (now & Hn & ->). split; [done|]. simpl. intros r Hr. destruct x as [st|]; [|done].
  destruct (rv_Authenticated st); [by right|done].
Qed.

Lemma vouched_earlier tr (s0 s : AuthState) (token : string) (u : UserInfo) (s' : AuthState) :
  onward s0 s -> vouched tr s token u s' -> vouched tr s0 token u s'.
Proof. intros [Hc _] [?|[(tm & ? & ?)|?]]; [by left| |by right; right]. right. left. exists tm. split; [done|lia]. Qed.

Lemma cache_ok_frame (s s' : AuthState) :
  cache_ok s -> au_cache s' ⊆ au_cache s -> (forall r, r ∈ au_reviews s -> r ∈ au_reviews s') -> cache_ok s'.
Proof.
  intros Hok Hc Hr k e Hk. eapply lookup_weaken in Hk; [|exact Hc].
  destruct (Hok k e Hk) as (t & tm & ? & ? & ?). eauto 10.
Qed.

Lemma cache_ok_insert (s : AuthState) (t : string) (u : UserInfo) (tm now : Z) (l : CacheLockState) :
  cache_ok s -> (t, u, tm) ∈ au_reviews s -> tm <= now ->
  cache_ok (with_cache s (<[tokenHash t := {| ca_user := u; ca_storedAt := now |}]> (au_cache s)) l).
Proof.
  intros Hok Hr Ht k e. simpl. destruct (decide (k = tokenHash t)) as [->|Hk].
  - rewrite lookup_insert_eq. intros [= <-]. simpl. eauto.
  - rewrite lookup_insert_ne by congruence. apply Hok.
Qed.

Section sound.
Context (tr : tokenReviewer).

Lemma review_token_sound (token : string) (s : AuthState) :
  cache_ok s -> au_lock s = Free ->
  wp auth_env (review_token token (tokenHash token)) s (fun r s' =>
    cache_ok s' /\ au_lock s' = Free /\
    match r with inl u => exists tm, (token, u, tm) ∈ au_reviews s' /\ au_clock s <= tm | inr _ => True end).
Proof.
  intros Hok Hl. unfold review_token. cbn [wp bind call]. intros [st|err] s1 (now & Hn & ->).
  2: { split; [|done]. eapply cache_ok_frame; [exact Hok|done|done]. }
  destruct (rv_Authenticated st); cbn [negb].
  2: { split; [|done]. eapply cache_ok_frame; [exact Hok|done|done]. }
  cbn [wp bind call]. intros _ s2 (s0 & (Hok0 & Hc0 & Hr0 & Hl0) & ->). simpl in *.
  intros t s3 [Ht ->] _ s4 -> _ s5 ->. simpl. rewrite Hl. simpl.
  assert ((token, rv_User st, now) ∈ au_reviews s0) as Hin by (apply Hr0; left).
  split; [|split; [done|exists now; split; [done|lia]]].
  apply (cache_ok_insert {| au_cache := au_cache s0; au_reviews := au_reviews s0; au_clock := t; au_lock := Writing |}
    token (rv_User st) now t); [|done|simpl in *; lia].
  eapply cache_ok_frame; [exact Hok0|done|done].
Qed.

Lemma evict_entries_sound (entries : list (string * CachedResult)) (s : AuthState) :
  au_lock s = Writing -> entries ≡ₚ map_to_list (au_cache s) ->
  wp auth_env (for_each entries (evict_entry tr) tt) s (fun _ s' =>
    au_lock s' = Writing /\ au_cache s' ⊆ au_cache s /\ au_reviews s' = au_reviews s /\
    forall k e, au_cache s' !! k = Some e -> au_clock s - ca_storedAt e < tr_ttl tr).
Proof.
  intros Hl Hp.
  eapply wp_mono; [|apply (wp_for_each auth_env entries (evict_entry tr) (fun seen _ s' =>
    au_lock s' = Writing /\ au_cache s' ⊆ au_cache s /\ au_reviews s' = au_reviews s /\ au_clock s <= au_clock s' /\
    forall k e, (k, e) ∈ seen -> au_cache s' !! k = Some e -> au_clock s - ca_storedAt e < tr_ttl tr))].
  - simpl. intros [] s' (? & Hsub & ? & ? & Hall). split_and!; [done..|]. intros k e Hk. apply (Hall k e); [|done].
    rewrite Hp. apply elem_of_map_to_list. by eapply lookup_weaken.
  - split_and!; [done..|lia|]. intros k e Hk. by apply elem_of_nil in Hk.
  - intros seen [k c] rest [] s1 Hent (Hl1 & Hs1 & Hr1 & Hc1 & Hall). unfold evict_entry. cbn [wp bind call fst snd].
    intros now s2 [Hnow ->]. destruct (tr_ttl tr <=? now - ca_storedAt c) eqn:Hage; bool_hyps.
    + cbn [wp bind call]. intros ? s3 Hs3. simpl in Hs3. subst s3. simpl. rewrite Hl1. split_and!; [done| |done|lia|].
      * etrans; [apply delete_subseteq|done].
      * intros k' e' Hin Hk'. rewrite lookup_delete_Some in Hk'. destruct Hk' as [Hne Hk'].
        apply elem_of_app in Hin as [Hin|Hin%list_elem_of_singleton]; [eauto|congruence].
    + cbn [wp au_lock au_cache au_reviews au_clock]. split_and!; [done..|lia|].
      intros k' e' Hin Hk'. apply elem_of_app in Hin as [Hin|Hin%list_elem_of_singleton]; [eauto|].
      simplify_eq. lia.
Qed.

Lemma authenticate_vouched (token : string) (s : AuthState) :
  cache_ok s -> au_lock s = Free ->
  wp auth_env (authenticate tr token) s (fun r s' =>
    cache_ok s' /\ au_lock s' = Free /\ match r with inl u => vouched tr s token u s' | inr _ => True end).
Proof.
  intros Hok Hl. unfold authenticate.
  destruct (negb (tr_devToken tr =?s "") && (token =?s tr_devToken tr)) eqn:Hd.
  { bool_hyps. split_and!; [done..|]. left. by split_and!. }
  cbv zeta. cbn [wp bind call]. intros _ s1 (s0 & (Hok0 & Hc0 & Hr0 & Hl0) & ->). simpl.
  rewrite Hl. simpl. intros hit s2 [-> ->]. simpl.
  assert (forall s', au_lock s' = Free -> au_cache s' = au_cache s0 -> au_reviews s' = au_reviews s0 ->
    au_clock s <= au_clock s' ->
    wp auth_env (review_token token (tokenHash token)) s' (fun r s' =>
      cache_ok s' /\ au_lock s' = Free /\ match r with inl u => vouched tr s token u s' | inr _ => True end)) as Hmiss.
  { intros s' Hl' Hc' Hr' Hk'. eapply wp_mono; [|apply review_token_sound; [|done]].
    - intros [u|err] s2 (? & ? & H); [|done]. split_and!; [done..|]. right. left. destruct H as (tm & ? & ?).
      exists tm. split; [done|lia].
    - eapply cache_ok_frame; [exact Hok0|by rewrite Hc'|by rewrite Hr']. }
  destruct (au_cache s0 !! tokenHash token) as [e|] eqn:Hhit; cbn [wp bind call].
  - intros now s3 [Hnow ->] _ s4 ->. simpl. destruct (now - ca_storedAt e <? tr_ttl tr) eqn:Hage; bool_hyps.
    + simpl. split; [eapply cache_ok_frame; [exact Hok0|done|done]|]. split; [done|]. right. right.
      destruct (Hok0 _ _ Hhit) as (t & tm & Ht & Hin & Htm). exists t, tm, (ca_storedAt e). done.
    + apply Hmiss; try done. simpl in *. lia.
  - intros _ s3 ->. apply Hmiss; try done.
Qed.


(** A pass keeps the cache's invariant and the lock discipline, and leaves no
    entry that had reached its time to live when it began. *)
Lemma evict_pass_sound (s : AuthState) :
  cache_ok s -> au_lock s = Free ->
  wp auth_env (evict_pass tr) s (fun _ s' =>
    cache_ok s' /\ au_lock s' = Free /\
    forall k e, au_cache s' !! k = Some e -> au_clock s - ca_storedAt e < tr_ttl tr).
Proof.
  intros Hok Hl. unfold evict_pass. cbn [wp bind call].
  intros _ s1 (s0 & (Hok0 & Hc0 & Hr0 & Hl0) & ->) entries s2 [Hp ->]. simpl in *. rewrite Hl. simpl.
  eapply wp_bind_spec; [by apply evict_entries_sound|]. simpl.
  intros [] s3 (Hl3 & Hsub & Hr3 & Hall) _ s4 ->. simpl. rewrite Hl3. simpl. split_and!; [|done|].
  - eapply cache_ok_frame; [exact Hok0|done|simpl; by rewrite Hr3].
  - intros k e Hk. specialize (Hall k e Hk). simpl in Hall. lia.
Qed.

(** C33: the eviction loop, for a time to live below 146 years, runs until its
    context ends: after any number of rounds, with requests in between, the
    cache's invariant holds and the lock is free; and a round leaves no entry
    that had reached its time to live when it began. *)
Theorem eviction_sound (n : nat) (s : AuthState) :
  0 < tr_ttl tr < 2 ^ 62 -> cache_ok s -> au_lock s = Free ->
  wp auth_env (evictLoop tr n) s (fun r s' => r <> Some Panicked /\ cache_ok s' /\ au_lock s' = Free) /\
  wp auth_env (evict_pass tr) s (fun _ s' =>
    forall k e, au_cache s' !! k = Some e -> au_clock s - ca_storedAt e < tr_ttl tr).
Proof.
  intros Ht Hok Hl. split; [|eapply wp_mono; [|by apply evict_pass_sound]; by intros [] s' (_ & _ & ?)].
  unfold evictLoop, tick_period, to_int64. rewrite wrap_s_small by lia.
  rewrite (proj2 (Z.leb_gt _ _)) by lia.
  eapply wp_mono; [|apply (wp_rounds auth_env _ (fun _ s => cache_ok s /\ au_lock s = Free)
    (fun r s => r <> Panicked /\ cache_ok s /\ au_lock s = Free)); [done|]].
  - intros [r|] s'; [intros [? ?]|intros [_ ?]]; (split; [congruence|done]).
  - intros [] s1 [Hok1 Hl1]. cbn [wp bind call]. intros t s2 (Hok2 & _ & _ & Hl2). rewrite Hl1 in Hl2.
    destruct t; [|done]. eapply wp_bind_spec; [by apply evict_pass_sound|]. by intros [] s3 (Hok3 & Hl3 & _).
Qed.

End sound.

(** The API server's decision [a], with a log of the questions asked. *)
Definition review_step (a : AccessStatus + Err) (e : KEvent) (asked : list AccessQuery) : KAnswer e * list AccessQuery :=
  match e return KAnswer e * list AccessQuery with
  | SubjectAccessReview q => (a, asked ++ [q])
  | e' => (unavailable e', asked)
  end.

(** Access is granted exactly when the user has a name and either a
    development token is configured and the name is [dev-token], or the API
    server allows the one question asked, about this user, namespace, verb,
    resource and name. *)
Theorem access_decision_exact (tr : tokenReviewer) (user : option UserInfo) (ns verb resource name : string)
    (a : AccessStatus + Err) :
  let '(r, asked) := run (review_step a) (authorizeResource tr user ns verb resource name) [] in
  (r = None <-> exists u, user = Some u /\ ui_Username u <> "" /\
     ((tr_devToken tr <> "" /\ ui_Username u = "dev-token") \/ exists st, a = inl st /\ as_Allowed st = true)) /\
  (asked = [] \/ exists u, user = Some u /\
     asked = [{| aq_User := u; aq_Namespace := ns; aq_Resource := resource; aq_Verb := verb; aq_Name := name |}]).
Proof.
  unfold authorizeResource. destruct user as [u|]; cbn; [|naive_solver].
  destruct (ui_Username u =?s "") eqn:Hu; bool_hyps; cbn; [naive_solver|].
  destruct (negb (tr_devToken tr =?s "") && (ui_Username u =?s "dev-token")) eqn:Hd; cbn.
  { bool_hyps. split; [|by left]. split; [|done]. intros _. exists u. naive_solver. }
  assert (~ (tr_devToken tr <> "" /\ ui_Username u = "dev-token")) as Hnd.
  { intros [H1 H2]. apply String.eqb_neq in H1. rewrite H1, H2 in Hd. done. }
  destruct a as [st|err]; cbn; [destruct (as_Allowed st) eqn:Ha; cbn|];
    (split; [split|right; by exists u]); try done.
  - intros _. exists u. split_and!; eauto.
  - intros (u' & [= <-] & _ & [?|(st' & [= <-] & ?)]); [done|congruence].
  - intros (u' & [= <-] & _ & [?|(st' & ? & ?)]); done.
Qed.

(** An empty cache, and one that holds a confirmed answer. *)
Definition sample_reviewer : tokenReviewer := {| tr_ttl := 30 * Second; tr_devToken := "" |}.

Definition alice : UserInfo := {| ui_Username := "alice"; ui_UID := "7"; ui_Groups := ["dev"] |}.

Definition sample_auth : AuthState :=
  {| au_cache := {[ tokenHash "tok-a" := {| ca_user := alice; ca_storedAt := 5 |} ]};
     au_reviews := [("tok-a", alice, 4)]; au_clock := 6; au_lock := Free |}.

#[local] Opaque tokenHash.

Lemma sample_auth_ok : cache_ok sample_auth.
Proof.
  intros k e Hk. unfold sample_auth in *. cbn [au_cache au_reviews] in *.
  apply lookup_singleton_Some in Hk as [<- <-]. exists "tok-a", 4.
  split; [reflexivity|]. split; [apply list_elem_of_here|]. cbn. lia.
Qed.


Lemma eviction_sound_witness :
  wp auth_env (evictLoop sample_reviewer 10) sample_auth (fun r s' =>
    r <> Some Panicked /\ cache_ok s' /\ au_lock s' = Free) /\
  wp auth_env (evict_pass sample_reviewer) sample_auth (fun _ s' =>
    forall k e, au_cache s' !! k = Some e -> au_clock sample_auth - ca_storedAt e < tr_ttl sample_reviewer).
Proof.
  apply (eviction_sound sample_reviewer 10 sample_auth); [|apply sample_auth_ok|reflexivity].
  vm_compute. split; reflexivity.
Defined.
