(* ===== verification/EnvConfig.v ===== *)
(** * Configuration from the environment

    The settings the three programs read at start-up: [ConfigFromEnv] of the
    router ([internal/router/server.go]), [configFromEnv] of the controller and
    the settings of the operator (their [main.go]).  [os.Getenv] is a function
    from names to values, the empty string where a variable is not set; decoding
    the JSON of the default sandbox is a parameter.  Each program has its own
    copy of the helpers, and the operator's [envBool] accepts fewer words. *)
From S2P Require Import Prelude GoStrings ApiTypes AdapterConfig Controller SessionReconciler.

Open Scope boxy_scope.

(** [router.Config]. *)
Record Config := {
  cf_ListenAddr : string;
  cf_DevToken : string;
  cf_AuthCacheTTL : Z;
  cf_SandboxNamespace : string;
  cf_MaxBodyBytes : Z;
  cf_MaxOutputBytes : Z;
  cf_MaxTimeoutSec : Z;
  cf_MaxArgs : Z;
  cf_MaxEnvKeys : Z;
  cf_MaxConcurrency : Z;
  cf_MaxSandboxTTLSec : Z;
  cf_MTLSDisabled : bool;
  cf_TLSCAPath : string;
  cf_TLSClientCertPath : string;
  cf_TLSClientKeyPath : string;
  cf_ControllerToken : string;
  cf_ControllerPort : Z;
  cf_DefaultSandboxEnabled : bool;
  cf_DefaultSandboxConfig : option SandboxCreateBody;
  cf_CreateTimeout : Z;
}.

Definition one_of (v : string) (ws : list string) : bool := existsb (String.eqb v) ws.

Section environment.
Context (getenv : string -> string).

Definition envInt (key : string) (def : Z) : Z :=
  let v := TrimSpace (getenv key) in
  if v =?s "" then def else match Atoi v with Some n => n | None => def end.

Definition envStr (key def : string) : string :=
  let v := TrimSpace (getenv key) in if v =?s "" then def else v.

(** [envBool] of the router. *)
Definition envBool (key : string) (def : bool) : bool :=
  let v := TrimSpace (ToLower (getenv key)) in
  if one_of v ["1"; "true"; "yes"; "on"] then true
  else if one_of v ["0"; "false"; "no"; "off"] then false
  else def.

(** [envBool] of the operator. *)
Definition op_envBool (key : string) (def : bool) : bool :=
  let v := TrimSpace (ToLower (getenv key)) in
  if one_of v ["1"; "true"; "yes"] then true
  else if one_of v ["0"; "false"; "no"] then false
  else def.

(** The copies of the controller, and the operator's other two. *)
Definition ctl_envStr (key def : string) : string :=
  let v := TrimSpace (getenv key) in if negb (v =?s "") then v else def.

Definition ctl_envInt (key : string) (def : Z) : Z :=
  let v := TrimSpace (getenv key) in
  if negb (v =?s "") then match Atoi v with Some n => n | None => def end else def.

Definition ctl_envBool (key : string) (def : bool) : bool :=
  let v := TrimSpace (ToLower (getenv key)) in
  if one_of v ["1"; "true"; "yes"; "on"] then true
  else if one_of v ["0"; "false"; "no"; "off"] then false
  else def.

Definition op_envStr (key def : string) : string :=
  let v := TrimSpace (getenv key) in if v =?s "" then def else v.

Definition op_envInt (key : string) (def : Z) : Z :=
  let v := TrimSpace (getenv key) in
  if v =?s "" then def else match Atoi v with Some n => n | None => def end.

(** All but the operator's [envBool] agree. *)
Lemma env_helpers_agree (key def : string) (n : Z) (b : bool) :
  ctl_envStr key def = envStr key def /\ op_envStr key def = envStr key def /\
  ctl_envInt key n = envInt key n /\ op_envInt key n = envInt key n /\ ctl_envBool key b = envBool key b.
Proof.
  unfold ctl_envStr, ctl_envInt, envStr, envInt. split_and!; try done; by destruct (TrimSpace (getenv key) =?s "").
Qed.

(** The default sandbox of the router's configuration, with [json.Unmarshal]. *)
Definition default_sandbox (unmarshal : string -> SandboxCreateBody + Err) : option SandboxCreateBody + Err :=
  if envBool "BOXY_DEFAULT_SANDBOX_ENABLED" false then
    let raw := TrimSpace (getenv "BOXY_DEFAULT_SANDBOX_CONFIG") in
    if raw =?s "" then
      inr (ErrMsg "BOXY_DEFAULT_SANDBOX_CONFIG is required when default sandbox is enabled")
    else match unmarshal raw with
         | inr err => inr (ErrWrap "parse BOXY_DEFAULT_SANDBOX_CONFIG: " err "")
         | inl body =>
             inl (Some {| cb_SandboxID := if cb_SandboxID body =?s "" then "default" else cb_SandboxID body;
                          cb_TTLSeconds := cb_TTLSeconds body; cb_Env := cb_Env body;
                          cb_AllowedBinaries := cb_AllowedBinaries body; cb_VM := cb_VM body;
                          cb_Network := cb_Network body; cb_Volumes := cb_Volumes body;
                          cb_Patches := cb_Patches body; cb_SetupScript := cb_SetupScript body;
                          cb_TeardownScript := cb_TeardownScript body; cb_ScriptEnv := cb_ScriptEnv body |})
         end
  else inl None.

Definition ConfigFromEnv (unmarshal : string -> SandboxCreateBody + Err) : Config + Err :=
  let ns := TrimSpace (getenv "BOXY_SANDBOX_NAMESPACE") in
  let listen := TrimSpace (getenv "BOXY_LISTEN_ADDR") in
  match default_sandbox unmarshal with
  | inr err => inr err
  | inl dflt => inl
      {| cf_ListenAddr := if listen =?s "" then ":8080" else listen;
         cf_DevToken := TrimSpace (getenv "BOXY_ROUTER_TOKEN");
         cf_AuthCacheTTL := seconds (envInt "BOXY_AUTH_CACHE_TTL_SECONDS" 30);
         cf_SandboxNamespace := if ns =?s "" then "default" else ns;
         cf_MaxBodyBytes := envInt "BOXY_MAX_BODY_BYTES" 6291456;
         cf_MaxOutputBytes := envInt "BOXY_MAX_OUTPUT_BYTES" 6291456;
         cf_MaxTimeoutSec := envInt "BOXY_MAX_TIMEOUT_SECONDS" 3600;
         cf_MaxArgs := envInt "BOXY_MAX_ARGS" 256;
         cf_MaxEnvKeys := envInt "BOXY_MAX_ENV_KEYS" 64;
         cf_MaxConcurrency := envInt "BOXY_MAX_CONCURRENCY" 100;
         cf_MaxSandboxTTLSec := envInt "BOXY_MAX_SANDBOX_TTL_SECONDS" 86400;
         cf_MTLSDisabled := envBool "BOXY_MTLS_DISABLED" false;
         cf_TLSCAPath := envStr "BOXY_TLS_CA_PATH" "/tls/ca.crt";
         cf_TLSClientCertPath := envStr "BOXY_TLS_CLIENT_CERT_PATH" "/tls/tls.crt";
         cf_TLSClientKeyPath := envStr "BOXY_TLS_CLIENT_KEY_PATH" "/tls/tls.key";
         cf_ControllerToken := envStr "BOXY_CONTROLLER_TOKEN" "";
         cf_ControllerPort := to_int32 (envInt "BOXY_CONTROLLER_PORT" 8080);
         cf_DefaultSandboxEnabled := envBool "BOXY_DEFAULT_SANDBOX_ENABLED" false;
         cf_DefaultSandboxConfig := dflt;
         cf_CreateTimeout := seconds (envInt "BOXY_CREATE_TIMEOUT_SECONDS" 30) |}
  end.

(** The controller's configuration. *)
Definition configFromEnv : config :=
  {| cc_port := ctl_envInt "BOXY_CONTROLLER_PORT" 8080;
     cc_mtlsDisabled := ctl_envBool "BOXY_MTLS_DISABLED" false;
     cc_tlsCertPath := ctl_envStr "BOXY_TLS_CERT_PATH" "/tls/tls.crt";
     cc_tlsKeyPath := ctl_envStr "BOXY_TLS_KEY_PATH" "/tls/tls.key";
     cc_tlsCAPath := ctl_envStr "BOXY_TLS_CA_PATH" "/tls/ca.crt";
     cc_controllerToken := ctl_envStr "BOXY_CONTROLLER_TOKEN" "";
     cc_maxSandboxes := ctl_envInt "BOXY_MAX_SANDBOXES" 20;
     cc_maxExecConcurrency := ctl_envInt "BOXY_MAX_EXEC_CONCURRENCY" 50;
     cc_maxOutputBytes := ctl_envInt "BOXY_MAX_OUTPUT_BYTES" 6291456;
     cc_metricsPort := ctl_envInt "BOXY_METRICS_PORT" 9090;
     cc_adapterConfig :=
       {| ac_NsjailPath := ctl_envStr "BOXY_NSJAIL_PATH" "/usr/sbin/nsjail";
          ac_DefaultRootfs := ctl_envStr "BOXY_NSJAIL_ROOTFS" "/rootfs/ubuntu-24.04";
          ac_SandboxRoot := ctl_envStr "BOXY_NSJAIL_SANDBOX_ROOT" "/var/lib/boxy/sandboxes";
          ac_BinariesDir := ctl_envStr "BOXY_NSJAIL_BINARIES_DIR" "/usr/local/bin";
          ac_MaxOutputBytes := ctl_envInt "BOXY_MAX_OUTPUT_BYTES" 6291456 |} |}.

(** The operator's configuration. *)
Definition operator_config : ReconcilerConfig :=
  let stsName := op_envStr "BOXY_CONTROLLER_STATEFULSET_NAME" "boxy-ctrl" in
  {| rc_Namespace := op_envStr "BOXY_NAMESPACE" "default";
     rc_StatefulSetName := stsName;
     rc_HeadlessServiceName := op_envStr "BOXY_CONTROLLER_HEADLESS_SERVICE" (stsName +:+ "-headless");
     rc_ControllerPoolName := op_envStr "BOXY_CONTROLLER_POOL_NAME" stsName;
     rc_ControllerPort := to_int32 (op_envInt "BOXY_CONTROLLER_PORT" 8080);
     rc_MaxSandboxesPerCtrl := op_envInt "BOXY_MAX_SANDBOXES_PER_CONTROLLER" 20;
     rc_MaxControllerReplicas := to_int32 (op_envInt "BOXY_MAX_CONTROLLER_REPLICAS" 50);
     rc_MinControllerReplicas := to_int32 (op_envInt "BOXY_MIN_CONTROLLER_REPLICAS" 1);
     rc_TerminatedRetentionSec := op_envInt "BOXY_TERMINATED_RETENTION_SECONDS" 3600;
     rc_ScaleDownCooldown := seconds (op_envInt "BOXY_SCALE_DOWN_COOLDOWN_SECONDS" 300);
     rc_MTLSDisabled := op_envBool "BOXY_MTLS_DISABLED" false;
     rc_Metrics := true |}.

End environment.

(** The capacity of the router's slots and the reviewer's time to live, with
    the defaults [NewServer] fills in. *)
Definition server_slots (cfg : Config) : Z := if cf_MaxConcurrency cfg <=? 0 then 1 else cf_MaxConcurrency cfg.

Definition cache_ttl (cfg : Config) : Z := if cf_AuthCacheTTL cfg <=? 0 then 30 * Second else cf_AuthCacheTTL cfg.

(** ** Properties *)

(** Started with the same environment, the router always follows the
    controller's choice between plain HTTP and mutual TLS, but the operator does
    so exactly unless the setting is the word [on]: then the controllers listen
    in plain text and the operator addresses them by TLS. *)
Theorem mtls_settings_agree (getenv : string -> string) (unmarshal : string -> SandboxCreateBody + Err)
    (s : Session) :
  (forall cfg, ConfigFromEnv getenv unmarshal = inl cfg ->
     cf_MTLSDisabled cfg = cc_mtlsDisabled (configFromEnv getenv)) /\
  (rc_MTLSDisabled (operator_config getenv) = cc_mtlsDisabled (configFromEnv getenv) <->
     TrimSpace (ToLower (getenv "BOXY_MTLS_DISABLED")) <> "on") /\
  (TrimSpace (ToLower (getenv "BOXY_MTLS_DISABLED")) = "on" ->
     HasPrefix (sessionControllerURL (operator_config getenv) s) "https://" = true /\
     cc_mtlsDisabled (configFromEnv getenv) = true).
Proof.
  split_and!.
  - intros cfg. unfold ConfigFromEnv. by destruct (default_sandbox _ _); intros [= <-].
  - cbn [rc_MTLSDisabled operator_config cc_mtlsDisabled configFromEnv]. unfold op_envBool, ctl_envBool.
    set (v := TrimSpace _). clearbody v. unfold one_of, existsb.
    destruct (decide (v = "on")) as [->|Hne]; [by vm_compute|].
    rewrite (proj2 (String.eqb_neq v "on") Hne).
    by destruct (v =?s "1"), (v =?s "true"), (v =?s "yes"), (v =?s "0"), (v =?s "false"), (v =?s "no"), (v =?s "off").
  - intros Hon. unfold sessionControllerURL, operator_config, configFromEnv, op_envBool, ctl_envBool.
    cbn [rc_MTLSDisabled cc_mtlsDisabled]. by rewrite Hon.
Qed.
