(* ===== verification/RouterServer.v ===== *)
(** * The router's HTTP server

    [internal/router/server.go]: the handlers of the public API.  A handler runs
    after authentication with the user in its context; the decoded body, the path
    value and the query parameters are its arguments; the API server, the
    controllers, the clock and the slots are events.  Deadlines of the context
    show as errors in the answers. *)
From S2P Require Import Prelude Prog GoStrings GoSha256 GoTime ApiTypes Validate Kube CtrlClient SessionReconciler.
From S2P Require Import PoolReconciler Auth EnvConfig.

Open Scope boxy_scope.

(** What [decodeBody] finds: a value, a body over the limit of
    [withBodyLimit], or something else. *)
Inductive Decoded (A : Type) : Type :=
| Body (a : A)
| TooLarge
| BadJSON.

Arguments Body {A} a.
Arguments TooLarge {A}.
Arguments BadJSON {A}.

(** The last line of a streamed response. *)
Inductive StreamEnd : Type :=
| EndExit (code : Z) (timedOut : bool)
| EndError (msg : Msg).

Inductive RBody : Type :=
| RNone
| RText (s : string)
| RError (e : ErrorBody)
| RExec (r : ExecResponseBody)
| RStream (events : list (string * string)) (last : StreamEnd)
| RSession (s : SessionResponseBody)
| RSessions (l : list SessionResponseBody)
| RConfig (c : SandboxConfigResponse)
| RConfigs (l : list SandboxConfigResponse)
| REvict (e : SandboxEvictResponse).

(** A response; [rs_session] are the headers [X-Boxy-Session-Id] and
    [X-Boxy-Session-Created]. *)
Record RResponse := {
  rs_code : Z;
  rs_session : option (string * bool);
  rs_body : RBody;
}.

Definition reply (code : Z) (b : RBody) : RResponse := {| rs_code := code; rs_session := None; rs_body := b |}.

Definition jsonErr (code : Z) (msg : Msg) (cerr : string) : RResponse :=
  reply code (RError {| eb_Error := msg; eb_Code := cerr |}).

(** [err.Error()]. *)
Definition err_text (err : Err) : Msg := MErr err MNil.

Definition decodeBody {A} (d : Decoded A) (k : A -> prog RResponse) : prog RResponse :=
  match d with
  | Body a => k a
  | TooLarge => Ret (jsonErr 413 (text "request body too large") "")
  | BadJSON => Ret (jsonErr 400 (text "invalid json") "")
  end.

(** [strings.TrimSpace(r.PathValue(...))] and its checks. *)
Definition path_id (raw field : string) (validate : string -> option VErr) (k : string -> prog RResponse)
    : prog RResponse :=
  let id := TrimSpace raw in
  if id =?s "" then Ret (jsonErr 400 (text (field +:+ " required")) "")
  else match validate id with
       | Some e => Ret (jsonErr 400 (verr_text e) "validation")
       | None => k id
       end.

(** The loop of [lookupSession] over the listed items. *)
Fixpoint find_session (sessionID : string) (items : list Session) : option Session :=
  match items with
  | [] => None
  | s :: items' =>
      if (ss_SessionID (se_Spec s) =?s sessionID) && not_deleted (se_Meta s) then Some s
      else find_session sessionID items'
  end.

(** Formats a timestamp that may be absent. *)
Definition time_text (t : option Z) : string := match t with Some t => FormatRFC3339 t | None => "" end.

Definition shown_phase (s : Session) : string := if phase_of s =?s "" then "Pending" else phase_of s.

Definition sessionToResponse (s : Session) : SessionResponseBody :=
  {| sr_SessionID := ss_SessionID (se_Spec s);
     sr_SandboxID := ss_SandboxID (se_Spec s);
     sr_Owner := ss_Owner (se_Spec s);
     sr_Phase := shown_phase s;
     sr_Ready := phase_of s =?s SandboxPhaseRunning;
     sr_ControllerPod := st_ControllerPod (se_Status s);
     sr_ControllerAddress := address_of s;
     sr_Port := st_Port (se_Status s);
     sr_CreatedAt := time_text (st_CreatedAt (se_Status s));
     sr_ExpiresAt := time_text (st_ExpiresAt (se_Status s));
     sr_LastExecAt := time_text (st_LastExecAt (se_Status s)) |}.

(** The eight bytes [rand.Read] fills, whatever it returns. *)
Definition eight_bytes (bs : list Z) : list Z := map (fun i => nth i bs 0 mod 256) (seq 0 8).

Definition generateSessionID : prog string :=
  bs <- call RandomID ;; Ret ("sess-" +:+ EncodeToString (eight_bytes bs)).

(** [metav1.ObjectMeta] of a new object. *)
Definition new_meta (name ns : string) (labels : list (string * string)) : ObjectMeta :=
  {| om_Name := name; om_Namespace := ns; om_ResourceVersion := ""; om_Labels := labels; om_Annotations := []; om_Finalizers := [];
     om_DeletionTimestamp := None; om_CreationTimestamp := 0 |}.

Definition empty_status : SessionStatus :=
  {| st_Phase := ""; st_ControllerPool := ""; st_ControllerPod := ""; st_ControllerAddress := ""; st_Port := 0;
     st_CreatedAt := None; st_ExpiresAt := None; st_LastExecAt := None; st_TerminatedAt := None; st_Message := MNil |}.

Definition poll_interval : Z := 250 * Millisecond.

(** [handleHealth]. *)
Definition handleHealth : prog RResponse := Ret (reply 200 (RText ("ok" +:+ NL))).

Section server.
Context (cfg : Config).

Definition reviewer : tokenReviewer := newTokenReviewer (cache_ttl cfg) (cf_DevToken cfg).

(** ** Access *)

Definition requireResourceAccess (user : option UserInfo) (verb resource name : string) (k : prog RResponse)
    : prog RResponse :=
  match user with
  | None => Ret (jsonErr 401 (text "unauthorized") "")
  | Some _ =>
      e <- authorizeResource reviewer user (cf_SandboxNamespace cfg) verb resource name ;;
      match e with
      | Some _ => Ret (jsonErr 403 (text "forbidden") "authorization")
      | None => k
      end
  end.

Definition canResourceAccess (user : option UserInfo) (verb resource name : string) : prog error :=
  match user with
  | None => Ret (Some (ErrMsg "unauthorized"))
  | Some _ => authorizeResource reviewer user (cf_SandboxNamespace cfg) verb resource name
  end.

(** ** Look-ups *)

Definition lookupSandbox (sandboxID : string) : prog (option Sandbox + Err) :=
  l <- call (ListSandboxes (cf_SandboxNamespace cfg) [(LabelSandboxID, sandboxID)]) ;;
  match l with
  | inr err => Ret (inr err)
  | inl items => Ret (inl (find_sandbox sandboxID items))
  end.

Definition lookupSession (sessionID : string) : prog (option Session + Err) :=
  l <- call (ListSessions (cf_SandboxNamespace cfg) [(LabelSessionID, sessionID)]) ;;
  match l with
  | inr err => Ret (inr err)
  | inl items => Ret (inl (find_session sessionID items))
  end.

(** The count, which is 0 next to an error; the handlers drop the error. *)
Definition countSessionsForSandbox (sandboxID : string) : prog Z :=
  l <- call (ListSessions (cf_SandboxNamespace cfg) [(LabelSandboxID, sandboxID)]) ;;
  match l with
  | inr _ => Ret 0
  | inl items => Ret (llen (List.filter (fun s => active_phase (phase_of s)) items))
  end.

Definition controllerURLFromSession (s : Session) : string :=
  (if cf_MTLSDisabled cfg then "http" else "https") +:+ "://" +:+ address_of s +:+ ":" +:+
  pretty (st_Port (se_Status s)).

(** The goroutine that records the last use of a session. *)
Definition touchLastExecSession (s : Session) : prog unit :=
  now <- call Now ;;
  call (StatusPatchSession s (set_LastExecAt now s)) ;;;
  Ret tt.

(** ** Sandbox configurations *)

Definition sandbox_of_body (body : SandboxCreateBody) : Sandbox :=
  {| sb_Meta := new_meta (cb_SandboxID body) (cf_SandboxNamespace cfg) [(LabelSandboxID, cb_SandboxID body)];
     sb_Spec := {| sp_SandboxID := cb_SandboxID body; sp_TTLSeconds := cb_TTLSeconds body; sp_Env := cb_Env body;
       sp_AllowedBinaries := cb_AllowedBinaries body; sp_VM := cb_VM body; sp_Network := cb_Network body;
       sp_Volumes := cb_Volumes body; sp_Patches := cb_Patches body; sp_SetupScript := cb_SetupScript body;
       sp_TeardownScript := cb_TeardownScript body; sp_ScriptEnv := cb_ScriptEnv body |} |}.

Definition createSandboxFromBody (body : SandboxCreateBody) : prog (SandboxConfigResponse + Err) :=
  e <- call (CreateSandboxCR (sandbox_of_body body)) ;;
  match e with
  | Some err => Ret (inr (ErrWrap "create sandbox CR: " err ""))
  | None => Ret (inl {| scr_SandboxID := cb_SandboxID body; scr_TTLSeconds := cb_TTLSeconds body;
                        scr_ActiveSessions := 0 |})
  end.

Definition EnsureDefaultSandbox : prog error :=
  match cf_DefaultSandboxEnabled cfg, cf_DefaultSandboxConfig cfg with
  | true, Some dflt =>
      existing <- lookupSandbox (cb_SandboxID dflt) ;;
      match existing with
      | inr err => Ret (Some (ErrWrap "lookup default sandbox: " err ""))
      | inl (Some _) => Ret None
      | inl None =>
          r <- createSandboxFromBody dflt ;;
          match r with
          | inr err => Ret (Some (ErrWrap "create default sandbox: " err ""))
          | inl _ => Ret None
          end
      end
  | _, _ => Ret None
  end.

Definition handleSandboxCreate (user : option UserInfo) (d : Decoded SandboxCreateBody) : prog RResponse :=
  decodeBody d (fun body =>
    match ValidateSandboxCreate (Some body) (cf_MaxSandboxTTLSec cfg) with
    | Some e => Ret (jsonErr 400 (verr_text e) "provisioning")
    | None =>
        requireResourceAccess user "create" "sandboxes" (cb_SandboxID body) (
          r <- createSandboxFromBody body ;;
          match r with
          | inr err =>
              if IsAlreadyExists err then Ret (jsonErr 409 (text "sandbox already exists") "create_sandbox")
              else Ret (jsonErr 502 (err_text err) "create_sandbox")
          | inl resp => Ret (reply 201 (RConfig resp))
          end)
    end).

(** [lookupSandbox] in a handler: 500 on an error, 404 with [missing] if there is none. *)
Definition found_sandbox (id missing code : string) (k : Sandbox -> prog RResponse) : prog RResponse :=
  r <- lookupSandbox id ;;
  match r with
  | inr err => Ret (jsonErr 500 (err_text err) "store")
  | inl None => Ret (jsonErr 404 (text missing) code)
  | inl (Some sb) => k sb
  end.

Definition handleSandboxGet (user : option UserInfo) (raw : string) : prog RResponse :=
  path_id raw "sandboxId" ValidateSandboxID (fun id =>
    requireResourceAccess user "get" "sandboxes" id (
      found_sandbox id "not found" "" (fun sb =>
        active <- countSessionsForSandbox id ;;
        Ret (reply 200 (RConfig {| scr_SandboxID := sp_SandboxID (sb_Spec sb);
          scr_TTLSeconds := sp_TTLSeconds (sb_Spec sb); scr_ActiveSessions := active |}))))).

Definition handleSandboxDelete (user : option UserInfo) (raw : string) : prog RResponse :=
  path_id raw "sandboxId" ValidateSandboxID (fun id =>
    requireResourceAccess user "delete" "sandboxes" id (
      found_sandbox id "sandbox not found" "" (fun sb =>
        e <- call (DeleteSandboxCR sb) ;;
        match e with
        | Some err => Ret (jsonErr 500 (err_text err) "delete")
        | None => Ret (reply 204 RNone)
        end))).

Definition list_config (acc : list SandboxConfigResponse) (sb : Sandbox) : prog (list SandboxConfigResponse) :=
  if not_deleted (sb_Meta sb) then
    active <- countSessionsForSandbox (sp_SandboxID (sb_Spec sb)) ;;
    Ret (acc ++ [{| scr_SandboxID := sp_SandboxID (sb_Spec sb); scr_TTLSeconds := sp_TTLSeconds (sb_Spec sb);
                    scr_ActiveSessions := active |}])
  else Ret acc.

Definition handleSandboxList (user : option UserInfo) : prog RResponse :=
  requireResourceAccess user "list" "sandboxes" "" (
    l <- call (ListSandboxes (cf_SandboxNamespace cfg) []) ;;
    match l with
    | inr err => Ret (jsonErr 500 (err_text err) "store")
    | inl items => configs <- for_each items list_config [] ;; Ret (reply 200 (RConfigs configs))
    end).

(** The fields an update replaces; the scripts and their environment stay. *)
Definition updated_sandbox (body : SandboxCreateBody) (sb : Sandbox) : Sandbox :=
  let sp := sb_Spec sb in
  {| sb_Meta := sb_Meta sb;
     sb_Spec := {| sp_SandboxID := sp_SandboxID sp; sp_TTLSeconds := cb_TTLSeconds body; sp_Env := cb_Env body;
       sp_AllowedBinaries := cb_AllowedBinaries body; sp_VM := cb_VM body; sp_Network := cb_Network body;
       sp_Volumes := cb_Volumes body; sp_Patches := cb_Patches body; sp_SetupScript := sp_SetupScript sp;
       sp_TeardownScript := sp_TeardownScript sp; sp_ScriptEnv := sp_ScriptEnv sp |} |}.

Definition with_id (id : string) (b : SandboxCreateBody) : SandboxCreateBody :=
  {| cb_SandboxID := id; cb_TTLSeconds := cb_TTLSeconds b; cb_Env := cb_Env b;
     cb_AllowedBinaries := cb_AllowedBinaries b; cb_VM := cb_VM b; cb_Network := cb_Network b;
     cb_Volumes := cb_Volumes b; cb_Patches := cb_Patches b; cb_SetupScript := cb_SetupScript b;
     cb_TeardownScript := cb_TeardownScript b; cb_ScriptEnv := cb_ScriptEnv b |}.

Definition handleSandboxUpdate (user : option UserInfo) (raw : string) (d : Decoded SandboxCreateBody)
    : prog RResponse :=
  path_id raw "sandboxId" ValidateSandboxID (fun id =>
    decodeBody d (fun decoded =>
      let body := with_id id decoded in
      match ValidateSandboxCreate (Some body) (cf_MaxSandboxTTLSec cfg) with
      | Some e => Ret (jsonErr 400 (verr_text e) "validation")
      | None =>
          requireResourceAccess user "update" "sandboxes" id (
            found_sandbox id "sandbox config not found" "" (fun sb =>
              r <- call (PatchSandbox sb (updated_sandbox body sb)) ;;
              match r with
              | inr err => Ret (jsonErr 500 (err_text err) "update")
              | inl stored =>
                  active <- countSessionsForSandbox id ;;
                  Ret (reply 200 (RConfig {| scr_SandboxID := id;
                    scr_TTLSeconds := sp_TTLSeconds (sb_Spec stored); scr_ActiveSessions := active |}))
              end))
      end)).

Definition evict_session (evicted : Z) (s : Session) : prog Z :=
  if (phase_of s =?s SandboxPhaseTerminated) || negb (not_deleted (se_Meta s)) then Ret evicted
  else
    r <- call (StatusPatchSession s (set_Phase SandboxPhaseDeleting s)) ;;
    match r with
    | inr _ => Ret evicted
    | inl _ => Ret (evicted + 1)
    end.

Definition handleSandboxEvict (user : option UserInfo) (raw : string) : prog RResponse :=
  path_id raw "sandboxId" ValidateSandboxID (fun id =>
    requireResourceAccess user "update" "sandboxes" id (
      l <- call (ListSessions (cf_SandboxNamespace cfg) [(LabelSandboxID, id)]) ;;
      match l with
      | inr err => Ret (jsonErr 500 (err_text err) "store")
      | inl items =>
          evicted <- for_each items evict_session 0 ;;
          Ret (reply 200 (REvict {| ev_EvictedSessions := evicted; ev_Message := "eviction initiated" |}))
      end)).

Definition live_responses (items : list Session) : list SessionResponseBody :=
  map sessionToResponse (List.filter (fun s => not_deleted (se_Meta s)) items).

Definition handleSandboxSessions (user : option UserInfo) (raw : string) : prog RResponse :=
  path_id raw "sandboxId" ValidateSandboxID (fun id =>
    requireResourceAccess user "list" "sessions" "" (
      l <- call (ListSessions (cf_SandboxNamespace cfg) [(LabelSandboxID, id)]) ;;
      match l with
      | inr err => Ret (jsonErr 500 (err_text err) "store")
      | inl items => Ret (reply 200 (RSessions (live_responses items)))
      end)).

(** ** Sessions *)

Definition new_session (sessionID sandboxID owner : string) : Session :=
  {| se_Meta := new_meta sessionID (cf_SandboxNamespace cfg)
       [(LabelSessionID, sessionID); (LabelSandboxID, sandboxID); (LabelOwner, owner)];
     se_Spec := {| ss_SessionID := sessionID; ss_SandboxID := sandboxID; ss_Owner := owner |};
     se_Status := empty_status |}.

(** The end of one round of the polling loop: look at the clock, then sleep. *)
Definition wait_more (deadline : Z) (s : Session) : prog (Session + (Session + Err)) :=
  now <- call Now ;;
  if deadline <? now then Ret (inr (inr (ErrMsg "timeout waiting for session to become running")))
  else
    r <- call (Sleep poll_interval) ;;
    match r with
    | Some err => Ret (inr (inr err))
    | None => Ret (inl s)
    end.

(** One round: the session read so far, or the result of the loop. *)
Definition wait_step (deadline : Z) (s : Session) : prog (Session + (Session + Err)) :=
  r <- call (GetSession (om_Namespace (se_Meta s)) (om_Name (se_Meta s))) ;;
  match r with
  | inl s' =>
      if phase_of s' =?s SandboxPhaseRunning then Ret (inr (inl s'))
      else if phase_of s' =?s SandboxPhaseTerminated then
        Ret (inr (inr (ErrFmt (MLit "session terminated: " (st_Message (se_Status s'))))))
      else wait_more deadline s'
  | inr _ => wait_more deadline s
  end.

Definition create_timeout : Z := if cf_CreateTimeout cfg <=? 0 then 30 * Second else cf_CreateTimeout cfg.

(** Rounds enough for the deadline to pass; see [RouterProofs.wait_returns]. *)
Definition wait_rounds : nat := S (S (Z.to_nat (create_timeout / poll_interval))).

(** The polling loop; [None] if the rounds do not suffice. *)
Definition wait_loop (s : Session) : prog (option (Session + Err)) :=
  now <- call Now ;;
  loop wait_rounds (wait_step (now + create_timeout)) s.

Definition wait_for_session (s : Session) : prog (Session + Err) :=
  r <- wait_loop s ;;
  Ret (default (inr (ErrMsg "timeout waiting for session to become running")) r).

Definition createAndWaitForSession (sessionID sandboxID owner : string) : prog (Session + Err) :=
  let s := new_session sessionID sandboxID owner in
  e <- call (CreateSession s) ;;
  match e with
  | Some err =>
      if IsAlreadyExists err then wait_for_session s
      else Ret (inr (ErrWrap "create session CR: " err ""))
  | None => wait_for_session s
  end.

(** The slot of the router's semaphore, released on every path. *)
Definition in_slot (body : prog RResponse) : prog RResponse :=
  acquired <- call SlotTryAcquire ;;
  if acquired : bool then
    r <- body ;;
    call SlotRelease ;;;
    Ret r
  else Ret (jsonErr 429 (text "concurrency limit") "too_many_in_flight").

(** No session, or a terminated one: access, removal, and a new session. *)
Definition start_session (user : option UserInfo) (body : ExecRequestBody) (sessionID : string)
    (old : option Session) (k : Session -> bool -> prog RResponse) : prog RResponse :=
  requireResourceAccess user "get" "sandboxes" (er_SandboxID body) (
    requireResourceAccess user "create" "sessions" sessionID (
      del <- match old with Some s => call (DeleteSession s) | None => Ret None end ;;
      match del with
      | Some err => Ret (jsonErr 500 (err_text err) "delete_terminated")
      | None =>
          found_sandbox (er_SandboxID body) "sandbox config not found" "sandbox_lookup" (fun _ =>
            r <- createAndWaitForSession sessionID (er_SandboxID body) (er_Owner body) ;;
            match r with
            | inr err => Ret (jsonErr 502 (err_text err) "create_session")
            | inl s => k s true
            end)
      end)).

(** A generated id, or the given one if it is valid. *)
Definition choose_session_id (given : string) : prog (option string) :=
  if given =?s "" then id <- generateSessionID ;; Ret (Some id)
  else match ValidateSessionID given with
       | Some _ => Ret None
       | None => Ret (Some given)
       end.

(** What [handleSessionExec] and [handleSessionExecStream] do before they call
    the controller: the session, its id and whether it was created. *)
Definition exec_session (user : option UserInfo) (d : Decoded ExecRequestBody)
    (k : ExecRequestBody -> string -> Session -> bool -> prog RResponse) : prog RResponse :=
  decodeBody d (fun body =>
    match ValidateExecRequest (Some body) (cf_MaxTimeoutSec cfg) (cf_MaxArgs cfg) (cf_MaxEnvKeys cfg) with
    | Some e => Ret (jsonErr 400 (verr_text e) "validation")
    | None =>
        chosen <- choose_session_id (TrimSpace (er_SessionID body)) ;;
        match chosen with
        | None => Ret (jsonErr 400 (text "invalid sessionId format") "validation")
        | Some sessionID =>
          let ready s created :=
            if phase_of s =?s SandboxPhaseRunning then k body sessionID s created
            else Ret (jsonErr 503 (text "session not ready") "session_not_ready") in
          found <- lookupSession sessionID ;;
          match found with
          | inr err => Ret (jsonErr 500 (err_text err) "store")
          | inl None => start_session user body sessionID None ready
          | inl (Some s) =>
              if phase_of s =?s SandboxPhaseTerminated then start_session user body sessionID (Some s) ready
              else if negb (ss_SandboxID (se_Spec s) =?s er_SandboxID body) then
                Ret (jsonErr 400 (text "sessionId does not belong to sandboxId") "validation")
              else requireResourceAccess user "update" "sessions" (om_Name (se_Meta s)) (ready s false)
          end
        end
    end).

Definition exec_request (s : Session) (body : ExecRequestBody) (pty : bool) : ExecReq :=
  {| xr_SandboxID := ss_SessionID (se_Spec s); xr_Command := er_Command body; xr_Args := er_Args body;
     xr_Env := er_Env body; xr_TimeoutSeconds := er_TimeoutSeconds body; xr_PTY := pty |}.

Definition handleSessionExec (user : option UserInfo) (d : Decoded ExecRequestBody) : prog RResponse :=
  in_slot (exec_session user d (fun body sessionID s created =>
    r <- ClientExec (controllerURLFromSession s) (exec_request s body (er_PTY body)) ;;
    match r with
    | inr err => Ret (jsonErr 502 (err_text err) "exec")
    | inl result =>
        call (GoTouch s) ;;;
        Ret {| rs_code := 200; rs_session := Some (sessionID, created);
               rs_body := RExec {| ex_ExitCode := xs_ExitCode result; ex_Stdout := xs_Stdout result;
                                   ex_Stderr := xs_Stderr result; ex_TimedOut := xs_TimedOut result |} |}
    end)).

Definition handleSessionExecStream (user : option UserInfo) (d : Decoded ExecRequestBody) : prog RResponse :=
  in_slot (exec_session user d (fun body sessionID s created =>
    er <- ClientExecStream (controllerURLFromSession s) (exec_request s body false) ;;
    let stream last := {| rs_code := 200; rs_session := Some (sessionID, created); rs_body := RStream er.1 last |} in
    match er.2 with
    | inr err => Ret (stream (EndError (err_text err)))
    | inl result =>
        call (GoTouch s) ;;;
        Ret (stream (EndExit (xs_ExitCode result) (xs_TimedOut result)))
    end)).

Definition handleSessionCreate (user : option UserInfo) (d : Decoded SessionCreateBody) : prog RResponse :=
  decodeBody d (fun body =>
    match ValidateSessionCreate (Some body) with
    | Some e => Ret (jsonErr 400 (verr_text e) "validation")
    | None =>
        let given := TrimSpace (sc_SessionID body) in
        sessionID <- (if given =?s "" then generateSessionID else Ret given) ;;
        requireResourceAccess user "get" "sandboxes" (sc_SandboxID body) (
          requireResourceAccess user "create" "sessions" sessionID (
            found_sandbox (sc_SandboxID body) "sandbox config not found" "sandbox_lookup" (fun _ =>
              r <- createAndWaitForSession sessionID (sc_SandboxID body) (sc_Owner body) ;;
              match r with
              | inr err => Ret (jsonErr 502 (err_text err) "create_session")
              | inl s => Ret (reply 201 (RSession (sessionToResponse s)))
              end)))
    end).

(** The labels a listing asks for, or the error of an invalid query. *)
Definition list_labels (sandboxID owner : string) : labels + VErr :=
  match (if sandboxID =?s "" then None else ValidateSandboxID sandboxID) with
  | Some e => inr e
  | None =>
      match (if owner =?s "" then None else ValidateOwner owner) with
      | Some e => inr e
      | None => inl ((if sandboxID =?s "" then [] else [(LabelSandboxID, sandboxID)]) ++
                     (if owner =?s "" then [] else [(LabelOwner, owner)]))
      end
  end.

Definition handleSessionList (user : option UserInfo) (sandboxID owner phaseFilter : string) : prog RResponse :=
  requireResourceAccess user "list" "sessions" "" (
    match list_labels sandboxID owner with
    | inr e => Ret (jsonErr 400 (verr_text e) "validation")
    | inl sel =>
        l <- call (ListSessions (cf_SandboxNamespace cfg) sel) ;;
        match l with
        | inr err => Ret (jsonErr 500 (err_text err) "store")
        | inl items =>
            Ret (reply 200 (RSessions (live_responses
              (List.filter (fun s => (phaseFilter =?s "") || (shown_phase s =?s phaseFilter)) items))))
        end
    end).

(** [lookupSession] in a handler. *)
Definition found_session (id : string) (k : Session -> prog RResponse) : prog RResponse :=
  r <- lookupSession id ;;
  match r with
  | inr err => Ret (jsonErr 500 (err_text err) "store")
  | inl None => Ret (jsonErr 404 (text "not found") "")
  | inl (Some s) => k s
  end.

Definition handleSessionGet (user : option UserInfo) (raw : string) : prog RResponse :=
  path_id raw "sessionId" ValidateSessionID (fun id =>
    requireResourceAccess user "get" "sessions" id (
      found_session id (fun s => Ret (reply 200 (RSession (sessionToResponse s)))))).

Definition handleSessionDelete (user : option UserInfo) (raw : string) : prog RResponse :=
  path_id raw "sessionId" ValidateSessionID (fun id =>
    requireResourceAccess user "delete" "sessions" id (
      found_session id (fun s =>
        e <- call (DeleteSession s) ;;
        match e with
        | Some err => Ret (jsonErr 500 (err_text err) "delete")
        | None => Ret (reply 204 RNone)
        end))).

(** ** Authentication *)

(** [extractBearer] of the Authorization header. *)
Definition extractBearer (h : string) : option string :=
  if negb (HasPrefix h "Bearer ") then None
  else
    let tok := TrimSpace (TrimPrefix h "Bearer ") in
    if tok =?s "" then None else Some tok.

(** [withAuth], and [withAuthHandler] for the MCP endpoint. *)
Definition withAuth {A} (unauthorized : A) (h : string) (next : option UserInfo -> prog A) : prog A :=
  match extractBearer h with
  | None => Ret unauthorized
  | Some tok =>
      r <- authenticate reviewer tok ;;
      match r with
      | inr _ => Ret unauthorized
      | inl user => next (Some user)
      end
  end.

End server.
