(* ===== verification/Mcp.v ===== *)
(** * The MCP endpoint and the router's handler

    [internal/router/mcp.go]: the four tools an agent can call, the resolution of
    the [X-Sandbox-Id] and [X-Session-Id] headers to a running session, and the
    routing of [Server.Handler].  The MCP protocol itself belongs to a library;
    a tool is called with its decoded parameters and returns a text and an error
    flag. *)
From S2P Require Import Prelude Prog GoStrings ApiTypes Validate Kube CtrlClient SessionReconciler Auth EnvConfig.
From S2P Require Import RouterServer.

Open Scope boxy_scope.

(** [mcp.CallToolResult]. *)
Record ToolResult := { tr_Text : Msg; tr_IsError : bool }.

Definition toolError (m : Msg) : ToolResult := {| tr_Text := m; tr_IsError := true |}.

Definition toolText (m : Msg) : ToolResult := {| tr_Text := m; tr_IsError := false |}.

Record bashParams := { bp_Command : string; bp_TimeoutSeconds : Z }.

Record readFileParams := { rp_Path : string }.

Record writeFileParams := { wp_Path : string; wp_Content : string; wp_Encoding : string }.

Record editFileParams := { ep_Path : string; ep_OldString : string; ep_NewString : string; ep_ReplaceAll : bool }.

Section mcp.
Context (cfg : Config).

(** ** Resolving a session *)

(** [ensureSession]; its two string results are its own arguments. *)
Definition ensureSession (user : option UserInfo) (sessionID sandboxID owner : string) : prog error :=
  sbr <- lookupSandbox cfg sandboxID ;;
  match sbr with
  | inr err => Ret (Some (ErrWrap "lookup sandbox config: " err ""))
  | inl sb =>
      a <- canResourceAccess cfg user "get" "sandboxes" sandboxID ;;
      match a, sb with
      | Some _, _ => Ret (Some (ErrMsg "forbidden"))
      | None, None => Ret (Some (ErrFmt (MLit "sandbox " (MQuote sandboxID (text " not found")))))
      | None, Some _ =>
          sr <- lookupSession cfg sessionID ;;
          match sr with
          | inr err => Ret (Some err)
          | inl sess =>
              if match sess with Some s => negb (phase_of s =?s SandboxPhaseTerminated) | None => false end
              then Ret None
              else
                c <- canResourceAccess cfg user "create" "sessions" sessionID ;;
                match c with
                | Some _ => Ret (Some (ErrMsg "forbidden"))
                | None =>
                    d <- match sess with Some s => call (DeleteSession s) | None => Ret None end ;;
                    match d with
                    | Some err => Ret (Some (ErrWrap "delete terminated session: " err ""))
                    | None =>
                        r <- createAndWaitForSession cfg sessionID sandboxID owner ;;
                        match r with
                        | inr err => Ret (Some (ErrWrap "create session: " err ""))
                        | inl _ => Ret None
                        end
                    end
                end
          end
      end
  end.

(** The id of the session a sandbox shares. *)
Definition shared_session_id (sandboxID : string) : string := str_take 55 sandboxID +:+ "-session".

Definition resolveSandboxSession (user : option UserInfo) (sandboxID : string) : prog (string + Err) :=
  let id := shared_session_id sandboxID in
  e <- ensureSession user id sandboxID "system" ;;
  match e with
  | Some err => Ret (inr err)
  | None => Ret (inl id)
  end.

Definition resolveDefaultSession (user : option UserInfo) (sandboxID : string) : prog (string + Err) :=
  match cf_DefaultSandboxEnabled cfg, cf_DefaultSandboxConfig cfg with
  | true, Some dflt =>
      let id := if sandboxID =?s "" then cb_SandboxID dflt else sandboxID in
      sbr <- lookupSandbox cfg id ;;
      match sbr with
      | inr err => Ret (inr (ErrWrap "lookup sandbox config: " err ""))
      | inl sb =>
          a <- canResourceAccess cfg user "get" "sandboxes" id ;;
          match a, sb with
          | Some _, _ => Ret (inr (ErrMsg "forbidden"))
          | None, Some _ => resolveSandboxSession user id
          | None, None =>
              r <- createSandboxFromBody cfg dflt ;;
              match r with
              | inr err => Ret (inr (ErrWrap "create default sandbox config: " err ""))
              | inl _ => resolveSandboxSession user id
              end
          end
      end
  | _, _ => Ret (inr (ErrMsg "default sandbox is disabled"))
  end.

Definition not_found (id : string) : ToolResult :=
  toolError (MLit "session " (MQuote id (text " not found"))).

(** The session a resolved id names. *)
Definition resolved_session (id : string) : prog (Session + ToolResult) :=
  r <- lookupSession cfg id ;;
  match r with
  | inl (Some s) => Ret (inl s)
  | _ => Ret (inr (not_found id))
  end.

(** The session named by X-Session-Id, created on first contact. *)
Definition named_session (user : option UserInfo) (sandboxID sessionID : string) : prog (Session + ToolResult) :=
  r <- lookupSession cfg sessionID ;;
  match r with
  | inr err => Ret (inr (toolError (MLit "store error: " (err_text err))))
  | inl (Some s) =>
      if negb (sandboxID =?s "") && negb (ss_SandboxID (se_Spec s) =?s sandboxID) then
        Ret (inr (toolError (MLit "session " (MQuote sessionID (MLit " does not belong to sandbox "
          (MQuote sandboxID MNil))))))
      else Ret (inl s)
  | inl None =>
      if sandboxID =?s "" then
        Ret (inr (toolError (MLit "session " (MQuote sessionID
          (text " not found and no sandbox id provided to create it")))))
      else match ValidateSessionID sessionID with
           | Some _ => Ret (inr (toolError (text "invalid session id format")))
           | None =>
               e <- ensureSession user sessionID sandboxID sessionID ;;
               match e with
               | Some err => Ret (inr (toolError (MLit "session unavailable: " (err_text err))))
               | None => resolved_session sessionID
               end
           end
  end.

(** Without X-Session-Id: the session the sandbox shares. *)
Definition shared_session (user : option UserInfo) (sandboxID : string) : prog (Session + ToolResult) :=
  r <- (if sandboxID =?s "" then resolveDefaultSession user sandboxID else resolveSandboxSession user sandboxID) ;;
  match r with
  | inr err => Ret (inr (toolError (MLit "no session specified and session unavailable: " (err_text err))))
  | inl id => resolved_session id
  end.

Definition resolveToolSession (user : option UserInfo) (rawSandbox rawSession : string) : prog (Session + ToolResult) :=
  let sandboxID := TrimSpace rawSandbox in
  let sessionID := TrimSpace rawSession in
  match (if sandboxID =?s "" then None else ValidateSandboxID sandboxID) with
  | Some _ => Ret (inr (toolError (text "invalid sandbox id format")))
  | None =>
      r <- (if sessionID =?s "" then shared_session user sandboxID else named_session user sandboxID sessionID) ;;
      match r with
      | inr t => Ret (inr t)
      | inl s =>
          a <- canResourceAccess cfg user "update" "sessions" (om_Name (se_Meta s)) ;;
          match a with
          | Some _ => Ret (inr (toolError (text "forbidden")))
          | None =>
              if phase_of s =?s SandboxPhaseRunning then Ret (inl s)
              else Ret (inr (toolError (MLit "session " (MQuote (ss_SessionID (se_Spec s))
                     (text (" not running (phase: " +:+ phase_of s +:+ ")"))))))
          end
      end
  end.

(** Every tool: a session, a slot, the call, and on success a note of the use. *)
Definition with_tool_session (user : option UserInfo) (sandboxID sessionID : string)
    (act : Session -> prog (ToolResult + Err)) (failure : string) : prog ToolResult :=
  r <- resolveToolSession user sandboxID sessionID ;;
  match r with
  | inr t => Ret t
  | inl s =>
      acquired <- call SlotTryAcquire ;;
      if acquired : bool then
        a <- act s ;;
        t <- match a with
             | inr err => Ret (toolError (MLit failure (err_text err)))
             | inl t => call (GoTouch s) ;;; Ret t
             end ;;
        call SlotRelease ;;;
        Ret t
      else Ret (toolError (text "concurrency limit reached, try again later"))
  end.

(** ** The tools *)

(** The text of a finished command. *)
Definition bash_text (stdout stderr : string) (exitCode : Z) (timedOut : bool) : string :=
  stdout +:+
  (if stderr =?s "" then "" else (if stdout =?s "" then "" else NL) +:+ stderr) +:+
  (if exitCode =? 0 then "" else NL +:+ "[exit code: " +:+ pretty exitCode +:+ "]") +:+
  (if timedOut then NL +:+ "[timed out]" else "").

Definition bash_result (stdout stderr : string) (exitCode : Z) (timedOut : bool) : ToolResult :=
  let t := text (bash_text stdout stderr exitCode timedOut) in
  if exitCode =? 0 then toolText t else toolError t.

(** What the stream callback collects of one output. *)
Definition collected (name : string) (evs : list (string * string)) : string :=
  str_concat (map snd (List.filter (fun ev => ev.1 =?s name) evs)).

Definition bash_request (s : Session) (p : bashParams) : ExecReq :=
  {| xr_SandboxID := ss_SessionID (se_Spec s); xr_Command := "sh"; xr_Args := ["-c"; bp_Command p]; xr_Env := [];
     xr_TimeoutSeconds := if bp_TimeoutSeconds p <=? 0 then 60 else bp_TimeoutSeconds p; xr_PTY := false |}.

(** [progress]: the caller asked for progress notifications, which are sent for
    the same output chunks. *)
Definition mcpBashTool (user : option UserInfo) (sandboxID sessionID : string) (progress : bool) (p : bashParams)
    : prog ToolResult :=
  if bp_Command p =?s "" then Ret (toolError (text "command is required"))
  else with_tool_session user sandboxID sessionID (fun s =>
    let url := controllerURLFromSession cfg s in
    if progress then
      er <- ClientExecStream url (bash_request s p) ;;
      match er.2 with
      | inr err => Ret (inr err)
      | inl r => Ret (inl (bash_result (collected "stdout" er.1) (collected "stderr" er.1) (xs_ExitCode r) (xs_TimedOut r)))
      end
    else
      r <- ClientExec url (bash_request s p) ;;
      match r with
      | inr err => Ret (inr err)
      | inl r => Ret (inl (bash_result (xs_Stdout r) (xs_Stderr r) (xs_ExitCode r) (xs_TimedOut r)))
      end) "exec error: ".

Definition mcpReadFileTool (user : option UserInfo) (sandboxID sessionID : string) (p : readFileParams)
    : prog ToolResult :=
  match ValidateFilePath (rp_Path p) with
  | Some e => Ret (toolError (verr_text e))
  | None => with_tool_session user sandboxID sessionID (fun s =>
      r <- ClientReadFile (controllerURLFromSession cfg s)
             {| fr_SandboxID := ss_SessionID (se_Spec s); fr_Path := rp_Path p |} ;;
      match r with
      | inr err => Ret (inr err)
      | inl res => Ret (inl (toolText (text (frr_Content res))))
      end) "read error: "
  end.

Definition mcpWriteFileTool (user : option UserInfo) (sandboxID sessionID : string) (p : writeFileParams)
    : prog ToolResult :=
  match ValidateFilePath (wp_Path p), ValidateFileEncoding (wp_Encoding p) with
  | Some e, _ | None, Some e => Ret (toolError (verr_text e))
  | None, None => with_tool_session user sandboxID sessionID (fun s =>
      r <- ClientWriteFile (controllerURLFromSession cfg s)
             {| fw_SandboxID := ss_SessionID (se_Spec s); fw_Path := wp_Path p; fw_Content := wp_Content p;
                fw_Encoding := wp_Encoding p |} ;;
      match r with
      | inr err => Ret (inr err)
      | inl res => Ret (inl (toolText (text ("wrote " +:+ pretty (fwr_BytesWritten res) +:+ " bytes to " +:+ fwr_Path res))))
      end) "write error: "
  end.

Definition mcpEditFileTool (user : option UserInfo) (sandboxID sessionID : string) (p : editFileParams)
    : prog ToolResult :=
  match ValidateFilePath (ep_Path p) with
  | Some e => Ret (toolError (verr_text e))
  | None =>
      if ep_OldString p =?s "" then Ret (toolError (text "oldString is required"))
      else with_tool_session user sandboxID sessionID (fun s =>
        r <- ClientEditFile (controllerURLFromSession cfg s)
               {| fe_SandboxID := ss_SessionID (se_Spec s); fe_Path := ep_Path p; fe_OldString := ep_OldString p;
                  fe_NewString := ep_NewString p; fe_ReplaceAll := ep_ReplaceAll p |} ;;
        match r with
        | inr err => Ret (inr err)
        | inl res => Ret (inl (toolText (text ("made " +:+ pretty (fer_Replacements res) +:+ " replacement(s) in " +:+ fer_Path res))))
        end) "edit error: "
  end.

(** ** Routing *)

Inductive ToolCall : Type :=
| CallBash (progress : bool) (p : bashParams)
| CallReadFile (p : readFileParams)
| CallWriteFile (p : writeFileParams)
| CallEditFile (p : editFileParams).

Definition call_tool (user : option UserInfo) (sandboxID sessionID : string) (c : ToolCall) : prog ToolResult :=
  match c with
  | CallBash progress p => mcpBashTool user sandboxID sessionID progress p
  | CallReadFile p => mcpReadFileTool user sandboxID sessionID p
  | CallWriteFile p => mcpWriteFileTool user sandboxID sessionID p
  | CallEditFile p => mcpEditFileTool user sandboxID sessionID p
  end.

(** A request, by the pattern of [Handler] it matches, with its decoded parts. *)
Inductive Route : Type :=
| RtHealth
| RtExec (d : Decoded ExecRequestBody)
| RtExecStream (d : Decoded ExecRequestBody)
| RtSessionCreate (d : Decoded SessionCreateBody)
| RtSessionList (sandboxID owner phase : string)
| RtSessionGet (id : string)
| RtSessionDelete (id : string)
| RtSandboxCreate (d : Decoded SandboxCreateBody)
| RtSandboxList
| RtSandboxGet (id : string)
| RtSandboxUpdate (id : string) (d : Decoded SandboxCreateBody)
| RtSandboxDelete (id : string)
| RtSandboxEvict (id : string)
| RtSandboxSessions (id : string)
| RtMcp (sandboxID sessionID : string) (c : ToolCall).

(** An HTTP response or a tool result. *)
Inductive Answer : Type :=
| AHttp (r : RResponse)
| ATool (t : ToolResult).

(** The handler behind a pattern, for an authenticated user. *)
Definition route_handler (rt : Route) (user : option UserInfo) : prog Answer :=
  let http (p : prog RResponse) : prog Answer := r <- p ;; Ret (AHttp r) in
  match rt with
  | RtHealth => http handleHealth
  | RtExec d => http (handleSessionExec cfg user d)
  | RtExecStream d => http (handleSessionExecStream cfg user d)
  | RtSessionCreate d => http (handleSessionCreate cfg user d)
  | RtSessionList sandboxID owner phase => http (handleSessionList cfg user sandboxID owner phase)
  | RtSessionGet id => http (handleSessionGet cfg user id)
  | RtSessionDelete id => http (handleSessionDelete cfg user id)
  | RtSandboxCreate d => http (handleSandboxCreate cfg user d)
  | RtSandboxList => http (handleSandboxList cfg user)
  | RtSandboxGet id => http (handleSandboxGet cfg user id)
  | RtSandboxUpdate id d => http (handleSandboxUpdate cfg user id d)
  | RtSandboxDelete id => http (handleSandboxDelete cfg user id)
  | RtSandboxEvict id => http (handleSandboxEvict cfg user id)
  | RtSandboxSessions id => http (handleSandboxSessions cfg user id)
  | RtMcp sandboxID sessionID c => t <- call_tool user sandboxID sessionID c ;; Ret (ATool t)
  end.

Definition Handler (authorization : string) (rt : Route) : prog Answer :=
  match rt with
  | RtHealth => route_handler RtHealth None
  | _ => withAuth cfg (AHttp (jsonErr 401 (text "unauthorized") "")) authorization (route_handler rt)
  end.

End mcp.
