(* ===== verification/RouterProofs.v ===== *)
(** * Properties of the router

    What holds of every request, whatever the API server, the controllers and
    the clock answer: who it acts for and what that user was granted, the use of
    the slots, the end of the polling loop, and the ids the router makes up. *)
From S2P Require Import Prelude Prog GoStrings GoSha256 GoRegexp ApiTypes Validate Kube CtrlClient SessionReconciler.
From S2P Require Import Auth EnvConfig RouterServer Mcp.

Open Scope boxy_scope.

(** ** The polling loop *)

(** Time passes: a clock never goes back, and a sleep that is not cut short
    takes at least the time asked for. *)
Definition clock_env : env Z := fun e c =>
  match e return KAnswer e -> Z -> Prop with
  | Now => fun x c' => c <= x /\ c' = x
  | Sleep d => fun x c' => match x with None => c + d <= c' | Some _ => c <= c' end
  | _ => fun _ c' => c <= c'
  end.

Section polling.
Context (cfg : Config).

(** [n] more rounds are enough at time [c]. *)
Definition rounds_left (deadline : Z) (n : nat) (c : Z) : Prop :=
  0 < Z.of_nat n /\ deadline < c + poll_interval * Z.of_nat (pred n).

Lemma wait_more_ends (deadline : Z) (n : nat) (s : Session) (c : Z) :
  rounds_left deadline (S n) c ->
  wp clock_env (wait_more deadline s) c (fun r c' =>
    match r with inl _ => rounds_left deadline n c' | inr (inl s') => phase_of s' = SandboxPhaseRunning
    | inr (inr _) => True end).
Proof.
  intros [_ Hn]. unfold wait_more. cbn [wp bind call]. intros now c1 [Hc ->].
  destruct (deadline <? now) eqn:Hd; bool_hyps; [done|]. cbn [wp bind call]. intros [err|] c2 Hs; [done|].
  simpl in *. unfold rounds_left. destruct n as [|n]; simpl in *; [lia|]. split; [lia|].
  replace (Z.of_nat (S n)) with (Z.of_nat n + 1) in Hn by lia. lia.
Qed.

Lemma wait_step_ends (deadline : Z) (n : nat) (s : Session) (c : Z) :
  rounds_left deadline (S n) c ->
  wp clock_env (wait_step deadline s) c (fun r c' =>
    match r with inl _ => rounds_left deadline n c' | inr (inl s') => phase_of s' = SandboxPhaseRunning
    | inr (inr _) => True end).
Proof.
  intros Hn. unfold wait_step. cbn [wp bind call]. intros r c1 Hc. simpl in Hc.
  assert (rounds_left deadline (S n) c1) as Hn1 by (destruct Hn; split; lia).
  destruct r as [s'|err]; [|by apply wait_more_ends].
  destruct (phase_of s' =?s SandboxPhaseRunning) eqn:Hp; bool_hyps; [done|].
  destruct (phase_of s' =?s SandboxPhaseTerminated); [done|]. by apply wait_more_ends.
Qed.

Lemma wait_returns (s : Session) (c : Z) :
  wp clock_env (wait_loop cfg s) c (fun r _ =>
    match r with Some (inl s') => phase_of s' = SandboxPhaseRunning | Some (inr _) => True | None => False end).
Proof.
  unfold wait_loop. cbn [wp bind call]. intros now c1 [Hc ->].
  eapply wp_mono; [|apply (wp_loop clock_env _ (fun n _ c => rounds_left (now + create_timeout cfg) n c)
    (fun r _ => match r with inl s' => phase_of s' = SandboxPhaseRunning | inr _ => True end))].
  - by intros [[]|].
  - unfold rounds_left, wait_rounds. split; [lia|]. cbn [pred].
    assert (0 < create_timeout cfg) as Ht.
    { unfold create_timeout. destruct (cf_CreateTimeout cfg <=? 0) eqn:H; bool_hyps; unfold Second; lia. }
    assert (0 < poll_interval) as Hp by (unfold poll_interval, Millisecond; lia).
    pose proof (Z.div_mod (create_timeout cfg) poll_interval ltac:(lia)) as Hdm.
    pose proof (Z.mod_pos_bound (create_timeout cfg) poll_interval Hp).
    pose proof (Z.div_pos (create_timeout cfg) poll_interval ltac:(lia) Hp).
    rewrite Nat2Z.inj_succ, Z2Nat.id by lia. lia.
  - intros i c' [H _]. simpl in H. lia.
  - intros n i c' Hn. eapply wp_mono; [|by apply wait_step_ends]. intros [?|[?|?]] c2; done.
Qed.

(** C29: waiting for a session ends: with a clock that does not go back and
    sleeps that last, the polling loop returns within the rounds its deadline
    allows, and a session it returns is Running. *)
Theorem waiting_terminates (s : Session) (c : Z) :
  wp clock_env (wait_loop cfg s) c (fun r _ =>
    match r with Some (inl s') => phase_of s' = SandboxPhaseRunning | Some (inr _) => True | None => False end).
Proof. apply wait_returns. Qed.

End polling.

(** ** Slots *)

(** No slot is taken or given back and no metric touched; and, besides, no
    controller is called. *)
Definition no_slot (e : KEvent) : Prop :=
  match e with SlotTryAcquire | SlotRelease | Observe _ _ _ => False | _ => True end.

Definition calm (e : KEvent) : Prop :=
  match e with SlotTryAcquire | SlotRelease | Http _ _ | Observe _ _ _ => False | _ => True end.

(** Whether the request holds a slot; [None] when a controller is called
    without one, a slot is taken or given back twice, or a metric is touched. *)
Definition slot_env : env (option bool) := fun e s =>
  match e return KAnswer e -> option bool -> Prop with
  | SlotTryAcquire => fun a s' => s' = match s with Some false => Some a | _ => None end
  | SlotRelease => fun _ s' => s' = match s with Some true => Some false | _ => None end
  | Http _ _ => fun _ s' => s' = match s with Some true => Some true | _ => None end
  | Observe _ _ _ => fun _ s' => s' = None
  | _ => fun _ s' => s' = s
  end.

Lemma calm_no_slot (e : KEvent) : calm e -> no_slot e.
Proof. by destruct e. Qed.

Lemma calm_to {A} (P : KEvent -> Prop) (p : prog A) : (forall e, calm e -> P e) -> only calm p -> only P p.
Proof. intros HP. by apply (@only_mono KSig). Qed.

Create HintDb events.

(** Walks through a program to the events it performs. *)
Ltac walk :=
  repeat first
    [ fast_done
    | solve [eauto 3 with events]
    | progress cbn [only bind call calm no_slot]
    | intros ?
    | match goal with
      | |- _ /\ _ => split
      | |- True => exact I
      | |- only _ (match ?x with _ => _ end) => destruct x eqn:?
      | |- only _ (bind (match ?x with _ => _ end) _) => destruct x eqn:?
      | |- only _ (bind _ _) => apply only_bind
      end ].

Section walks.
Context (cfg : Config) (P : KEvent -> Prop).

Lemma authorize_calm tr user ns v r n : only calm (authorizeResource tr user ns v r n).
Proof. unfold authorizeResource. walk. Qed.

Lemma authenticate_calm tr tok : only calm (authenticate tr tok).
Proof. unfold authenticate, review_token. walk. Qed.

Lemma lookupSandbox_calm id : only calm (lookupSandbox cfg id).
Proof. unfold lookupSandbox. walk. Qed.

Lemma lookupSession_calm id : only calm (lookupSession cfg id).
Proof. unfold lookupSession. walk. Qed.

Lemma countSessions_calm id : only calm (countSessionsForSandbox cfg id).
Proof. unfold countSessionsForSandbox. walk. Qed.

Lemma loop_only {I A} (n : nat) (body : I -> prog (I + A)) (i : I) :
  (forall i, only P (body i)) -> only P (loop n body i).
Proof. intros Hb. revert i. induction n as [|n IH]; intros i; simpl; [done|]. apply only_bind; [done|]. by intros []. Qed.

Lemma for_each_only {A B} (l : list A) (body : B -> A -> prog B) (b : B) :
  (forall b a, only P (body b a)) -> only P (for_each l body b).
Proof. intros Hb. revert b. induction l as [|a l IH]; intros b; simpl; [done|]. by apply only_bind. Qed.

Lemma createSandbox_calm body : only calm (createSandboxFromBody cfg body).
Proof. unfold createSandboxFromBody. walk. Qed.

Lemma generate_calm : only calm generateSessionID.
Proof. unfold generateSessionID. walk. Qed.

Lemma choose_calm g : only calm (choose_session_id g).
Proof.
  unfold choose_session_id. destruct (g =?s ""); [apply only_bind; [apply generate_calm|done]|].
  by destruct (ValidateSessionID g).
Qed.

End walks.

Lemma wait_step_calm (d : Z) (s : Session) : only calm (wait_step d s).
Proof. unfold wait_step, wait_more. walk. Qed.

Lemma createAndWait_calm (cfg : Config) (id sb owner : string) : only calm (createAndWaitForSession cfg id sb owner).
Proof.
  assert (forall s, only calm (wait_for_session cfg s)) as Hw.
  { intros s. unfold wait_for_session, wait_loop. apply only_bind; [|done]. cbn [only bind call]. split; [done|].
    intros now. apply loop_only, wait_step_calm. }
  unfold createAndWaitForSession. cbn [only bind call]. split; [done|]. intros [err|]; [|done]. by destruct (IsAlreadyExists err).
Qed.

#[export] Hint Resolve authorize_calm authenticate_calm lookupSandbox_calm lookupSession_calm countSessions_calm
  createSandbox_calm generate_calm choose_calm createAndWait_calm : events.
#[export] Hint Extern 3 (only no_slot _) => apply (calm_to no_slot _ calm_no_slot) : events.

Section slots.
Context (cfg : Config).

Lemma require_only (P : KEvent -> Prop) user v r n k :
  (forall e, calm e -> P e) -> only P k -> only P (requireResourceAccess cfg user v r n k).
Proof.
  intros HP Hk. unfold requireResourceAccess. destruct user as [u|]; [|done].
  apply only_bind; [by apply calm_to, authorize_calm|]. by intros [].
Qed.

Lemma found_sandbox_only (P : KEvent -> Prop) id m c k :
  (forall e, calm e -> P e) -> (forall sb, only P (k sb)) -> only P (found_sandbox cfg id m c k).
Proof.
  intros HP Hk. unfold found_sandbox. apply only_bind; [by apply calm_to, lookupSandbox_calm|].
  by intros [[sb|]|err].
Qed.

Lemma found_session_only (P : KEvent -> Prop) id k :
  (forall e, calm e -> P e) -> (forall s, only P (k s)) -> only P (found_session cfg id k).
Proof.
  intros HP Hk. unfold found_session. apply only_bind; [by apply calm_to, lookupSession_calm|].
  by intros [[s|]|err].
Qed.

Lemma path_id_only (P : KEvent -> Prop) raw f v k :
  (forall id, only P (k id)) -> only P (path_id raw f v k).
Proof. intros Hk. unfold path_id. destruct (_ =?s ""); [done|]. by destruct (v _). Qed.

Lemma decode_only {A} (P : KEvent -> Prop) (d : Decoded A) k : (forall a, only P (k a)) -> only P (decodeBody d k).
Proof. intros Hk. by destruct d; simpl. Qed.

Lemma start_session_only (P : KEvent -> Prop) user body id old k :
  (forall e, calm e -> P e) -> (forall s b, only P (k s b)) -> only P (start_session cfg user body id old k).
Proof.
  intros HP Hk. unfold start_session. do 2 (apply require_only; [done|]).
  apply only_bind; [destruct old; cbn; [split; [by apply HP|done]|done]|]. intros [err|]; [done|]. apply found_sandbox_only; [done|]. intros _.
  apply only_bind; [by apply calm_to, createAndWait_calm|]. by intros [].
Qed.

Lemma exec_session_only (P : KEvent -> Prop) user d k :
  (forall e, calm e -> P e) -> (forall b id s c, only P (k b id s c)) -> only P (exec_session cfg user d k).
Proof.
  intros HP Hk. unfold exec_session. apply decode_only. intros body. destruct (ValidateExecRequest _ _ _ _); [done|].
  apply only_bind; [by apply calm_to, choose_calm|]. intros [id|]; [|done]. cbv zeta.
  apply only_bind; [by apply calm_to, lookupSession_calm|].
  assert (forall s c, only P (if phase_of s =?s SandboxPhaseRunning then k body id s c
    else Ret (jsonErr 503 (text "session not ready") "session_not_ready"))) as Hr
    by (intros s c; by destruct (phase_of s =?s _)).
  intros [[s|]|err]; [|by apply start_session_only|done].
  destruct (phase_of s =?s SandboxPhaseTerminated); [by apply start_session_only|].
  destruct (negb _); [done|]. by apply require_only.
Qed.

Lemma in_slot_ok (body : prog RResponse) :
  only no_slot body -> wp slot_env (in_slot body) (Some false) (fun _ s => s = Some false).
Proof.
  intros Hb. unfold in_slot. cbn [wp bind call]. intros [] ? ->; [|done].
  eapply wp_bind_spec.
  - apply (wp_stay slot_env no_slot); [done|]. intros [] x s' Hn; by try done.
  - intros r s ->. cbn [wp bind call]. by intros ? ? ->.
Qed.

Lemma calm_slot {A} (p : prog A) : only calm p -> wp slot_env p (Some false) (fun _ s => s = Some false).
Proof. intros Hp. apply (wp_stay slot_env calm); [done|]. intros [] x s' Hq; by try done. Qed.

Lemma send_no_slot m url r : only no_slot (send m url r).
Proof. unfold send. walk. Qed.

(** The handlers that call no controller. *)
Lemma config_handlers_calm user raw body :
  only calm (handleSandboxCreate cfg user body) /\ only calm (handleSandboxGet cfg user raw) /\
  only calm (handleSandboxUpdate cfg user raw body) /\ only calm (handleSandboxDelete cfg user raw) /\
  only calm (handleSandboxList cfg user) /\ only calm (handleSandboxEvict cfg user raw) /\
  only calm (handleSandboxSessions cfg user raw).
Proof.
  assert (forall e, calm e -> calm e) as Hid by done.
  unfold handleSandboxCreate, handleSandboxGet, handleSandboxUpdate, handleSandboxDelete, handleSandboxList,
    handleSandboxEvict, handleSandboxSessions. split_and!.
  - apply decode_only. intros b. destruct (ValidateSandboxCreate _ _); [done|]. apply require_only; [done|]. walk.
  - apply path_id_only. intros id. apply require_only; [done|]. apply found_sandbox_only; [done|]. walk.
  - apply path_id_only. intros id. apply decode_only. intros b. cbv zeta.
    destruct (ValidateSandboxCreate _ _); [done|]. apply require_only; [done|]. apply found_sandbox_only; [done|]. walk.
  - apply path_id_only. intros id. apply require_only; [done|]. apply found_sandbox_only; [done|]. walk.
  - apply require_only; [done|]. cbn [only bind call]. split; [done|]. intros [items|]; [|done].
    apply only_bind; [|done]. apply for_each_only. intros b sb. unfold list_config. walk.
  - apply path_id_only. intros id. apply require_only; [done|]. cbn [only bind call]. split; [done|].
    intros [items|]; [|done]. apply only_bind; [|done]. apply for_each_only. intros b s. unfold evict_session. walk.
  - apply path_id_only. intros id. apply require_only; [done|]. walk.
Qed.

Lemma session_handlers_calm user raw body sb owner phase :
  only calm (handleSessionCreate cfg user body) /\ only calm (handleSessionList cfg user sb owner phase) /\
  only calm (handleSessionGet cfg user raw) /\ only calm (handleSessionDelete cfg user raw).
Proof.
  unfold handleSessionCreate, handleSessionList, handleSessionGet, handleSessionDelete. split_and!.
  - apply decode_only. intros b. destruct (ValidateSessionCreate _); [done|]. cbv zeta. apply only_bind; [walk|].
    intros id. do 2 (apply require_only; [done|]). apply found_sandbox_only; [done|]. walk.
  - apply require_only; [done|]. destruct (list_labels _ _); walk.
  - apply path_id_only. intros id. apply require_only; [done|]. by apply found_session_only.
  - apply path_id_only. intros id. apply require_only; [done|]. apply found_session_only; [done|]. walk.
Qed.

Lemma exec_handlers_slot user d :
  wp slot_env (handleSessionExec cfg user d) (Some false) (fun _ s => s = Some false) /\
  wp slot_env (handleSessionExecStream cfg user d) (Some false) (fun _ s => s = Some false).
Proof.
  unfold handleSessionExec, handleSessionExecStream. split; apply in_slot_ok, exec_session_only;
    try apply calm_no_slot; intros b id s c; unfold ClientExec, ClientExecStream; walk; apply send_no_slot.
Qed.

Lemma access_calm user v r n : only calm (canResourceAccess cfg user v r n).
Proof. unfold canResourceAccess. walk. Qed.

#[local] Hint Resolve access_calm : events.

Lemma ensure_calm user id sb owner : only calm (ensureSession cfg user id sb owner).
Proof. unfold ensureSession. walk. Qed.

#[local] Hint Resolve ensure_calm : events.

Lemma resolve_calm user sb id : only calm (resolveToolSession cfg user sb id).
Proof.
  assert (forall sb, only calm (resolveSandboxSession cfg user sb)) as Hs by (intros; unfold resolveSandboxSession; walk).
  assert (forall id, only calm (resolved_session cfg id)) as Hr by (intros; unfold resolved_session; walk).
  unfold resolveToolSession. cbv zeta. destruct (if TrimSpace sb =?s "" then _ else _); [done|].
  apply only_bind; [|walk]. destruct (TrimSpace id =?s "").
  - unfold shared_session, resolveDefaultSession. walk.
  - unfold named_session. walk.
Qed.

Lemma tool_slot user sb id act f :
  (forall s, only no_slot (act s)) ->
  wp slot_env (with_tool_session cfg user sb id act f) (Some false) (fun _ s => s = Some false).
Proof.
  intros Ha. unfold with_tool_session. eapply wp_bind_spec; [apply calm_slot, resolve_calm|].
  intros [s|t] ? ->; [|done]. cbn [wp bind call]. intros [] ? ->; [|done].
  eapply wp_bind_spec; [apply (wp_stay slot_env no_slot); [apply Ha|]; intros [] x s' Hn; by try done|].
  intros [t|err] ? ->; cbn [wp bind call]; [intros ? ? ->|]; by intros ? ? ->.
Qed.

Lemma call_tool_slot user sb id c :
  wp slot_env (call_tool cfg user sb id c) (Some false) (fun _ s => s = Some false).
Proof.
  destruct c as [progress p|p|p|p]; simpl;
    unfold mcpBashTool, mcpReadFileTool, mcpWriteFileTool, mcpEditFileTool.
  - destruct (_ =?s ""); [done|]. apply tool_slot. intros s.
    unfold ClientExec, ClientExecStream. destruct progress; walk; apply send_no_slot.
  - destruct (ValidateFilePath _); [done|]. apply tool_slot. intros s. unfold ClientReadFile. walk; apply send_no_slot.
  - destruct (ValidateFilePath _), (ValidateFileEncoding (wp_Encoding p)); try done. apply tool_slot. intros s.
    unfold ClientWriteFile. walk; apply send_no_slot.
  - destruct (ValidateFilePath _); [done|]. destruct (_ =?s ""); [done|]. apply tool_slot. intros s.
    unfold ClientEditFile. walk; apply send_no_slot.
Qed.

Lemma route_slot rt user : wp slot_env (route_handler cfg rt user) (Some false) (fun _ s => s = Some false).
Proof.
  assert (forall p : prog RResponse, wp slot_env p (Some false) (fun _ s => s = Some false) ->
    wp slot_env (r <- p ;; Ret (AHttp r)) (Some false) (fun _ s => s = Some false)) as Hh.
  { intros p Hp. eapply wp_bind_spec; [exact Hp|]. by intros r s ->. }
  destruct rt as [|d|d|d|sb o ph|id|id|d| |id|id d|id|id|id|sb id c]; cbn [route_handler].
  - done.
  - apply Hh, (proj1 (exec_handlers_slot user d)).
  - apply Hh, (proj2 (exec_handlers_slot user d)).
  - apply Hh, calm_slot, (session_handlers_calm user "" d "" "" "").
  - apply Hh, calm_slot, (session_handlers_calm user "" BadJSON sb o ph).
  - apply Hh, calm_slot, (session_handlers_calm user id BadJSON "" "" "").
  - apply Hh, calm_slot, (session_handlers_calm user id BadJSON "" "" "").
  - apply Hh, calm_slot, (config_handlers_calm user "" d).
  - apply Hh, calm_slot, (config_handlers_calm user "" BadJSON).
  - apply Hh, calm_slot, (config_handlers_calm user id BadJSON).
  - apply Hh, calm_slot, (config_handlers_calm user id d).
  - apply Hh, calm_slot, (config_handlers_calm user id BadJSON).
  - apply Hh, calm_slot, (config_handlers_calm user id BadJSON).
  - apply Hh, calm_slot, (config_handlers_calm user id BadJSON).
  - eapply wp_bind_spec; [apply call_tool_slot|]. by intros t s ->.
Qed.

(** Every request calls a controller only while it holds one of the slots, takes
    at most one, gives back the one it took, and touches no metric. *)
Lemma handler_in_slot (authorization : string) (rt : Route) :
  wp slot_env (Handler cfg authorization rt) (Some false) (fun _ s => s = Some false).
Proof.
  assert (wp slot_env (withAuth cfg (AHttp (jsonErr 401 (text "unauthorized") "")) authorization
    (route_handler cfg rt)) (Some false) (fun _ s => s = Some false)) as H.
  { unfold withAuth. destruct (extractBearer authorization) as [tok|]; [|done].
    eapply wp_bind_spec; [apply calm_slot, authenticate_calm|]. intros [u|err] s ->; [apply route_slot|done]. }
  unfold Handler. destruct rt; try exact H. apply route_slot.
Qed.

(** What the monitor of the slots accepts touches no metric. *)
Definition unobserved (e : KEvent) : Prop := match e with Observe _ _ _ => False | _ => True end.

Lemma slot_violation {A} (p : prog A) : ~ wp slot_env p None (fun _ s => s = Some false).
Proof.
  induction p as [a|e k IH]; cbn [wp]; [done|]. intros H. apply (IH (unavailable e)), H. by destruct e.
Qed.

Lemma slot_unobserved {A} (p : prog A) (s : option bool) :
  wp slot_env p s (fun _ s' => s' = Some false) -> only unobserved p.
Proof.
  revert s. induction p as [a|e k IH]; intros s H; [done|]. cbn [only wp] in *.
  split.
  - destruct e; try done. apply (slot_violation (k tt)), H. done.
  - intros x. assert (exists s', slot_env e s x s') as [s' Hs] by (destruct e; by eexists).
    by apply (IH x s'), H.
Qed.

Lemma handler_unobserved (authorization : string) (rt : Route) : only unobserved (Handler cfg authorization rt).
Proof. eapply slot_unobserved, handler_in_slot. Qed.

End slots.

(** ** The ids the router makes up *)

Lemma slen_encode (bs : list Z) : slen (EncodeToString bs) = 2 * llen bs.
Proof. unfold slen, llen. induction bs as [|b bs IH]; simpl; lia. Qed.

Lemma hex_digit_lower (z : Z) : 0 <= z < 16 -> lower_alnum (hex_digit z) = true.
Proof.
  intros Hz. assert (forallb (fun z => lower_alnum (hex_digit z)) (seqZ 0 16) = true) as H by by vm_compute.
  rewrite forallb_forall in H. apply H. rewrite <- list_elem_of_In, elem_of_seqZ. lia.
Qed.

Lemma encode_lower (bs : list Z) :
  Forall (fun z => 0 <= z < 256) bs -> str_forall lower_alnum (EncodeToString bs) = true.
Proof.
  induction 1 as [|b bs Hb Hbs IH]; [done|]. cbn [EncodeToString str_forall].
  rewrite !hex_digit_lower, IH by (Z.div_mod_to_equations; lia). done.
Qed.

Lemma eight_bytes_ok (bs : list Z) : Forall (fun z => 0 <= z < 256) (eight_bytes bs).
Proof. unfold eight_bytes. apply Forall_map, Forall_true. intros i. apply Z.mod_pos_bound. lia. Qed.

(** A non-empty text of lower-case letters and digits ends in one. *)
Lemma lower_last (s : string) :
  s <> "" -> str_forall lower_alnum s = true -> exists c r, s = r +:+ String c "" /\ lower_alnum c = true.
Proof.
  induction s as [|c s IH]; [done|]. intros _ H. simpl in H. bool_hyps. destruct s as [|d s].
  - exists c, "". done.
  - destruct IH as (e & r & -> & ?); [done|done|]. exists e, (String c r). done.
Qed.

Lemma generated_label_name (bs : list Z) : label_name ("sess-" +:+ EncodeToString (eight_bytes bs)).
Proof.
  pose proof (encode_lower _ (eight_bytes_ok bs)) as Hl.
  assert (slen (EncodeToString (eight_bytes bs)) = 16) as Hlen by (by rewrite slen_encode).
  split; [rewrite slen_app, Hlen; vm_compute; split; discriminate || reflexivity|]. split_and!.
  - rewrite str_forall_app. apply andb_true_iff. split; [done|].
    eapply str_forall_impl; [|exact Hl]. apply lower_alnum_name_char.
  - eexists _, _. split; [reflexivity|done].
  - destruct (lower_last (EncodeToString (eight_bytes bs))) as (c & r & -> & Hc); [|done|].
    + intros He. rewrite He in Hlen. done.
    + exists c, ("sess-" +:+ r). split; [by rewrite str_app_assoc|done].
Qed.

Lemma shared_label_name (sb : string) : label_name sb -> label_name (shared_session_id sb).
Proof.
  intros (Hlen & Hall & (c & r & -> & Hc) & _). unfold shared_session_id.
  assert (slen (str_take 55 (String c r)) <= 55) as Ht by (unfold slen; rewrite str_take_length; lia).
  split; [rewrite slen_app; change (slen "-session") with 8|].
  { simpl str_take. unfold slen in *. simpl in *. lia. }
  split_and!.
  - rewrite str_forall_app. apply andb_true_iff. split; [|done].
    rewrite <- (str_take_drop 55 (String c r)), str_forall_app in Hall. by bool_hyps.
  - exists c, (str_take 54 r +:+ "-session"). done.
  - exists "n"%char, (str_take 55 (String c r) +:+ "-sessio"). split; [by rewrite str_app_assoc|done].
Qed.

(** The ids the router makes up are ids it accepts: a generated session id is
    valid whatever the random bytes, and different bytes give different ids; the
    id of the session a valid sandbox shares is valid, and two sandboxes share it
    exactly when their first 55 bytes agree; and the second check of the session
    id in the exec handlers never fails for a request that passed the first. *)
Theorem made_up_ids_valid :
  (forall bs, ValidateSessionID ("sess-" +:+ EncodeToString (eight_bytes bs)) = None) /\
  (forall bs bs', EncodeToString (eight_bytes bs) = EncodeToString (eight_bytes bs') ->
     eight_bytes bs = eight_bytes bs') /\
  (forall sb, ValidateSandboxID sb = None -> ValidateSessionID (shared_session_id sb) = None) /\
  (forall a b, shared_session_id a = shared_session_id b <-> str_take 55 a = str_take 55 b) /\
  (forall body maxTimeoutSec maxArgs maxEnvKeys,
     ValidateExecRequest (Some body) maxTimeoutSec maxArgs maxEnvKeys = None ->
     TrimSpace (er_SessionID body) = "" \/ ValidateSessionID (TrimSpace (er_SessionID body)) = None).
Proof.
  split_and!.
  - intros bs. apply validateLabelBackedName_spec, generated_label_name.
  - intros bs bs' H. apply EncodeToString_inj in H; [done|apply eight_bytes_ok..].
  - intros sb H%validateLabelBackedName_spec. by apply validateLabelBackedName_spec, shared_label_name.
  - intros a b. unfold shared_session_id. split; [|by intros ->]. apply str_app_inj_r.
  - intros body t a e H. apply ValidateExecRequest_spec in H. destruct H as (_ & [H|H] & _); [by left|]. right.
    rewrite label_name_trim by done. by apply validateLabelBackedName_spec.
Qed.
