(* ===== verification/RouterAccess.v ===== *)
(** * Who the router acts for

    Every effect of a request on the cluster or on a controller is preceded by
    an access decision in favour of the user the bearer token stands for.  The
    environment records the calls of a request and their answers, latest first,
    next to the state of the authentication cache; [effect_ok] says for each
    call which answers before it permit it. *)
From S2P Require Import Prelude Prog GoStrings ApiTypes Validate Kube CtrlClient SessionReconciler.
From S2P Require Import Auth EnvConfig RouterServer Mcp.

Open Scope boxy_scope.

Abbreviation trace := (list (@io KSig)).

(** A read by name returns the object of that name. *)
Definition honest (e : KEvent) : KAnswer e -> Prop :=
  match e return KAnswer e -> Prop with
  | GetSession ns name => fun x =>
      match x with inl s => om_Name (se_Meta s) = name /\ om_Namespace (se_Meta s) = ns | inr _ => True end
  | _ => fun _ => True
  end.

Definition trace_env : env trace := fun e t x t' => t' = IO e x :: t /\ honest e x.

Definition router_env : env (AuthState * trace) := fun e st x st' =>
  auth_env e st.1 x st'.1 /\ trace_env e st.2 x st'.2.

(** The session a request to a controller is for; none for the operator's. *)
Definition ctrl_target (r : CtrlReq) : option string :=
  match r with
  | CRExec r | CRExecStream r => Some (xr_SandboxID r)
  | CRReadFile r => Some (fr_SandboxID r)
  | CRWriteFile r => Some (fw_SandboxID r)
  | CREditFile r => Some (fe_SandboxID r)
  | CRCreate _ | CRDelete _ => None
  end.

Section access.
Context (cfg : Config) (u : UserInfo).

Definition is_dev : Prop := cf_DevToken cfg <> "" /\ ui_Username u = "dev-token".

Definition question (verb resource name : string) : AccessQuery :=
  {| aq_User := u; aq_Namespace := cf_SandboxNamespace cfg; aq_Resource := resource; aq_Verb := verb; aq_Name := name |}.

(** The API server allowed this user the verb on the object. *)
Definition granted (verb resource name : string) (t : trace) : Prop :=
  is_dev \/ exists st, as_Allowed st = true /\
    IO (SubjectAccessReview (question verb resource name)) (inl st : KAnswer (SubjectAccessReview _)) ∈ t.

Definition listed (s : Session) (t : trace) : Prop :=
  exists ns sel l, IO (ListSessions ns sel) (inl l : KAnswer (ListSessions ns sel)) ∈ t /\ s ∈ l.

Definition got (s : Session) (t : trace) : Prop :=
  exists ns name, IO (GetSession ns name) (inl s : KAnswer (GetSession ns name)) ∈ t.

(** A session this user may use: found, with the right to update it, or read
    back by the request that had the right to create it. *)
Definition usable (s : Session) (t : trace) : Prop :=
  (granted "update" "sessions" (om_Name (se_Meta s)) t /\ listed s t) \/
  (granted "create" "sessions" (om_Name (se_Meta s)) t /\ got s t).

Definition effect_ok (e : KEvent) (t : trace) : Prop :=
  match e with
  | CreateSession s =>
      (exists id sandbox owner, s = new_session cfg id sandbox owner) /\
      granted "create" "sessions" (om_Name (se_Meta s)) t /\ granted "get" "sandboxes" (ss_SandboxID (se_Spec s)) t
  | DeleteSession s =>
      listed s t /\
      (granted "delete" "sessions" (ss_SessionID (se_Spec s)) t \/
       phase_of s = SandboxPhaseTerminated /\ granted "create" "sessions" (ss_SessionID (se_Spec s)) t)
  | StatusPatchSession s s' =>
      s' = set_Phase SandboxPhaseDeleting s /\
      exists id ns l, granted "update" "sandboxes" id t /\
        IO (ListSessions ns [(LabelSandboxID, id)]) (inl l : KAnswer (ListSessions ns _)) ∈ t /\ s ∈ l
  | CreateSandboxCR sb =>
      granted "create" "sandboxes" (om_Name (sb_Meta sb)) t \/
      exists dflt, cf_DefaultSandboxConfig cfg = Some dflt /\ sb = sandbox_of_body cfg dflt /\
        granted "get" "sandboxes" (cb_SandboxID dflt) t
  | PatchSandbox sb sb' =>
      granted "update" "sandboxes" (sp_SandboxID (sb_Spec sb)) t /\ sb_Meta sb' = sb_Meta sb /\
      sp_SandboxID (sb_Spec sb') = sp_SandboxID (sb_Spec sb)
  | DeleteSandboxCR sb => granted "delete" "sandboxes" (sp_SandboxID (sb_Spec sb)) t
  | Http url r =>
      exists s path, usable s t /\ phase_of s = SandboxPhaseRunning /\
        url = controllerURLFromSession cfg s +:+ path /\ ctrl_target r = Some (ss_SessionID (se_Spec s))
  | GoTouch s => usable s t /\ phase_of s = SandboxPhaseRunning
  | UpdateSession _ | StatusUpdateSession _ | UpdateSandbox _ | StatusUpdatePool _ | UpdateStatefulSet _ => False
  | _ => True
  end.

Fixpoint ok_trace (t : trace) : Prop :=
  match t with
  | [] => True
  | IO e _ :: t' => effect_ok e t' /\ ok_trace t'
  end.

(** ** Rules *)

Lemma granted_mono v r n (t t' : trace) : t ⊆ t' -> granted v r n t -> granted v r n t'.
Proof. intros Ht [?|(st & ? & ?)]; [by left|]. right. eauto. Qed.

Lemma listed_mono s (t t' : trace) : t ⊆ t' -> listed s t -> listed s t'.
Proof. intros Ht (ns & sel & l & ? & ?). exists ns, sel, l. eauto. Qed.

Lemma got_mono s (t t' : trace) : t ⊆ t' -> got s t -> got s t'.
Proof. intros Ht (ns & name & ?). exists ns, name. eauto. Qed.

Lemma usable_mono s (t t' : trace) : t ⊆ t' -> usable s t -> usable s t'.
Proof. intros Ht [[? ?]|[? ?]]; [left|right]; eauto using granted_mono, listed_mono, got_mono. Qed.

(** [p] keeps the trace permitted and ends with [F]. *)
Definition keeps {A} (p : prog A) (t : trace) (F : A -> trace -> Prop) : Prop :=
  ok_trace t -> wp trace_env p t (fun a t' => ok_trace t' /\ t ⊆ t' /\ F a t').

Lemma keeps_ret {A} (a : A) (t : trace) (F : A -> trace -> Prop) : F a t -> keeps (Ret a) t F.
Proof. intros HF Ht. done. Qed.

Lemma keeps_call (e : KEvent) (t : trace) (F : KAnswer e -> trace -> Prop) :
  effect_ok e t -> (forall x, honest e x -> F x (IO e x :: t)) -> keeps (call e) t F.
Proof.
  intros He HF Ht. cbn [wp call]. intros x t' [-> Hx]. cbn [wp ok_trace]. split; [done|]. split; [|by apply HF].
  intros y Hy. by right.
Qed.

Lemma keeps_bind {A B} (p : prog A) (f : A -> prog B) (t : trace) (F : A -> trace -> Prop) (G : B -> trace -> Prop) :
  keeps p t F -> (forall a t', t ⊆ t' -> F a t' -> keeps (f a) t' G) -> keeps (bind p f) t G.
Proof.
  intros Hp Hf Ht. eapply wp_bind_spec; [by apply Hp|]. intros a t1 (Hok & Hsub & HF).
  eapply wp_mono; [|by apply Hf]. simpl. intros b t2 (? & ? & ?). split_and!; [done| |done]. by etrans.
Qed.

Lemma keeps_mono {A} (p : prog A) (t : trace) (F G : A -> trace -> Prop) :
  keeps p t F -> (forall a t', F a t' -> G a t') -> keeps p t G.
Proof. intros Hp HFG Ht. eapply wp_mono; [|by apply Hp]. simpl. intros a t' (? & ? & ?). auto. Qed.

(** One call and the rest of the program. *)
Lemma keeps_step {B} (e : KEvent) (k : KAnswer e -> prog B) (t : trace) (G : B -> trace -> Prop) :
  effect_ok e t -> (forall x, honest e x -> t ⊆ (IO e x :: t) -> keeps (k x) (IO e x :: t) G) ->
  keeps (bind (call e) k) t G.
Proof.
  intros He Hk. eapply keeps_bind; [apply (keeps_call e t (fun x t' => t' = @IO KSig e x :: t /\ honest e x)); by auto|].
  intros x t' Hsub [-> Hx]. by apply Hk.
Qed.

(** ** The building blocks *)

Definition anything {A} (_ : A) (_ : trace) : Prop := True.

Lemma authorize_keeps v r n (t : trace) :
  keeps (authorizeResource (reviewer cfg) (Some u) (cf_SandboxNamespace cfg) v r n) t
    (fun e t' => e = None -> granted v r n t').
Proof.
  unfold authorizeResource. destruct (ui_Username u =?s ""); [by apply keeps_ret|].
  destruct (negb (tr_devToken (reviewer cfg) =?s "") && (ui_Username u =?s "dev-token")) eqn:Hd.
  { bool_hyps. apply keeps_ret. intros _. by left. }
  apply keeps_step; [done|]. intros [st|err] _ _; [|by apply keeps_ret].
  destruct (as_Allowed st) eqn:Ha; apply keeps_ret; [|done]. intros _. right. exists st. split; [done|]. by left.
Qed.

Lemma require_keeps v r n k (t : trace) (F : RResponse -> trace -> Prop) :
  (forall resp t', F resp t') ->
  (forall t', t ⊆ t' -> granted v r n t' -> keeps k t' F) ->
  keeps (requireResourceAccess cfg (Some u) v r n k) t F.
Proof.
  intros HF Hk. eapply keeps_bind; [apply authorize_keeps|].
  intros [err|] t' Hsub Hg; [by apply keeps_ret|]. apply Hk; [done|]. by apply Hg.
Qed.

Lemma access_keeps v r n (t : trace) :
  keeps (canResourceAccess cfg (Some u) v r n) t (fun e t' => e = None -> granted v r n t').
Proof. apply authorize_keeps. Qed.

Lemma find_session_spec id items s :
  find_session id items = Some s -> s ∈ items /\ ss_SessionID (se_Spec s) = id.
Proof.
  induction items as [|s' items IH]; simpl; [done|].
  destruct ((ss_SessionID (se_Spec s') =?s id) && not_deleted (se_Meta s')) eqn:H.
  - intros [= ->]. bool_hyps. split; [by left|done].
  - intros Hf. destruct (IH Hf). split; [by right|done].
Qed.

Lemma find_sandbox_id id items sb : find_sandbox id items = Some sb -> sp_SandboxID (sb_Spec sb) = id.
Proof.
  induction items as [|s' items IH]; simpl; [done|].
  destruct ((sp_SandboxID (sb_Spec s') =?s id) && _) eqn:H; [|done]. intros [= ->]. by bool_hyps.
Qed.

Lemma lookupSession_keeps id (t : trace) :
  keeps (lookupSession cfg id) t
    (fun r t' => forall s, r = inl (Some s) -> listed s t' /\ ss_SessionID (se_Spec s) = id).
Proof.
  unfold lookupSession. apply keeps_step; [done|]. intros [items|err] _ _; apply keeps_ret; [|done].
  intros s [= Hs]. apply find_session_spec in Hs as [? ?]. split; [|done].
  eexists _, _, items. split; [by left|done].
Qed.

Lemma lookupSandbox_keeps id (t : trace) :
  keeps (lookupSandbox cfg id) t (fun r t' => forall sb, r = inl (Some sb) -> sp_SandboxID (sb_Spec sb) = id).
Proof.
  unfold lookupSandbox. apply keeps_step; [done|]. intros [items|err] _ _; apply keeps_ret; [|done].
  intros sb [= Hs]. by apply find_sandbox_id in Hs.
Qed.

Lemma count_keeps id (t : trace) : keeps (countSessionsForSandbox cfg id) t anything.
Proof. unfold countSessionsForSandbox. apply keeps_step; [done|]. intros [items|err] _ _; by apply keeps_ret. Qed.

Lemma generate_keeps (t : trace) : keeps generateSessionID t anything.
Proof. unfold generateSessionID. apply keeps_step; [done|]. intros bs _ _. by apply keeps_ret. Qed.

(** What the polling loop returns was read by the name it was given. *)
Definition read_back (name : string) (r : Session + Err) (t : trace) : Prop :=
  forall s, r = inl s -> got s t /\ om_Name (se_Meta s) = name.

Lemma wait_more_keeps d s (t : trace) :
  keeps (wait_more d s) t (fun r _ => match r with inl s' => s' = s | inr (inl _) => False | inr (inr _) => True end).
Proof.
  unfold wait_more. apply keeps_step; [done|]. intros now _ _. destruct (d <? now); [by apply keeps_ret|].
  apply keeps_step; [done|]. intros [err|] _ _; by apply keeps_ret.
Qed.

Lemma wait_step_keeps d s name (t : trace) :
  om_Name (se_Meta s) = name ->
  keeps (wait_step d s) t (fun r t' =>
    match r with inl s' => om_Name (se_Meta s') = name | inr r' => read_back name r' t' end).
Proof.
  intros Hn. unfold wait_step. apply keeps_step; [done|]. intros [s'|err] Hh _.
  - destruct Hh as [Hname _]. destruct (phase_of s' =?s SandboxPhaseRunning).
    + apply keeps_ret. intros s0 [= <-]. split; [|congruence]. eexists _, _. by left.
    + destruct (phase_of s' =?s SandboxPhaseTerminated); [by apply keeps_ret|].
      eapply keeps_mono; [apply wait_more_keeps|]. intros [?|[?|?]] t'; [intros ->; congruence|done|done].
  - eapply keeps_mono; [apply wait_more_keeps|]. intros [?|[?|?]] t'; [by intros ->|done|done].
Qed.

Lemma wait_keeps s name (t : trace) : om_Name (se_Meta s) = name -> keeps (wait_for_session cfg s) t (read_back name).
Proof.
  intros Hn. unfold wait_for_session, wait_loop.
  eapply (keeps_bind _ _ _ (fun r t' => forall r', r = Some r' -> read_back name r' t')).
  2: { intros [r|] t' _ H; apply keeps_ret; [by apply H|done]. }
  apply keeps_step; [done|]. intros now _ _. generalize (IO Now now :: t). clear t.
  generalize (wait_rounds cfg). intros n. revert s Hn. induction n as [|n IH]; intros s Hn t; cbn [loop]; [by apply keeps_ret|].
  eapply keeps_bind; [by apply wait_step_keeps|]. intros [s'|r] t' _ H; [by apply IH|].
  apply keeps_ret. by intros r' [= <-].
Qed.

Lemma createAndWait_keeps id sandboxID owner (t : trace) :
  granted "create" "sessions" id t -> granted "get" "sandboxes" sandboxID t ->
  keeps (createAndWaitForSession cfg id sandboxID owner) t (read_back id).
Proof.
  intros Hc Hg. unfold createAndWaitForSession. apply keeps_step; [split; [by eauto|done]|].
  intros [err|] _ _; [destruct (IsAlreadyExists err); [|by apply keeps_ret]|]; by apply wait_keeps.
Qed.

(** ** The handlers *)

(** The end of a program whose result does not matter. *)
Lemma keeps_done {A} (a : A) (t : trace) : keeps (Ret a) t anything.
Proof. by apply keeps_ret. Qed.

Lemma path_id_keeps raw f v k (t : trace) :
  (forall id, v id = None -> keeps (k id) t anything) -> keeps (path_id raw f v k) t anything.
Proof.
  intros Hk. unfold path_id. cbv zeta. destruct (_ =?s ""); [apply keeps_done|].
  destruct (v _) eqn:Hv; [apply keeps_done|]. by apply Hk.
Qed.

Lemma decode_keeps {A} (d : Decoded A) k (t : trace) :
  (forall a, keeps (k a) t anything) -> keeps (decodeBody d k) t anything.
Proof. intros Hk. destruct d; [apply Hk|apply keeps_done..]. Qed.

Lemma require_safe v r n k (t : trace) :
  (forall t', t ⊆ t' -> granted v r n t' -> keeps k t' anything) ->
  keeps (requireResourceAccess cfg (Some u) v r n k) t anything.
Proof. intros Hk. by apply require_keeps. Qed.

Lemma found_sandbox_keeps id m c k (t : trace) :
  (forall sb t', t ⊆ t' -> sp_SandboxID (sb_Spec sb) = id -> keeps (k sb) t' anything) ->
  keeps (found_sandbox cfg id m c k) t anything.
Proof.
  intros Hk. eapply keeps_bind; [apply lookupSandbox_keeps|].
  intros [[sb|]|err] t' Hsub H; [|apply keeps_done..]. by apply Hk, H.
Qed.

Lemma found_session_keeps id k (t : trace) :
  (forall s t', t ⊆ t' -> listed s t' -> ss_SessionID (se_Spec s) = id -> keeps (k s) t' anything) ->
  keeps (found_session cfg id k) t anything.
Proof.
  intros Hk. eapply keeps_bind; [apply lookupSession_keeps|].
  intros [[s|]|err] t' Hsub H; [|apply keeps_done..]. destruct (H s eq_refl). by apply Hk.
Qed.

Lemma createSandbox_keeps body (t : trace) :
  effect_ok (CreateSandboxCR (sandbox_of_body cfg body)) t ->
  keeps (createSandboxFromBody cfg body) t anything.
Proof.
  intros He. unfold createSandboxFromBody. apply keeps_step; [done|]. intros [err|] _ _; apply keeps_done.
Qed.

Lemma count_then {A} id (k : Z -> prog A) (t : trace) :
  (forall n t', t ⊆ t' -> keeps (k n) t' anything) -> keeps (bind (countSessionsForSandbox cfg id) k) t anything.
Proof. intros Hk. eapply keeps_bind; [apply count_keeps|]. intros n t' Hsub _. by apply Hk. Qed.

Lemma sandbox_create_keeps d (t : trace) : keeps (handleSandboxCreate cfg (Some u) d) t anything.
Proof.
  apply decode_keeps. intros body. destruct (ValidateSandboxCreate _ _); [apply keeps_done|].
  apply require_safe. intros t' _ Hg. eapply keeps_bind; [apply createSandbox_keeps; by left|].
  intros [resp|err] t'' _ _; [apply keeps_done|]. destruct (IsAlreadyExists err); apply keeps_done.
Qed.

Lemma sandbox_get_keeps raw (t : trace) : keeps (handleSandboxGet cfg (Some u) raw) t anything.
Proof.
  apply path_id_keeps. intros id _. apply require_safe. intros t1 _ _. apply found_sandbox_keeps.
  intros sb t2 _ _. apply count_then. intros n t3 _. apply keeps_done.
Qed.

Lemma sandbox_delete_keeps raw (t : trace) : keeps (handleSandboxDelete cfg (Some u) raw) t anything.
Proof.
  apply path_id_keeps. intros id _. apply require_safe. intros t1 _ Hg. apply found_sandbox_keeps.
  intros sb t2 Hsub Hid. apply keeps_step.
  - cbn [effect_ok]. rewrite Hid. by eapply granted_mono.
  - intros [err|] _ _; apply keeps_done.
Qed.

Lemma sandbox_update_keeps raw d (t : trace) : keeps (handleSandboxUpdate cfg (Some u) raw d) t anything.
Proof.
  apply path_id_keeps. intros id _. apply decode_keeps. intros body. cbv zeta.
  destruct (ValidateSandboxCreate _ _); [apply keeps_done|].
  apply require_safe. intros t1 _ Hg. apply found_sandbox_keeps. intros sb t2 Hsub Hid. apply keeps_step.
  - cbn [effect_ok]. rewrite Hid. split_and!; [by eapply granted_mono|done|done].
  - intros [stored|err] _ _; [|apply keeps_done]. apply count_then. intros n t3 _. apply keeps_done.
Qed.

Lemma for_each_keeps {A B} (P : trace -> Prop) (l : list A) (body : B -> A -> prog B) (b : B) (t : trace) :
  (forall t t', t ⊆ t' -> P t -> P t') -> P t ->
  (forall a b t, a ∈ l -> P t -> keeps (body b a) t anything) -> keeps (for_each l body b) t anything.
Proof.
  intros HP Ht Hb. revert b t Ht. induction l as [|a l IH]; intros b t Ht; cbn [for_each]; [apply keeps_done|].
  eapply keeps_bind; [apply Hb; [by left|done]|]. intros b' t' Hsub _.
  apply IH; [intros; apply Hb; [by right|done]|by eapply HP].
Qed.

Lemma sandbox_list_keeps (t : trace) : keeps (handleSandboxList cfg (Some u)) t anything.
Proof.
  apply require_safe. intros t1 _ _. apply keeps_step; [done|]. intros [items|err] _ _; [|apply keeps_done].
  eapply keeps_bind; [|intros l t2 _ _; apply keeps_done].
  apply (for_each_keeps (fun _ => True)); [done|done|]. intros sb acc t2 _ _. unfold list_config.
  destruct (not_deleted _); [|apply keeps_done]. apply count_then. intros n t3 _. apply keeps_done.
Qed.

Lemma sandbox_evict_keeps raw (t : trace) : keeps (handleSandboxEvict cfg (Some u) raw) t anything.
Proof.
  apply path_id_keeps. intros id _. apply require_safe. intros t1 _ Hg. apply keeps_step; [done|].
  intros [items|err] _ Hsub; [|apply keeps_done].
  eapply keeps_bind; [|intros n t2 _ _; apply keeps_done].
  apply (for_each_keeps (fun t => granted "update" "sandboxes" id t /\
    @IO KSig (ListSessions (cf_SandboxNamespace cfg) [(LabelSandboxID, id)]) (inl items) ∈ t)).
  - intros t2 t3 H [? ?]. split; [by eapply granted_mono|by apply H].
  - split; [by eapply granted_mono|by left].
  - intros s n t2 Hs [Hg2 Hin]. unfold evict_session. destruct (_ || _); [apply keeps_done|].
    apply keeps_step; [|intros [s'|err] _ _; apply keeps_done].
    cbn [effect_ok]. split; [done|]. exists id, (cf_SandboxNamespace cfg), items. done.
Qed.

Lemma sandbox_sessions_keeps raw (t : trace) : keeps (handleSandboxSessions cfg (Some u) raw) t anything.
Proof.
  apply path_id_keeps. intros id _. apply require_safe. intros t1 _ _. apply keeps_step; [done|].
  intros [items|err] _ _; apply keeps_done.
Qed.

Lemma session_list_keeps sb owner phase (t : trace) :
  keeps (handleSessionList cfg (Some u) sb owner phase) t anything.
Proof.
  apply require_safe. intros t1 _ _. destruct (list_labels sb owner); [|apply keeps_done].
  apply keeps_step; [done|]. intros [items|err] _ _; apply keeps_done.
Qed.

Lemma session_get_keeps raw (t : trace) : keeps (handleSessionGet cfg (Some u) raw) t anything.
Proof.
  apply path_id_keeps. intros id _. apply require_safe. intros t1 _ _. apply found_session_keeps.
  intros s t2 _ _ _. apply keeps_done.
Qed.

Lemma session_delete_keeps raw (t : trace) : keeps (handleSessionDelete cfg (Some u) raw) t anything.
Proof.
  apply path_id_keeps. intros id _. apply require_safe. intros t1 _ Hg. apply found_session_keeps.
  intros s t2 Hsub Hl Hid. apply keeps_step; [|intros [err|] _ _; apply keeps_done].
  cbn [effect_ok]. split; [done|]. left. rewrite Hid. by eapply granted_mono.
Qed.

(** A session just created and read back. *)
Lemma created_usable id r s (t : trace) :
  granted "create" "sessions" id t -> read_back id r t -> r = inl s -> usable s t.
Proof. intros Hg Hr Hs. destruct (Hr s Hs) as [? <-]. by right. Qed.

Lemma session_create_keeps d (t : trace) : keeps (handleSessionCreate cfg (Some u) d) t anything.
Proof.
  apply decode_keeps. intros body. destruct (ValidateSessionCreate _); [apply keeps_done|]. cbv zeta.
  eapply (keeps_bind _ _ _ anything).
  { destruct (_ =?s ""); [apply generate_keeps|apply keeps_done]. }
  intros id t1 _ _. apply require_safe. intros t2 _ Hg. apply require_safe. intros t3 H3 Hc.
  apply found_sandbox_keeps. intros sb t4 H4 _.
  eapply keeps_bind; [apply createAndWait_keeps; eauto using granted_mono|].
  intros [s|err] t5 _ _; apply keeps_done.
Qed.

Lemma start_session_keeps body id old k (t : trace) :
  (forall s, old = Some s -> listed s t /\ ss_SessionID (se_Spec s) = id /\ phase_of s = SandboxPhaseTerminated) ->
  (forall s c t', t ⊆ t' -> usable s t' -> keeps (k s c) t' anything) ->
  keeps (start_session cfg (Some u) body id old k) t anything.
Proof.
  intros Hold Hk. apply require_safe. intros t1 H1 Hg. apply require_safe. intros t2 H2 Hc.
  eapply (keeps_bind _ _ _ anything).
  { destruct old as [s|]; [|apply keeps_done]. destruct (Hold s eq_refl) as (Hl & Hid & Hp). apply keeps_call; [|done].
    cbn [effect_ok]. split; [eapply listed_mono, Hl; by etrans|]. right. by rewrite Hid. }
  intros [err|] t3 H3 _; [apply keeps_done|]. apply found_sandbox_keeps. intros sb t4 H4 _.
  eapply keeps_bind; [apply createAndWait_keeps; eauto 6 using granted_mono|].
  intros [s|err] t5 H5 Hr; [|apply keeps_done]. apply Hk.
  - do 4 (etrans; [eassumption|]). done.
  - eapply created_usable; [|exact Hr|done]. eauto 6 using granted_mono.
Qed.

Lemma exec_session_keeps d k (t : trace) :
  (forall b id s c t', usable s t' -> phase_of s = SandboxPhaseRunning -> keeps (k b id s c) t' anything) ->
  keeps (exec_session cfg (Some u) d k) t anything.
Proof.
  intros Hk. apply decode_keeps. intros body. destruct (ValidateExecRequest _ _ _ _); [apply keeps_done|].
  eapply (keeps_bind _ _ _ anything).
  { unfold choose_session_id. destruct (_ =?s ""); [|destruct (ValidateSessionID _); apply keeps_done].
    eapply keeps_bind; [apply generate_keeps|]. intros id t' _ _. apply keeps_done. }
  intros [id|] t1 _ _; [|apply keeps_done]. cbv zeta.
  assert (forall s c t', usable s t' -> keeps (if phase_of s =?s SandboxPhaseRunning then k body id s c
    else Ret (jsonErr 503 (text "session not ready") "session_not_ready")) t' anything) as Hr.
  { intros s c t' Hs. destruct (phase_of s =?s SandboxPhaseRunning) eqn:Hp; bool_hyps; [by apply Hk|apply keeps_done]. }
  eapply keeps_bind; [apply lookupSession_keeps|]. intros [[s|]|err] t2 _ Hf; [| |apply keeps_done].
  - destruct (Hf s eq_refl) as [Hl Hid]. destruct (phase_of s =?s SandboxPhaseTerminated) eqn:Hp; bool_hyps.
    + apply start_session_keeps; [|intros; by apply Hr]. by intros s' [= <-].
    + destruct (negb _); [apply keeps_done|]. apply require_safe. intros t3 H3 Hg. apply Hr. left.
      split; [done|]. by eapply listed_mono.
  - apply start_session_keeps; [done|]. intros; by apply Hr.
Qed.

Lemma send_keeps m base path r s (t : trace) :
  usable s t -> phase_of s = SandboxPhaseRunning -> base = controllerURLFromSession cfg s ->
  ctrl_target r = Some (ss_SessionID (se_Spec s)) ->
  keeps (send m (base +:+ path) r) t anything.
Proof.
  intros Hs Hp -> Hr. unfold send. apply keeps_step.
  - cbn [effect_ok]. exists s, path. done.
  - intros [msg|status e out] _ _; [apply keeps_done|]. destruct (_ <=? _); apply keeps_done.
Qed.

(** A call of a controller followed by the note of the use. *)
Lemma send_then {B} m path r s (k : CtrlOut r + Err -> prog B) (t : trace) :
  usable s t -> phase_of s = SandboxPhaseRunning -> ctrl_target r = Some (ss_SessionID (se_Spec s)) ->
  (forall x t', usable s t' -> keeps (k x) t' anything) ->
  keeps (bind (send m (controllerURLFromSession cfg s +:+ path) r) k) t anything.
Proof.
  intros Hs Hp Hr Hk. eapply keeps_bind; [by eapply send_keeps|]. intros x t' Hsub _. apply Hk. by eapply usable_mono.
Qed.

Lemma touch_then {B} s (k : prog B) (t : trace) :
  usable s t -> phase_of s = SandboxPhaseRunning -> (forall t', keeps k t' anything) ->
  keeps (call (GoTouch s) ;;; k) t anything.
Proof. intros Hs Hp Hk. apply keeps_step; [done|]. intros x _ _. apply Hk. Qed.

Lemma bind_assoc_keeps {A B C} (p : prog A) (f : A -> prog B) (g : B -> prog C) (t : trace) (F : C -> trace -> Prop) :
  keeps (bind p (fun a => bind (f a) g)) t F -> keeps (bind (bind p f) g) t F.
Proof. intros H Ht. rewrite !wp_bind. apply wp_bind in H; [|done]. eapply wp_mono; [|exact H]. intros a t'. apply wp_bind. Qed.

Lemma in_slot_keeps body (t : trace) :
  (forall t', keeps body t' anything) -> keeps (in_slot body) t anything.
Proof.
  intros Hb. unfold in_slot. apply keeps_step; [done|]. intros [] _ _; [|apply keeps_done].
  eapply keeps_bind; [apply Hb|]. intros r t' _ _. apply keeps_step; [done|]. intros x _ _. apply keeps_done.
Qed.

Lemma exec_keeps d (t : trace) : keeps (handleSessionExec cfg (Some u) d) t anything.
Proof.
  apply in_slot_keeps. intros t0. apply exec_session_keeps. intros b id s c t' Hs Hp. unfold ClientExec.
  apply bind_assoc_keeps, send_then; [done|done|done|]. intros x t2 Hs2. cbn [bind].
  destruct (flatten x); [|apply keeps_done]. apply touch_then; [done|done|]. intros t3. apply keeps_done.
Qed.

Lemma exec_stream_keeps d (t : trace) : keeps (handleSessionExecStream cfg (Some u) d) t anything.
Proof.
  apply in_slot_keeps. intros t0. apply exec_session_keeps. intros b id s c t' Hs Hp. unfold ClientExecStream.
  apply bind_assoc_keeps, send_then; [done|done|done|]. intros x t2 Hs2.
  eapply (keeps_bind _ _ _ (fun _ t' => usable s t')).
  { destruct x as [[lines scanErr]|err]; [|by apply keeps_ret]. destruct (stream_lines _ _ _) as [evs [res|err]];
      [destruct scanErr|]; by apply keeps_ret. }
  intros [evs [res|err]] t3 _ Hs3; cbn [fst snd]; cbv zeta; [|apply keeps_done].
  apply touch_then; [done|done|]. intros t4. apply keeps_done.
Qed.

(** ** The tools *)

Lemma ensure_keeps id sandboxID owner (t : trace) : keeps (ensureSession cfg (Some u) id sandboxID owner) t anything.
Proof.
  eapply keeps_bind; [apply lookupSandbox_keeps|]. intros [sb|err] t1 _ _; [|apply keeps_done].
  eapply keeps_bind; [apply access_keeps|]. intros [err|] t2 _ Hg; [apply keeps_done|].
  specialize (Hg eq_refl). destruct sb as [sb|]; [|apply keeps_done].
  eapply keeps_bind; [apply lookupSession_keeps|]. intros [sess|err] t3 H3 Hl; [|apply keeps_done].
  destruct (match sess with Some _ => _ | None => _ end) eqn:Hterm; [apply keeps_done|].
  eapply keeps_bind; [apply access_keeps|]. intros [err|] t4 H4 Hc; [apply keeps_done|]. specialize (Hc eq_refl).
  eapply (keeps_bind _ _ _ anything).
  { destruct sess as [s|]; [|apply keeps_done]. bool_hyps. destruct (Hl s eq_refl) as [Hls Hid].
    apply keeps_call; [|done]. cbn [effect_ok]. split; [by eapply listed_mono|]. right. by rewrite Hid. }
  intros [err|] t5 H5 _; [apply keeps_done|].
  eapply keeps_bind; [apply createAndWait_keeps; eauto 6 using granted_mono|].
  intros [s|err] t6 _ _; apply keeps_done.
Qed.

Lemma resolve_sandbox_keeps sandboxID (t : trace) : keeps (resolveSandboxSession cfg (Some u) sandboxID) t anything.
Proof.
  unfold resolveSandboxSession. cbv zeta. eapply keeps_bind; [apply ensure_keeps|].
  intros [err|] t1 _ _; apply keeps_done.
Qed.

Lemma resolve_default_keeps (t : trace) : keeps (resolveDefaultSession cfg (Some u) "") t anything.
Proof.
  unfold resolveDefaultSession. destruct (cf_DefaultSandboxEnabled cfg); [|apply keeps_done].
  destruct (cf_DefaultSandboxConfig cfg) as [dflt|] eqn:Hd; [|apply keeps_done]. cbv zeta. cbn [String.eqb].
  eapply keeps_bind; [apply lookupSandbox_keeps|]. intros [sb|err] t1 _ _; [|apply keeps_done].
  eapply keeps_bind; [apply access_keeps|]. intros [err|] t2 _ Hg; [apply keeps_done|]. specialize (Hg eq_refl).
  destruct sb as [sb|]; [apply resolve_sandbox_keeps|].
  eapply keeps_bind; [apply createSandbox_keeps; right; by exists dflt|].
  intros [resp|err] t3 _ _; [apply resolve_sandbox_keeps|apply keeps_done].
Qed.

Lemma resolved_keeps id (t : trace) :
  keeps (resolved_session cfg id) t (fun r t' => forall s, r = inl s -> listed s t').
Proof.
  eapply keeps_bind; [apply lookupSession_keeps|]. intros [[s|]|err] t1 _ Hl; apply keeps_ret; try done.
  intros s' [= <-]. by apply (Hl s eq_refl).
Qed.

Lemma resolve_keeps rawSandbox rawSession (t : trace) :
  keeps (resolveToolSession cfg (Some u) rawSandbox rawSession) t
    (fun r t' => forall s, r = inl s -> usable s t' /\ phase_of s = SandboxPhaseRunning).
Proof.
  unfold resolveToolSession. cbv zeta. destruct (if TrimSpace rawSandbox =?s "" then _ else _); [by apply keeps_ret|].
  eapply (keeps_bind _ _ _ (fun r t' => forall s, r = inl s -> listed s t')).
  - destruct (TrimSpace rawSession =?s "").
    + eapply (keeps_bind _ _ _ anything).
      { destruct (TrimSpace rawSandbox =?s "") eqn:He; bool_hyps; [rewrite He; apply resolve_default_keeps|].
        apply resolve_sandbox_keeps. }
      intros [id|err] t1 _ _; [apply resolved_keeps|by apply keeps_ret].
    + eapply keeps_bind; [apply lookupSession_keeps|]. intros [[s|]|err] t1 _ Hl; [| |by apply keeps_ret].
      * destruct (_ && _); apply keeps_ret; [done|]. intros s' [= <-]. by apply (Hl s eq_refl).
      * destruct (TrimSpace rawSandbox =?s ""); [by apply keeps_ret|].
        destruct (ValidateSessionID _); [by apply keeps_ret|].
        eapply keeps_bind; [apply ensure_keeps|]. intros [err|] t2 _ _; [by apply keeps_ret|apply resolved_keeps].
  - intros [s|tl] t1 _ Hl; [|by apply keeps_ret]. eapply keeps_bind; [apply access_keeps|].
    intros [err|] t2 H2 Hg; [by apply keeps_ret|].
    destruct (phase_of s =?s SandboxPhaseRunning) eqn:Hp; bool_hyps; apply keeps_ret; [|done].
    intros s' [= <-]. split; [|done]. left. split; [by apply Hg|]. eapply listed_mono; [done|]. by apply Hl.
Qed.

Lemma tool_keeps sb id act f (t : trace) :
  (forall s t', usable s t' -> phase_of s = SandboxPhaseRunning -> keeps (act s) t' anything) ->
  keeps (with_tool_session cfg (Some u) sb id act f) t anything.
Proof.
  intros Ha. eapply keeps_bind; [apply resolve_keeps|]. intros [s|tl] t1 _ Hs; [|apply keeps_done].
  destruct (Hs s eq_refl) as [Hu Hp]. apply keeps_step; [done|]. intros [] _ H2; [|apply keeps_done].
  eapply (keeps_bind _ _ _ (fun _ t' => usable s t')).
  { intros Ht. eapply wp_mono; [|apply (Ha s); [by eapply usable_mono|done|done]].
    simpl. intros a t' (? & H & _). split_and!; [done..|]. eapply usable_mono; [|exact Hu]. by etrans. }
  intros a t3 _ Hu3. eapply (keeps_bind _ _ _ anything).
  { destruct a as [r|err]; [|apply keeps_done]. apply touch_then; [done|done|]. intros t4. apply keeps_done. }
  intros r t4 _ _. apply keeps_step; [done|]. intros x _ _. apply keeps_done.
Qed.

Lemma call_tool_keeps sb id c (t : trace) : keeps (call_tool cfg (Some u) sb id c) t anything.
Proof.
  destruct c as [progress p|p|p|p]; cbn [call_tool];
    unfold mcpBashTool, mcpReadFileTool, mcpWriteFileTool, mcpEditFileTool.
  - destruct (_ =?s ""); [apply keeps_done|]. apply tool_keeps. intros s t1 Hs Hp. cbv zeta. destruct progress.
    + unfold ClientExecStream. apply bind_assoc_keeps, send_then; [done|done|done|]. intros x t2 _.
      eapply (keeps_bind _ _ _ anything).
      { destruct x as [[lines scanErr]|err]; [|by apply keeps_ret]. destruct (stream_lines _ _ _) as [evs [res|err]];
          [destruct scanErr|]; by apply keeps_ret. }
      intros [evs [res|err]] t3 _ _; apply keeps_done.
    + unfold ClientExec. apply bind_assoc_keeps, send_then; [done|done|done|]. intros x t2 _. cbn [bind].
      destruct (flatten x); apply keeps_done.
  - destruct (ValidateFilePath _); [apply keeps_done|]. apply tool_keeps. intros s t1 Hs Hp.
    unfold ClientReadFile. apply bind_assoc_keeps, send_then; [done|done|done|]. intros x t2 _. cbn [bind].
    destruct (flatten x); apply keeps_done.
  - destruct (ValidateFilePath _), (ValidateFileEncoding (wp_Encoding p)); try apply keeps_done.
    apply tool_keeps. intros s t1 Hs Hp.
    unfold ClientWriteFile. apply bind_assoc_keeps, send_then; [done|done|done|]. intros x t2 _. cbn [bind].
    destruct (flatten x); apply keeps_done.
  - destruct (ValidateFilePath _); [apply keeps_done|]. destruct (_ =?s ""); [apply keeps_done|].
    apply tool_keeps. intros s t1 Hs Hp.
    unfold ClientEditFile. apply bind_assoc_keeps, send_then; [done|done|done|]. intros x t2 _. cbn [bind].
    destruct (flatten x); apply keeps_done.
Qed.

Lemma route_keeps rt (t : trace) : keeps (route_handler cfg rt (Some u)) t anything.
Proof.
  assert (forall p : prog RResponse, (forall t, keeps p t anything) ->
    keeps (r <- p ;; Ret (AHttp r)) t anything) as Hh.
  { intros p Hp. eapply keeps_bind; [apply Hp|]. intros r t' _ _. apply keeps_done. }
  destruct rt as [|d|d|d|sb o ph|id|id|d| |id|id d|id|id|id|sb id c]; cbn [route_handler]; cbv zeta.
  - apply keeps_done.
  - apply Hh. apply exec_keeps.
  - apply Hh. apply exec_stream_keeps.
  - apply Hh. apply session_create_keeps.
  - apply Hh. apply session_list_keeps.
  - apply Hh. apply session_get_keeps.
  - apply Hh. apply session_delete_keeps.
  - apply Hh. apply sandbox_create_keeps.
  - apply Hh. apply sandbox_list_keeps.
  - apply Hh. apply sandbox_get_keeps.
  - apply Hh. apply sandbox_update_keeps.
  - apply Hh. apply sandbox_delete_keeps.
  - apply Hh. apply sandbox_evict_keeps.
  - apply Hh. apply sandbox_sessions_keeps.
  - eapply keeps_bind; [apply call_tool_keeps|]. intros r t' _ _. apply keeps_done.
Qed.

End access.

(** ** Properties *)

(** The calls that change something or reach a controller. *)
Definition is_effect (e : KEvent) : bool :=
  match e with
  | CreateSession _ | UpdateSession _ | StatusUpdateSession _ | StatusPatchSession _ _ | DeleteSession _
  | CreateSandboxCR _ | UpdateSandbox _ | PatchSandbox _ _ | DeleteSandboxCR _
  | StatusUpdatePool _ | UpdateStatefulSet _ | Http _ _ | GoTouch _ => true
  | _ => false
  end.

Definition no_effects (t : trace) : Prop := Forall (fun i => match i with IO e _ => is_effect e = false end) t.

Lemma no_effects_ok cfg u (t : trace) : no_effects t -> ok_trace cfg u t.
Proof. induction 1 as [|[e x] t He Ht IH]; [done|]. split; [|done]. by destruct e. Qed.

Lemma no_effects_only {A} (p : prog A) (t : trace) :
  only (fun e => is_effect e = false) p -> no_effects t -> wp trace_env p t (fun _ t' => no_effects t').
Proof.
  revert t. induction p as [a|e k IH]; intros t Hp Ht; simpl in *; [done|]. destruct Hp as [He Hk].
  intros x t' [-> _]. apply IH; [done|]. by constructor.
Qed.

Lemma authenticate_no_effects tr tok : only (fun e => is_effect e = false) (authenticate tr tok).
Proof.
  unfold authenticate, review_token.
  repeat first [done | progress cbn [only bind call is_effect]
    | match goal with
      | |- _ /\ _ => split
      | |- forall _, _ => intros ?
      | |- only _ (match ?x with _ => _ end) => destruct x
      end].
Qed.

(** What was done, in [st], was done for the user [u] that presented the header:
    the API server vouched for [u] at a time during the request, and [u] was
    granted every operation before it was done. *)
Definition authorized (cfg : Config) (authorization : string) (s : AuthState) (st : AuthState * trace) : Prop :=
  exists tok u s1, extractBearer authorization = Some tok /\ onward s s1 /\ onward s1 st.1 /\ vouched (reviewer cfg) s tok u s1 /\ ok_trace cfg u st.2.

Definition unauthorized : Answer := AHttp (jsonErr 401 (text "unauthorized") "").

Lemma router_env_onward (e : KEvent) (st : AuthState * trace) (x : KAnswer e) (st' : AuthState * trace) :
  router_env e st x st' -> onward st.1 st'.1.
Proof. intros [H _]. by eapply auth_env_onward. Qed.

Lemma wp_onward {A} (p : prog A) (s : AuthState) (st : AuthState * trace) :
  onward s st.1 -> wp router_env p st (fun _ st' => onward s st'.1).
Proof.
  intros Hs. apply (wp_invariant router_env (fun st => onward s st.1)); [|done].
  intros e st0 x st1 H0 H1. etrans; [exact H0|by eapply router_env_onward].
Qed.

Lemma withAuth_authorized (cfg : Config) (authorization : string) (k : option UserInfo -> prog Answer) (s : AuthState) (t : trace) :
  (forall u t, ok_trace cfg u t -> wp trace_env (k (Some u)) t (fun _ t' => ok_trace cfg u t')) ->
  cache_ok s -> au_lock s = Free -> no_effects t ->
  wp router_env (withAuth cfg unauthorized authorization k) (s, t) (fun a st =>
    (no_effects st.2 /\ a = unauthorized) \/ authorized cfg authorization s st).
Proof.
  intros Hk Hok Hl Ht. unfold withAuth. destruct (extractBearer authorization) as [tok|] eqn:Hb; [|by left].
  eapply wp_bind_spec.
  - apply wp_conj; [|apply wp_conj; [exact (wp_onward _ s (s, t) (reflexivity s))|]].
    + apply (wp_project router_env auth_env fst _ (s, t)); [by intros e st x st' []|].
      by apply (authenticate_vouched (reviewer cfg) tok s).
    + apply (wp_project router_env trace_env snd _ (s, t) (fun _ t => no_effects t)); [by intros e st x st' []|].
      by apply no_effects_only; [apply authenticate_no_effects|].
  - intros [u|err] [s1 t1] [(_ & _ & Hv) [Hs1 Hq]]; [|by left].
    eapply wp_mono; [|apply wp_conj; [exact (wp_onward (k (Some u)) s1 (s1, t1) (reflexivity s1))|
      apply (wp_project router_env trace_env snd _ (s1, t1) (fun _ t => ok_trace cfg u t)); [by intros e st x st' []|]]].
    + intros a st [Hs2 Hok2]. right. by exists tok, u, s1.
    + by apply Hk, no_effects_ok.
Qed.

(** What a request does is done for a user the API server vouched for, as far as
    that user was granted access before. *)
Lemma handler_authorized (cfg : Config) (authorization : string) (rt : Route) (s : AuthState) (t : trace) :
  rt <> RtHealth -> cache_ok s -> au_lock s = Free -> no_effects t ->
  wp router_env (Handler cfg authorization rt) (s, t) (fun a st =>
    (no_effects st.2 /\ a = unauthorized) \/ authorized cfg authorization s st).
Proof.
  intros Hrt Hok Hl Ht.
  assert (Handler cfg authorization rt = withAuth cfg unauthorized authorization (route_handler cfg rt)) as ->
    by by destruct rt.
  apply withAuth_authorized; [|done..]. intros u t0 Ht0.
  eapply wp_mono; [|by apply route_keeps]. by intros a t' (? & _).
Qed.

Definition sample_router : Config :=
  {| cf_ListenAddr := ":8080"; cf_DevToken := ""; cf_AuthCacheTTL := 30 * Second; cf_SandboxNamespace := "boxy";
     cf_MaxBodyBytes := 0; cf_MaxOutputBytes := 0; cf_MaxTimeoutSec := 3600; cf_MaxArgs := 256; cf_MaxEnvKeys := 64;
     cf_MaxConcurrency := 100; cf_MaxSandboxTTLSec := 86400; cf_MTLSDisabled := true; cf_TLSCAPath := "";
     cf_TLSClientCertPath := ""; cf_TLSClientKeyPath := ""; cf_ControllerToken := ""; cf_ControllerPort := 8080;
     cf_DefaultSandboxEnabled := false; cf_DefaultSandboxConfig := None; cf_CreateTimeout := 30 * Second |}.
