(* ===== verification/RouterWire.v ===== *)
(** * The router's responses as text

    What [writeJSON], [jsonErr] and the stream of [internal/router/server.go] send
    for the answer of a handler: the status, the headers they set, and the body.
    The theorem reads the text back: whoever decodes it with the types of
    [internal/api/types.go] gets the value the handler gave. *)
From S2P Require Import Prelude Prog GoStrings GoMux GoJson GoCodec ApiTypes ApiCodec Errors Kube CtrlClient Wire.
From S2P Require Import SessionReconciler RouterServer.
Open Scope boxy_scope.

Record HttpReply := { hr_Status : Z; hr_Headers : list (string * string); hr_Body : string }.

Section render.
Context {U : Unicode}.

(** [writeEvent] of the router, and the last line of its stream. *)
Definition router_event_line (e : string * string) : string := EncodeText (C := Router.routerEvent_codec) e.

Definition router_last_line (last : StreamEnd) : string :=
  match last with
  | EndExit code timedOut => EncodeText (C := Router.routerExit_codec) ("exit", (code, timedOut))
  | EndError msg => router_event_line ("error", msg_text msg)
  end.

Definition render_body (b : RBody) : string :=
  match b with
  | RNone => ""
  | RText s => s
  | RError e => EncodeText {| et_Error := msg_text (eb_Error e); et_Code := eb_Code e |}
  | RExec r => EncodeText r
  | RStream events last => str_concat (map router_event_line events) +:+ router_last_line last
  | RSession s => EncodeText s
  | RSessions l => EncodeText (C := SessionListResponse_codec) l
  | RConfig c => EncodeText c
  | RConfigs l => EncodeText (C := SandboxConfigListResponse_codec) l
  | REvict e => EncodeText e
  end.

Definition content_headers (b : RBody) : list (string * string) :=
  match b with
  | RNone | RText _ => []
  | RStream _ _ => [("Content-Type", "application/x-ndjson"); ("X-Content-Type-Options", "nosniff")]
  | _ => [("Content-Type", "application/json")]
  end.

Definition session_headers (s : option (string * bool)) : list (string * string) :=
  match s with
  | None => []
  | Some (id, created) =>
      ("X-Boxy-Session-Id", id) :: if created : bool then [("X-Boxy-Session-Created", "true")] else []
  end.

Definition render (r : RResponse) : HttpReply :=
  {| hr_Status := rs_code r; hr_Headers := content_headers (rs_body r) ++ session_headers (rs_session r);
     hr_Body := render_body (rs_body r) |}.

(** ** Reading it back *)

(** Integers of the width of their fields. *)
Definition reply_fits (b : RBody) : Prop :=
  match b with
  | RExec r => fits r
  | RSession s => fits s
  | RSessions l => fits (C := SessionListResponse_codec) l
  | RConfig c => fits c
  | RConfigs l => fits (C := SandboxConfigListResponse_codec) l
  | REvict e => fits e
  | RStream _ (EndExit code _) => - 2 ^ 63 <= code <= 2 ^ 63 - 1
  | _ => True
  end.

(** The lines of a stream, each by the event it decodes to. *)
Definition read_events (s : string) : list (option StreamEvt) :=
  map (UnmarshalText (C := Client.evt_codec)) (List.filter (fun l => negb (l =?s "")) (Split s NL)).

Definition event_of (e : string * string) : StreamEvt :=
  {| se_Type := ToValidUTF8 e.1; se_Data := ToValidUTF8 e.2; se_Code := 0; se_TimedOut := false |}.

Definition last_of (last : StreamEnd) : StreamEvt :=
  match last with
  | EndExit code timedOut => {| se_Type := "exit"; se_Data := ""; se_Code := code; se_TimedOut := timedOut |}
  | EndError msg => event_of ("error", msg_text msg)
  end.

(** What a reader of the body gets. *)
Definition readable (b : RBody) (s : string) : Prop :=
  match b with
  | RNone => s = ""
  | RText t => s = t
  | RError e => DecodeText s = Some {| et_Error := ToValidUTF8 (msg_text (eb_Error e)); et_Code := ToValidUTF8 (eb_Code e) |}
  | RExec r => DecodeText s = Some (received r)
  | RStream events last => read_events s = map Some (map event_of events ++ [last_of last])
  | RSession r => DecodeText s = Some (received r)
  | RSessions l => DecodeText (C := SessionListResponse_codec) s = Some (map received l)
  | RConfig c => DecodeText s = Some (received c)
  | RConfigs l => DecodeText (C := SandboxConfigListResponse_codec) s = Some (map received l)
  | REvict e => DecodeText s = Some (received e)
  end.

(** A line of printed characters is one piece. *)
Lemma read_line (l rest : string) :
  l <> "" -> str_forall printed l = true ->
  read_events (l +:+ NL +:+ rest) = UnmarshalText (C := Client.evt_codec) l :: read_events rest.
Proof.
  intros Hne Hp. unfold read_events. rewrite Split_line by done. cbn [List.filter].
  by rewrite (proj2 (String.eqb_neq l "")) by done.
Qed.

Lemma marshalled_line {A} {C : Codec A} {L : CodecLaws C} (x : A) :
  MarshalText x <> "" /\ str_forall printed (MarshalText x) = true.
Proof.
  unfold MarshalText. split; [|apply Marshal_printed, enc_integral].
  destruct (Marshal_head _ (enc_integral x)) as (c & s & -> & _). done.
Qed.

Lemma router_event_read (e : string * string) (rest : string) :
  read_events (router_event_line e +:+ rest) = Some (event_of e) :: read_events rest.
Proof.
  unfold router_event_line, EncodeText. rewrite str_app_assoc.
  destruct (marshalled_line (C := Router.routerEvent_codec) e) as [Hne Hp]. rewrite read_line by done. f_equal.
  destruct e as [t d]. unfold UnmarshalText, MarshalText. change (enc _) with (enc (Codec := Server.event_codec) (t, d)).
  rewrite event_members, Unmarshal_Marshal by (by destruct (d =?s "")). unfold event_of. cbn [fst snd].
  destruct (d =?s "") eqn:Hd; [apply String.eqb_eq in Hd as ->|]; done.
Qed.

Lemma router_last_read (last : StreamEnd) :
  reply_fits (RStream [] last) -> read_events (router_last_line last) = [Some (last_of last)].
Proof.
  destruct last as [code b|m]; cbn [reply_fits router_last_line]; intros Hc.
  - unfold EncodeText. rewrite <- (str_app_nil_r NL).
    destruct (marshalled_line (C := Router.routerExit_codec) ("exit", (code, b))) as [Hne Hp]. rewrite read_line by done.
    change (MarshalText _) with (MarshalText (C := Server.exitEvent_codec) ("exit", (code, b))). by rewrite exit_read.
  - rewrite <- (str_app_nil_r (router_event_line _)). by rewrite router_event_read.
Qed.

Lemma stream_reply_read (evs : list (string * string)) (last : StreamEnd) :
  reply_fits (RStream evs last) ->
  read_events (render_body (RStream evs last)) = map Some (map event_of evs ++ [last_of last]).
Proof.
  intros Hf. cbn [render_body]. rewrite map_app. cbn [map]. rewrite <- router_last_read by (by destruct last). clear Hf.
  induction evs as [|e evs IH]; [done|]. cbn [map app str_concat foldr]. fold (str_concat (map router_event_line evs)).
  rewrite str_app_assoc, router_event_read. f_equal. done.
Qed.


End render.

