(* ===== verification/RouterHttp.v ===== *)
(** * The router's requests: from the wire to the handlers

    [Server.Handler] with its table of patterns, the decoding of path values,
    query and body, the MCP handler ([newMCPHandler]), and the metrics
    middleware of [internal/router/metrics.go] around them.  The MCP library
    decides which tool a request to [/mcp] calls; it is a parameter, like the
    page of the telemetry library.  The theorems carry what was shown of decoded
    requests to requests as they arrive. *)
From stdpp Require Import relations.
From S2P Require Import Prelude Prog Slots GoStrings GoMux GoJson GoCodec ApiTypes ApiCodec Validate Kube CtrlClient.
From S2P Require Import SessionReconciler Auth EnvConfig RouterServer Mcp RouterProofs RouterAccess.
Open Scope boxy_scope.

(** ** Requests *)

(** [hq_Path] and [hq_RawQuery] are those of the request line; [hq_Overlong]
    says that the body's first value goes on beyond the body limit. *)
Record HttpRequest := {
  hq_Method : string;
  hq_Path : string;
  hq_RawQuery : string;
  hq_Authorization : string;
  hq_SandboxId : string;
  hq_SessionId : string;
  hq_Body : string;
  hq_Overlong : bool;
}.

(** [url.QueryUnescape]. *)
Fixpoint plus_to_space (s : string) : string :=
  match s with
  | EmptyString => ""
  | String c s' => String (if is_byte 43 c then " " else c)%char (plus_to_space s')
  end.

Definition QueryUnescape (s : string) : option string := PathUnescape (plus_to_space s).

(** One [key=value] of a query; broken ones are dropped. *)
Definition query_pair (piece : string) : option (string * string) :=
  if Contains piece ";" || (piece =?s "") then None
  else match Split piece "=" with
       | k :: v =>
           match QueryUnescape k, QueryUnescape (str_join "=" v) with
           | Some k', Some v' => Some (k', v')
           | _, _ => None
           end
       | [] => None
       end.

(** [r.URL.Query().Get(key)]. *)
Definition query_get (raw key : string) : string :=
  match List.find (fun kv => kv.1 =?s key) (omap query_pair (Split raw "&")) with
  | Some kv => kv.2
  | None => ""
  end.

Section http.
Context (cfg : Config) (mcp_call : HttpRequest -> option ToolCall) (mcp_page : HttpRequest -> RResponse).

(** [withBodyLimit] and the decoder of [decodeBody]. *)
Definition body_of {A} {C : Codec A} (rq : HttpRequest) : Decoded A :=
  if (0 <? cf_MaxBodyBytes cfg) && (cf_MaxBodyBytes cfg <? slen (hq_Body rq)) && hq_Overlong rq then TooLarge
  else match DecodeText (hq_Body rq) with Some a => Body a | None => BadJSON end.

(** [r.PathValue] of the only wildcard of a pattern. *)
Definition path_value (values : list string) : string := hd "" values.

Definition authed (rq : HttpRequest) (rt : Route) : prog Answer := Handler cfg (hq_Authorization rq) rt.

(** [newMCPHandler]: a tool works on the sandbox and the session the headers name. *)
Definition newMCPHandler (rq : HttpRequest) (c : ToolCall) : Route := RtMcp (hq_SandboxId rq) (hq_SessionId rq) c.

(** [withAuthHandler(newMCPHandler())]. *)
Definition mcp_handler (rq : HttpRequest) : prog Answer :=
  match mcp_call rq with
  | Some c => authed rq (newMCPHandler rq c)
  | None => withAuth cfg (AHttp (jsonErr 401 (text "unauthorized") "")) (hq_Authorization rq)
              (fun _ => Ret (AHttp (mcp_page rq)))
  end.

(** ** The table of [Handler] *)

Definition http_handler : Type := HttpRequest -> list string -> prog Answer.

Definition http_routes (metricsHandler : option (HttpRequest -> RResponse)) : ServeMux http_handler :=
  [("GET /healthz", fun rq _ => authed rq RtHealth)] ++
  match metricsHandler with Some h => [("GET /metrics", fun rq _ => Ret (AHttp (h rq)))] | None => [] end ++
  [("POST /v1/sessions/exec", fun rq _ => authed rq (RtExec (body_of rq)));
   ("POST /v1/sessions/exec/stream", fun rq _ => authed rq (RtExecStream (body_of rq)));
   ("POST /v1/sessions", fun rq _ => authed rq (RtSessionCreate (body_of rq)));
   ("GET /v1/sessions", fun rq _ => authed rq (RtSessionList (query_get (hq_RawQuery rq) "sandboxId")
      (query_get (hq_RawQuery rq) "owner") (query_get (hq_RawQuery rq) "phase")));
   ("GET /v1/sessions/{sessionId}", fun rq vs => authed rq (RtSessionGet (path_value vs)));
   ("DELETE /v1/sessions/{sessionId}", fun rq vs => authed rq (RtSessionDelete (path_value vs)));
   ("POST /v1/sandboxes", fun rq _ => authed rq (RtSandboxCreate (body_of rq)));
   ("GET /v1/sandboxes", fun rq _ => authed rq RtSandboxList);
   ("GET /v1/sandboxes/{sandboxId}", fun rq vs => authed rq (RtSandboxGet (path_value vs)));
   ("PUT /v1/sandboxes/{sandboxId}", fun rq vs => authed rq (RtSandboxUpdate (path_value vs) (body_of rq)));
   ("DELETE /v1/sandboxes/{sandboxId}", fun rq vs => authed rq (RtSandboxDelete (path_value vs)));
   ("POST /v1/sandboxes/{sandboxId}/evict", fun rq vs => authed rq (RtSandboxEvict (path_value vs)));
   ("GET /v1/sandboxes/{sandboxId}/sessions", fun rq vs => authed rq (RtSandboxSessions (path_value vs)));
   ("/mcp", fun rq _ => mcp_handler rq)].

(** [mux.ServeHTTP]. *)
Definition route_request (page : option (HttpRequest -> RResponse)) (rq : HttpRequest) : Served (prog Answer) :=
  match EscapedPath (hq_Path rq) with
  | None => BadTarget
  | Some esc =>
      match findHandler (http_routes page) (hq_Method rq) esc with
      | Handled pat h vs => Handled pat (h rq vs) vs
      | Moved l => Moved l
      | MethodNotAllowed => MethodNotAllowed
      | PageNotFound => PageNotFound
      | BadTarget => BadTarget
      end
  end.

(** The answer of the mux itself where no handler is found. *)
Definition answered (s : Served (prog Answer)) : prog Answer :=
  match s with
  | Handled _ p _ => p
  | Moved _ => Ret (AHttp (reply 301 (RText "")))
  | MethodNotAllowed => Ret (AHttp (reply 405 (RText ("Method Not Allowed" +:+ NL))))
  | PageNotFound => Ret (AHttp (reply 404 (RText ("404 page not found" +:+ NL))))
  | BadTarget => Ret (AHttp (reply 400 (RText "400 Bad Request")))
  end.

(** [r.Pattern] after the mux has run. *)
Definition served_pattern (page : option (HttpRequest -> RResponse)) (rq : HttpRequest) : string :=
  match EscapedPath (hq_Path rq) with
  | None => ""
  | Some esc =>
      let path := if hq_Method rq =?s "CONNECT" then esc else cleanPath esc in
      match matchMethodAndPath (http_routes page) (hq_Method rq) path with
      | Some (pat, _, _) => pat
      | None => ""
      end
  end.

(** ** [internal/router/metrics.go] *)

(** A call on the [http.ResponseWriter]. *)
Inductive WriterCall : Type :=
| WriteHeader (code : Z)
| Write
| Flush.

Record statusRecorder := { sr_status : Z; sr_wroteHeader : bool }.

Definition sr_WriteHeader (code : Z) (sr : statusRecorder) : statusRecorder :=
  if negb (sr_wroteHeader sr) then {| sr_status := code; sr_wroteHeader := true |} else sr.

Definition sr_Write (sr : statusRecorder) : statusRecorder :=
  if negb (sr_wroteHeader sr) then {| sr_status := 200; sr_wroteHeader := true |} else sr.

Definition sr_Flush (sr : statusRecorder) : statusRecorder := sr.

Definition recorded (sr : statusRecorder) (c : WriterCall) : statusRecorder :=
  match c with
  | WriteHeader code => sr_WriteHeader code sr
  | Write => sr_Write sr
  | Flush => sr_Flush sr
  end.

Definition new_recorder : statusRecorder := {| sr_status := 200; sr_wroteHeader := false |}.

(** The calls a handler makes for its answer: a stream starts with its first
    line, everything else with the status. *)
Definition writer_calls (a : Answer) : list WriterCall :=
  match a with
  | AHttp r =>
      match rs_body r with
      | RNone => [WriteHeader (rs_code r)]
      | RStream events _ => concat (map (fun _ => [Write; Flush]) events) ++ [Write; Flush]
      | _ => [WriteHeader (rs_code r); Write]
      end
  | ATool _ => [WriteHeader 200; Write]
  end.

Definition label (pattern : string) : string := if pattern =?s "" then "other" else pattern.

Definition request_attrs (pattern method : string) (status : Z) : list (string * string) :=
  [("route", label pattern); ("status", pretty status); ("method", method)].

(** [middleware]; without metrics it is the handler itself. *)
Definition middleware (present : bool) (pattern method : string) (next : prog Answer) : prog Answer :=
  if negb present then next
  else
    call (Observe inflight 1 []) ;;;
    start <- call Now ;;
    a <- next ;;
    let sr := fold_left recorded (writer_calls a) new_recorder in
    let attrs := request_attrs pattern method (sr_status sr) in
    call (Observe requests 1 attrs) ;;;
    now <- call Now ;;
    call (Observe duration (now - start) attrs) ;;;
    call (Observe inflight (-1) []) ;;;
    Ret a.

(** The whole handler: a target that does not parse is refused by the server
    before it. *)
Definition ServeHTTP (present : bool) (page : option (HttpRequest -> RResponse)) (rq : HttpRequest) : prog Answer :=
  match route_request page rq with
  | BadTarget => answered BadTarget
  | s => middleware present (served_pattern page rq) (hq_Method rq) (answered s)
  end.

End http.

(** ** Properties *)

(** The status [net/http] sends: that of the first [WriteHeader], or 200 with the
    first bytes; a later status is superfluous. *)
Definition sent_status (calls : list WriterCall) : Z :=
  match calls with
  | WriteHeader code :: _ => code
  | _ => 200
  end.

Lemma recorded_fixed (calls : list WriterCall) (sr : statusRecorder) :
  sr_wroteHeader sr = true -> fold_left recorded calls sr = sr.
Proof.
  revert sr. induction calls as [|c calls IH]; intros sr Hw; [done|]. cbn [fold_left].
  assert (recorded sr c = sr) as ->; [|by apply IH].
  destruct c; simpl; unfold sr_WriteHeader, sr_Write; by rewrite ?Hw.
Qed.

Lemma recorded_sent (a : Answer) : sr_status (fold_left recorded (writer_calls a) new_recorder) = sent_status (writer_calls a).
Proof.
  destruct a as [r|t]; [|done]. unfold writer_calls. destruct (rs_body r) as [| | | |events last| | | | |]; try done.
  destruct events as [|e events]; [done|]. cbn [map concat app]. cbn [fold_left]. by rewrite recorded_fixed.
Qed.

(** The observations so far, and whether everything else was done while the
    in-flight gauge counted the request. *)
Record Meter := { mt_log : list (KInstrument * Z * list (string * string)); mt_covered : bool }.

Definition gauge (m : Meter) : Z :=
  foldr (fun o acc => match o with (inflight, v, _) => v + acc | _ => acc end) 0 (mt_log m).

Definition meter_env : env Meter := fun e m =>
  match e return KAnswer e -> Meter -> Prop with
  | Observe i v attrs => fun _ m' => m' = {| mt_log := mt_log m ++ [(i, v, attrs)]; mt_covered := mt_covered m |}
  | Now => fun _ m' => m' = m
  | _ => fun _ m' => m' = {| mt_log := mt_log m; mt_covered := mt_covered m && (gauge m =? 1) |}
  end.

Definition counted : Meter := {| mt_log := [(inflight, 1, [])]; mt_covered := true |}.

Lemma meter_stays {A} (p : prog A) : only unobserved p -> wp meter_env p counted (fun _ m => m = counted).
Proof. intros Hp. apply (wp_stay meter_env unobserved); [done|]. by intros [] x s'. Qed.

Section served.
Context (cfg : Config) (mcp_call : HttpRequest -> option ToolCall) (mcp_page : HttpRequest -> RResponse)
  (page : option (HttpRequest -> RResponse)).

(** What a request reaches is one of the handlers, or an answer of the mux. *)
Lemma route_cases (P : string -> prog Answer -> Prop) (rq : HttpRequest) :
  (forall r, P "" (Ret (AHttp r))) ->
  Forall (fun e : string * http_handler => forall vs, P e.1 (e.2 rq vs)) (http_routes cfg mcp_call mcp_page page) ->
  match route_request cfg mcp_call mcp_page page rq with
  | Handled pat p _ => P pat p
  | s => P "" (answered s)
  end.
Proof.
  intros Hret Hall. unfold route_request. destruct (EscapedPath _) as [esc|]; [|apply Hret].
  destruct (findHandler _ _ _) as [pat h vs| | | |] eqn:Hf; try apply Hret.
  apply findHandler_elem in Hf. rewrite Forall_forall in Hall. by apply (Hall _ Hf).
Qed.

Lemma mcp_unobserved (rq : HttpRequest) : only unobserved (mcp_handler cfg mcp_call mcp_page rq).
Proof.
  unfold mcp_handler, authed. destruct (mcp_call rq); [apply handler_unobserved|].
  unfold withAuth. destruct (extractBearer _); [|done].
  apply only_bind; [|by intros []]. eapply (@only_mono KSig); [|apply authenticate_calm]. by intros [].
Qed.

Lemma routes_unobserved (rq : HttpRequest) :
  Forall (fun e : string * http_handler => forall vs, only unobserved (e.2 rq vs)) (http_routes cfg mcp_call mcp_page page).
Proof.
  unfold http_routes, authed.
  destruct page; cbn [app]; repeat (apply Forall_cons; split; [intros vs; first [apply handler_unobserved|apply mcp_unobserved|done]|]);
    apply Forall_nil_2.
Qed.
Lemma answered_unobserved (rq : HttpRequest) : only unobserved (answered (route_request cfg mcp_call mcp_page page rq)).
Proof.
  pose proof (route_cases (fun _ p => only unobserved p) rq (fun _ => I) (routes_unobserved rq)) as H.
  by destruct (route_request _ _ _ _ _).
Qed.

(** What the request was counted under: the pattern that served it. *)
Lemma handled_pattern (rq : HttpRequest) (pat : string) (p : prog Answer) (vs : list string) :
  route_request cfg mcp_call mcp_page page rq = Handled pat p vs -> served_pattern cfg mcp_call mcp_page page rq = pat.
Proof.
  unfold route_request, served_pattern. destruct (EscapedPath _) as [esc|]; [|done]. unfold findHandler.
  destruct (negb _); [done|]. destruct (matchMethodAndPath _ _ _) as [[[q h] w]|]; [by intros [= <- _ _]|].
  by destruct (other_method _ _).
Qed.

(** The mux finds no pattern where it answers that there is none. *)
Lemma refused_pattern (rq : HttpRequest) :
  route_request cfg mcp_call mcp_page page rq = PageNotFound \/
  route_request cfg mcp_call mcp_page page rq = MethodNotAllowed ->
  served_pattern cfg mcp_call mcp_page page rq = "".
Proof.
  unfold route_request, served_pattern. destruct (EscapedPath _) as [esc|]; [|done]. unfold findHandler.
  destruct (negb _); [by intros []|]. destruct (matchMethodAndPath _ _ _) as [[[q h] w]|]; [by intros []|done].
Qed.

Lemma middleware_observations (pattern method : string) (next : prog Answer) :
  only unobserved next ->
  wp meter_env (middleware true pattern method next) {| mt_log := []; mt_covered := true |} (fun a m =>
    exists d, let attrs := request_attrs pattern method (sent_status (writer_calls a)) in
    m = {| mt_log := [(inflight, 1, []); (requests, 1, attrs); (duration, d, attrs); (inflight, -1, [])];
           mt_covered := true |}).
Proof.
  intros Hn. unfold middleware. cbn [negb bind call wp]. intros _ m0 -> start m1 ->.
  eapply wp_bind_spec; [by apply meter_stays|]. intros a m ->. cbn [bind call wp].
  intros _ m2 -> now m3 -> _ m4 -> _ m5 ->. rewrite recorded_sent. by eexists.
Qed.

(** C27: A router with metrics counts every request it serves once, under the
    pattern that served it (or "other"), the status that was sent and its method,
    times it under the same labels, and counts it as in flight exactly while its
    handler runs.  Without metrics, nothing is observed. *)
Theorem request_metrics_exact (present : bool) (rq : HttpRequest) :
  let served := route_request cfg mcp_call mcp_page page rq in
  wp meter_env (ServeHTTP cfg mcp_call mcp_page present page rq) {| mt_log := []; mt_covered := true |} (fun a m =>
    if present && (match served with BadTarget => false | _ => true end) then
      exists route d, let attrs := [("route", route); ("status", pretty (sent_status (writer_calls a))); ("method", hq_Method rq)] in
      m = {| mt_log := [(inflight, 1, []); (requests, 1, attrs); (duration, d, attrs); (inflight, -1, [])];
             mt_covered := true |} /\
      match served with
      | Handled pat _ _ => route = label pat
      | MethodNotAllowed | PageNotFound => route = "other"
      | _ => True
      end
    else mt_log m = []).
Proof.
  intros served. pose proof (answered_unobserved rq) as Hu. pose proof (handled_pattern rq) as Hh.
  pose proof (refused_pattern rq) as Hr. subst served. unfold ServeHTTP.
  destruct present.
  - destruct (route_request _ _ _ _ _) as [pat p vs|l| | |] eqn:Hs; cbn [andb]; [..|done];
      (eapply wp_mono; [|by apply middleware_observations]); intros a m [d ->];
      exists (label (served_pattern cfg mcp_call mcp_page page rq)), d; (split; [done|]).
    + by rewrite (Hh pat p vs eq_refl).
    + done.
    + by rewrite Hr by by right.
    + by rewrite Hr by by left.
  - cbn [andb].
    assert (forall p : prog Answer, only unobserved p ->
      wp meter_env p {| mt_log := []; mt_covered := true |} (fun _ m => mt_log m = [])) as Hq.
    { intros p Hp. apply (wp_within meter_env unobserved (fun m => mt_log m = [])); [done| |done].
      by intros [] m x m' ? Hm ->. }
    destruct (route_request _ _ _ _ _); apply Hq; exact Hu.
Qed.

Lemma http_routes_unambiguous : unambiguous (http_routes cfg mcp_call mcp_page page) = true.
Proof. destruct page; reflexivity. Qed.


(** The slots again, for requests as they arrive: metrics are no matter. *)
#[export] Instance router_sem : Slots KSig := {|
  slot_kind := fun e => match e with
    | SlotTryAcquire => Acquire
    | SlotRelease => Release
    | Http _ _ => Work
    | _ => Other
    end;
  got_slot := fun e => match e return KAnswer e -> bool with SlotTryAcquire => fun b => b | _ => fun _ => false end;
  some_answer := unavailable;
|}.

Definition served_env : env (option bool) := fun e s =>
  match e return KAnswer e -> option bool -> Prop with
  | Observe _ _ _ => fun _ s' => s' = s
  | e' => slot_env e' s
  end.

Lemma served_slot {A} (p : prog A) (s : option bool) (Q : A -> option bool -> Prop) :
  only unobserved p -> wp slot_env p s Q -> wp served_env p s Q.
Proof.
  revert s. induction p as [a|e k IH]; intros s Hu Hp; [done|]. cbn [only wp] in *. destruct Hu as [He Hk].
  intros x s' Hs. apply IH; [apply Hk|]. apply Hp. by destruct e.
Qed.

Definition slotted (p : prog Answer) : Prop := wp slot_env p (Some false) (fun _ s => s = Some false).

Lemma mcp_slotted (rq : HttpRequest) : slotted (mcp_handler cfg mcp_call mcp_page rq).
Proof.
  unfold mcp_handler, authed, slotted. destruct (mcp_call rq); [apply handler_in_slot|].
  unfold withAuth. destruct (extractBearer _); [|done].
  eapply wp_bind_spec; [apply calm_slot, authenticate_calm|]. by intros [] ? ->.
Qed.

Lemma routes_slotted (rq : HttpRequest) :
  Forall (fun e : string * http_handler => forall vs, slotted (e.2 rq vs)) (http_routes cfg mcp_call mcp_page page).
Proof.
  unfold http_routes, authed.
  destruct page; cbn [app]; repeat (apply Forall_cons; split; [intros vs; first [apply handler_in_slot|apply mcp_slotted|done]|]);
    apply Forall_nil_2.
Qed.

(** Whatever arrives at the router, a controller is only called while the request
    holds one of the concurrency slots; a slot is taken at most once at a time and
    is given back exactly once before the answer, on every path. *)
Lemma served_in_slot (present : bool) (rq : HttpRequest) :
  wp served_env (ServeHTTP cfg mcp_call mcp_page present page rq) (Some false) (fun _ s => s = Some false).
Proof.
  pose proof (answered_unobserved rq) as Hu.
  assert (slotted (answered (route_request cfg mcp_call mcp_page page rq))) as Hs.
  { pose proof (route_cases (fun _ p => slotted p) rq (fun _ => eq_refl) (routes_slotted rq)) as H.
    by destruct (route_request _ _ _ _ _). }
  unfold ServeHTTP. destruct (route_request _ _ _ _ _); [..|done];
    (destruct present; cbn [middleware negb]; [|by apply served_slot]); cbn [wp bind call];
    intros _ ? -> ? ? ->; (eapply wp_bind_spec; [by apply served_slot|]); intros a ? ->;
    cbn [wp bind call]; by intros _ ? -> ? ? -> ? ? -> ? ? ->.
Qed.

(** The requests the router serves. *)
Definition requested (p : prog Answer) : Prop :=
  exists present rq, p = ServeHTTP cfg mcp_call mcp_page present page rq.

(** C14: However many requests the router serves concurrently, and whatever the
    API server and the controllers answer: never more than the configured number
    of requests to controllers are under way at a time, and when all requests
    have ended every concurrency slot is free again. *)
Theorem router_calls_bounded (requests : list (prog Answer)) (held : Z) :
  rtc (pool_step (server_slots cfg) requested) ([], 0) (requests, held) ->
  count working requests <= server_slots cfg /\ (forallb ended requests = true -> held = 0).
Proof.
  intros Hr. assert (0 <= server_slots cfg) as Hcap.
  { unfold server_slots. destruct (_ <=? 0) eqn:He; bool_hyps; lia. }
  destruct (pool_bounded (server_slots cfg) requested (requests, held) Hcap) as (Hw & Hle & Hend);
    [|done|simpl in *; split; [lia|done]].
  intros p (present & rq & ->). apply (wp_weaken discipline served_env); [|apply served_in_slot].
  intros e st x st'; destruct e; by cbn.
Qed.

(** What a handler of the pattern [pat] leaves behind: nothing where it is open
    to everybody or the request was refused, else what the user may do. *)
Definition opened (pat : string) : Prop := pat = "" \/ pat = "GET /healthz" \/ pat = "GET /metrics".

Definition accounted (rq : HttpRequest) (s : AuthState) (pat : string) (a : Answer) (st : AuthState * trace) : Prop :=
  (no_effects st.2 /\ (opened pat \/ a = unauthorized)) \/ authorized cfg (hq_Authorization rq) s st.

Lemma accounted_handler (rq : HttpRequest) (pat : string) (p : prog Answer) (s : AuthState) (t : trace) :
  wp router_env p (s, t) (fun a st => (no_effects st.2 /\ a = unauthorized) \/ authorized cfg (hq_Authorization rq) s st) ->
  wp router_env p (s, t) (accounted rq s pat).
Proof. apply wp_mono. intros a st [[? ?]|?]; [left|right]; auto. Qed.

Lemma routes_accounted (rq : HttpRequest) (s : AuthState) (t : trace) :
  cache_ok s -> au_lock s = Free -> no_effects t ->
  Forall (fun e : string * http_handler => forall vs, wp router_env (e.2 rq vs) (s, t) (accounted rq s e.1))
    (http_routes cfg mcp_call mcp_page page).
Proof.
  intros Hok Hl Ht. unfold http_routes, authed, opened.
  destruct page; cbn [app];
    repeat (apply Forall_cons; split; [intros vs; cbn [fst snd];
      first [by (left; split; [exact Ht|]; left; unfold opened; auto)
            |by apply accounted_handler, handler_authorized
            |unfold mcp_handler, authed; destruct (mcp_call rq);
               [by apply accounted_handler, handler_authorized|apply accounted_handler, withAuth_authorized; by auto]]|]);
    apply Forall_nil_2.
Qed.

Lemma handled_named (rq : HttpRequest) (pat : string) (p : prog Answer) (vs : list string) :
  route_request cfg mcp_call mcp_page page rq = Handled pat p vs -> pat <> "".
Proof.
  unfold route_request. destruct (EscapedPath _) as [esc|]; [|done].
  destruct (findHandler _ _ _) as [pat' h vs'| | | |] eqn:Hf; [|done..]. intros [= <- _ _].
  apply findHandler_elem in Hf.
  assert (Forall (fun e : string * http_handler => e.1 <> "") (http_routes cfg mcp_call mcp_page page)) as Hall
    by (unfold http_routes; destruct page; cbn [app]; by repeat constructor).
  rewrite Forall_forall in Hall. apply (Hall _ Hf).
Qed.

(** Observations around the handler change nothing of it. *)
Lemma accounted_step (rq : HttpRequest) (s : AuthState) (pat : string) (a : Answer) (e : KEvent) (x : KAnswer e)
    (st st' : AuthState * trace) :
  is_effect e = false -> router_env e st x st' -> accounted rq s pat a st -> accounted rq s pat a st'.
Proof.
  intros He Hs Ha. pose proof (router_env_onward _ _ _ _ Hs) as Hon. destruct Hs as [_ [Ht _]].
  destruct Ha as [[Hn Hc]|(tok & u & s1 & Hb & H0 & H1 & Hv & Hok)].
  - left. split; [|done]. rewrite Ht. by constructor.
  - right. exists tok, u, s1. split_and!; [done|done|by etrans|done|]. rewrite Ht. cbn [ok_trace]. split; [|done].
    by destruct e.
Qed.

Lemma accounted_earlier (rq : HttpRequest) (s0 s : AuthState) (pat : string) (a : Answer) (st : AuthState * trace) :
  onward s0 s -> accounted rq s pat a st -> accounted rq s0 pat a st.
Proof.
  intros H0 [H|(tok & u & s1 & Hb & H1 & H2 & Hv & Hok)]; [by left|]. right. exists tok, u, s1.
  split_and!; [done|by etrans|done|by eapply vouched_earlier|done].
Qed.

Lemma middleware_accounted (rq : HttpRequest) (present : bool) (pattern pat : string) (next : prog Answer) (s : AuthState) :
  cache_ok s -> au_lock s = Free ->
  (forall s t, cache_ok s -> au_lock s = Free -> no_effects t -> wp router_env next (s, t) (accounted rq s pat)) ->
  wp router_env (middleware present pattern (hq_Method rq) next) (s, []) (accounted rq s pat).
Proof.
  intros Hok Hl Hn. destruct present; [|apply Hn; [done..|constructor]].
  unfold middleware. cbn [negb bind call wp]. intros [] [s1 t1] [Hs1 [Ht1 _]] start [s2 t2] [[Hc Hs2] [Ht2 _]].
  simpl in *. subst.
  eapply wp_bind_spec.
  - apply (Hn {| au_cache := au_cache s; au_reviews := au_reviews s; au_clock := start; au_lock := au_lock s |});
      [done|done|]. by repeat constructor.
  - intros a st Ha. cbn [bind call wp]. intros ? st1 H1 ? st2 H2 ? st3 H3 ? st4 H4.
    apply (accounted_earlier _ _ {| au_cache := au_cache s; au_reviews := au_reviews s; au_clock := start; au_lock := au_lock s |});
      [by split|].
    by do 4 (eapply accounted_step; [..|eassumption|]; [done|]).
Qed.

End served.

(** ** Samples *)

Definition sample_http : HttpRequest :=
  {| hq_Method := "DELETE"; hq_Path := "/v1/sessions/job%2D1"; hq_RawQuery := ""; hq_Authorization := "Bearer tok-a";
     hq_SandboxId := ""; hq_SessionId := ""; hq_Body := ""; hq_Overlong := false |}.

Definition no_mcp : HttpRequest -> option ToolCall := fun _ => None.

Definition mcp_refusal : HttpRequest -> RResponse := fun _ => reply 400 (RText "Bad Request").

Lemma router_calls_bounded_witness :
  rtc (pool_step (server_slots sample_router) (requested sample_router no_mcp mcp_refusal None)) ([], 0)
    ([ServeHTTP sample_router no_mcp mcp_refusal true None sample_http], 0) /\
  count working [ServeHTTP sample_router no_mcp mcp_refusal true None sample_http] <= server_slots sample_router /\
  (forallb ended [ServeHTTP sample_router no_mcp mcp_refusal true None sample_http] = true -> 0 = 0).
Proof.
  assert (rtc (pool_step (server_slots sample_router) (requested sample_router no_mcp mcp_refusal None)) ([], 0)
    ([ServeHTTP sample_router no_mcp mcp_refusal true None sample_http], 0)) as Hr.
  { apply rtc_once.
    apply (arrives _ _ (ServeHTTP sample_router no_mcp mcp_refusal true None sample_http) [] 0).
    exists true, sample_http. reflexivity. }
  split; [exact Hr|]. exact (router_calls_bounded sample_router no_mcp mcp_refusal None _ 0 Hr).
Defined.


