(* ===== verification/SessionTypes.v ===== *)
(** * Well-formed sessions

    The type invariant of the [Session] objects that the operator and the router
    share through the API server ([api/v1alpha1/types.go]): the phase is one of
    the constants, and says which fields of the status are set.  Every session
    either program writes is well-formed, provided the sessions it reads are. *)
From S2P Require Import Prelude Prog GoStrings GoMux GoCodec ApiTypes ApiCodec Kube CtrlClient SessionReconciler SessionProofs.
From S2P Require Import PoolReconciler Auth EnvConfig RouterServer Mcp RouterProofs RouterAccess RouterHttp.
Open Scope boxy_scope.

(** ** The invariant *)

Definition phases : list string :=
  [""; SandboxPhasePending; SandboxPhaseCreating; SandboxPhaseRunning; SandboxPhaseDeleting; SandboxPhaseTerminated].

(** The address of a controller's pod. *)
Definition pod_address (rc : ReconcilerConfig) (pod : string) : string :=
  pod +:+ "." +:+ rc_HeadlessServiceName rc +:+ "." +:+ rc_Namespace rc +:+ ".svc".

(** Either the session has no place, or pod, address and port name one. *)
Definition placed (rc : ReconcilerConfig) (st : SessionStatus) : Prop :=
  st_ControllerPod st <> "" /\ st_ControllerAddress st = pod_address rc (st_ControllerPod st) /\
  st_Port st = rc_ControllerPort rc /\ st_CreatedAt st <> None.

Definition unplaced (st : SessionStatus) : Prop := st_ControllerPod st = "" /\ st_ControllerAddress st = "".

Definition session_wf (rc : ReconcilerConfig) (s : Session) : Prop :=
  let st := se_Status s in
  st_Phase st ∈ phases /\ (placed rc st \/ unplaced st) /\
  (st_Phase st = "" \/ st_Phase st = SandboxPhasePending -> unplaced st) /\
  (st_Phase st = SandboxPhaseCreating \/ st_Phase st = SandboxPhaseRunning -> placed rc st) /\
  (st_Phase st = SandboxPhaseTerminated -> st_TerminatedAt st <> None).

(** ** Environments *)

(** Every session in an answer is well-formed. *)
Definition wf_answer (rc : ReconcilerConfig) (e : KEvent) : KAnswer e -> Prop :=
  match e return KAnswer e -> Prop with
  | GetSession _ _ | UpdateSession _ | StatusUpdateSession _ | StatusPatchSession _ _ => fun x =>
      match x with inl s => session_wf rc s | inr _ => True end
  | ListSessions _ _ => fun x => match x with inl l => Forall (session_wf rc) l | inr _ => True end
  | _ => fun _ => True
  end.

(** The session a call writes. *)
Definition written (e : KEvent) : option Session :=
  match e with
  | CreateSession s | UpdateSession s | StatusUpdateSession s => Some s
  | StatusPatchSession _ s => Some s
  | _ => None
  end.

Definition write_ok (rc : ReconcilerConfig) (e : KEvent) : Prop :=
  match written e with Some s => session_wf rc s | None => True end.

(** Whether all writes so far were well-formed. *)
Definition typed_env (rc : ReconcilerConfig) : env Prop := fun e ok x ok' =>
  wf_answer rc e x /\ honest e x /\ ok' = (ok /\ write_ok rc e).

Definition typed {A} (rc : ReconcilerConfig) (p : prog A) : Prop := forall ok : Prop, ok -> wp (typed_env rc) p ok (fun _ ok' => ok').

(** ** Rules *)

Section rules.
Context (rc : ReconcilerConfig).

Lemma typed_ret {A} (a : A) : typed rc (Ret a).
Proof. by intros ok. Qed.

Lemma typed_vis {A} (e : KEvent) (k : KAnswer e -> prog A) :
  write_ok rc e -> (forall x, wf_answer rc e x -> honest e x -> typed rc (k x)) -> typed rc (Vis (e : @event KSig) k).
Proof. intros He Hk ok Hok x ok' (Hx & Hh & ->). by apply Hk. Qed.

Lemma typed_bind {A B} (p : prog A) (f : A -> prog B) (F : A -> Prop) :
  (forall ok : Prop, ok -> wp (typed_env rc) p ok (fun a ok' => ok' /\ F a)) -> (forall a, F a -> typed rc (f a)) -> typed rc (bind p f).
Proof.
  intros Hp Hf ok Hok. eapply wp_bind_spec; [by apply Hp|]. intros a ok' [? ?]. by apply Hf.
Qed.

Lemma typed_then {A B} (p : prog A) (f : A -> prog B) : typed rc p -> (forall a, typed rc (f a)) -> typed rc (bind p f).
Proof.
  intros Hp Hf. apply (typed_bind p f (fun _ => True)); [|auto]. intros ok Hok. eapply wp_mono; [|by apply Hp]. auto.
Qed.

(** A program that writes no session. *)
Definition readonly (e : KEvent) : Prop := written e = None.

Lemma typed_readonly {A} (p : prog A) : only readonly p -> typed rc p.
Proof.
  intros Hp ok Hok. apply (wp_within (typed_env rc) readonly (fun ok => ok)); [done| |done].
  intros e ok0 x ok1 He H0 (_ & _ & ->). split; [done|]. unfold write_ok. by rewrite He.
Qed.

(** *** Changes of a session that keep it well-formed *)

Lemma wf_meta (m : ObjectMeta) (s : Session) : session_wf rc s -> session_wf rc (set_Meta m s).
Proof. done. Qed.

Lemma wf_message (m : Msg) (s : Session) : session_wf rc s -> session_wf rc (set_Message m s).
Proof. done. Qed.

Lemma wf_last_exec (t : Z) (s : Session) : session_wf rc s -> session_wf rc (set_LastExecAt t s).
Proof. done. Qed.

Lemma wf_expires (t : Z) (s : Session) : session_wf rc s -> session_wf rc (set_ExpiresAt t s).
Proof. done. Qed.

Lemma wf_deleting (s : Session) : session_wf rc s -> session_wf rc (set_Phase SandboxPhaseDeleting s).
Proof.
  intros (_ & Hp & _). split_and!; simpl; [|done|by intros []..|done]. do 4 right. left.
Qed.

Lemma wf_running (s : Session) :
  session_wf rc s -> phase_of s = SandboxPhaseCreating -> session_wf rc (set_Phase SandboxPhaseRunning s).
Proof.
  intros (_ & _ & _ & Hp & _) Hph. specialize (Hp (or_introl Hph)).
  split_and!; simpl; [do 3 right; left|by left|by intros []|done|done].
Qed.

Lemma wf_terminated (now : Z) (s : Session) :
  session_wf rc s -> session_wf rc (set_TerminatedAt now (set_Phase SandboxPhaseTerminated s)).
Proof. intros (_ & Hp & _). split_and!; simpl; [do 5 right; left|done|by intros []..|done]. Qed.

Lemma wf_unplaced (err : Err) (s : Session) : session_wf rc (unplace err s).
Proof. split_and!; simpl; [right; left|by right|done|by intros []|done]. Qed.

Lemma wf_placed (pod : string) (now : Z) (sb : Sandbox) (s : Session) :
  pod <> "" -> session_wf rc (place rc pod (pod_address rc pod) now sb s).
Proof.
  intros Hp. unfold place.
  assert (session_wf rc (set_CreatedAt now (set_Controller (rc_ControllerPoolName rc) pod (pod_address rc pod)
    (rc_ControllerPort rc) (set_Phase SandboxPhaseCreating s)))) as H.
  { assert (placed rc (se_Status (set_CreatedAt now (set_Controller (rc_ControllerPoolName rc) pod (pod_address rc pod)
      (rc_ControllerPort rc) (set_Phase SandboxPhaseCreating s))))) by done.
    split_and!; [simpl; do 2 right; left|by left|by intros []|done|done]. }
  destruct (0 <? _); [by apply wf_expires|done].
Qed.

Lemma wf_new (cfg : Config) (id sandbox owner : string) : session_wf rc (new_session cfg id sandbox owner).
Proof. split_and!; simpl; [left|by right|done|by intros []|done]. Qed.

End rules.

(** ** The operator *)

Ltac readonly_tac := repeat first [done | progress cbn [only bind call] | case_match | split | intros ?].

Section operator.
Context (rc : ReconcilerConfig).

Lemma fetch_readonly (id : string) : only readonly (fetchSandboxConfig rc id).
Proof. unfold fetchSandboxConfig. readonly_tac. Qed.

Lemma create_readonly (url : string) (r : CreateSandboxReq) : only readonly (CreateSandbox url r).
Proof. unfold CreateSandbox, send. readonly_tac. Qed.

Lemma release_readonly (s : Session) : only readonly (release rc s).
Proof. unfold release, DeleteSandbox, send. readonly_tac. Qed.

Lemma update_status_typed (s : Session) (k : Session -> prog (Result * error)) :
  session_wf rc s -> (forall s', session_wf rc s' -> typed rc (k s')) -> typed rc (update_status s k).
Proof. intros Hs Hk. apply typed_vis; [done|]. intros [s'|err] Hx _; [by apply Hk|apply typed_ret]. Qed.

Lemma pick_pod_address (sessions : list Session) (pods : list Pod) :
  let b := pick_pod rc sessions pods in b_Pod b <> "" -> b_Addr b = pod_address rc (b_Pod b).
Proof.
  unfold pick_pod. set (b0 := {| b_Pod := ""; b_Addr := ""; b_Remaining := -1 |}).
  assert (b_Pod b0 <> "" -> b_Addr b0 = pod_address rc (b_Pod b0)) as H0 by done. clearbody b0.
  revert b0 H0. induction pods as [|p pods IH]; intros b0 H0; [done|]. cbn [fold_left]. apply IH.
  unfold pick_step. by repeat case_goal.
Qed.

Lemma scaleUp_readonly : only readonly (scaleUp rc).
Proof. unfold scaleUp, scaleStatefulSet, ScaledUp. readonly_tac. Qed.

Lemma assignController_typed (ok : Prop) :
  ok -> wp (typed_env rc) (assignController rc) ok (fun r ok' => ok' /\
    match r with inl (pod, address) => pod <> "" /\ address = pod_address rc pod | inr _ => True end).
Proof.
  intros Hok. unfold assignController. cbn [wp bind call]. intros [pods|err] ok1 (_ & _ & ->); [|done].
  cbn [wp bind call]. intros [sessions|err] ok2 (_ & _ & ->); [|done].
  destruct (b_Pod _ =?s "") eqn:Hb; bool_hyps.
  - eapply wp_bind_spec; [apply (typed_readonly rc (scaleUp rc)); [apply scaleUp_readonly|done]|].
    by intros [err|] ok' Hok'.
  - cbn [wp]. split; [done|]. split; [done|]. by apply pick_pod_address.
Qed.

Lemma config_missing_typed (s : Session) : session_wf rc s -> typed rc (config_missing s).
Proof. intros Hs. apply update_status_typed; [by apply wf_message, wf_deleting|]. intros s' _. apply typed_ret. Qed.

Lemma reconcilePending_typed (s : Session) : session_wf rc s -> typed rc (reconcilePending rc s).
Proof.
  intros Hs. unfold reconcilePending. apply (typed_bind rc _ _ (fun f => match f with inl s => session_wf rc s | inr _ => True end)).
  { intros ok Hok. unfold ensure_finalizer. destruct (ContainsFinalizer _ _); [done|]. cbn [wp call].
    intros [s'|err] ok' (Hx & _ & ->); done. }
  intros [s'|err] Hs'; [|apply typed_ret].
  apply typed_then; [apply typed_readonly, fetch_readonly|]. intros [[sb|]|err]; [|by apply config_missing_typed|apply typed_ret].
  eapply typed_bind; [apply assignController_typed|]. intros [[pod address]|err]; [|intros _; apply typed_ret].
  intros [Hp ->]. apply typed_vis; [done|]. intros now _ _.
  apply update_status_typed; [by apply wf_placed|]. intros s2 _. apply typed_ret.
Qed.

Lemma reconcileCreating_typed (s : Session) :
  session_wf rc s -> phase_of s = SandboxPhaseCreating -> typed rc (reconcileCreating rc s).
Proof.
  intros Hs Hp. unfold reconcileCreating.
  apply typed_then; [apply typed_readonly, fetch_readonly|]. intros [[sb|]|err]; [|by apply config_missing_typed|apply typed_ret].
  apply typed_then; [apply typed_readonly, create_readonly|]. intros [err|].
  - destruct (IsStaleRouteError _); [|apply typed_ret]. apply update_status_typed; [apply wf_unplaced|]. intros s2 _. apply typed_ret.
  - apply update_status_typed; [by apply wf_message, wf_running|]. intros s2 _.
    destruct (st_ExpiresAt _); [|apply typed_ret]. apply typed_vis; [done|]. intros now _ _. apply typed_ret.
Qed.

Lemma reconcileRunning_typed (s : Session) : session_wf rc s -> typed rc (reconcileRunning rc s).
Proof.
  intros Hs. assert (forall now exp s, session_wf rc s -> typed rc (check_expiry now exp s)) as Hc.
  { intros now exp s' Hs'. unfold check_expiry. destruct (exp <? now).
    - apply update_status_typed; [by apply wf_deleting|]. intros s2 _. apply typed_ret.
    - apply typed_vis; [done|]. intros ? _ _. apply typed_ret. }
  unfold reconcileRunning. apply typed_vis; [done|]. intros now _ _.
  destruct (st_ExpiresAt _) as [exp|]; [|apply typed_ret]. destruct (st_LastExecAt _) as [last|]; [|by apply Hc].
  apply typed_then; [apply typed_readonly, fetch_readonly|]. intros [[sb|]|err]; [|by apply Hc..].
  cbv zeta. destruct (_ && _); [|by apply Hc]. apply update_status_typed; [by apply wf_expires|]. intros s2 Hs2. by apply Hc.
Qed.

Lemma reconcileDeleting_typed (s : Session) : session_wf rc s -> typed rc (reconcileDeleting rc s).
Proof.
  intros Hs. unfold reconcileDeleting. apply typed_then.
  { destruct (negb _); [apply typed_readonly, release_readonly|apply typed_ret]. }
  intros []; [|apply typed_ret]. apply typed_vis; [done|]. intros now _ _.
  apply update_status_typed; [by apply wf_message, wf_terminated|]. intros s2 _. cbv zeta. case_goal; apply typed_ret.
Qed.

Lemma handleDeletion_typed (s : Session) : session_wf rc s -> typed rc (handleDeletion rc s).
Proof.
  intros Hs. unfold handleDeletion. destruct (negb _); [apply typed_ret|]. apply typed_then.
  { destruct (_ && _); [apply typed_readonly, release_readonly|apply typed_ret]. }
  intros []; [|apply typed_ret]. apply typed_vis; [by apply wf_meta|]. intros [s'|err] _ _; apply typed_ret.
Qed.

Lemma Reconcile_typed (ns name : string) : typed rc (Reconcile rc ns name).
Proof.
  unfold Reconcile. apply typed_vis; [done|]. intros [s|err] Hs _; [|destruct (IsNotFound err); apply typed_ret].
  destruct (negb _); [by apply handleDeletion_typed|].
  destruct (_ || _); [by apply reconcilePending_typed|].
  destruct (phase_of s =?s SandboxPhaseCreating) eqn:Hc; bool_hyps; [by apply reconcileCreating_typed|].
  destruct (phase_of s =?s SandboxPhaseRunning); [by apply reconcileRunning_typed|].
  destruct (phase_of s =?s SandboxPhaseDeleting); [by apply reconcileDeleting_typed|].
  destruct (phase_of s =?s SandboxPhaseTerminated); [|apply typed_ret].
  apply typed_readonly. unfold reconcileTerminated, remove_terminated. readonly_tac.
Qed.

Lemma drain_typed (sessions : list Session) (n : Z) :
  Forall (session_wf rc) sessions -> typed rc (for_each sessions drain_session n).
Proof.
  intros Hall. revert n. induction Hall as [|s l Hs _ IH]; intros n; [apply typed_ret|]. cbn [for_each].
  apply typed_then; [|apply IH]. unfold drain_session. do 2 (case_goal; [apply typed_ret|]). apply typed_then; [|intros; apply typed_ret].
  destruct (phase_of s =?s SandboxPhaseDeleting); cbn [negb]; [apply typed_ret|].
  apply typed_vis; [by apply wf_deleting|]. intros x _ _. apply typed_ret.
Qed.

Lemma ReconcileSandbox_typed (ns name : string) : typed rc (ReconcileSandbox rc ns name).
Proof.
  assert (forall sb, typed rc (update_sandbox sb)) as Hu.
  { intros sb. apply typed_readonly. unfold update_sandbox. readonly_tac. }
  unfold ReconcileSandbox. apply typed_vis; [done|]. intros [sb|err] _ _; [|destruct (IsNotFound err); apply typed_ret].
  destruct (negb _); [apply Hu|]. destruct (not_deleted _); [apply typed_ret|].
  unfold handleSandboxDeletion. apply typed_vis; [done|]. intros [sessions|err] Hl _; [|apply typed_ret].
  apply typed_then; [by apply drain_typed|]. intros active. destruct (0 <? active); [apply typed_ret|apply Hu].
Qed.

End operator.

(** ** The router *)

Section router.
Context (rc : ReconcilerConfig) (cfg : Config) (mcp_call : HttpRequest -> option ToolCall)
  (mcp_page : HttpRequest -> RResponse) (page : option (HttpRequest -> RResponse)).

(** What a request of one user may have done. *)
Definition user_trace (t : trace) : Prop := exists u, ok_trace cfg u t.

Lemma withAuth_trace (unauth : Answer) (h : string) (k : option UserInfo -> prog Answer) (t : trace) :
  (forall u t, ok_trace cfg u t -> wp trace_env (k (Some u)) t (fun _ t' => ok_trace cfg u t')) ->
  no_effects t -> wp trace_env (withAuth cfg unauth h k) t (fun _ t' => user_trace t').
Proof.
  intros Hk Ht. unfold withAuth. destruct (extractBearer h) as [tok|]; [|by exists dev_user; apply no_effects_ok].
  eapply wp_bind_spec; [by apply no_effects_only; [apply authenticate_no_effects|]|].
  intros [u|err] t1 Ht1; [|by exists dev_user; apply no_effects_ok].
  eapply wp_mono; [|by apply Hk, no_effects_ok]. intros a t2 H2. by exists u.
Qed.

Lemma handler_trace (h : string) (rt : Route) (t : trace) :
  no_effects t -> wp trace_env (Handler cfg h rt) t (fun _ t' => user_trace t').
Proof.
  intros Ht.
  assert (wp trace_env (withAuth cfg unauthorized h (route_handler cfg rt)) t (fun _ t' => user_trace t')) as H.
  { apply withAuth_trace; [|done]. intros u t0 Ht0. eapply wp_mono; [|by apply route_keeps]. by intros a t' (? & _). }
  destruct rt; try exact H. exists dev_user. by apply no_effects_ok.
Qed.

Lemma served_trace (present : bool) (rq : HttpRequest) :
  wp trace_env (ServeHTTP cfg mcp_call mcp_page present page rq) [] (fun _ t => user_trace t).
Proof.
  assert (forall t, no_effects t ->
    wp trace_env (answered (route_request cfg mcp_call mcp_page page rq)) t (fun _ t' => user_trace t')) as Hall.
  { intros t Ht.
    assert (forall r, wp trace_env (Ret (AHttp r)) t (fun _ t' => user_trace t')) as Hret
      by (intros r; exists dev_user; by apply no_effects_ok).
    pose proof (route_cases cfg mcp_call mcp_page page (fun _ p => wp trace_env p t (fun _ t' => user_trace t')) rq Hret) as H.
    destruct (route_request _ _ _ _ _); [|apply Hret..]. apply H. clear H. unfold http_routes, authed.
    destruct page; cbn [app]; repeat (apply Forall_cons; split; [intros vs; cbn [fst snd];
      first [by apply handler_trace | apply Hret
        | unfold mcp_handler, authed; destruct (mcp_call rq); [by apply handler_trace|apply withAuth_trace; by auto]]|]);
      apply Forall_nil_2. }
  assert (no_effects []) as H0 by apply Forall_nil_2.
  unfold ServeHTTP. destruct (route_request _ _ _ _ _); [..|exists dev_user; by apply no_effects_ok];
    (destruct present; cbn [middleware negb]; [|by apply Hall]); cbn [wp bind call];
    intros ? t0 [-> _] now t1 [-> _];
    (eapply wp_bind_spec; [apply Hall; do 2 (apply Forall_cons; split; [done|]); exact H0|]);
    intros a t2 [u Hu]; cbn [wp bind call]; intros ? t3 [-> _] ? t4 [-> _] ? t5 [-> _] ? t6 [-> _]; exists u;
    by repeat split.
Qed.

Lemma user_writes (t : trace) :
  user_trace t -> Forall (fun i => match i with IO e x => wf_answer rc e x end) t ->
  Forall (fun i => match i with IO e _ => write_ok rc e end) t.
Proof.
  intros [u Hu] Hwf. induction t as [|[e x] t IH]; [done|]. destruct Hu as [He Hu]. apply Forall_cons in Hwf as [_ Hwf].
  apply Forall_cons. split; [|by apply IH]. unfold write_ok. destruct e; try done; cbn [effect_ok written] in *.
  - destruct He as ((id & sandbox & owner & ->) & _). apply wf_new.
  - destruct He as (-> & id & ns & l & _ & Hin & Hs). apply wf_deleting.
    rewrite Forall_forall in Hwf. specialize (Hwf _ Hin). cbn [wf_answer] in Hwf. rewrite Forall_forall in Hwf. by apply Hwf.
Qed.

Lemma typed_of_trace {A} (p : prog A) : wp trace_env p [] (fun _ t => user_trace t) -> typed rc p.
Proof.
  intros Hp ok Hok.
  assert (forall (t : trace) (ok : Prop), wp trace_env p t (fun _ t => user_trace t) ->
    Forall (fun i => match i with IO e x => wf_answer rc e x end) t ->
    (Forall (fun i => match i with IO e _ => write_ok rc e end) t -> ok) ->
    wp (typed_env rc) p ok (fun _ ok' => ok')) as H.
  { clear. induction p as [a|e k IH]; intros t ok Hp Hwf Hw; cbn [wp] in *.
    - by apply Hw, user_writes.
    - intros x ok' (Hx & Hh & ->). apply (IH x (IO e x :: t)); [by apply Hp|by constructor|].
      intros [He Ht]%Forall_cons. split; [by apply Hw|exact He]. }
  by apply (H []).
Qed.

End router.

(** ** Property *)

(** Every session the programs write is well-formed, if those they read are,
    whatever else is answered: the phase is one of the five (or empty before the
    first reconciliation), a session that is Creating or Running names a pod, its
    address and port, one that is waiting names none, and a Terminated one says
    since when.  This holds for both reconcilers of the operator that write
    sessions, for every request to the router, and for the router's record of
    the last use. *)
Theorem sessions_well_formed (rc : ReconcilerConfig) :
  (forall ns name, typed rc (Reconcile rc ns name)) /\
  (forall ns name, typed rc (ReconcileSandbox rc ns name)) /\
  (forall cfg mcp_call mcp_page page present rq, typed rc (ServeHTTP cfg mcp_call mcp_page present page rq)) /\
  (forall s, session_wf rc s -> typed rc (touchLastExecSession s)).
Proof.
  split_and!; [apply Reconcile_typed|apply ReconcileSandbox_typed| |].
  - intros. apply (typed_of_trace rc cfg), served_trace.
  - intros s Hs. apply typed_vis; [done|]. intros now _ _. apply typed_vis; [by apply wf_last_exec|]. intros x _ _. apply typed_ret.
Qed.
