(* ===== verification/Cluster.v ===== *)
(** * The cluster: operator, router, API server and controllers together

    The operator's session worker reconciles one session at a time
    ([cmd/boxy-operator] runs one manager, with leader election and one worker
    per reconciler).  Next to it, and between any two of its calls, run the
    router's requests and goroutines, the operator's other reconcilers and its
    scale-down loop, and anybody who deletes sessions; controllers restart.  They
    share the sessions at the API server and the sandboxes at the controllers.

    The API server is given by what it documents.  An update is refused unless it
    carries the stored version; a merge patch changes the fields in which the two
    objects it was made of differ, whatever the stored version; a deleted object
    stays until its last finalizer goes.  Any call may fail, and one that failed
    may have been carried out all the same.  Times are stored by the second.  A
    read returns the stored object, which may have changed by the time the reader
    acts on it; that the operator reads from a cache which lags is left out.

    The theorems are invariants of this system: well-formed sessions, the capacity
    of the controllers, sandboxes that are accounted for, and sessions that run
    only once their sandbox was made. *)
From stdpp Require Import relations.
From S2P Require Import Prelude Prog Rely GoStrings GoMux GoCodec ApiTypes ApiCodec Kube CtrlClient SessionReconciler SessionProofs.
From S2P Require Import Lifecycle PoolReconciler Auth EnvConfig RouterServer Mcp RouterProofs RouterAccess RouterHttp SessionTypes.
Open Scope boxy_scope.

(** ** State *)

Abbreviation place_of_sandbox := (string * string)%type.

(** The stored sessions of the operator's namespace, all versions that ever were
    stored, and the sandboxes the controllers hold, each with the URL it is
    created at and its id.  Besides, what happened: the sandboxes a controller
    said it created, those about which a controller did not answer, and those
    of sessions that lost the finalizer while they were Deleting. *)
Record World := {
  wo_sessions : gmap string Session;
  wo_history : list Session;
  wo_held : gset place_of_sandbox;
  wo_created : gset place_of_sandbox;
  wo_unanswered : gset place_of_sandbox;
  wo_unreleased : gset place_of_sandbox;
}.

Definition version (s : Session) : string := om_ResourceVersion (se_Meta s).

Definition with_sessions (m : gmap string Session) (h : list Session) (w : World) : World :=
  {| wo_sessions := m; wo_history := h; wo_held := wo_held w; wo_created := wo_created w;
     wo_unanswered := wo_unanswered w; wo_unreleased := wo_unreleased w |}.

Definition with_sandboxes (held created unanswered : gset place_of_sandbox) (w : World) : World :=
  {| wo_sessions := wo_sessions w; wo_history := wo_history w; wo_held := held; wo_created := created;
     wo_unanswered := unanswered; wo_unreleased := wo_unreleased w |}.

Definition with_unreleased (x : gset place_of_sandbox) (w : World) : World :=
  {| wo_sessions := wo_sessions w; wo_history := wo_history w; wo_held := wo_held w; wo_created := wo_created w;
     wo_unanswered := wo_unanswered w; wo_unreleased := x |}.

Definition empty_world : World :=
  {| wo_sessions := ∅; wo_history := []; wo_held := ∅; wo_created := ∅; wo_unanswered := ∅; wo_unreleased := ∅ |}.

(** ** The API server *)

Definition stamp (v : string) (m : ObjectMeta) : ObjectMeta :=
  {| om_Name := om_Name m; om_Namespace := om_Namespace m; om_ResourceVersion := v; om_Labels := om_Labels m;
     om_Annotations := om_Annotations m; om_Finalizers := om_Finalizers m;
     om_DeletionTimestamp := om_DeletionTimestamp m; om_CreationTimestamp := om_CreationTimestamp m |}.

(** The stored object after an update of the main resource, of the status, and
    after a delete. *)
Definition updated (v : string) (s old : Session) : Session :=
  {| se_Meta := {| om_Name := om_Name (se_Meta old); om_Namespace := om_Namespace (se_Meta old); om_ResourceVersion := v;
       om_Labels := om_Labels (se_Meta s); om_Annotations := om_Annotations (se_Meta s);
       om_Finalizers := om_Finalizers (se_Meta s); om_DeletionTimestamp := om_DeletionTimestamp (se_Meta old);
       om_CreationTimestamp := om_CreationTimestamp (se_Meta old) |};
     se_Spec := se_Spec s; se_Status := se_Status old |}.

(** A [metav1.Time] is written as RFC 3339 text, which has no fractions of a
    second. *)
Definition whole_second (t : option Z) : option Z := match t with Some t => Some (t / Second * Second) | None => None end.

Definition kept_status (st : SessionStatus) : SessionStatus :=
  {| st_Phase := st_Phase st; st_ControllerPool := st_ControllerPool st; st_ControllerPod := st_ControllerPod st;
     st_ControllerAddress := st_ControllerAddress st; st_Port := st_Port st; st_CreatedAt := whole_second (st_CreatedAt st);
     st_ExpiresAt := whole_second (st_ExpiresAt st); st_LastExecAt := whole_second (st_LastExecAt st);
     st_TerminatedAt := whole_second (st_TerminatedAt st); st_Message := st_Message st |}.

Definition status_updated (v : string) (st : SessionStatus) (old : Session) : Session :=
  {| se_Meta := stamp v (se_Meta old); se_Spec := se_Spec old; se_Status := st |}.

Definition marked (v : string) (t : Z) (old : Session) : Session :=
  set_Meta (stamp v (if not_deleted (se_Meta old) then mark_deleted t (se_Meta old) else se_Meta old)) old.

(** A field of a merge patch: [new] is what becomes of [cur]. *)
Definition merged {A} (base modified cur new : A) : Prop :=
  (modified = base /\ new = cur) \/ (modified <> base /\ new = modified).

Definition merged_status (b m cur new : SessionStatus) : Prop :=
  merged (st_Phase b) (st_Phase m) (st_Phase cur) (st_Phase new) /\
  merged (st_ControllerPool b) (st_ControllerPool m) (st_ControllerPool cur) (st_ControllerPool new) /\
  merged (st_ControllerPod b) (st_ControllerPod m) (st_ControllerPod cur) (st_ControllerPod new) /\
  merged (st_ControllerAddress b) (st_ControllerAddress m) (st_ControllerAddress cur) (st_ControllerAddress new) /\
  merged (st_Port b) (st_Port m) (st_Port cur) (st_Port new) /\
  merged (whole_second (st_CreatedAt b)) (whole_second (st_CreatedAt m)) (st_CreatedAt cur) (st_CreatedAt new) /\
  merged (whole_second (st_ExpiresAt b)) (whole_second (st_ExpiresAt m)) (st_ExpiresAt cur) (st_ExpiresAt new) /\
  merged (whole_second (st_LastExecAt b)) (whole_second (st_LastExecAt m)) (st_LastExecAt cur) (st_LastExecAt new) /\
  merged (whole_second (st_TerminatedAt b)) (whole_second (st_TerminatedAt m)) (st_TerminatedAt cur) (st_TerminatedAt new) /\
  merged (st_Message b) (st_Message m) (st_Message cur) (st_Message new).

(** A new version replaces what is stored under the name; one that is being
    deleted and has no finalizer is removed. *)
Definition keep (s : Session) (w : World) : World :=
  with_sessions (match persist s with Some _ => <[name_of s := s]> (wo_sessions w) | None => delete (name_of s) (wo_sessions w) end)
    (s :: wo_history w) w.

Definition fresh_version (v : string) (w : World) : Prop := Forall (fun s => version s <> v) (wo_history w).

(** Labels that a selector asks for. *)
Definition selected (sel : labels) (s : Session) : bool :=
  forallb (fun kv => bool_decide (map_get kv.1 (om_Labels (se_Meta s)) = Some kv.2)) sel.

(** A call that succeeded did its work; one that failed may have. *)
Definition tried (succeeded : bool) (effect : World -> World -> Prop) (w w' : World) : Prop :=
  effect w w' \/ (succeeded = false /\ w' = w).

Section cluster.
Context (rc : ReconcilerConfig).

(** Where the sandbox of a placed session is. *)
Definition sandbox_place (s : Session) : place_of_sandbox :=
  (sessionControllerURL rc s +:+ "/v1/sandboxes", ss_SessionID (se_Spec s)).

Definition create_effect (s : Session) (w w' : World) : Prop :=
  wo_sessions w !! name_of s = None /\ exists v, fresh_version v w /\ w' = keep (status_updated v empty_status s) w.

(** An update that takes the finalizer from a session in phase Deleting is
    recorded. *)
Definition unreleased_by (old new : Session) (w : World) : gset place_of_sandbox :=
  if ContainsFinalizer (se_Meta old) FinalizerSessionCleanup && negb (ContainsFinalizer (se_Meta new) FinalizerSessionCleanup)
     && (phase_of old =?s SandboxPhaseDeleting)
  then {[sandbox_place old]} ∪ wo_unreleased w else wo_unreleased w.

Definition update_effect (s s' : Session) (w w' : World) : Prop :=
  exists old v, wo_sessions w !! name_of s = Some old /\ version s = version old /\ fresh_version v w /\
    s' = updated v s old /\ w' = with_unreleased (unreleased_by old s' w) (keep s' w).

Definition status_effect (s s' : Session) (w w' : World) : Prop :=
  exists old v, wo_sessions w !! name_of s = Some old /\ version s = version old /\ fresh_version v w /\
    s' = status_updated v (kept_status (se_Status s)) old /\ w' = keep s' w.

Definition patch_effect (b m s' : Session) (w w' : World) : Prop :=
  exists old v st, wo_sessions w !! name_of m = Some old /\ fresh_version v w /\
    merged_status (se_Status b) (se_Status m) (se_Status old) st /\ s' = status_updated v st old /\ w' = keep s' w.

Definition delete_effect (s : Session) (w w' : World) : Prop :=
  exists old v t, wo_sessions w !! name_of s = Some old /\ fresh_version v w /\ w' = keep (marked v t old) w.

(** ** The controllers *)

(** Whether a controller had the sandbox, the status of its answer to a request
    to create or to delete it, and whether it has the sandbox now. *)
Definition create_contract (had : bool) (status : Z) (has : bool) : Prop :=
  if status <? 300 then had = false /\ has = true else has = had /\ status <> 404.

Definition delete_contract (had : bool) (status : Z) (has : bool) : Prop :=
  if status <? 300 then has = false else has = had /\ (status = 404 -> had = false).

Definition hold (p : place_of_sandbox) (has : bool) (held : gset place_of_sandbox) : gset place_of_sandbox :=
  if has then {[p]} ∪ held else held ∖ {[p]}.

Definition create_answer {A} (p : place_of_sandbox) (a : HttpAnswer A) (w w' : World) : Prop :=
  match a with
  | NoResponse _ => exists has, (p ∈ wo_held w -> has = true) /\
      w' = with_sandboxes (hold p has (wo_held w)) (wo_created w) ({[p]} ∪ wo_unanswered w) w
  | HttpResponse status _ _ => exists has, create_contract (bool_decide (p ∈ wo_held w)) status has /\
      w' = with_sandboxes (hold p has (wo_held w)) (if status <? 300 then {[p]} ∪ wo_created w else wo_created w)
             (wo_unanswered w) w
  end.

Definition delete_answer {A} (p : place_of_sandbox) (a : HttpAnswer A) (w w' : World) : Prop :=
  match a with
  | NoResponse _ => exists has, (p ∉ wo_held w -> has = false) /\
      w' = with_sandboxes (hold p has (wo_held w)) (wo_created w) ({[p]} ∪ wo_unanswered w) w
  | HttpResponse status _ _ => exists has, delete_contract (bool_decide (p ∈ wo_held w)) status has /\
      w' = with_sandboxes (hold p has (wo_held w)) (wo_created w) (wo_unanswered w) w
  end.

(** A controller that restarts has lost its sandboxes. *)
Definition restarted (w w' : World) : Prop :=
  exists url, w' = with_sandboxes (filter (fun p => p.1 <> url) (wo_held w)) (wo_created w) (wo_unanswered w) w.

(** ** Calls *)

Definition local_ns (s : Session) : bool := om_Namespace (se_Meta s) =?s rc_Namespace rc.

Definition is_ok {A} (x : A + Err) : bool := match x with inl _ => true | inr _ => false end.

(** The answer of a write is the stored object. *)
Definition write_answer (x : Session + Err) (effect : Session -> World -> World -> Prop) (w w' : World) : Prop :=
  match x with
  | inl s' => effect s' w w'
  | inr _ => w' = w \/ exists s', effect s' w w'
  end.

Definition world_env : env World := fun e w x w' => honest e x /\
  match e return KAnswer e -> Prop with
  | GetSession ns name => fun x => w' = w /\
      match x with inl s => ns = rc_Namespace rc -> wo_sessions w !! name = Some s | inr _ => True end
  | ListSessions ns sel => fun x => w' = w /\
      match x with
      | inl l => ns = rc_Namespace rc -> Permutation l (List.filter (selected sel) (stored (wo_sessions w)))
      | inr _ => True
      end
  | CreateSession s => fun x => if local_ns s then tried (bool_decide (x = None)) (create_effect s) w w' else w' = w
  | UpdateSession s => fun x => if local_ns s then write_answer x (update_effect s) w w' else w' = w
  | StatusUpdateSession s => fun x => if local_ns s then write_answer x (status_effect s) w w' else w' = w
  | StatusPatchSession b m => fun x => if local_ns m then write_answer x (patch_effect b m) w w' else w' = w
  | DeleteSession s => fun x => if local_ns s then tried (bool_decide (x = None)) (delete_effect s) w w' else w' = w
  | Http url (CRCreate r) => fun a => create_answer (url, cr_SandboxID r) a w w'
  | Http url (CRDelete r) => fun a => delete_answer (url, dr_SandboxID r) a w w'
  | _ => fun _ => w' = w
  end x.

(** ** The invariant *)

Definition live (s : Session) : Prop := not_deleted (se_Meta s) = true.

Definition finalizing (s : Session) : Prop := ContainsFinalizer (se_Meta s) FinalizerSessionCleanup = true.

(** A session that may have a sandbox. *)
Definition anchor (s : Session) : Prop :=
  address_of s <> "" /\ phase_of s ∈ [SandboxPhaseCreating; SandboxPhaseRunning; SandboxPhaseDeleting].

(** A stored session whose clean-up will release the sandbox. *)
Definition answers_for (s : Session) (p : place_of_sandbox) : Prop := anchor s /\ finalizing s /\ sandbox_place s = p.

Definition excused (w : World) (p : place_of_sandbox) : Prop := p ∈ wo_unanswered w ∪ wo_unreleased w.

Definition accounted (w : World) (p : place_of_sandbox) : Prop :=
  excused w p \/ exists k s, wo_sessions w !! k = Some s /\ answers_for s p.

Record world_ok (w : World) : Prop := {
  ok_names : map_Forall (fun k s => name_of s = k /\ local_ns s = true) (wo_sessions w);
  ok_stored : map_Forall (fun _ s => s ∈ wo_history w) (wo_sessions w);
  ok_versions : NoDup (version <$> wo_history w);
  ok_types : map_Forall (fun _ s => session_wf rc s) (wo_sessions w);
  ok_capacity : within_capacity rc (wo_sessions w);
  ok_finalizers : map_Forall (fun _ s => address_of s <> "" -> live s -> finalizing s) (wo_sessions w);
  ok_running : map_Forall (fun _ s => phase_of s = SandboxPhaseRunning -> sandbox_place s ∈ wo_created w) (wo_sessions w);
  ok_held : forall p, p ∈ wo_held w -> accounted w p;
}.

(** What is asked of a session before it is stored. *)
Record storable (w : World) (s : Session) : Prop := {
  new_version : fresh_version (version s) w;
  new_local : local_ns s = true;
  new_type : session_wf rc s;
  new_capacity : within_capacity rc (<[name_of s := s]> (wo_sessions w));
  new_finalizer : address_of s <> "" -> live s -> finalizing s;
  new_running : phase_of s = SandboxPhaseRunning -> sandbox_place s ∈ wo_created w;
  new_held : forall old p, wo_sessions w !! name_of s = Some old -> answers_for old p -> p ∈ wo_held w ->
    excused w p \/ answers_for s p;
}.

Lemma persist_finalizing (s : Session) : finalizing s -> persist s = Some s.
Proof.
  unfold finalizing, persist, ContainsFinalizer. destruct (om_DeletionTimestamp _); [|done].
  by destruct (om_Finalizers _).
Qed.

Lemma keep_sessions (P : string -> Session -> Prop) (w : World) (s : Session) :
  map_Forall P (wo_sessions w) -> P (name_of s) s -> map_Forall P (wo_sessions (keep s w)).
Proof. intros Hw Hs. cbn. destruct (persist s); [by apply map_Forall_insert_2|by apply map_Forall_delete]. Qed.

Lemma keep_ok (w : World) (s : Session) : world_ok w -> storable w s -> world_ok (keep s w).
Proof.
  intros Hw Hs. split.
  - apply keep_sessions; [apply Hw|]. split; [done|apply Hs].
  - apply (keep_sessions (fun _ s1 => s1 ∈ s :: wo_history w)); [|by left].
    eapply map_Forall_impl; [apply (ok_stored w Hw)|]. intros k s1 ?. by right.
  - cbn. apply NoDup_cons. split; [|apply Hw]. intros (s1 & Hv & Hin)%list_elem_of_fmap.
    pose proof (new_version w s Hs) as Hf. unfold fresh_version in Hf. rewrite Forall_forall in Hf. by apply (Hf s1 Hin).
  - apply (keep_sessions (fun _ s => session_wf rc s)); [apply Hw|apply Hs].
  - cbn. destruct (persist s); [apply Hs|apply within_delete, Hw].
  - apply (keep_sessions (fun _ s => address_of s <> "" -> live s -> finalizing s)); [apply Hw|apply Hs].
  - apply (keep_sessions (fun _ s => phase_of s = SandboxPhaseRunning -> sandbox_place s ∈ wo_created w)); [apply Hw|apply Hs].
  - intros p Hp. destruct (ok_held w Hw p Hp) as [He|(k & s1 & Hk & Ha)]; [by left|].
    destruct (decide (k = name_of s)) as [->|Hne].
    + destruct (new_held w s Hs s1 p Hk Ha Hp) as [?|Hans]; [by left|]. right. exists (name_of s), s.
      split; [|done]. cbn. rewrite (persist_finalizing s) by apply Hans. apply lookup_insert_eq.
    + right. exists k, s1. split; [|done]. cbn.
      destruct (persist s); [by rewrite lookup_insert_ne|by rewrite lookup_delete_ne].
Qed.

(** ** What the others do *)

(** Their calls: they create sessions that wait, move sessions to Deleting,
    record the last use and delete; and do not create or release sandboxes. *)
Definition gentle (e : KEvent) : Prop :=
  match e with
  | CreateSession s => exists cfg id sandbox owner, s = new_session cfg id sandbox owner
  | StatusPatchSession b m => m = set_Phase SandboxPhaseDeleting b \/ exists t, m = set_LastExecAt t b
  | UpdateSession _ | StatusUpdateSession _ | Http _ (CRCreate _) | Http _ (CRDelete _) => False
  | _ => True
  end.

Definition others (w w' : World) : Prop :=
  (exists e x, gentle e /\ world_env e w x w') \/ restarted w w'.

(** The new version is the old one but for its phase, which may now be
    Deleting, the time of the last use and its metadata. *)
Definition succeeds (old new : Session) : Prop :=
  name_of new = name_of old /\ local_ns new = local_ns old /\ se_Spec new = se_Spec old /\
  om_Finalizers (se_Meta new) = om_Finalizers (se_Meta old) /\
  (live new -> live old) /\
  exists t, se_Status new = se_Status old \/ se_Status new = se_Status (set_LastExecAt t old) \/
    se_Status new = se_Status (set_Phase SandboxPhaseDeleting old).

Lemma succeeds_place (old new : Session) : succeeds old new -> sandbox_place new = sandbox_place old /\ address_of new = address_of old.
Proof.
  intros (_ & _ & Hs & _ & _ & t & Hst). unfold sandbox_place, sessionControllerURL, address_of. rewrite Hs.
  by destruct Hst as [-> |[-> | ->]].
Qed.

Lemma succeeds_phase (old new : Session) : succeeds old new -> phase_of new = phase_of old \/ phase_of new = SandboxPhaseDeleting.
Proof. intros (_ & _ & _ & _ & _ & t & Hst). unfold phase_of. destruct Hst as [-> |[-> | ->]]; [by left..|by right]. Qed.

Lemma succeeds_wf (old new : Session) : succeeds old new -> session_wf rc old -> session_wf rc new.
Proof.
  intros (_ & _ & _ & _ & _ & t & Hst) Hwf. unfold session_wf in *.
  destruct Hst as [-> |[-> | ->]]; [done|exact (wf_last_exec rc t old Hwf)|exact (wf_deleting rc old Hwf)].
Qed.

Lemma succeeds_contrib (old new : Session) (pod : string) : succeeds old new -> contrib new pod <= contrib old pod.
Proof.
  intros (_ & _ & _ & _ & _ & t & Hst). destruct Hst as [Hst|[Hst|Hst]]; rewrite (contrib_eq new _ pod Hst); [lia| |].
  - by unfold contrib, occupies.
  - rewrite (contrib_ended _ pod); [apply contrib_nonneg|by left].
Qed.

Lemma succeeds_finalizing (old new : Session) : succeeds old new -> finalizing new <-> finalizing old.
Proof. intros (_ & _ & _ & Hf & _). unfold finalizing, ContainsFinalizer. by rewrite Hf. Qed.

Lemma succeeds_answers (old new : Session) (p : place_of_sandbox) : succeeds old new -> answers_for old p -> answers_for new p.
Proof.
  intros Hs ([Ha Hph] & Hf & <-). destruct (succeeds_place _ _ Hs) as [Hp Haddr]. split_and!; [|by apply (succeeds_finalizing old new)|done].
  split; [by rewrite Haddr|]. destruct (succeeds_phase _ _ Hs) as [-> | ->]; [done|]. do 2 right. left.
Qed.

Lemma succeeds_storable (w : World) (old new : Session) :
  world_ok w -> wo_sessions w !! name_of new = Some old -> fresh_version (version new) w -> succeeds old new -> storable w new.
Proof.
  intros Hw Hk Hv Hs. destruct (succeeds_place _ _ Hs) as [Hp Ha]. split.
  - done.
  - destruct Hs as (_ & -> & _). by apply (ok_names w Hw _ _ Hk).
  - by eapply succeeds_wf, (ok_types w Hw _ _ Hk).
  - eapply within_replace; [apply Hw|done|]. intros pod. by apply succeeds_contrib.
  - intros Hne Hl. apply (succeeds_finalizing old); [done|]. rewrite Ha in Hne.
    apply (ok_finalizers w Hw _ _ Hk); [done|]. by apply Hs.
  - rewrite Hp. intros Hr. apply (ok_running w Hw _ _ Hk). destruct (succeeds_phase _ _ Hs) as [<-|He]; [done|].
    rewrite Hr in He. done.
  - intros old' p Hk' Hans _. rewrite Hk in Hk'. injection Hk' as <-. right. by eapply succeeds_answers.
Qed.

(** A session that was just created. *)
Definition waiting (s : Session) : Prop := se_Status s = empty_status /\ local_ns s = true.

Lemma waiting_storable (w : World) (s : Session) :
  world_ok w -> wo_sessions w !! name_of s = None -> fresh_version (version s) w -> waiting s -> storable w s.
Proof.
  intros Hw Hk Hv [Hst Hl]. assert (address_of s = "") as Ha by (unfold address_of; by rewrite Hst). split; [done|done|..].
  - unfold session_wf. rewrite Hst. split_and!; [left|by right|done|by intros []|done].
  - split; [by apply map_Forall_insert_2; [|apply Hw]|]. intros pod. rewrite podCount_insert, delete_id by done.
    destruct (ok_capacity w Hw) as [_ Hc]. specialize (Hc pod).
    assert (contrib s pod = 0) as ->; [|lia]. unfold contrib, occupies, phase_of. by rewrite Hst.
  - done.
  - unfold phase_of. by rewrite Hst.
  - intros old p Hk'. by rewrite Hk in Hk'.
Qed.

Lemma marked_succeeds (v : string) (t : Z) (old : Session) : succeeds old (marked v t old).
Proof.
  destruct old as [[? ? ? ? ? ? [|] ?] ? ?]; unfold succeeds, live; cbn; (split_and!; [done..|]); exists 0; by left.
Qed.

Lemma merged_same {A} (b cur new : A) : merged b b cur new -> new = cur.
Proof. by intros [[_ ?]|[? _]]. Qed.

(** What a patch that only moves to Deleting or records the last use does. *)
Lemma merged_change (b m old : Session) (st : SessionStatus) :
  m = set_Phase SandboxPhaseDeleting b \/ (exists t, m = set_LastExecAt t b) ->
  merged_status (se_Status b) (se_Status m) (se_Status old) st ->
  exists t, st = se_Status old \/ st = se_Status (set_LastExecAt t old) \/ st = se_Status (set_Phase SandboxPhaseDeleting old).
Proof.
  intros Hm H. destruct H as (H1 & H2 & H3 & H4 & H5 & H6 & H7 & H8 & H9 & H10).
  destruct Hm as [->|[t ->]]; cbn in *;
    repeat match goal with H : merged ?x ?x _ _ |- _ => apply merged_same in H end; destruct old as [? ? []], st; cbn in *; subst.
  - exists 0. destruct H1 as [[_ ->]|[_ ->]]; [by left|by do 2 right].
  - exists (t / Second * Second). destruct H8 as [[_ ->]|[_ ->]]; [by left|by right; left].
Qed.

(** The sessions after one of their calls. *)
Lemma gentle_cases (w w' : World) (e : KEvent) (x : KAnswer e) :
  world_ok w -> gentle e -> world_env e w x w' ->
  w' = w \/ exists s, w' = keep s w /\ fresh_version (version s) w /\
    ((exists old, wo_sessions w !! name_of s = Some old /\ succeeds old s) \/ (wo_sessions w !! name_of s = None /\ waiting s)).
Proof.
  intros Hw He [_ Hx]. destruct e; try (by left); try (by left; apply Hx); try done.
  - destruct (local_ns s) eqn:Hns; [|by left].
    destruct Hx as [(Hk & v & Hv & ->)|[_ ->]]; [|by left]. right.
    exists (status_updated v empty_status s). split_and!; [done|done|]. right. by split; [|split].
  - destruct (local_ns modified) eqn:Hns; [|by left].
    assert (w' = w \/ exists s', patch_effect base modified s' w w') as [->|(s' & old & v & st & Hk & Hv & Hm & -> & ->)];
      [destruct x; eauto|by left|].
    right. exists (status_updated v st old). destruct (ok_names w Hw _ _ Hk) as [Hn Hloc]. split_and!; [done|done|]. left.
    exists old. split; [by unfold name_of in *; cbn; rewrite Hn|]. split_and!; [done..|]. cbn [se_Status status_updated].
    by eapply merged_change.
  - destruct (local_ns s) eqn:Hns; [|by left].
    destruct Hx as [(old & v & t & Hk & Hv & ->)|[_ ->]]; [|by left]. right.
    destruct (ok_names w Hw _ _ Hk) as [Hn Hloc]. exists (marked v t old).
    split_and!; [done|done|]. left. exists old. split; [|apply marked_succeeds].
    by rewrite (proj1 (marked_succeeds v t old)), Hn.
  - left. destruct r; try done.
Qed.

Lemma restarted_ok (w w' : World) : world_ok w -> restarted w w' -> world_ok w'.
Proof. intros Hw [url ->]. split; try apply Hw. intros p [_ Hp]%elem_of_filter. by apply (ok_held w Hw). Qed.

Lemma others_ok (w w' : World) : world_ok w -> others w w' -> world_ok w'.
Proof.
  intros Hw [(e & x & He & Hx)|Hr]; [|by eapply restarted_ok].
  destruct (gentle_cases w w' e x Hw He Hx) as [->|(s & -> & Hv & [(old & Hk & Hs)|[Hk Hs]])]; [done|..]; apply keep_ok; try done.
  - by eapply succeeds_storable.
  - by apply waiting_storable.
Qed.

(** What the worker can count on while the others are at work. *)
Record evolves (w w' : World) : Prop := {
  ev_history : forall s, s ∈ wo_history w -> s ∈ wo_history w';
  ev_held : wo_held w' ⊆ wo_held w;
  ev_created : wo_created w' = wo_created w;
  ev_excused : forall p, excused w' p <-> excused w p;
  ev_answers : forall k s p, wo_sessions w !! k = Some s -> answers_for s p ->
    exists s', wo_sessions w' !! k = Some s' /\ answers_for s' p;
  ev_room : forall pod, podCount (stored (wo_sessions w')) pod <= podCount (stored (wo_sessions w)) pod;
}.

Lemma evolves_refl (w : World) : evolves w w.
Proof. by split; eauto. Qed.

Lemma evolves_trans (w1 w2 w3 : World) : evolves w1 w2 -> evolves w2 w3 -> evolves w1 w3.
Proof.
  intros H1 H2. split.
  - intros s Hs. by apply H2, H1.
  - etrans; [apply H2|apply H1].
  - etrans; [apply H2|apply H1].
  - intros p. etrans; [apply H2|apply H1].
  - intros k s p Hk Ha. destruct (ev_answers _ _ H1 k s p Hk Ha) as (s2 & Hk2 & Ha2). by eapply H2.
  - intros pod. etrans; [apply H2|apply H1].
Qed.

(** Storing a version that answers for the same sandboxes and takes no more room. *)
Lemma keep_evolves (w : World) (s : Session) :
  (forall old p, wo_sessions w !! name_of s = Some old -> answers_for old p -> answers_for s p) ->
  (forall pod, podCount (stored (<[name_of s := s]> (wo_sessions w))) pod <= podCount (stored (wo_sessions w)) pod) ->
  evolves w (keep s w).
Proof.
  intros Ha Hc. split; try done.
  - intros s1 Hs1. by right.
  - intros k s1 p Hk Hs1. destruct (decide (k = name_of s)) as [->|Hne].
    + pose proof (Ha s1 p Hk Hs1) as Hans. exists s. split; [|done]. cbn. rewrite persist_finalizing by apply Hans.
      apply lookup_insert_eq.
    + exists s1. split; [|done]. cbn. destruct (persist s); [by rewrite lookup_insert_ne|by rewrite lookup_delete_ne].
  - intros pod. cbn. destruct (persist s); [apply Hc|apply podCount_delete].
Qed.

Lemma others_evolves (w w' : World) : world_ok w -> others w w' -> evolves w w'.
Proof.
  intros Hw [(e & x & He & Hx)|[url ->]].
  2: { split; try done; [|by intros k s p Hk Ha; exists s]. intros p Hp. by apply elem_of_filter in Hp as [_ ?]. }
  destruct (gentle_cases w w' e x Hw He Hx) as [->|(s & -> & Hv & [(old & Hk & Hs)|[Hk [Hs _]]])]; [apply evolves_refl|..];
    apply keep_evolves.
  - intros old' p Hk' Ha. rewrite Hk in Hk'. injection Hk' as <-. by eapply succeeds_answers.
  - intros pod. rewrite podCount_insert, (podCount_split (wo_sessions w) (name_of s) old) by done. pose proof (succeeds_contrib old s pod Hs). lia.
  - intros old p Hk'. by rewrite Hk in Hk'.
  - intros pod. rewrite podCount_insert, delete_id by done.
    assert (contrib s pod = 0) as ->; [|lia]. unfold contrib, occupies, phase_of. by rewrite Hs.
Qed.

Lemma others_rtc (w w' : World) : rtc others w w' -> world_ok w -> world_ok w' /\ evolves w w'.
Proof.
  induction 1 as [w|w w1 w' H1 _ IH]; intros Hw; [by split; [|apply evolves_refl]|].
  destruct IH as [H' He]; [by eapply others_ok|]. split; [done|]. eapply evolves_trans; [by apply others_evolves|done].
Qed.

(** ** The session worker *)

Definition safe {A} (p : prog A) (w : World) (Q : A -> World -> Prop) : Prop := upheld world_env others world_ok p w Q.

Definition anywhere {A} : A -> World -> Prop := fun _ _ => True.

(** Calls that change neither sessions nor sandboxes. *)
Definition looks (e : KEvent) : Prop :=
  match e with
  | ListSandboxes _ _ | ListPods _ _ | ListSessions _ _ | GetStatefulSet _ _ | UpdateStatefulSet _ | Now | Observe _ _ _ => True
  | _ => False
  end.

Lemma looks_inert (e : KEvent) : looks e -> inert world_env e.
Proof. intros He w x w' [_ Hx]. destruct e; try done. by destruct Hx. Qed.

Ltac looks_tac := repeat first [done | progress cbn [only bind call] | case_match | split | intros ?].

Lemma fetch_looks (id : string) : only looks (fetchSandboxConfig rc id).
Proof. unfold fetchSandboxConfig. looks_tac. Qed.

Lemma scaleUp_looks : only looks (scaleUp rc).
Proof. unfold scaleUp, scaleStatefulSet, ScaledUp. looks_tac. Qed.

Lemma safe_looks {A B} (p : prog A) (f : A -> prog B) (w : World) (Q : B -> World -> Prop) :
  only looks p -> world_ok w -> (forall a w', world_ok w' -> evolves w w' -> safe (f a) w' Q) -> safe (bind p f) w Q.
Proof.
  intros Hp Hw Hf. eapply upheld_bind; [eapply (upheld_quiet world_env others world_ok others_ok looks); [done|apply looks_inert|done]|].
  intros a w' Hw' Hr. apply Hf; [done|]. by apply others_rtc.
Qed.

Lemma safe_call {A} (e : KEvent) (k : KAnswer e -> prog A) (w : World) (Q : A -> World -> Prop) :
  world_ok w ->
  (forall w1 x w', world_ok w1 -> evolves w w1 -> world_env e w1 x w' -> safe (k x) w' Q) -> safe (Vis (e : @event KSig) k) w Q.
Proof.
  intros Hw Hk. apply (upheld_vis world_env others world_ok others_ok); [done|]. intros w1 x w' Hr Hw1 Hx.
  apply (Hk w1); [done| |done]. by apply others_rtc.
Qed.

Lemma safe_end {A} (a : A) (w : World) : world_ok w -> safe (Ret a) w anywhere.
Proof. done. Qed.

(** A look at the clock before the end. *)
Lemma safe_now {A} (f : Z -> A) (w : World) : world_ok w -> safe (now <- call Now ;; Ret (f now)) w anywhere.
Proof. intros Hw. apply safe_looks; [done|done|]. intros now w' Hw' _. by apply safe_end. Qed.

(** The stored session that has the version of [s] is [s]. *)
Lemma same_version (w : World) (k : string) (s old : Session) :
  world_ok w -> s ∈ wo_history w -> wo_sessions w !! k = Some old -> version s = version old -> old = s.
Proof.
  intros Hw Hs Hk Hv. pose proof (ok_stored w Hw _ _ Hk) as Ho. simpl in Ho. pose proof (ok_versions w Hw) as Hnd.
  induction (wo_history w) as [|h l IH]; [by apply not_elem_of_nil in Hs|]. cbn in Hnd. apply NoDup_cons in Hnd as [Hh Hnd].
  apply elem_of_cons in Hs as [->|Hs], Ho as [->|Ho]; [done|..|by apply IH].
  - exfalso. apply Hh. rewrite Hv. by apply list_elem_of_fmap_2.
  - exfalso. apply Hh. rewrite <- Hv. by apply list_elem_of_fmap_2.
Qed.

(** The worker holds a version [s] that was stored. *)
Definition seen (s : Session) (w : World) : Prop := s ∈ wo_history w /\ local_ns s = true.

Lemma seen_evolves (s : Session) (w w' : World) : seen s w -> evolves w w' -> seen s w'.
Proof. intros [Hs Hl] He. split; [|done]. by apply He. Qed.

(** Writing the status [st] over the version [s0]. *)
Lemma safe_update_status (s s0 : Session) (w : World) (k : Session -> prog (Result * error)) :
  world_ok w -> seen s0 w -> se_Meta s = se_Meta s0 ->
  (forall w1 v, world_ok w1 -> evolves w w1 -> wo_sessions w1 !! name_of s0 = Some s0 -> fresh_version v w1 ->
     storable w1 (status_updated v (kept_status (se_Status s)) s0)) ->
  (forall w1 v, world_ok w1 -> evolves w w1 -> let s' := status_updated v (kept_status (se_Status s)) s0 in
     world_ok (keep s' w1) -> seen s' (keep s' w1) -> safe (k s') (keep s' w1) anywhere) ->
  safe (update_status s k) w anywhere.
Proof.
  intros Hw Hseen Hmeta Hst Hk. unfold update_status. cbn [bind call]. apply safe_call; [done|].
  intros w1 x w' Hw1 Hev [_ Hx].
  assert (local_ns s = true) as Hl by (unfold local_ns; rewrite Hmeta; apply Hseen).
  assert (forall s', status_effect s s' w1 w' -> exists v, s' = status_updated v (kept_status (se_Status s)) s0 /\ w' = keep s' w1 /\
    world_ok w' /\ seen s' w') as Heff.
  { intros s' (old & v & Hold & Hver & Hv & -> & ->).
    assert (old = s0) as ->.
    { eapply same_version; [exact Hw1|by apply Hev, Hseen|done|]. unfold version in *. by rewrite <- Hmeta. }
    assert (name_of s = name_of s0) as Hn by (unfold name_of; by rewrite Hmeta). rewrite Hn in Hold.
    exists v. split_and!; [done|done|apply keep_ok; auto|]. split; [by left|]. by apply Hseen. }
  cbn [world_env] in Hx. rewrite Hl in Hx. destruct x as [s'|err].
  - destruct (Heff s' Hx) as (v & -> & -> & Hw' & Hs'). by apply Hk.
  - apply safe_end. destruct Hx as [->|[s' He]]; [done|]. by destruct (Heff s' He) as (v & _ & _ & ? & _).
Qed.

Lemma wf_kept (s s0 : Session) (v : string) :
  session_wf rc s -> session_wf rc (status_updated v (kept_status (se_Status s)) s0).
Proof.
  unfold session_wf, placed, unplaced. cbn. unfold whole_second.
  destruct (st_CreatedAt _), (st_TerminatedAt _); naive_solver.
Qed.

(** A new status for the stored session [s0]. *)
Lemma status_storable (w : World) (s s0 : Session) (v : string) :
  let st := kept_status (se_Status s) in let s' := status_updated v st s0 in
  world_ok w -> wo_sessions w !! name_of s0 = Some s0 -> fresh_version v w -> session_wf rc s ->
  within_capacity rc (<[name_of s0 := s']> (wo_sessions w)) ->
  (address_of s' <> "" -> live s0 -> finalizing s0) ->
  (phase_of s' = SandboxPhaseRunning -> sandbox_place s' ∈ wo_created w) ->
  (forall p, answers_for s0 p -> p ∈ wo_held w -> excused w p \/ answers_for s' p) -> storable w s'.
Proof.
  intros st s' Hw Hk Hv Hwf Hc Hf Hr Hh. split; try done.
  - by apply (ok_names w Hw _ _ Hk).
  - by apply wf_kept.
  - intros old p Hold. change (name_of s') with (name_of s0) in Hold. rewrite Hk in Hold. injection Hold as <-. auto.
Qed.

(** One that keeps the place of the session. *)
Lemma status_storable_placed (w : World) (s s0 : Session) (v : string) :
  let st := kept_status (se_Status s) in let s' := status_updated v st s0 in
  world_ok w -> wo_sessions w !! name_of s0 = Some s0 -> fresh_version v w -> session_wf rc s ->
  st_ControllerAddress st = address_of s0 -> st_Port st = st_Port (se_Status s0) ->
  (forall pod, contrib s' pod <= contrib s0 pod) ->
  (phase_of s' = SandboxPhaseRunning -> sandbox_place s0 ∈ wo_created w) ->
  (forall p, answers_for s0 p -> p ∈ wo_held w -> excused w p \/ anchor s') -> storable w s'.
Proof.
  intros st s' Hw Hk Hv Hwf Ha Hport Hc Hr Hh.
  assert (sandbox_place s' = sandbox_place s0) as Hp.
  { unfold sandbox_place, sessionControllerURL, address_of. subst st. cbn in Hport, Ha |- *. rewrite Hport, Ha. done. }
  assert (address_of s' = address_of s0) as Haddr by done.
  apply status_storable; try done.
  - change (name_of s0) with (name_of s'). by apply (within_replace rc _ s0); [apply Hw| |].
  - intros Hne Hl. apply (ok_finalizers w Hw _ _ Hk); [|done]. by rewrite <- Haddr.
  - intros Hrun. fold st s'. rewrite Hp. auto.
  - intros p Hans Hheld. destruct (Hh p Hans Hheld); [by left|]. right. destruct Hans as (_ & Hf & <-). done.
Qed.

(** *** Sandboxes *)

(** The controllers may have the sandbox only if that is excused. *)
Definition clear (p : place_of_sandbox) (w : World) : Prop := p ∈ wo_held w -> excused w p.

Lemma clear_evolves (p : place_of_sandbox) (w w' : World) : clear p w -> evolves w w' -> clear p w'.
Proof. intros Hc He Hp. apply He, Hc. by apply He. Qed.

(** The sessions are as they were. *)
Definition same_sessions (w w' : World) : Prop :=
  wo_sessions w' = wo_sessions w /\ wo_history w' = wo_history w.

Lemma sandboxes_ok (w : World) (held created unanswered : gset place_of_sandbox) :
  world_ok w -> wo_created w ⊆ created -> wo_unanswered w ⊆ unanswered ->
  (forall p, p ∈ held -> p ∈ wo_held w \/ accounted (with_sandboxes held created unanswered w) p) ->
  world_ok (with_sandboxes held created unanswered w).
Proof.
  intros Hw Hc Hu Hh. split; try apply Hw.
  - intros k s Hk Hr. apply Hc. by apply (ok_running w Hw _ _ Hk).
  - intros p Hp. destruct (Hh p Hp) as [Hheld|]; [|done]. destruct (ok_held w Hw p Hheld) as [He|?]; [left|by right].
    unfold excused in *. cbn. set_solver.
Qed.

Lemma create_answer_ok {A} (p : place_of_sandbox) (a : HttpAnswer A) (w w' : World) (k : string) (s : Session) :
  world_ok w -> wo_sessions w !! k = Some s -> answers_for s p -> create_answer p a w w' ->
  world_ok w' /\ same_sessions w w' /\ (accepted a -> p ∈ wo_created w') /\ (gone a -> clear p w').
Proof.
  intros Hw Hk Hans Ha.
  assert (forall has held created unanswered q, q ∈ hold p has held ->
    q ∈ held \/ accounted (with_sandboxes (hold p has held) created unanswered w) q) as Hhold.
  { intros has held created unanswered q. unfold hold. destruct has; [|set_solver].
    intros [->%elem_of_singleton|?]%elem_of_union; [|by left]. right. right. exists k, s. done. }
  destruct a as [msg|status t out]; cbn [create_answer accepted gone] in *.
  - destruct Ha as (has & _ & ->). split_and!; [apply sandboxes_ok; [done|done|set_solver|auto]|done|done|].
    intros _ _. unfold excused. cbn. set_solver.
  - destruct Ha as (has & Hc & ->). split_and!.
    + apply sandboxes_ok; [done|destruct (_ <? _); set_solver|done|auto].
    + done.
    + intros Hs. cbn. rewrite (proj2 (Z.ltb_lt _ _) Hs). set_solver.
    + intros ->. by destruct Hc.
Qed.

Lemma delete_answer_ok {A} (p : place_of_sandbox) (a : HttpAnswer A) (w w' : World) :
  world_ok w -> delete_answer p a w w' ->
  world_ok w' /\ same_sessions w w' /\ wo_created w' = wo_created w /\ (accepted a \/ gone a -> clear p w').
Proof.
  intros Hw Ha. destruct a as [msg|status t out]; cbn [delete_answer accepted gone] in *.
  - destruct Ha as (has & Hh & ->). split_and!; [|done|done|intros _ _; unfold excused; cbn; set_solver].
    apply sandboxes_ok; [done|done|set_solver|]. intros q. unfold hold. destruct has; [|set_solver].
    intros [->%elem_of_singleton|?]%elem_of_union; [|by left]. left. destruct (decide (p ∈ wo_held w)); [done|]. by specialize (Hh n).
  - destruct Ha as (has & Hc & ->). unfold delete_contract in Hc.
    assert (has = true -> p ∈ wo_held w) as Hhas.
    { intros ->. destruct (status <? 300); [done|]. destruct Hc as [Hc _]. symmetry in Hc. by apply bool_decide_eq_true in Hc. }
    assert (status < 300 \/ status = 404 -> has = false) as Hno.
    { intros [Hs| ->]; [|by destruct Hc as [-> Hc]; apply Hc]. by rewrite (proj2 (Z.ltb_lt _ _) Hs) in Hc. }
    split_and!; [|done|done|].
    + apply sandboxes_ok; [done|done|done|]. intros q. unfold hold. destruct has; [|set_solver].
      intros [->%elem_of_singleton|?]%elem_of_union; left; auto.
    + intros Hs Hp. exfalso. cbn in Hp. rewrite (Hno Hs) in Hp. unfold hold in Hp. set_solver.
Qed.

Lemma seen_same (s : Session) (w w' : World) : seen s w -> same_sessions w w' -> seen s w'.
Proof. intros [Hs Hl] [_ Hh]. split; [by rewrite Hh|done]. Qed.

Lemma safe_release (s : Session) (w : World) :
  world_ok w -> seen s w -> safe (release rc s) w (fun ok w' => seen s w' /\ (ok = true -> clear (sandbox_place s) w')).
Proof.
  intros Hw Hs. unfold release, DeleteSandbox, send. cbn [bind call]. apply safe_call; [done|].
  intros w1 a w' Hw1 Hev [_ Ha]. cbn in Ha. change (_, _) with (sandbox_place s) in Ha.
  destruct (delete_answer_ok _ a w1 w' Hw1 Ha) as (Hw' & Hsame & _ & Hc).
  assert (seen s w') as Hs' by (eapply seen_same; [|done]; by eapply seen_evolves).
  destruct a as [msg|status t out]; cbn [bind]; [by split; [|split; [|intros _; apply Hc; right]]|].
  destruct (300 <=? status) eqn:H3; cbn [bind as_error]; (split; [done|split; [done|]]).
  - intros Hst. apply Hc. right. by apply Z.eqb_eq in Hst.
  - intros _. apply Hc. left. cbn. bool_hyps. lia.
Qed.

Lemma safe_create (s : Session) (sb : Sandbox) (w : World) (k : string) (s1 : Session) :
  world_ok w -> seen s w -> wo_sessions w !! k = Some s1 -> answers_for s1 (sandbox_place s) ->
  safe (CreateSandbox (sessionControllerURL rc s) (create_request s sb)) w (fun e w' => seen s w' /\
    match e with
    | None => sandbox_place s ∈ wo_created w'
    | Some err => IsStaleRouteError (Some err) = true -> clear (sandbox_place s) w'
    end).
Proof.
  intros Hw Hs Hk Hans. unfold CreateSandbox, send. cbn [bind call]. apply safe_call; [done|].
  intros w1 a w' Hw1 Hev [_ Ha]. cbn in Ha. change (_, _) with (sandbox_place s) in Ha.
  destruct (ev_answers _ _ Hev k s1 _ Hk Hans) as (s2 & Hk2 & Hans2).
  destruct (create_answer_ok _ a w1 w' k s2 Hw1 Hk2 Hans2 Ha) as (Hw' & Hsame & Hacc & Hgone).
  assert (seen s w') as Hs' by (eapply seen_same; [|done]; by eapply seen_evolves).
  destruct a as [msg|status t out]; cbn [bind]; [by split; [|split; [|intros _; apply Hgone]]|].
  destruct (300 <=? status) eqn:H3; cbn [bind as_error]; (split; [done|split; [done|]]).
  - intros Hst. apply Hgone. by apply Z.eqb_eq in Hst.
  - apply Hacc. cbn. bool_hyps. lia.
Qed.

Lemma selected_nil (l : list Session) : List.filter (selected []) l = l.
Proof. induction l as [|s l IH]; cbn; [done|by rewrite IH]. Qed.

(** A controller that was assigned has room, also later. *)
Lemma safe_assign (w : World) :
  world_ok w -> safe (assignController rc) w (fun r w' => evolves w w' /\
    forall pod addr, r = inl (pod, addr) ->
      pod <> "" /\ addr = pod_address rc pod /\ podCount (stored (wo_sessions w')) pod < rc_MaxSandboxesPerCtrl rc).
Proof.
  intros Hw. unfold assignController. cbn [bind call]. apply safe_call; [done|].
  assert (forall err w', world_ok w' -> evolves w w' -> safe (Ret (inr err)) w' (fun (r : string * string + Err) w' => evolves w w' /\
    forall pod addr, r = inl (pod, addr) ->
      pod <> "" /\ addr = pod_address rc pod /\ podCount (stored (wo_sessions w')) pod < rc_MaxSandboxesPerCtrl rc)) as Hno.
  { intros err w' Hw' Hev. split; [done|]. by split. }
  intros w1 [pods|err] w' Hw1 Hev [_ ->]; [|by apply Hno].
  cbn [bind call]. apply safe_call; [done|]. intros w2 x w' Hw2 Hev2 [_ [-> Hl]].
  assert (evolves w w2) as Hev' by (by eapply evolves_trans). destruct x as [ss|err]; [|by apply Hno].
  destruct (_ =?s "") eqn:He.
  - apply safe_looks; [apply scaleUp_looks|done|]. intros e w3 Hw3 Hev3.
    assert (evolves w w3) by (by eapply evolves_trans). by destruct e; apply Hno.
  - bool_hyps. split; [done|]. split; [done|]. intros pod addr [= <- <-]. split; [done|].
    split; [by apply pick_pod_address|].
    destruct (pick_pod_best rc ss pods) as [[Hb _]|(pre & p & post & _ & Hb & (_ & _ & Hr) & _)]; rewrite Hb in *; [done|].
    unfold remaining in Hr. specialize (Hl eq_refl).
    rewrite selected_nil in Hl. rewrite Hl in Hr. cbn. lia.
Qed.

(** A version the worker has read, of a session that is not being deleted. *)
Record reading_of (s : Session) (w : World) : Prop := {
  rd_seen : seen s w;
  rd_type : session_wf rc s;
  rd_final : address_of s <> "" -> finalizing s;
  rd_live : live s;
}.

Lemma reading_evolves (s : Session) (w w' : World) : reading_of s w -> evolves w w' -> reading_of s w'.
Proof. intros [Hs Ht Hf Hl] He. split; try done. by eapply seen_evolves. Qed.

(** Ending the session: it keeps what it has, or has nothing. *)
Lemma safe_ends (s s' : Session) (w : World) (k : Session -> prog (Result * error)) :
  world_ok w -> reading_of s w -> (forall s2, only looks (k s2)) -> se_Meta s' = se_Meta s ->
  se_Status s' = se_Status (set_Message (st_Message (se_Status s')) (set_Phase SandboxPhaseDeleting s)) ->
  safe (update_status s' k) w anywhere.
Proof.
  intros Hw Hr Hk Hm Hst. apply (safe_update_status _ s); [done|apply Hr|done|..].
  - intros w1 v Hw1 Hev Hk1 Hv. rewrite Hst. apply status_storable_placed; try done.
    + exact (wf_message rc _ _ (wf_deleting rc s (rd_type s w Hr))).
    + intros pod. rewrite contrib_ended; [apply contrib_nonneg|by left].
    + intros p ([Ha _] & _) _. right. split; [done|]. do 2 right. left.
  - intros w1 v Hw1 Hev s2 Hw2 _. eapply upheld_mono; [|apply (upheld_quiet world_env others world_ok others_ok looks); [apply Hk|apply looks_inert|done]].
    done.
Qed.

Lemma safe_config_missing (s : Session) (w : World) : world_ok w -> reading_of s w -> safe (config_missing s) w anywhere.
Proof. intros Hw Hr. by apply (safe_ends s). Qed.

(** A version without a place: nothing is lost with it. *)
Lemma unplaced_answers (s : Session) (p : place_of_sandbox) : address_of s = "" -> ~ answers_for s p.
Proof. by intros Ha ([? _] & _). Qed.

Lemma unplaced_contrib (s : Session) (pod : string) : st_ControllerPod (se_Status s) = "" -> contrib s pod = 0.
Proof. intros Hp. unfold contrib, occupies. rewrite Hp. cbn. by rewrite andb_false_r. Qed.

(** The finalizer is there before the session gets a place. *)
Lemma safe_ensure_finalizer (s : Session) (w : World) :
  world_ok w -> reading_of s w -> address_of s = "" -> phase_of s <> SandboxPhaseRunning ->
  safe (ensure_finalizer s) w (fun r w' => match r with
    | inl s' => reading_of s' w' /\ finalizing s' /\ se_Status s' = se_Status s
    | inr _ => True
    end).
Proof.
  intros Hw Hr Ha Hph. unfold ensure_finalizer. destruct (ContainsFinalizer _ _) eqn:Hf; [done|].
  apply safe_call; [done|]. intros w1 x w' Hw1 Hev [_ Hx]. cbn [world_env] in Hx.
  set (s1 := set_Meta (AddFinalizer (se_Meta s) FinalizerSessionCleanup) s) in *.
  assert (name_of s1 = name_of s /\ local_ns s1 = local_ns s /\ version s1 = version s) as (Hn & Hl & Hv).
  { unfold s1, name_of, local_ns, version, AddFinalizer. cbn. by rewrite Hf. }
  rewrite Hl, (proj2 (rd_seen s w Hr)) in Hx.
  assert (forall s', update_effect s1 s' w1 w' -> world_ok w' /\ reading_of s' w' /\ finalizing s' /\ se_Status s' = se_Status s) as Heff.
  { intros s' (old & v & Hold & Hver & Hfresh & -> & ->). rewrite Hn in Hold. rewrite Hv in Hver.
    assert (old = s) as -> by (eapply same_version; [exact Hw1|by apply Hev, Hr|done..]).
    assert (finalizing (updated v s1 s)) as Hfin by apply AddFinalizer_contains.
    assert (unreleased_by s (updated v s1 s) w1 = wo_unreleased w1) as -> by (unfold unreleased_by; by rewrite Hf).
    assert (world_ok (keep (updated v s1 s) w1)) as Hok.
    { apply keep_ok; [done|]. split; [done|exact (proj2 (rd_seen s w Hr))|exact (rd_type s w Hr)|..].
      - apply (within_replace rc _ s); [apply Hw1|done|]. intros pod. by rewrite (contrib_eq _ s).
      - done.
      - done.
      - intros old p Hold'. change (name_of (updated v s1 s)) with (name_of s) in Hold'. rewrite Hold in Hold'.
        injection Hold' as <-. by intros ?%unplaced_answers. }
    split_and!; [exact Hok| |exact Hfin|done]. split; [split; [by left|apply Hr]|apply Hr|done|apply Hr]. }
  destruct x as [s'|err]; [destruct (Heff s' Hx) as (? & ?); by split|].
  apply upheld_ret; [|done]. destruct Hx as [->|[s' He]]; [done|]. by apply (Heff s').
Qed.

Lemma pod_address_nonempty (pod : string) : pod_address rc pod <> "".
Proof. unfold pod_address. destruct pod; cbn; [destruct (rc_HeadlessServiceName rc); cbn|]; done. Qed.

Lemma pending_safe (s : Session) (w : World) :
  world_ok w -> reading_of s w -> phase_of s = "" \/ phase_of s = SandboxPhasePending -> safe (reconcilePending rc s) w anywhere.
Proof.
  intros Hw Hr Hph. destruct (rd_type s w Hr) as (_ & _ & Hun & _). destruct (Hun Hph) as [Hpod Haddr].
  unfold reconcilePending. eapply upheld_bind; [apply safe_ensure_finalizer; try done; intros He; rewrite He in Hph; by destruct Hph|].
  intros [s1|err] w1 Hw1; [|by intros _; apply safe_end]. intros (Hr1 & Hf1 & Hst1).
  apply safe_looks; [apply fetch_looks|done|]. intros [[sb|]|err] w2 Hw2 Hev2; [|apply safe_config_missing; [done|by eapply reading_evolves]|by apply safe_end].
  eapply upheld_bind; [by apply safe_assign|]. intros [[pod addr]|err] w3 Hw3 [Hev3 Hroom]; [|by apply safe_end].
  destruct (Hroom pod addr eq_refl) as (Hne & -> & Hlt).
  apply safe_looks; [done|done|]. intros now w4 Hw4 Hev4.
  assert (evolves w1 w4) as Hev14 by (eauto using evolves_trans).
  assert (se_Meta (place rc pod (pod_address rc pod) now sb s1) = se_Meta s1) as Hm by (unfold place; by destruct (0 <? _)).
  apply (safe_update_status _ s1); [done|by eapply seen_evolves; [apply Hr1|]|done|..].
  2: { intros w5 v Hw5 Hev5 s2 Hw6 _. by apply safe_end. }
  intros w5 v Hw5 Hev5 Hk5 Hv5. set (st := se_Status _).
  assert (st_Phase st = SandboxPhaseCreating /\ st_ControllerPod st = pod) as [Hphase Hp] by (unfold st, place; by destruct (0 <? _)).
  apply status_storable; try done.
  - by apply (wf_placed rc pod now sb s1).
  - apply (within_place rc (wo_sessions w5) (status_updated v (kept_status st) s1) pod); [apply Hw5|done|].
    pose proof (ev_room _ _ Hev4 pod). pose proof (ev_room _ _ Hev5 pod). lia.
  - unfold phase_of. cbn [se_Status status_updated kept_status st_Phase]. fold st. by rewrite Hphase.
  - intros p Hans. exfalso. eapply (unplaced_answers s1); [|exact Hans]. unfold address_of. by rewrite Hst1.
Qed.

Lemma creating_safe (s : Session) (w : World) :
  world_ok w -> reading_of s w -> wo_sessions w !! name_of s = Some s -> phase_of s = SandboxPhaseCreating ->
  safe (reconcileCreating rc s) w anywhere.
Proof.
  intros Hw Hr Hk Hph. destruct (rd_type s w Hr) as (_ & _ & _ & Hpl & _). destruct (Hpl (or_introl Hph)) as (_ & Haddr & _).
  assert (address_of s <> "") as Hne by (unfold address_of; rewrite Haddr; apply pod_address_nonempty).
  assert (answers_for s (sandbox_place s)) as Hans.
  { split_and!; [split; [done|rewrite Hph; left]|by apply (rd_final s w Hr)|done]. }
  unfold reconcileCreating. apply safe_looks; [apply fetch_looks|done|].
  intros [[sb|]|err] w1 Hw1 Hev1; [|apply safe_config_missing; [done|by eapply reading_evolves]|by apply safe_end].
  destruct (ev_answers _ _ Hev1 _ _ _ Hk Hans) as (s1 & Hk1 & Hans1).
  eapply upheld_bind; [eapply safe_create; [done|by eapply seen_evolves; [apply Hr|]|done|done]|].
  intros e w2 Hw2 [Hs2 He]. destruct e as [err|].
  - destruct (IsStaleRouteError _) eqn:Hstale; [|by apply safe_end]. specialize (He eq_refl).
    apply (safe_update_status _ s); [done|done|done|..|intros; by apply safe_end].
    intros w3 v Hw3 Hev3 Hk3 Hv3. apply status_storable; try done.
    + apply wf_unplaced.
    + change (name_of s) with (name_of (status_updated v (kept_status (se_Status (unplace err s))) s)).
      apply (within_replace rc _ s); [apply Hw3|done|]. intros pod. rewrite unplaced_contrib by done. apply contrib_nonneg.
    + intros p Hp Hheld. left. destruct Hp as (_ & _ & <-). by apply (clear_evolves _ _ _ He Hev3).
  - apply (safe_update_status _ s); [done|done|done|..].
    + intros w3 v Hw3 Hev3 Hk3 Hv3. apply status_storable_placed; try done.
      * exact (wf_message rc MNil _ (wf_running rc s (rd_type s w Hr) Hph)).
      * intros pod. unfold contrib, occupies, phase_of in *. cbn. by rewrite Hph.
      * intros _. by rewrite (ev_created _ _ Hev3).
      * intros p _ _. right. split; [done|]. right. left.
    + intros w3 v Hw3 Hev3 s3 Hw4 _. destruct (st_ExpiresAt _); [by apply safe_now|by apply safe_end].
Qed.

Lemma check_expiry_safe (now expiry : Z) (s : Session) (w : World) :
  world_ok w -> reading_of s w -> safe (check_expiry now expiry s) w anywhere.
Proof. intros Hw Hr. unfold check_expiry. destruct (expiry <? now); [by apply (safe_ends s)|by apply safe_now]. Qed.

Lemma running_safe (s : Session) (w : World) :
  world_ok w -> reading_of s w -> phase_of s = SandboxPhaseRunning -> safe (reconcileRunning rc s) w anywhere.
Proof.
  intros Hw Hr Hph. unfold reconcileRunning. apply safe_looks; [done|done|]. intros now w1 Hw1 Hev1.
  assert (reading_of s w1) as Hr1 by (by eapply reading_evolves).
  destruct (st_ExpiresAt _) as [expiry|]; [|by apply safe_end]. destruct (st_LastExecAt _) as [lastExec|]; [|by apply check_expiry_safe].
  apply safe_looks; [apply fetch_looks|done|]. intros c w2 Hw2 Hev2.
  assert (reading_of s w2) as Hr2 by (by eapply reading_evolves).
  destruct c as [[sb|]|err]; [|by apply check_expiry_safe..]. destruct (_ && _); [|by apply check_expiry_safe].
  set (t := _ + _). apply (safe_update_status _ s); [done|apply Hr2|done|..].
  - intros w3 v Hw3 Hev3 Hk3 Hv3. apply status_storable_placed; try done.
    + exact (wf_expires rc t s (rd_type s w Hr)).
    + intros _. by apply (ok_running w3 Hw3 _ _ Hk3).
    + by intros p (Ha & _) _; right.
  - intros w3 v Hw3 Hev3 s3 Hw4 Hs4. apply check_expiry_safe; [done|]. split; [done|exact (wf_kept _ s v (wf_expires rc t s (rd_type s w Hr)))|apply Hr|apply Hr].
Qed.

Lemma deleting_safe (s : Session) (w : World) :
  world_ok w -> reading_of s w -> safe (reconcileDeleting rc s) w anywhere.
Proof.
  intros Hw Hr. unfold reconcileDeleting. apply (upheld_bind world_env others world_ok _ _ _ (fun ok w' => seen s w' /\
    (ok = true -> address_of s <> "" -> clear (sandbox_place s) w'))).
  { destruct (negb _) eqn:Ha; bool_hyps; [|split; [done|split; [apply Hr|done]]].
    eapply upheld_mono; [|by apply safe_release; [|apply Hr]]. intros ok w' _ [? ?]. auto. }
  intros ok w1 Hw1 [Hs1 Hc]. destruct ok; [|by apply safe_end].
  apply safe_looks; [done|done|]. intros now w2 Hw2 Hev2.
  apply (safe_update_status _ s); [done|by eapply seen_evolves|done|..].
  - intros w3 v Hw3 Hev3 Hk3 Hv3. apply status_storable_placed; try done.
    + exact (wf_message rc MNil _ (wf_terminated rc now s (rd_type s w Hr))).
    + intros pod. rewrite contrib_ended; [apply contrib_nonneg|by right].
    + intros p ([Ha _] & _ & <-) Hheld. left.
      apply (clear_evolves _ w1); [by apply Hc|by eapply evolves_trans|done].
  - intros w3 v Hw3 Hev3 s3 Hw4 _. case_goal; by apply safe_end.
Qed.

Lemma terminated_safe (s : Session) (w : World) : world_ok w -> safe (reconcileTerminated rc s) w anywhere.
Proof.
  intros Hw. assert (forall w, world_ok w -> safe (remove_terminated s) w anywhere) as Hrm.
  { intros w0 Hw0. unfold remove_terminated. cbn [bind call]. apply safe_call; [done|]. intros w1 x w' Hw1 _ Hx.
    assert (world_ok w') as Hw' by (apply (others_ok w1); [done|left; by exists (DeleteSession s), x]).
    destruct x as [err|]; [destruct (IsNotFound err)|]; by apply safe_end. }
  unfold reconcileTerminated. destruct (bool_decide _); [by apply safe_end|]. destruct (st_TerminatedAt _); [|by apply Hrm].
  destruct (0 <? _); [|by apply Hrm]. apply safe_looks; [done|done|]. intros now w1 Hw1 _.
  destruct (_ <? _); [by apply safe_end|by apply Hrm].
Qed.

Lemma unreleased_ok (w : World) (x : gset place_of_sandbox) : world_ok w -> wo_unreleased w ⊆ x -> world_ok (with_unreleased x w).
Proof.
  intros Hw Hx. split; try apply Hw. intros p Hp. destruct (ok_held w Hw p Hp) as [He|?]; [left|by right].
  unfold excused in *. cbn. set_solver.
Qed.

Lemma deletion_safe (s : Session) (w : World) :
  world_ok w -> seen s w -> session_wf rc s -> not_deleted (se_Meta s) = false -> safe (handleDeletion rc s) w anywhere.
Proof.
  intros Hw Hs Hwf Hd. unfold handleDeletion. destruct (ContainsFinalizer _ _) eqn:Hf; cbn [negb]; [|by apply safe_end].
  apply (upheld_bind world_env others world_ok _ _ _ (fun ok w' => seen s w' /\
    (ok = true -> address_of s <> "" -> phase_of s = SandboxPhaseRunning \/ phase_of s = SandboxPhaseCreating -> clear (sandbox_place s) w'))).
  { destruct (_ && _) eqn:Hc.
    - eapply upheld_mono; [|by apply safe_release]. intros ok w' _ [? ?]. auto.
    - split; [done|]. split; [done|]. intros _ Ha Hp. exfalso. apply String.eqb_neq in Ha. rewrite Ha, andb_true_r in Hc. bool_hyps. tauto. }
  intros ok w1 Hw1 [Hs1 Hc]. destruct ok; [|by apply safe_end]. specialize (Hc eq_refl). cbn [bind call].
  apply safe_call; [done|]. intros w2 x w' Hw2 Hev [_ Hx]. cbn [world_env] in Hx.
  set (s1 := set_Meta (RemoveFinalizer (se_Meta s) FinalizerSessionCleanup) s) in *.
  change (local_ns s1) with (local_ns s) in Hx. rewrite (proj2 Hs) in Hx.
  assert (forall s', update_effect s1 s' w2 w' -> world_ok w') as Heff.
  { intros s' (old & v & Hold & Hver & Hfresh & -> & ->).
    assert (old = s) as -> by (eapply same_version; [exact Hw2|by apply Hev, Hs1|done..]).
    change (with_unreleased ?x (keep ?s ?w)) with (keep s (with_unreleased x w)).
    assert (ContainsFinalizer (se_Meta (updated v s1 s)) FinalizerSessionCleanup = false) as Hnf by apply RemoveFinalizer_not_contains.
    set (un := unreleased_by s (updated v s1 s) w2).
    assert (wo_unreleased w2 ⊆ un) as Hsub by (unfold un, unreleased_by; case_goal; set_solver).
    apply keep_ok; [by apply unreleased_ok|]. split; [done|exact (proj2 Hs)|exact Hwf|..].
    - apply (within_replace rc _ s); [apply Hw2|done|]. intros pod. by rewrite (contrib_eq _ s).
    - intros _ Hl. unfold live in Hl. change (not_deleted (se_Meta (updated v s1 s))) with (not_deleted (se_Meta s)) in Hl. by rewrite Hd in Hl.
    - exact (ok_running w2 Hw2 _ _ Hold).
    - intros old p Hold' Hans Hheld. change (name_of (updated v s1 s)) with (name_of s) in Hold'.
      change (wo_sessions w2 !! name_of s = Some old) in Hold'. change (name_of s1) with (name_of s) in Hold. rewrite Hold in Hold'.
      injection Hold' as <-. left. destruct Hans as ([Ha Hph] & _ & <-). unfold excused. cbn.
      rewrite !elem_of_cons, elem_of_nil in Hph. destruct Hph as [Hph|[Hph|[Hph|[]]]].
      3: { unfold un, unreleased_by. rewrite Hf, Hnf, Hph. cbn. set_solver. }
      all: assert (clear (sandbox_place s) w2) as Hcl by (apply (clear_evolves _ w1); auto);
        specialize (Hcl Hheld); unfold excused in Hcl; set_solver. }
  assert (world_ok w') as Hw'.
  { destruct x as [s'|err]; [by eapply Heff|]. destruct Hx as [->|[s' He]]; [done|by eapply Heff]. }
  destruct x; by apply safe_end.
Qed.

Lemma reconcile_safe (name : string) (w : World) : world_ok w -> safe (Reconcile rc (rc_Namespace rc) name) w anywhere.
Proof.
  intros Hw. unfold Reconcile. cbn [bind call]. apply safe_call; [done|]. intros w1 x w' Hw1 _ [_ [-> Hx]].
  destruct x as [s|err]; [|destruct (IsNotFound err); by apply safe_end]. specialize (Hx eq_refl).
  destruct (ok_names w1 Hw1 _ _ Hx) as [Hn Hl]. pose proof (ok_stored w1 Hw1 _ _ Hx) as Hh. pose proof (ok_types w1 Hw1 _ _ Hx) as Hwf.
  cbv beta in *. assert (seen s w1) as Hs by done. subst name.
  destruct (not_deleted (se_Meta s)) eqn:Hd; cbn [negb]; [|by apply deletion_safe].
  assert (reading_of s w1) as Hr by (split; [done|done| |done]; intros Ha; by apply (ok_finalizers w1 Hw1 _ _ Hx)).
  destruct (_ || _) eqn:H1.
  { apply pending_safe; [done|done|]. apply orb_true_iff in H1 as [?|?]; bool_hyps; [by left|by right]. }
  destruct (_ =?s SandboxPhaseCreating) eqn:H2; bool_hyps; [by apply creating_safe|].
  destruct (_ =?s SandboxPhaseRunning) eqn:H3; bool_hyps; [by apply running_safe|].
  destruct (_ =?s SandboxPhaseDeleting) eqn:H4; bool_hyps; [by apply deleting_safe|].
  destruct (_ =?s SandboxPhaseTerminated) eqn:H5; bool_hyps; [by apply terminated_safe|by apply safe_end].
Qed.

(** ** The neighbours *)

(** A program run for its effects. *)
Definition job {A} (p : prog A) : prog unit := p ;;; Ret tt.

Definition session_job (p : prog unit) : Prop := exists name, p = job (Reconcile rc (rc_Namespace rc) name).

(** The router's requests, its goroutines and its start-up, the operator's other
    work, and somebody who deletes a session. *)
Inductive neighbour : prog unit -> Prop :=
| serves cfg mcp_call mcp_page present page rq : neighbour (job (ServeHTTP cfg mcp_call mcp_page present page rq))
| touches s : neighbour (job (touchLastExecSession s))
| ensures_default cfg : neighbour (job (EnsureDefaultSandbox cfg))
| evicts tr n : neighbour (job (evictLoop tr n))
| reconciles_sandbox ns name : neighbour (job (ReconcileSandbox rc ns name))
| reconciles_pool ns name : neighbour (job (ReconcilePool rc ns name))
| finds_pools : neighbour (job (sessionToPool rc))
| scales_down n : neighbour (job (RunScaleDownLoop rc n))
| deletes s : neighbour (job (call (DeleteSession s))).

Ltac gentle_tac := repeat first [done | progress cbn [only bind call] | case_match | split | intros ?].

Lemma served_gentle cfg mcp_call mcp_page present page rq :
  performs honest gentle (ServeHTTP cfg mcp_call mcp_page present page rq).
Proof.
  refine (performs_of_trace honest gentle _ trace_env (user_trace cfg) _ _ _ [] _); [|..|apply served_trace].
  - done.
  - intros e. exists (unavailable e). by destruct e.
  - intros e x t [u [He Ht]]. split; [by exists u|]. destruct e; try done; cbn [effect_ok gentle] in *.
    + destruct He as ((id & sandbox & owner & ->) & _). eauto.
    + destruct He as [-> _]. by left.
    + destruct He as (s & path & _ & _ & _ & Hr). by destruct r.
Qed.

Lemma evict_gentle (tr : tokenReviewer) (n : nat) : only gentle (evictLoop tr n).
Proof.
  unfold evictLoop. destruct (_ <=? 0); [done|]. apply only_loop. intros _. cbn [only bind call]. split; [done|]. intros [|]; [|done].
  unfold evict_pass. cbn [only bind call]. split; [done|]. intros _. split; [done|]. intros entries.
  apply only_bind; [|done]. apply only_bind; [|done]. apply only_for_each. intros [] ke. unfold evict_entry. gentle_tac.
Qed.

Lemma scale_pass_gentle (ss : list Session) (pods : list Pod) (sts : StatefulSet) (current : Z) :
  only gentle (scale_down_loop rc ss pods sts current).
Proof.
  revert sts current. induction pods as [|p l IH]; intros sts current; [done|]. cbn [scale_down_loop].
  case_goal; [done|]. case_goal; [apply IH|]. cbn [only bind call]. split; [done|]. intros now. case_goal; [apply IH|].
  cbn [only bind call]. split; [done|]. intros [sts'|err]; [|done]. cbn [bind].
  apply only_bind; [|intros _; apply IH]. unfold ScaledDown. by destruct (rc_Metrics rc).
Qed.

Lemma scale_down_gentle (n : nat) : only gentle (RunScaleDownLoop rc n).
Proof.
  apply only_loop. intros _. cbn [only bind call]. split; [done|]. intros [|]; [|done]. apply only_bind; [|done].
  unfold tryScaleDown. cbn [only bind call]. split; [done|]. intros [sts|err]; [|done]. cbn [bind]. case_goal; [done|].
  cbn [only bind call]. split; [done|]. intros [pods|err]; [|done]. cbn [only bind call]. split; [done|]. intros [ss|err]; [|done]. cbn [bind].
  apply scale_pass_gentle.
Qed.

Lemma drain_gentle (sb : Sandbox) : only gentle (handleSandboxDeletion rc sb).
Proof.
  unfold handleSandboxDeletion. cbn [only bind call]. split; [done|]. intros [ss|err]; [|done]. cbn [bind].
  apply only_bind; [|unfold update_sandbox; gentle_tac]. apply only_for_each. intros n s. unfold drain_session.
  do 2 (case_goal; [done|]). apply only_bind; [|done]. destruct (phase_of s =?s SandboxPhaseDeleting); [done|]. cbn [only bind call gentle]. split; [by left|]. done.
Qed.

Lemma neighbour_gentle (p : prog unit) : neighbour p -> performs honest gentle p.
Proof.
  assert (forall A (q : prog A), only gentle q -> performs honest gentle (job q)) as Hjob.
  { intros A q Hq. apply performs_bind; [by apply performs_only|done]. }
  intros []; [by apply performs_bind; [apply served_gentle|]|apply Hjob..].
  - unfold touchLastExecSession. cbn [only bind call gentle]. split; [done|]. intros now. split; [|done]. right. by exists now.
  - unfold EnsureDefaultSandbox, lookupSandbox, createSandboxFromBody. gentle_tac.
  - apply evict_gentle.
  - unfold ReconcileSandbox, update_sandbox. cbn [only bind call]. split; [done|].
    intros [sb|err]; [|by cbn [bind]; destruct (IsNotFound err)]. cbn [bind]. case_goal; [gentle_tac|]. case_goal; [done|apply drain_gentle].
  - unfold ReconcilePool, countActiveSessions, readyReplicas, SetPoolState, setReadyCondition. gentle_tac.
  - unfold sessionToPool. gentle_tac.
  - apply scale_down_gentle.
  - done.
Qed.

(** ** The invariant holds *)

Definition cluster_step : System (S := World) -> System (S := World) -> Prop :=
  system_step world_env session_job neighbour restarted.

(** What the cluster can become, starting without sessions and sandboxes. *)
Definition reachable (sy : System (S := World)) : Prop :=
  rtc cluster_step {| sy_worker := None; sy_others := []; sy_state := empty_world |} sy.

Lemma empty_world_ok : 0 <= rc_MaxSandboxesPerCtrl rc -> world_ok empty_world.
Proof. intros Hm. split; try done. constructor. Qed.

Lemma reachable_ok (sy : System (S := World)) : 0 <= rc_MaxSandboxesPerCtrl rc -> reachable sy -> world_ok (sy_state sy).
Proof.
  intros Hm. apply (system_upheld world_env others world_ok others_ok honest gentle restarted); [..|by apply empty_world_ok].
  - by intros e w x w' [? _].
  - intros e w x w' He Hx. left. eauto.
  - intros w w' Hr. by right.
  - intros p w [name ->] Hw. eapply upheld_bind; [by apply reconcile_safe|]. intros a w' Hw' _. by apply safe_end.
  - apply neighbour_gentle.
Qed.

End cluster.

Lemma max_positive (rc : ReconcilerConfig) : 0 <= rc_MaxSandboxesPerCtrl (NewSessionReconciler rc).
Proof. cbn. destruct (_ <=? 0) eqn:H; bool_hyps; lia. Qed.
