(* ===== verification/ClusterProps.v ===== *)
(** * What holds in the cluster

    The properties of [Cluster], and an instance of its environment that can be
    run: an API server and controllers that answer every call, with which the
    programs of the operator and the router take the cluster through its first
    session. *)
From stdpp Require Import relations.
From S2P Require Import Prelude Prog Rely GoStrings ApiTypes Kube CtrlClient SessionReconciler SessionProofs Lifecycle EnvConfig.
From S2P Require Import RouterServer Mcp RouterAccess RouterHttp SessionTypes Cluster.
Open Scope boxy_scope.

(** ** A cluster to run *)

Section simulation.
Context (rc : ReconcilerConfig) (sandboxes : list Sandbox) (pods : list Pod) (now : Z).

Definition next_version (w : World) : string := pretty (llen (wo_history w)).

(** Writes are refused unless all that is asked of them holds. *)
Definition writable (s : Session) (w : World) : bool := local_ns rc s && bool_decide (fresh_version (next_version w) w).

Definition stored_version (s : Session) (w : World) : option Session :=
  match wo_sessions w !! name_of s with
  | Some old => if writable s w && (version s =?s version old) then Some old else None
  | None => None
  end.

Definition conflict : Err := ErrK8s Conflict "the object has been modified".

Definition create_reply (p : place_of_sandbox) (w : World) : HttpAnswer unit * World :=
  let had := bool_decide (p ∈ wo_held w) in
  let status := if had then 409 else 201 in
  (HttpResponse status None tt,
   with_sandboxes (hold p true (wo_held w)) (if status <? 300 then {[p]} ∪ wo_created w else wo_created w) (wo_unanswered w) w).

Definition delete_reply (p : place_of_sandbox) (w : World) : HttpAnswer unit * World :=
  let had := bool_decide (p ∈ wo_held w) in
  (HttpResponse (if had then 204 else 404) None tt,
   with_sandboxes (hold p false (wo_held w)) (wo_created w) (wo_unanswered w) w).

Definition simulate (e : KEvent) (w : World) : KAnswer e * World :=
  match e return KAnswer e * World with
  | GetSession ns name =>
      (match wo_sessions w !! name with
       | Some s => if (name_of s =?s name) && (om_Namespace (se_Meta s) =?s ns) then inl s else inr no_session
       | None => inr no_session
       end, w)
  | ListSessions ns sel => (inl (List.filter (selected sel) (stored (wo_sessions w))), w)
  | CreateSession s =>
      if writable s w && bool_decide (wo_sessions w !! name_of s = None)
      then (None, keep (status_updated (next_version w) empty_status s) w) else (Some conflict, w)
  | UpdateSession s =>
      match stored_version s w with
      | Some old => let s' := updated (next_version w) s old in
          (inl s', with_unreleased (unreleased_by rc old s' w) (keep s' w))
      | None => (inr conflict, w)
      end
  | StatusUpdateSession s =>
      match stored_version s w with
      | Some old => let s' := status_updated (next_version w) (kept_status (se_Status s)) old in (inl s', keep s' w)
      | None => (inr conflict, w)
      end
  | DeleteSession s =>
      match wo_sessions w !! name_of s with
      | Some old => if writable s w then (None, keep (marked (next_version w) 0 old) w) else (Some conflict, w)
      | None => (Some no_session, w)
      end
  | ListSandboxes _ _ => (inl sandboxes, w)
  | ListPods _ _ => (inl pods, w)
  | Now => (now, w)
  | Http url (CRCreate r) => create_reply (url, cr_SandboxID r) w
  | Http url (CRDelete r) => delete_reply (url, dr_SandboxID r) w
  | e => (unavailable e, w)
  end.

Lemma stored_version_spec (s old : Session) (w : World) :
  stored_version s w = Some old ->
  local_ns rc s = true /\ wo_sessions w !! name_of s = Some old /\ version s = version old /\ fresh_version (next_version w) w.
Proof.
  unfold stored_version, writable. destruct (wo_sessions w !! name_of s) as [old'|]; [|done].
  destruct (_ && _) eqn:H; [|done]. bool_hyps. intros [= ->]. split_and!; try done. by eapply bool_decide_eq_true.
Qed.

Lemma replies_allowed (p : place_of_sandbox) (w : World) :
  create_answer p (create_reply p w).1 w (create_reply p w).2 /\ delete_answer p (delete_reply p w).1 w (delete_reply p w).2.
Proof.
  split; [exists true|exists false]; (split; [|done]); unfold create_contract, delete_contract;
    by destruct (bool_decide (p ∈ wo_held w)).
Qed.

(** The simulation gives answers the environment allows. *)
Lemma simulate_allowed (e : KEvent) (w : World) : world_env rc e w (simulate e w).1 (simulate e w).2.
Proof.
  destruct e; try (by split); cbn [simulate world_env honest].
  - destruct (wo_sessions w !! name) as [s|] eqn:Hs; [|done]. destruct (_ && _) eqn:He; [|done]. bool_hyps.
    split; [done|]. split; [done|]. by intros _.
  - split; [done|]. split; [done|]. by intros _.
  - destruct (_ && _) eqn:He; (split; [done|]).
    + unfold writable in He. bool_hyps. repeat match goal with H : bool_decide _ = true |- _ => apply bool_decide_eq_true in H end.
      destruct (local_ns rc s); [|done]. left. split; [done|]. by exists (next_version w).
    + destruct (local_ns rc s); [by right|done].
  - destruct (stored_version s w) as [old|] eqn:Ho; (split; [done|]); [|by destruct (local_ns rc s); [left|]].
    apply stored_version_spec in Ho as (-> & Hk & Hv & Hf). by exists old, (next_version w).
  - destruct (stored_version s w) as [old|] eqn:Ho; (split; [done|]); [|by destruct (local_ns rc s); [left|]].
    apply stored_version_spec in Ho as (-> & Hk & Hv & Hf). by exists old, (next_version w).
  - split; [done|]. destruct (local_ns rc modified); [by left|done].
  - destruct (wo_sessions w !! name_of s) as [old|] eqn:Hk; [|by split; [|destruct (local_ns rc s); [right|]]].
    destruct (writable s w) eqn:He; (split; [done|]); [|by destruct (local_ns rc s); [right|]].
    unfold writable in He. bool_hyps. destruct (local_ns rc s); [|done]. left. exists old, (next_version w), 0. split_and!; try done.
    by eapply bool_decide_eq_true.
  - split; [by destruct r|]. destruct r; try done; apply replies_allowed.
Qed.

(** A program of the worker, and one of a neighbour, from start to end. *)
Lemma job_runs (p : prog unit) (l : list (prog unit)) (w : World) :
  session_job rc p ->
  rtc (cluster_step rc) {| sy_worker := None; sy_others := l; sy_state := w |}
    {| sy_worker := None; sy_others := l; sy_state := (run simulate p w).2 |}.
Proof.
  intros Hj. eapply rtc_l; [by apply job_starts|]. clear Hj. revert w. induction p as [[]|e k IH]; intros w; [apply rtc_once, job_ends|].
  cbn [run]. pose proof (simulate_allowed e w) as Hx. destruct (simulate e w) as [x w']. eapply rtc_l; [|apply IH]. by apply job_proceeds.
Qed.

Lemma neighbour_runs (p : prog unit) (l : list (prog unit)) (w : World) :
  neighbour rc p ->
  rtc (cluster_step rc) {| sy_worker := None; sy_others := l; sy_state := w |}
    {| sy_worker := None; sy_others := l ++ [Ret (run simulate p w).1]; sy_state := (run simulate p w).2 |}.
Proof.
  intros Hn. eapply rtc_l; [by apply other_arrives|]. clear Hn. revert w. induction p as [[]|e k IH]; intros w; [done|].
  cbn [run]. pose proof (simulate_allowed e w) as Hx. destruct (simulate e w) as [x w']. eapply rtc_l; [|apply IH].
  replace (l ++ [k x]) with (<[length l := k x]> (l ++ [Vis e k])) by (by rewrite insert_app_r_alt, Nat.sub_diag by done).
  apply (other_proceeds _ _ _ _ (length l) e k); [|done]. by rewrite lookup_app_r, Nat.sub_diag by done.
Qed.

End simulation.

(** *** The first session *)

Definition dev_router : Config :=
  {| cf_ListenAddr := ":8080"; cf_DevToken := "dev"; cf_AuthCacheTTL := 30 * Second; cf_SandboxNamespace := "boxy";
     cf_MaxBodyBytes := 0; cf_MaxOutputBytes := 0; cf_MaxTimeoutSec := 3600; cf_MaxArgs := 256; cf_MaxEnvKeys := 64;
     cf_MaxConcurrency := 100; cf_MaxSandboxTTLSec := 86400; cf_MTLSDisabled := true; cf_TLSCAPath := "";
     cf_TLSClientCertPath := ""; cf_TLSClientKeyPath := ""; cf_ControllerToken := ""; cf_ControllerPort := 8080;
     cf_DefaultSandboxEnabled := false; cf_DefaultSandboxConfig := None; cf_CreateTimeout := 30 * Second |}.

Definition create_http : HttpRequest :=
  {| hq_Method := "POST"; hq_Path := "/v1/sessions"; hq_RawQuery := ""; hq_Authorization := "Bearer dev"; hq_SandboxId := "";
     hq_SessionId := "";
     hq_Body := "{" +:+ DQ +:+ "sandboxId" +:+ DQ +:+ ":" +:+ DQ +:+ "demo" +:+ DQ +:+ "," +:+
                DQ +:+ "sessionId" +:+ DQ +:+ ":" +:+ DQ +:+ "s1" +:+ DQ +:+ "}";
     hq_Overlong := false |}.

Definition posting : prog unit := job (ServeHTTP dev_router no_mcp mcp_refusal false None create_http).

Definition reconciling : prog unit := job (Reconcile (NewSessionReconciler sample_rcfg) "boxy" "s1").

(** The programs run one after the other, each at its time. *)
Definition after (ps : list (Z * prog unit)) : World :=
  fold_left (fun w tp => (run (simulate (NewSessionReconciler sample_rcfg) [sample_sandbox_cr] [sample_pod "ctrl-0"] tp.1) tp.2 w).2)
    ps empty_world.

(** The session is posted, placed, and created on the controller. *)
Definition first_session : list (Z * prog unit) := [(0, posting); (0, reconciling); (0, reconciling)].

Definition first_place : place_of_sandbox := ("http://ctrl-0.hl.boxy.svc:8080/v1/sandboxes", "s1").

Definition allowed_program (p : prog unit) : Prop :=
  session_job (NewSessionReconciler sample_rcfg) p \/ neighbour (NewSessionReconciler sample_rcfg) p.

Lemma after_reachable (ps : list (Z * prog unit)) :
  Forall (fun tp => allowed_program tp.2) ps ->
  exists l, reachable (NewSessionReconciler sample_rcfg) {| sy_worker := None; sy_others := l; sy_state := after ps |}.
Proof.
  induction ps as [|[t p] ps IH] using rev_ind; intros H; [exists []; apply rtc_refl|].
  apply Forall_app in H as [Hps Hp]. rewrite Forall_singleton in Hp. cbn [snd] in Hp. destruct (IH Hps) as [l Hl].
  assert (after (ps ++ [(t, p)]) =
    (run (simulate (NewSessionReconciler sample_rcfg) [sample_sandbox_cr] [sample_pod "ctrl-0"] t) p (after ps)).2) as ->.
  { unfold after. by rewrite fold_left_app. }
  destruct Hp as [Hp|Hp]; eexists; (eapply rtc_trans; [exact Hl|]); [by apply job_runs|by apply neighbour_runs].
Qed.

Lemma first_session_allowed : Forall (fun tp => allowed_program tp.2) first_session.
Proof. repeat (apply Forall_cons; split; [first [left; exists "s1"; reflexivity | right; apply serves]|]). constructor. Qed.

(** ** Properties *)

Section properties.
Context (cfg : ReconcilerConfig).

Abbreviation rc := (NewSessionReconciler cfg).


(** C12: In every state the cluster can reach, every stored session is
    well-formed: its phase is one of the five (or empty before the first
    reconciliation), one that is Creating or Running names a pod, its address and
    port, one that is waiting names none, and a Terminated one says since when;
    and a session that is Running was confirmed by the controller at that address
    to have its sandbox created. *)
Theorem cluster_sessions_well_formed (sy : System (S := World)) :
  reachable rc sy -> map_Forall (fun name s => name_of s = name /\ session_wf rc s /\
    (phase_of s = SandboxPhaseRunning -> sandbox_place rc s ∈ wo_created (sy_state sy))) (wo_sessions (sy_state sy)).
Proof.
  intros Hr name s Hs. pose proof (reachable_ok rc sy (max_positive cfg) Hr) as Hok.
  split_and!; [by apply (ok_names rc _ Hok _ _ Hs)|by apply (ok_types rc _ Hok _ _ Hs)|by apply (ok_running rc _ Hok _ _ Hs)].
Qed.

(** C4: No sandbox is forgotten.  In every state the cluster can reach, each
    sandbox that a controller holds belongs to a stored session that is Creating,
    Running or Deleting at that controller and still has the finalizer by which
    the operator will release it; except those about which the controller once
    did not answer a request, and those whose session lost the finalizer while it
    was Deleting. *)
Theorem no_sandbox_leaks (sy : System (S := World)) (p : place_of_sandbox) :
  reachable rc sy -> p ∈ wo_held (sy_state sy) ->
  p ∈ wo_unanswered (sy_state sy) \/ p ∈ wo_unreleased (sy_state sy) \/
  exists name s, wo_sessions (sy_state sy) !! name = Some s /\ sandbox_place rc s = p /\
    phase_of s ∈ [SandboxPhaseCreating; SandboxPhaseRunning; SandboxPhaseDeleting] /\
    FinalizerSessionCleanup ∈ om_Finalizers (se_Meta s).
Proof.
  intros Hr Hp. destruct (ok_held rc _ (reachable_ok rc sy (max_positive cfg) Hr) p Hp) as [[?|?]%elem_of_union|(k & s & Hk & Ha)]; [auto..|].
  destruct Ha as ([_ Hph] & Hf & Hpl). do 2 right. exists k, s. split_and!; try done. by apply ContainsFinalizer_spec.
Qed.

End properties.

(** ** Witnesses *)

Definition running_at (w : World) : option (string * string) :=
  s ← wo_sessions w !! "s1"; Some (phase_of s, st_ControllerPod (se_Status s)).


Lemma cluster_sessions_well_formed_witness :
  running_at (after first_session) = Some (SandboxPhaseRunning, "ctrl-0") /\
  map_Forall (fun name s => name_of s = name /\ session_wf (NewSessionReconciler sample_rcfg) s /\
    (phase_of s = SandboxPhaseRunning ->
     sandbox_place (NewSessionReconciler sample_rcfg) s ∈ wo_created (after first_session))) (wo_sessions (after first_session)).
Proof.
  split; [vm_compute; reflexivity|]. destruct (after_reachable first_session first_session_allowed) as [l Hl].
  exact (cluster_sessions_well_formed sample_rcfg _ Hl).
Defined.

Lemma no_sandbox_leaks_witness :
  first_place ∈ wo_held (after first_session) /\
  (first_place ∈ wo_unanswered (after first_session) \/ first_place ∈ wo_unreleased (after first_session) \/
   exists name s, wo_sessions (after first_session) !! name = Some s /\
     sandbox_place (NewSessionReconciler sample_rcfg) s = first_place /\
     phase_of s ∈ [SandboxPhaseCreating; SandboxPhaseRunning; SandboxPhaseDeleting] /\
     FinalizerSessionCleanup ∈ om_Finalizers (se_Meta s)).
Proof.
  assert (first_place ∈ wo_held (after first_session)) as Hp by (apply (bool_decide_eq_true_1 _); vm_compute; reflexivity).
  split; [exact Hp|]. destruct (after_reachable first_session first_session_allowed) as [l Hl].
  exact (no_sandbox_leaks sample_rcfg _ first_place Hl Hp).
Defined.

(** The second exception is real: the session expires and is deleted before the
    operator comes back to it; then it is gone, and its sandbox is not. *)
Definition forgotten_session : list (Z * prog unit) :=
  first_session ++ [(120 * Second, reconciling);
    (120 * Second, job (call (DeleteSession (sample_session "" "" "" None)))); (120 * Second, reconciling)].

Lemma deleting_session_leaks :
  (exists l, reachable (NewSessionReconciler sample_rcfg) {| sy_worker := None; sy_others := l; sy_state := after forgotten_session |}) /\
  wo_sessions (after forgotten_session) = ∅ /\ first_place ∈ wo_held (after forgotten_session).
Proof.
  split; [apply after_reachable, Forall_app; split; [apply first_session_allowed|]|].
  - repeat (apply Forall_cons; split; [first [left; exists "s1"; reflexivity | right; apply deletes]|]). constructor.
  - split; [vm_compute; reflexivity|]. apply (bool_decide_eq_true_1 _). vm_compute. reflexivity.
Qed.
