(* ===== verification/ExecChain.v ===== *)
(** * From the text of an exec request to the jail and back

    One exec through the whole system: the body a client posts to the router
    ([POST /v1/sessions/exec]), the request the router's client sends to the
    controller of the session, the handler it reaches there, the adapter that runs
    the command under nsjail, and the responses back, each as the text that is
    sent.  The router runs against [linked], an environment in which a call of a
    controller is answered by running the controller's own handler against
    [jail_env], the operating system as that controller sees it. *)
From stdpp Require Import sorting.
From S2P Require Import Prelude Prog GoStrings GoMux GoJson GoCodec ApiTypes ApiCodec Errors Validate NsjailConfig Output.
From S2P Require Import AdapterConfig Adapter CtrlMetrics Controller Kube CtrlClient Wire SessionReconciler Auth EnvConfig.
From S2P Require Import CtrlAccounting SessionProofs RouterServer Mcp RouterProofs RouterAccess RouterWire RouterHttp ClusterProps.
Open Scope boxy_scope.

(** ** The operating system of a controller *)

(** What a command did, captured at its end or streamed as it ran. *)
Inductive Did : Type :=
| Captured (o : RunOutcome)
| Streaming (reads : list (stream * string)) (waitErr : option RunErr).

(** A command that was run, the files that were there for it, and what it did. *)
Record Run := { run_cmd : Cmd; run_files : gmap string string; run_did : Did }.

Record Jail := { jl_files : gmap string string; jl_runs : list Run }.

(** An exit status is an [int], and a read fills at most the 4096 bytes of its
    buffer. *)
Definition exit_in_range (e : option RunErr) : Prop :=
  match e with Some (ExitError code) => - 2 ^ 63 <= code <= 2 ^ 63 - 1 | _ => True end.

Definition did_ok (d : Did) : Prop :=
  match d with
  | Captured o => exit_in_range (ro_Err o)
  | Streaming reads waitErr => Forall (fun r => slen r.2 <= 4096) reads /\ exit_in_range waitErr
  end.

Definition with_run (c : Cmd) (d : Did) (j : Jail) : Jail :=
  {| jl_files := jl_files j; jl_runs := jl_runs j ++ [{| run_cmd := c; run_files := jl_files j; run_did := d |}] |}.

(** The sandboxes of the controller are [m] while it serves the request; files
    hold what was written to them until they are removed. *)
Definition jail_env (m : gmap string sandbox) : @env ASig Jail := fun e j =>
  match e return AAnswer e -> Jail -> Prop with
  | RegGet id => fun a j' => a = m !! id /\ j' = j
  | OsWriteString f t => fun a j' => match a with
      | None => j' = {| jl_files := <[f := t]> (jl_files j); jl_runs := jl_runs j |}
      | Some _ => jl_runs j' = jl_runs j
      end
  | OsRemove f => fun a j' => j' = {| jl_files := delete f (jl_files j); jl_runs := jl_runs j |} \/ j' = j
  | RunCmd c => fun o j' => did_ok (Captured o) /\ j' = with_run c (Captured o) j
  | StreamCmd c => fun o j' => match o with
      | StartFailed _ => j' = j
      | Streamed reads waitErr => did_ok (Streaming reads waitErr) /\ j' = with_run c (Streaming reads waitErr) j
      end
  | _ => fun _ j' => j' = j
  end.

(** What [io.Copy] into a [limitWriter] keeps of a pipe. *)
Definition kept (maxBytes : Z) (chunks : list string) : string :=
  if 0 <? maxBytes then str_take (Z.to_nat maxBytes) (str_concat chunks) else str_concat chunks.

Lemma capture_kept (maxBytes : Z) (o : RunOutcome) :
  (capture maxBytes o).1 = (kept maxBytes (ro_Stdout o), kept maxBytes (ro_Stderr o)) /\
  match ro_Err o with Some e => (capture maxBytes o).2 = Some e | None =>
    (capture maxBytes o).2 = None \/ exists e, (capture maxBytes o).2 = Some (RunOther e) end.
Proof.
  unfold capture, kept. pose proof (io_Copy_exact maxBytes (ro_Stdout o)) as H1.
  pose proof (io_Copy_exact maxBytes (ro_Stderr o)) as H2.
  destruct (io_Copy _ (ro_Stdout o)) as [w1 s1], (io_Copy _ (ro_Stderr o)) as [w2 s2]. cbn [fst snd].
  destruct H1 as [-> _], H2 as [-> _]. split; [done|]. destruct (ro_Err o); [done|]. destruct (s1 || s2); eauto.
Qed.

(** Where a command name may lead. *)
Definition resolved (command rc : string) : Prop :=
  rc = command \/ exists dir, dir ∈ searchDirs /\ rc = dir +:+ "/" +:+ command.

Lemma resolve_results (command chroot : string) : results (resolved command) (resolveCommandInChroot command chroot).
Proof.
  unfold resolveCommandInChroot. destruct (_ || _); [by left|].
  assert (forall dirs, (forall d, d ∈ dirs -> d ∈ searchDirs) -> results (resolved command) (search_dirs dirs command chroot)) as H.
  { induction dirs as [|d dirs IH]; intros Hd; [by left|]. cbn [search_dirs bind perform results]. intros [].
    - right. exists d. split; [apply Hd, list_elem_of_here|done].
    - apply IH. intros d' Hin. by apply Hd, list_elem_of_further. }
  by apply H.
Qed.

(** The one command of an exec: nsjail, on the configuration of the sandbox and
    of this command, which is in its file when nsjail starts. *)
Definition jailed_run (acfg : AdapterConfig) (sb : sandbox) (command : string) (args : list string)
    (env : list (string * string)) (t : Z) (r : Run) : Prop :=
  exists file rc, resolved command rc /\
    run_cmd r = {| cmd_Path := ac_NsjailPath acfg; cmd_Args := ["--config"; file; "--"; rc] ++ args;
                   cmd_Timeout := execContext t; cmd_Stdin := None |} /\
    run_files r !! file = Some (ToTextProto (buildNsjailConfig sb (sandbox_rootfs acfg sb) env t)) /\
    did_ok (run_did r).

(** What the adapter makes of it. *)
Definition adapter_result (acfg : AdapterConfig) (t : Z) (o : RunOutcome) (r : ExecResponseBody + Err) : Prop :=
  exists d, r = buildExecResponse (capture (ac_MaxOutputBytes acfg) o).2 d t
    (kept (ac_MaxOutputBytes acfg) (ro_Stdout o)) (kept (ac_MaxOutputBytes acfg) (ro_Stderr o)).

Section jail.
Context (acfg : AdapterConfig) (m : gmap string sandbox).

Lemma exec_response_jail runErr t out err (j : Jail) :
  wp (jail_env m) (exec_response runErr t out err) j (fun r j' => j' = j /\ exists d, r = buildExecResponse runErr d t out err).
Proof. destruct runErr as [[code|e]|]; cbn [exec_response wp bind perform]; [eauto|intros d ? ->; eauto|eauto]. Qed.

Lemma resolve_jail command chroot (j : Jail) :
  wp (jail_env m) (resolveCommandInChroot command chroot) j (fun rc j' => j' = j /\ resolved command rc).
Proof.
  apply wp_conj; [|by apply wp_results, resolve_results].
  apply (wp_only _ _ _ _ (resolve_stat command chroot)). by intros e [p ->] s x s'.
Qed.

(** [k] runs with the configuration of the sandbox and of the command in its
    file; whether the file can be removed afterwards makes no difference. *)
Lemma with_nsjail_jail {X} (fail : Err -> X) id command args env t (k : Cmd -> @prog ASig X) (j : Jail)
    (Q : X -> list Run -> Prop) :
  (forall e, Q (fail e) (jl_runs j)) ->
  (forall sb file rc files, m !! id = Some sb -> resolved command rc ->
     files !! file = Some (ToTextProto (buildNsjailConfig sb (sandbox_rootfs acfg sb) env t)) ->
     wp (jail_env m) (k {| cmd_Path := ac_NsjailPath acfg; cmd_Args := ["--config"; file; "--"; rc] ++ args;
                           cmd_Timeout := execContext t; cmd_Stdin := None |})
       {| jl_files := files; jl_runs := jl_runs j |} (fun r j' => Q r (jl_runs j'))) ->
  wp (jail_env m) (with_nsjail fail acfg id command args env t None k) j (fun r j' => Q r (jl_runs j')).
Proof.
  intros Hfail Hk. unfold with_nsjail. cbn [wp bind perform].
  intros ? ? ->. intros found ? [-> ->]. intros ? ? ->.
  destruct (m !! id) as [sb|] eqn:Hm; [|apply Hfail]. cbv zeta.
  eapply wp_bind_spec; [apply resolve_jail|]. intros rc ? [-> Hrc]. cbn [wp bind perform].
  intros [file|err] ? ->; [|apply Hfail].
  cbn [wp bind perform]. intros [err|] j1 Hw; cbn [wp bind perform].
  { cbn in Hw. intros ? ? -> ? j2 [->| ->]; cbn [jl_runs]; rewrite Hw; apply Hfail. }
  cbn in Hw. subst j1. intros ? ? ->.
  eapply wp_bind_spec; [apply (Hk sb file rc); [done|done|apply lookup_insert_eq]|].
  intros r j2 HQ. cbn [wp bind perform]. by intros ? j3 [-> | ->].
Qed.

(** An exec without a terminal runs one command in the jail of its sandbox, or
    fails without running any. *)
Lemma Exec_jail id command args env t (j : Jail) :
  wp (jail_env m) (Exec acfg id command args env t false) j (fun r j' =>
    (jl_runs j' = jl_runs j /\ exists e, r = inr e) \/
    exists sb u o, m !! id = Some sb /\ jl_runs j' = jl_runs j ++ [u] /\
      jailed_run acfg sb command args env t u /\ run_did u = Captured o /\ adapter_result acfg t o r).
Proof.
  unfold Exec, execWithStdin, execWithStdin_on.
  apply (with_nsjail_jail _ _ _ _ _ _ _ j (fun r us => (us = jl_runs j /\ exists e, r = inr e) \/
    exists sb u o, m !! id = Some sb /\ us = jl_runs j ++ [u] /\
      jailed_run acfg sb command args env t u /\ run_did u = Captured o /\ adapter_result acfg t o r)); [left; eauto|].
  intros sb file rc files Hm Hrc Hfile. cbn [wp bind perform]. intros o ? [Ho ->].
  destruct (capture _ o) as [[out err] re] eqn:Hc. pose proof (capture_kept (ac_MaxOutputBytes acfg) o) as [Hk _].
  rewrite Hc in Hk. cbn [fst] in Hk. injection Hk as -> ->.
  eapply wp_mono; [|apply exec_response_jail]. intros r j2 [-> [d Hr]]. right.
  eexists sb, _, o. split_and!; [done|reflexivity| |reflexivity|exists d; by rewrite Hc].
  exists file, rc. by split_and!.
Qed.

(** ** The controller *)

Context (ctrl : config) {M : CtrlMetrics}.

Lemma measures_jail {A} (p : @prog ASig A) (j : Jail) :
  @only ASig A measures p -> wp (jail_env m) p j (fun _ j' => j' = j).
Proof. intros Hp. apply (@wp_stay ASig _ _ _ measures); [done|]. intros [] x j' He; by try done. Qed.

(** The timeout the controller uses. *)
Definition used_timeout (q : ExecReq) : Z := if xr_TimeoutSeconds q <=? 0 then 30 else xr_TimeoutSeconds q.

(** At most one command was run, and that in the jail of the request's sandbox. *)
Definition ran (q : ExecReq) (us : list Run) : Prop :=
  us = [] \/ exists sb u, us = [u] /\ m !! xr_SandboxID q = Some sb /\
    jailed_run acfg sb (xr_Command q) (xr_Args q) (xr_Env q) (used_timeout q) u.

(** The body of a response for a command, on every way it can end. *)
Definition exec_body (res : ExecResponseBody) : ExecResult :=
  {| xs_Stdout := truncateOutput (cc_maxOutputBytes ctrl) (ex_Stdout res);
     xs_Stderr := truncateOutput (cc_maxOutputBytes ctrl) (ex_Stderr res);
     xs_ExitCode := ex_ExitCode res; xs_TimedOut := ex_TimedOut res |}.

Definition exec_answered (q : ExecReq) (us : list Run) (resp : Response) : Prop :=
  ran q us /\
  (400 <= resp_code resp \/
   exists u o res, us = [u] /\ run_did u = Captured o /\ adapter_result acfg (used_timeout q) o (inl res) /\
     resp = {| resp_code := 200; resp_body := BExec (exec_body res) |}).

Lemma handleExec_jail (q : ExecReq) (j : Jail) :
  xr_PTY q = false ->
  wp (jail_env m) (handleExec (O := NsjailOps acfg) ctrl (Some q)) j (fun resp j' =>
    exists us, jl_runs j' = jl_runs j ++ us /\ exec_answered q us resp).
Proof.
  intros Hpty. unfold handleExec, check_exec. fold (used_timeout q).
  assert (forall resp, 400 <= resp_code resp -> exists us, jl_runs j = jl_runs j ++ us /\ exec_answered q us resp) as H0.
  { intros resp Hr. exists []. rewrite app_nil_r. split; [done|]. split; by left. }
  do 2 (case_goal; [by apply H0|]). unfold with_slot. cbn [wp bind perform]. intros [] ? ->.
  2:{ eapply wp_bind_spec; [apply measures_jail, (metrics_measure "" "" 0 0)|]. intros ? ? ->. by apply H0. }
  intros start ? ->. rewrite Hpty. apply wp_bind.
  eapply wp_bind_spec.
  { apply wp_conj; [apply Exec_jail|]. apply wp_results.
    apply (law_exec_status (AdapterLaws := NsjailLaws acfg) (xr_SandboxID q) (xr_Command q) (xr_Args q) (xr_Env q) (used_timeout q) false). }
  intros r j1 [Hrun Hrep].
  assert (exists us, jl_runs j1 = jl_runs j ++ us /\ ran q us /\
    forall res, r = inl res -> exists u o, us = [u] /\ run_did u = Captured o /\ adapter_result acfg (used_timeout q) o (inl res)) as (us & Hus & Hran & Hres).
  { destruct Hrun as [[He [e ->]]|(sb & u & o & Hsb & He & Hj & Ho & Ha)].
    - exists []. rewrite app_nil_r. split_and!; [done|by left|done].
    - exists [u]. split_and!; [done|right; eauto|]. intros res ->. eauto. }
  destruct r as [res|err];
    (eapply wp_bind_spec; [apply measures_jail, (metrics_measure "" "" start 0)|]; intros d ? ->;
     eapply wp_bind_spec; [apply measures_jail, metrics_measure|]; intros ? ? ->; cbn [wp bind perform]; intros ? ? ->;
     exists us; split; [done|]; split; [done|]).
  - right. destruct (Hres res eq_refl) as (u & o & -> & Ho & Ha). by exists u, o, res.
  - left. by rewrite adapter_failed_code.
Qed.

End jail.

(** ** What the controller sees of the posted body *)

(** The request is sent from the decoded body, and decoded again. *)
Definition seen (s : Session) (body : ExecRequestBody) : ExecReq :=
  received (C := Client.ExecReq_codec) (exec_request s (received body) false).

Lemma valid_entries (m : list (string * string)) :
  map (fun e : string * string => ToValidUTF8 e.1) (map valid_entry m) = map (fun e => ToValidUTF8 e.1) m.
Proof. rewrite map_map. apply map_ext. intros [k v]. apply ToValidUTF8_idem. Qed.

Lemma exec_request_fits (s : Session) (body : ExecRequestBody) :
  fits body -> request_fits (CRExec (exec_request s (received body) false)).
Proof.
  destruct body as [a b c d e f g h]. cbn -[merge_sort]. intros (_ & _ & _ & _ & _ & Hf & Hg & _). split_and!; try done.
  - by rewrite Forall_forall.
  - rewrite valid_entries. by rewrite (merge_sort_Permutation key_le f).
  - lia.
  - lia.
Qed.

Lemma seen_fields (s : Session) (body : ExecRequestBody) :
  xr_SandboxID (seen s body) = ToValidUTF8 (ss_SessionID (se_Spec s)) /\
  xr_Command (seen s body) = ToValidUTF8 (er_Command body) /\
  xr_Args (seen s body) = map ToValidUTF8 (er_Args body) /\
  xr_Env (seen s body) ≡ₚ map valid_entry (er_Env body) /\
  xr_TimeoutSeconds (seen s body) = er_TimeoutSeconds body.
Proof.
  destruct body as [a b c d e f g h]. cbn -[merge_sort]. split_and!; try done.
  - apply ToValidUTF8_idem.
  - rewrite map_map. apply map_ext. apply ToValidUTF8_idem.
  - rewrite (merge_sort_Permutation key_le (map valid_entry (merge_sort key_le f))), map_map.
    rewrite (map_ext _ valid_entry); [by rewrite (merge_sort_Permutation key_le f)|].
    intros [k v]. unfold valid_entry. cbn [fst snd]. by rewrite !ToValidUTF8_idem.
Qed.

(** ** The router and the controllers together *)

Section chain.
Context {U : Unicode} (cfg : Config) (ctrl : config) (acfg : AdapterConfig) {M : CtrlMetrics}.
Context (metrics_page : option (Request -> Response)) (badJSON : Err).

(** The sandboxes of the controller behind each URL. *)
Context (reg : string -> gmap string sandbox).

(** A controller serves a request: its handler runs with any files about, and
    [us] are the commands it ran. *)
Definition serves (url : string) (r : CtrlReq) (us : list Run) (resp : Response) : Prop :=
  exists pat p vs files j,
    handler (O := NsjailOps acfg) ctrl metrics_page
      (receive (wire_method r) (wire_path r) (cf_ControllerToken cfg) (wire_body r)) = Handled pat p vs /\
    ends (jail_env (reg url)) p {| jl_files := files; jl_runs := [] |} resp j /\ us = jl_runs j.

(** The state is the list of all commands with the URL they were asked for at. A
    request may get lost before or after it was served; the API server and
    everything else answers anything. *)
Definition linked : @env KSig (list (string * Run)) := fun e l =>
  match e return KAnswer e -> list (string * Run) -> Prop with
  | Http url r => fun a l' =>
      (exists us resp, serves url r us resp /\ l' = l ++ map (pair url) us /\
         (a = wire_answer badJSON r resp \/ exists msg, a = NoResponse msg)) \/
      (l' = l /\ exists msg, a = NoResponse msg)
  | _ => fun _ l' => l' = l
  end.

Lemma serves_exec (url : string) (q : ExecReq) (us : list Run) (resp : Response) :
  request_fits (CRExec q) -> xr_PTY q = false -> serves url (CRExec q) us resp ->
  exec_answered acfg (reg url) ctrl (received (C := Client.ExecReq_codec) q) us resp.
Proof.
  intros Hf Hp (pat & p & vs & files & j & Hh & He & ->). apply handler_reached in Hh as [-> | ->]; [| |done].
  - cbn [ends] in He. destruct He as [-> ->]. split; left; done.
  - eapply wp_ends in He; [|apply handleExec_jail; by destruct q]. by destruct He as (us & -> & Ha).
Qed.

(** The exit code of a command has the width of an [int]. *)
Lemma exec_body_fits (t : Z) (o : RunOutcome) (res : ExecResponseBody) :
  exit_in_range (ro_Err o) -> adapter_result acfg t o (inl res) -> fits (C := Client.ExecResult_codec) (exec_body ctrl res).
Proof.
  intros Ho [d Hr]. destruct (capture_kept (ac_MaxOutputBytes acfg) o) as [_ Hk].
  assert (- 2 ^ 63 <= ex_ExitCode res <= 2 ^ 63 - 1) as Hc; [|by cbn; split_and!; try done; lia].
  unfold exit_in_range in Ho. unfold buildExecResponse in Hr.
  destruct (capture _ o).2 as [[code|e]|]; [..|by simplify_eq/=].
  - destruct (ro_Err o) as [[]|]; [simplify_eq/=; done|done|by destruct Hk as [|[]]].
  - destruct d; [|done]. by simplify_eq/=.
Qed.

Lemma ClientExec_linked (base : string) (q : ExecReq) (l : list (string * Run)) :
  let url := base +:+ "/v1/exec" in let q' := received (C := Client.ExecReq_codec) q in
  request_fits (CRExec q) -> xr_PTY q = false ->
  wp linked (ClientExec base q) l (fun r l' => exists us, l' = l ++ map (pair url) us /\ ran acfg (reg url) q' us /\
    forall x, r = inl x -> exists u o res, us = [u] /\ run_did u = Captured o /\
      adapter_result acfg (used_timeout q') o (inl res) /\
      x = received (C := Client.ExecResult_codec) (exec_body ctrl res)).
Proof.
  intros url q' Hf Hp. unfold ClientExec, send. cbn [bind call wp]. fold url. intros a l' [Hs|[-> [msg ->]]].
  2:{ cbn [wp bind flatten]. exists []. rewrite app_nil_r. split_and!; [done|by left|done]. }
  destruct Hs as (us & resp & Hs & -> & Ha). apply serves_exec in Hs as [Hran Hans]; [|done|done].
  destruct Ha as [-> |[msg ->]]; [|exists us; by split_and!]. unfold wire_answer.
  destruct Hans as [Hc|(u & o & res & -> & Hd & Hr & ->)].
  - rewrite (proj2 (Z.leb_le 300 _)) by lia. cbn [wp bind flatten]. exists us. by split_and!.
  - change (300 <=? resp_code _) with false. cbv iota. cbn [wp bind flatten wire_out resp_body body_text].
    exists [u]. split_and!; [done|done|]. intros x Hx. exists u, o, res. split_and!; [done..|].
    destruct Hran as [|(sb & v & Hv & _ & file & rc & _ & _ & _ & Ho)]; [done|]. injection Hv as <-. rewrite Hd in Ho.
    unfold decoded in Hx. rewrite encoded_received in Hx; [by injection Hx|vm_compute; lia|by eapply exec_body_fits].
Qed.

(** ** The router *)

Lemma wp_calm {A B} (p : prog A) (f : A -> prog B) (l : list (string * Run)) (Q : B -> list (string * Run) -> Prop) :
  only calm p -> (forall a, wp linked (f a) l Q) -> wp linked (bind p f) l Q.
Proof.
  intros Hp Hf. eapply wp_bind_spec; [apply (@wp_stay KSig _ _ _ calm); [exact Hp|]|by intros a ? ->].
  intros [] x s' He; by try done.
Qed.

Lemma require_linked user v r n k l Q :
  (forall resp, rs_code resp <> 200 -> Q resp l) -> wp linked k l Q -> wp linked (requireResourceAccess cfg user v r n k) l Q.
Proof.
  intros H0 Hk. unfold requireResourceAccess. destruct user as [u|]; [|by apply H0]. apply wp_calm; [apply authorize_calm|]. intros [err|]; [by apply H0|done].
Qed.

(** The session an exec is given: a running one, which is the session of the
    request's id and sandbox unless it was made just now. *)
Definition picked (body : ExecRequestBody) (id : string) (s : Session) (created : bool) : Prop :=
  phase_of s = SandboxPhaseRunning /\
  (TrimSpace (er_SessionID body) <> "" -> id = TrimSpace (er_SessionID body)) /\
  (created = false -> ss_SessionID (se_Spec s) = id /\ ss_SandboxID (se_Spec s) = er_SandboxID body).

Lemma start_session_linked user body id old k l Q :
  (forall resp, rs_code resp <> 200 -> Q resp l) -> (forall s, wp linked (k s true) l Q) ->
  wp linked (start_session cfg user body id old k) l Q.
Proof.
  intros H0 Hk. unfold start_session. do 2 (apply require_linked; [done|]).
  apply wp_calm; [by destruct old|]. intros [err|]; [by apply H0|]. unfold found_sandbox.
  apply wp_calm; [apply lookupSandbox_calm|]. intros [[sb|]|err]; [|by apply H0|by apply H0].
  apply wp_calm; [apply createAndWait_calm|]. intros [s|err]; [apply Hk|by apply H0].
Qed.

Lemma exec_session_linked user d k l Q :
  (forall resp, rs_code resp <> 200 -> Q resp l) ->
  (forall body id s created, d = Body body -> picked body id s created -> wp linked (k body id s created) l Q) ->
  wp linked (exec_session cfg user d k) l Q.
Proof.
  intros H0 Hk. unfold exec_session. destruct d as [body| |]; [|by apply H0|by apply H0]. cbn [decodeBody].
  destruct (ValidateExecRequest _ _ _ _); [by apply H0|].
  eapply wp_bind_spec.
  { apply (wp_conj _ _ _ (fun _ l' => l' = l)
      (fun c _ => forall id, c = Some id -> TrimSpace (er_SessionID body) <> "" -> id = TrimSpace (er_SessionID body))).
    - apply (@wp_stay KSig _ _ _ calm); [apply choose_calm|]. intros [] x s' He; by try done.
    - apply wp_results. unfold choose_session_id. destruct (_ =?s "") eqn:Hg.
      + apply String.eqb_eq in Hg. eapply results_bind; [apply results_any|]. intros a _. cbn [results]. by rewrite Hg.
      + destruct (ValidateSessionID _); [done|]. by intros id [= <-]. }
  intros [id|] l' [-> Hid]; [|by apply H0]. specialize (Hid id eq_refl). cbv zeta.
  assert (forall s created, (created = false -> ss_SessionID (se_Spec s) = id /\ ss_SandboxID (se_Spec s) = er_SandboxID body) ->
    wp linked (if phase_of s =?s SandboxPhaseRunning then k body id s created
      else Ret (jsonErr 503 (text "session not ready") "session_not_ready")) l Q) as Hready.
  { intros s created Hc. destruct (_ =?s _) eqn:Hph; [|by apply H0]. apply String.eqb_eq in Hph. by apply Hk. }
  unfold lookupSession. cbn [bind call wp]. intros [items|err] ? ->; [|by apply H0]. cbn [wp bind].
  destruct (find_session id items) as [s|] eqn:Hs; [|by apply start_session_linked; [|intros s; apply Hready]].
  apply find_session_spec in Hs as [_ Hs].
  destruct (phase_of s =?s SandboxPhaseTerminated); [by apply start_session_linked; [|intros s'; apply Hready]|].
  destruct (_ =?s er_SandboxID body) eqn:Hsb; cbn [negb]; [|by apply H0]. apply String.eqb_eq in Hsb.
  apply require_linked; [done|]. by apply Hready.
Qed.

(** ** What comes back *)

Definition exec_timeout (body : ExecRequestBody) : Z :=
  if er_TimeoutSeconds body <=? 0 then 30 else er_TimeoutSeconds body.

(** The result of a command as it is sent on: cut by the controller and made
    valid text by each encoder. *)
Definition sent_result (raw : ExecResponseBody) : ExecResponseBody :=
  {| ex_ExitCode := ex_ExitCode raw; ex_Stdout := ToValidUTF8 (truncateOutput (cc_maxOutputBytes ctrl) (ex_Stdout raw));
     ex_Stderr := ToValidUTF8 (truncateOutput (cc_maxOutputBytes ctrl) (ex_Stderr raw)); ex_TimedOut := ex_TimedOut raw |}.

(** A command that exited, with output within the limits of the adapter and of
    the controller. *)
Definition within_limits (o : RunOutcome) : Prop :=
  (match ro_Err o with Some (RunOther _) => False | _ => True end) /\
  forall limit chunks, (limit = ac_MaxOutputBytes acfg \/ limit = cc_maxOutputBytes ctrl) ->
    (chunks = ro_Stdout o \/ chunks = ro_Stderr o) -> 0 < limit -> slen (str_concat chunks) <= limit.

Definition exit_code (o : RunOutcome) : Z := match ro_Err o with Some (ExitError code) => code | _ => 0 end.

(** Its result, complete. *)
Definition whole_result (t : Z) (o : RunOutcome) : ExecResponseBody :=
  {| ex_ExitCode := exit_code o; ex_Stdout := ToValidUTF8 (str_concat (ro_Stdout o));
     ex_Stderr := ToValidUTF8 (str_concat (ro_Stderr o)); ex_TimedOut := (0 <? t) && (exit_code o =? 137) |}.

Lemma kept_whole (limit : Z) (chunks : list string) :
  (0 < limit -> slen (str_concat chunks) <= limit) -> kept limit chunks = str_concat chunks.
Proof.
  intros Hl. unfold kept. destruct (0 <? limit) eqn:Hm; bool_hyps; [|done].
  apply str_take_ge. specialize (Hl Hm). unfold slen in Hl. lia.
Qed.

Lemma not_crossed (limit : Z) (chunks : list string) :
  (0 < limit -> slen (str_concat chunks) <= limit) -> (io_Copy (new_writer limit) chunks).2 = false.
Proof.
  intros Hl. apply not_true_is_false. intros Hs. apply copy_limited in Hs as (Hm & pre & c & post & -> & Hc).
  specialize (Hl Hm). rewrite str_concat_app in Hl. cbn [str_concat foldr] in Hl. unfold slen in *.
  rewrite !str_app_length in *. lia.
Qed.

Lemma whole_sent (t : Z) (o : RunOutcome) (raw : ExecResponseBody) :
  within_limits o -> adapter_result acfg t o (inl raw) -> sent_result raw = whole_result t o.
Proof.
  intros [He Hl] [d Hr]. rewrite !kept_whole in Hr by eauto.
  assert ((capture (ac_MaxOutputBytes acfg) o).2 = ro_Err o) as Hc.
  { unfold capture. pose proof (not_crossed (ac_MaxOutputBytes acfg) (ro_Stdout o) ltac:(eauto)) as H1.
    pose proof (not_crossed (ac_MaxOutputBytes acfg) (ro_Stderr o) ltac:(eauto)) as H2.
    destruct (io_Copy _ (ro_Stdout o)), (io_Copy _ (ro_Stderr o)). cbn [snd] in *. subst. cbn [snd orb].
    by destruct (ro_Err o). }
  rewrite Hc in Hr. unfold sent_result, whole_result, exit_code.
  destruct (ro_Err o) as [[code|e]|]; [|done|]; cbn in Hr; injection Hr as ->; cbn;
    rewrite !truncate_fits by eauto; [done|]. by rewrite andb_false_r.
Qed.

(** A request that was answered: no command and no success; or one command, in
    the jail of the session that was picked, with the posted command, arguments
    and environment; and a success carries that command's result. *)
Definition exec_done (body : ExecRequestBody) (r : RResponse) (l : list (string * Run)) : Prop :=
  (l = [] /\ rs_code r <> 200) \/
  exists id s created sb u env,
    let url := controllerURLFromSession cfg s +:+ "/v1/exec" in
    picked (received body) id s created /\ l = [(url, u)] /\
    reg url !! ToValidUTF8 (ss_SessionID (se_Spec s)) = Some sb /\ env ≡ₚ map valid_entry (er_Env body) /\
    jailed_run acfg sb (ToValidUTF8 (er_Command body)) (map ToValidUTF8 (er_Args body)) env (exec_timeout body) u /\
    (rs_code r = 200 -> rs_session r = Some (id, created) /\
      exists o raw, run_did u = Captured o /\ adapter_result acfg (exec_timeout body) o (inl raw) /\
        DecodeText (hr_Body (render r)) = Some (sent_result raw) /\
        (within_limits o -> sent_result raw = whole_result (exec_timeout body) o)).

Lemma middleware_linked present pattern method next l Q :
  wp linked next l Q -> wp linked (middleware present pattern method next) l Q.
Proof.
  intros Hn. unfold middleware. destruct present; [|done]. cbn [negb bind call wp]. intros ? ? -> start ? ->.
  eapply wp_bind_spec; [exact Hn|]. intros a l' Ha. cbn [bind call wp]. by intros ? ? -> ? ? -> ? ? -> ? ? ->.
Qed.

(** A request behind the bearer check. *)
Lemma withAuth_linked header next l Q :
  (forall resp, rs_code resp <> 200 -> Q (AHttp resp) l) -> (forall u, wp linked (next (Some u)) l Q) ->
  wp linked (withAuth cfg (AHttp (jsonErr 401 (text "unauthorized") "")) header next) l Q.
Proof.
  intros H0 Hn. unfold withAuth. destruct (extractBearer _); [|by apply H0].
  apply wp_calm; [apply authenticate_calm|]. intros [u|err]; [apply Hn|by apply H0].
Qed.

(** The posted text decodes to the body, or the request is refused. *)
Lemma body_of_posted (rq : HttpRequest) (body b : ExecRequestBody) :
  hq_Body rq = MarshalText body -> fits body -> body_of cfg rq = Body b -> b = received body.
Proof.
  intros Hb Hf. unfold body_of. destruct (_ && _ && _); [done|].
  rewrite Hb, body_received; [|vm_compute; lia|done]. by intros [= <-].
Qed.

(** The router's body decodes to what it was given, once more as valid text. *)
Lemma exec_reply_read (t : Z) (o : RunOutcome) (raw : ExecResponseBody) (id : option (string * bool)) :
  exit_in_range (ro_Err o) -> adapter_result acfg t o (inl raw) ->
  let x := received (C := Client.ExecResult_codec) (exec_body ctrl raw) in
  DecodeText (hr_Body (render {| rs_code := 200; rs_session := id;
    rs_body := RExec {| ex_ExitCode := xs_ExitCode x; ex_Stdout := xs_Stdout x; ex_Stderr := xs_Stderr x;
                        ex_TimedOut := xs_TimedOut x |} |})) = Some (sent_result raw).
Proof.
  intros Ho Hr x. pose proof (exec_body_fits _ _ _ Ho Hr) as Hf. cbn [render hr_Body rs_body render_body].
  rewrite encoded_received; [|vm_compute; lia|].
  - unfold sent_result. subst x. cbn -[ToValidUTF8 truncateOutput]. by rewrite !ToValidUTF8_idem.
  - cbn in Hf |- *. destruct_and?. by split_and!.
Qed.

Lemma handleSessionExec_linked (user : option UserInfo) (d : Decoded ExecRequestBody) (body : ExecRequestBody) :
  (forall b, d = Body b -> b = received body) -> fits body -> er_PTY body = false ->
  wp linked (handleSessionExec cfg user d) [] (exec_done body).
Proof.
  intros Hd Hf Hp. unfold handleSessionExec, in_slot. cbn [bind call wp]. intros [] ? ->; [|by left].
  eapply wp_bind_spec; [|intros r l Hr; cbn [bind call wp]; intros ? ? ->; exact Hr].
  apply exec_session_linked; [by left|]. intros b id s created Hb Hpick. apply Hd in Hb as ->.
  replace (er_PTY (received body)) with false by (by destruct body).
  eapply wp_bind_spec; [apply ClientExec_linked; [by apply exec_request_fits|done]|].
  change (received (exec_request _ _ _)) with (seen s body). set (url := controllerURLFromSession cfg s +:+ "/v1/exec").
  destruct (seen_fields s body) as (H1 & H2 & H3 & H4 & H5).
  assert (used_timeout (seen s body) = exec_timeout body) as Ht by (unfold used_timeout; by rewrite H5).
  intros x l (us & -> & Hran & Hx). unfold ran in Hran. rewrite H1, H2, H3, Ht in Hran. rewrite Ht in Hx. cbn [app].
  destruct Hran as [-> |(sb & u & -> & Hsb & Hrun)].
  { destruct x as [res|err]; [|by left]. by destruct (Hx res eq_refl) as (? & ? & ? & ? & _). }
  assert (forall r, (rs_code r = 200 -> rs_session r = Some (id, created) /\
      exists o raw, run_did u = Captured o /\ adapter_result acfg (exec_timeout body) o (inl raw) /\
        DecodeText (hr_Body (render r)) = Some (sent_result raw)) -> exec_done body r [(url, u)]) as Hdone.
  { intros r Hr. right. exists id, s, created, sb, u, (xr_Env (seen s body)). split_and!; try done.
    intros Hc. destruct (Hr Hc) as (Hid & o & raw & Ho & Ha & Hdec). split; [done|]. exists o, raw. split_and!; [done..|].
    intros Hl. by apply whole_sent. }
  destruct x as [res|err]; [|by apply Hdone].
  destruct (Hx res eq_refl) as (u' & o & raw & [= <-] & Hdid & Ha & ->). cbn [bind call wp]. intros ? ? ->. apply Hdone.
  intros _. split; [done|]. exists o, raw. split_and!; [done..|].
  destruct Hrun as (file & rc & _ & _ & _ & Ho). rewrite Hdid in Ho. by eapply exec_reply_read.
Qed.


End chain.

(** ** An exec that can be run *)

Section simulation.
Context (m : gmap string sandbox) (o : RunOutcome) (reads : list (stream * string)).

(** Files can be written, commands found in [/usr/bin] and run. *)
Definition jail_run (e : AEvent) (j : Jail) : AAnswer e * Jail :=
  match e return AAnswer e * Jail with
  | RegGet id => (m !! id, j)
  | OsStat path => (Contains path "/usr/bin/", j)
  | OsCreateTemp => (inl "/tmp/nsjail-1.cfg", j)
  | OsWriteString f t => (None, {| jl_files := <[f := t]> (jl_files j); jl_runs := jl_runs j |})
  | OsRemove f => (None, {| jl_files := delete f (jl_files j); jl_runs := jl_runs j |})
  | StdoutPipe | StderrPipe => (None, j)
  | RunCmd c => (o, with_run c (Captured o) j)
  | StreamCmd c => (Streamed reads None, with_run c (Streaming reads None) j)
  | SemTryAcquire => (true, j)
  | e => (os_failure e, j)
  end.

Lemma jail_run_allowed (e : AEvent) (j : Jail) :
  did_ok (Captured o) -> did_ok (Streaming reads None) -> jail_env m e j (jail_run e j).1 (jail_run e j).2.
Proof. intros Ho Hs. destruct e; cbn; auto. Qed.

Context {U : Unicode} (cfg : Config) (ctrl : config) (acfg : AdapterConfig) {M : CtrlMetrics} (s : Session).

(** The API server has the session [s], and every controller serves. *)
Definition linked_run (e : KEvent) (l : list (string * Run)) : KAnswer e * list (string * Run) :=
  match e return KAnswer e * list (string * Run) with
  | ListSessions _ _ => (inl [s], l)
  | SlotTryAcquire => (true, l)
  | Http url r =>
      match handler (O := NsjailOps acfg) ctrl None
              (receive (wire_method r) (wire_path r) (cf_ControllerToken cfg) (wire_body r)) with
      | Handled _ p _ =>
          let '(resp, j) := @run ASig _ _ jail_run p {| jl_files := ∅; jl_runs := [] |} in
          (wire_answer (ErrMsg "invalid json") r resp, l ++ map (pair url) (jl_runs j))
      | _ => (NoResponse "refused", l)
      end
  | e => (unavailable e, l)
  end.

Lemma linked_run_allowed (e : KEvent) (l : list (string * Run)) :
  did_ok (Captured o) -> did_ok (Streaming reads None) ->
  linked cfg ctrl acfg None (ErrMsg "invalid json") (fun _ => m) e l (linked_run e l).1 (linked_run e l).2.
Proof.
  intros Ho Hs. destruct e; try done. cbn [linked_run linked].
  destruct (handler _ _ _) as [pat p vs| | | |] eqn:Hh; [|by right; eauto..].
  pose proof (@run_ends ASig _ _ (jail_env m) jail_run p {| jl_files := ∅; jl_runs := [] |} (fun e j => jail_run_allowed e j Ho Hs)) as He.
  destruct (@run ASig _ _ _ p _) as [resp j]. left. exists (jl_runs j), resp. split_and!; [|done|by left].
  by exists pat, p, vs, ∅, j.
Qed.

End simulation.

Definition echo_body : ExecRequestBody :=
  {| er_SandboxID := "demo"; er_SessionID := "s1"; er_Owner := ""; er_Command := "echo"; er_Args := ["<hi>"];
     er_Env := [("B", "2"); ("A", "1")]; er_TimeoutSeconds := 5; er_PTY := false |}.

Lemma echo_fits : fits echo_body.
Proof.
  cbn. split_and!; try done; try lia; [by repeat constructor|].
  apply NoDup_cons. split; [by vm_compute; intros ?%list_elem_of_singleton|apply NoDup_singleton].
Qed.

Definition echo_http : HttpRequest :=
  {| hq_Method := "POST"; hq_Path := "/v1/sessions/exec"; hq_RawQuery := ""; hq_Authorization := "Bearer dev";
     hq_SandboxId := ""; hq_SessionId := ""; hq_Body := MarshalText echo_body; hq_Overlong := false |}.

Definition echo_out : RunOutcome := {| ro_Stdout := ["<hi"; ">" +:+ NL]; ro_Stderr := []; ro_Err := None |}.

Definition echo_reads : list (stream * string) := [(Stdout, "<hi"); (Stdout, ">" +:+ NL)].

Definition echo_ctrl : config :=
  {| cc_port := 8080; cc_mtlsDisabled := true; cc_tlsCertPath := ""; cc_tlsKeyPath := ""; cc_tlsCAPath := "";
     cc_controllerToken := ""; cc_maxSandboxes := 2; cc_maxExecConcurrency := 50; cc_maxOutputBytes := 1048576;
     cc_metricsPort := 9090; cc_adapterConfig := sample_cfg |}.

Definition echo_session : Session := sample_session "Running" "ctrl-0" "10.0.0.7" None.

Definition echo_reg : gmap string sandbox := {[ "s1" := sample_sandbox ]}.

Definition echoed : Answer * list (string * Run) :=
  @run KSig _ _ (linked_run (U := ascii_only) (M := true) echo_reg echo_out echo_reads dev_router echo_ctrl sample_cfg echo_session)
    (ServeHTTP dev_router no_mcp mcp_refusal true None echo_http) [].

