(* ===== verification/StreamChain.v ===== *)
(** * From the text of a streamed exec to the jail and back

    The path of [ExecChain] for [POST /v1/sessions/exec/stream]: the command is
    started, its pipes are drained while it runs, each piece is an event that goes
    from the adapter through the controller's lines and the client's scanner to a
    line of the router's response, and the exit event comes last. *)
From S2P Require Import Prelude Prog GoStrings GoMux GoJson GoCodec ApiTypes ApiCodec Errors Validate NsjailConfig Output.
From S2P Require Import AdapterConfig Adapter CtrlMetrics Controller Kube CtrlClient Wire SessionReconciler Auth EnvConfig.
From S2P Require Import CtrlAccounting SessionProofs RouterServer Mcp RouterProofs RouterAccess RouterWire RouterHttp ClusterProps.
From S2P Require Import ExecChain.
Open Scope boxy_scope.

(** ** The adapter and the controller *)

(** What [ExecStream] gives for the reads of the two pipes: the events, and the
    response built from the end of the command. *)
Definition stream_result (acfg : AdapterConfig) (t : Z) (reads : list (stream * string)) (waitErr : option RunErr)
    (evs : list (string * string)) (r : ExecResponseBody + Err) : Prop :=
  let st := drain (ac_MaxOutputBytes acfg) reads in
  evs = ds_events st /\ exists d, r = buildExecResponse waitErr d t (lw_buf (ds_stdoutBuf st)) (lw_buf (ds_stderrBuf st)).

(** No command and nothing but an error, or the events and the end of one. *)
Definition stream_outcome (acfg : AdapterConfig) (t : Z) (us : list Run) (evs : list (string * string))
    (r : ExecResponseBody + Err) : Prop :=
  (us = [] /\ evs = [] /\ exists e, r = inr e) \/
  exists u reads waitErr, us = [u] /\ run_did u = Streaming reads waitErr /\ stream_result acfg t reads waitErr evs r.

Section jail.
Context (acfg : AdapterConfig) (m : gmap string sandbox).

Lemma ExecStream_jail id command args env t (j : Jail) :
  wp (jail_env m) (ExecStream acfg id command args env t) j (fun r j' => exists us,
    jl_runs j' = jl_runs j ++ us /\ stream_outcome acfg t us r.1 r.2 /\
    (us = [] \/ exists sb u, us = [u] /\ m !! id = Some sb /\ jailed_run acfg sb command args env t u)).
Proof.
  set (P := fun (r : list (string * string) * (ExecResponseBody + Err)) runs => exists us, runs = jl_runs j ++ us /\
    stream_outcome acfg t us r.1 r.2 /\
    (us = [] \/ exists sb u, us = [u] /\ m !! id = Some sb /\ jailed_run acfg sb command args env t u)).
  assert (forall e, P ([], inr e) (jl_runs j)) as Hfail.
  { intros e. exists []. rewrite app_nil_r. split_and!; [done|left; eauto|by left]. }
  unfold ExecStream. apply (with_nsjail_jail acfg m _ _ _ _ _ _ _ j P); [done|].
  intros sb file rc files Hm Hrc Hfile. cbn [wp bind perform].
  intros [err|] ? ->; [apply Hfail|]. cbn [wp bind perform]. intros [err|] ? ->; [apply Hfail|].
  cbn [wp bind perform]. intros [err|reads w] j1 Hs; [cbn in Hs; subst j1; apply Hfail|]. destruct Hs as [Hd ->].
  eapply wp_bind_spec; [apply exec_response_jail|]. intros r ? [-> [d ->]]. cbn [wp].
  eexists [_]. split_and!; [reflexivity| |].
  - right. eexists _, reads, w. split_and!; [reflexivity|reflexivity|]. split; [done|]. by exists d.
  - right. eexists sb, _. split_and!; [reflexivity|done|]. exists file, rc. by split_and!.
Qed.

Context (ctrl : config) {M : CtrlMetrics}.

Definition stream_answered (q : ExecReq) (us : list Run) (resp : Response) : Prop :=
  ran acfg m q us /\
  (400 <= resp_code resp \/
   exists evs r, stream_outcome acfg (used_timeout q) us evs r /\ resp = {| resp_code := 200; resp_body := BStream evs r |}).

Lemma handleExecStream_jail (q : ExecReq) (j : Jail) :
  wp (jail_env m) (handleExecStream (O := NsjailOps acfg) (Some q)) j (fun resp j' =>
    exists us, jl_runs j' = jl_runs j ++ us /\ stream_answered q us resp).
Proof.
  unfold handleExecStream, check_exec. fold (used_timeout q).
  assert (forall resp, 400 <= resp_code resp -> exists us, jl_runs j = jl_runs j ++ us /\ stream_answered q us resp) as H0.
  { intros resp Hr. exists []. rewrite app_nil_r. split; [done|]. split; by left. }
  do 2 (case_goal; [by apply H0|]). unfold with_slot. cbn [wp bind perform]. intros [] ? ->.
  2:{ eapply wp_bind_spec; [apply measures_jail, (metrics_measure "" "" 0 0)|]. intros ? ? ->. by apply H0. }
  intros start ? ->. apply wp_bind. eapply wp_bind_spec; [apply ExecStream_jail|].
  intros [evs r] j1 (us & Hus & Hout & Hran). cbn [fst snd] in *.
  eapply wp_bind_spec; [apply measures_jail, (metrics_measure "" "" start 0)|]. intros d ? ->.
  eapply wp_bind_spec; [apply measures_jail; destruct r; apply metrics_measure|]. intros ? ? ->.
  cbn [wp bind perform]. intros ? ? ->. exists us. split; [done|]. split; [exact Hran|]. right. eauto.
Qed.

End jail.

(** ** The client *)

Lemma scan_prefix (ls : list string) (rest : string) :
  Forall line_ok ls ->
  scan (str_concat (map (fun l => l +:+ NL) ls) +:+ rest) = (ls ++ (scan rest).1, (scan rest).2).
Proof.
  induction 1 as [|l ls Hl Hls IH]; [cbn [map str_concat foldr String.append app]; by destruct (scan rest)|].
  cbn [map str_concat foldr]. fold (str_concat (map (fun l => l +:+ NL) ls)).
  by rewrite !str_app_assoc, scan_line, IH by done.
Qed.

(** A last line of any length is read, or is too long. *)
Lemma scan_last (l : string) :
  l <> "" -> str_forall printed l = true -> scan (l +:+ NL) = ([l], None) \/ scan (l +:+ NL) = ([], Some ErrTooLong).
Proof.
  intros Hne Hp. rewrite <- (str_app_nil_r NL). destruct (maxTokenSize <=? slen l) eqn:Hl.
  - right. unfold scan. rewrite Split_line by done. cbn [scan_lines]. by rewrite Hl.
  - left. rewrite scan_line; [done|]. split_and!; [done|done|]. by apply Z.leb_gt in Hl.
Qed.

Section client.
Context {U : Unicode}.

(** A stream that ends with an error of the controller is an error for the
    caller, after the events that came before it. *)
Lemma failed_stream_read (evs : list (string * string)) (err : Err) :
  Forall chunk_event evs ->
  let '(lines, scanErr) := scan (body_text (BStream evs (inr err))) in
  let '(evs', r) := stream_lines (map (UnmarshalText (C := Client.evt_codec)) lines) [] empty_result in
  evs' = heard evs /\ ((exists e, r = inr e) \/ scanErr <> None).
Proof.
  intros Hev. cbn [body_text last_line]. set (last := MarshalText (C := Server.event_codec) ("error", Error err)).
  assert (str_concat (map event_line evs) +:+ event_line ("error", Error err) =
    str_concat (map (fun l => l +:+ NL) (map (MarshalText (C := Server.event_codec)) evs)) +:+ (last +:+ NL)) as ->
    by (by rewrite map_map).
  assert (Forall line_ok (map (MarshalText (C := Server.event_codec)) evs)) as Hl.
  { apply Forall_map. eapply Forall_impl; [exact Hev|]. intros e. apply event_line_ok. }
  rewrite scan_prefix by done. destruct (marshalled_line (C := Server.event_codec) ("error", Error err)) as [Hne Hp].
  destruct (scan_last last Hne Hp) as [-> | ->]; cbn [fst snd]; rewrite map_app, map_map, stream_lines_heard by done.
  - cbn [map]. subst last. rewrite event_read by done. cbn [stream_lines se_Type se_Data]. cbn. eauto.
  - cbn. auto.
Qed.

End client.

(** ** The router and the controllers together *)

Section chain.
Context {U : Unicode} (cfg : Config) (ctrl : config) (acfg : AdapterConfig) {M : CtrlMetrics}.
Context (metrics_page : option (Request -> Response)) (badJSON : Err) (reg : string -> gmap string sandbox).

Local Abbreviation linked := (linked cfg ctrl acfg metrics_page badJSON reg).

(** The events the caller heard, and how the stream ended for it. *)
Definition stream_heard (t : Z) (us : list Run) (evs : list (string * string)) (r : ExecResult + Err) : Prop :=
  (evs = [] /\ exists e, r = inr e) \/
  exists u reads waitErr, us = [u] /\ run_did u = Streaming reads waitErr /\
    let sent := ds_events (drain (ac_MaxOutputBytes acfg) reads) in
    evs = heard sent /\
    ((exists e, r = inr e) \/ exists raw, stream_result acfg t reads waitErr sent (inl raw) /\
       r = inl {| xs_Stdout := ""; xs_Stderr := ""; xs_ExitCode := ex_ExitCode raw; xs_TimedOut := ex_TimedOut raw |}).

Lemma serves_stream (url : string) (q : ExecReq) (us : list Run) (resp : Response) :
  request_fits (CRExecStream q) -> serves cfg ctrl acfg metrics_page reg url (CRExecStream q) us resp ->
  stream_answered acfg (reg url) (received (C := Client.ExecReq_codec) q) us resp.
Proof.
  intros Hf (pat & p & vs & files & j & Hh & He & ->). apply handler_reached in Hh as [-> | ->]; [| |done].
  - cbn [ends] in He. destruct He as [-> ->]. split; left; done.
  - eapply wp_ends in He; [|apply handleExecStream_jail]. by destruct He as (us & -> & Ha).
Qed.

Lemma built_in_range (t : Z) (reads : list (stream * string)) (w : option RunErr) (evs : list (string * string))
    (raw : ExecResponseBody) :
  exit_in_range w -> stream_result acfg t reads w evs (inl raw) -> - 2 ^ 63 <= ex_ExitCode raw <= 2 ^ 63 - 1.
Proof.
  intros Hw [_ [d Hr]]. unfold exit_in_range in Hw. unfold buildExecResponse in Hr.
  destruct w as [[code|e]|]; [by simplify_eq/=|destruct d; [by simplify_eq/=|done]|by simplify_eq/=].
Qed.

Lemma delivered_stream_read (evs : list (string * string)) (raw : ExecResponseBody) :
  Forall chunk_event evs -> - 2 ^ 63 <= ex_ExitCode raw <= 2 ^ 63 - 1 ->
  exists lines, scan (body_text (BStream evs (inl raw))) = (lines, None) /\
    stream_lines (map (UnmarshalText (C := Client.evt_codec)) lines) [] empty_result =
      (heard evs, inl {| xs_Stdout := ""; xs_Stderr := ""; xs_ExitCode := ex_ExitCode raw; xs_TimedOut := ex_TimedOut raw |}).
Proof.
  intros Hev Hc. eexists. split; [by apply stream_text_scanned|]. rewrite map_app, map_map. cbn [map].
  rewrite exit_read by done. by rewrite stream_lines_heard by done.
Qed.

Lemma ClientExecStream_linked (base : string) (q : ExecReq) (l : list (string * Run)) :
  let url := base +:+ "/v1/exec/stream" in let q' := received (C := Client.ExecReq_codec) q in
  request_fits (CRExecStream q) ->
  wp linked (ClientExecStream base q) l (fun x l' => exists us, l' = l ++ map (pair url) us /\ ran acfg (reg url) q' us /\
    stream_heard (used_timeout q') us x.1 x.2).
Proof.
  intros url q' Hf. unfold ClientExecStream, send. cbn [bind call wp]. fold url. intros a l' [Hs|[-> [msg ->]]].
  2:{ cbn [wp bind]. exists []. rewrite app_nil_r. split_and!; [done|by left|left; eauto]. }
  destruct Hs as (us & resp & Hs & -> & Ha). apply serves_stream in Hs as [Hran Hans]; [|done].
  destruct Ha as [-> |[msg ->]]; [|exists us; split_and!; [done|done|left; eauto]]. unfold wire_answer.
  destruct Hans as [Hc|(evs & r & Hout & ->)].
  { rewrite (proj2 (Z.leb_le 300 _)) by lia. cbn [wp bind]. exists us. split_and!; [done|done|left; eauto]. }
  change (300 <=? resp_code _) with false. cbv iota. cbn [wp bind wire_out resp_body].
  destruct Hout as [(-> & -> & e & ->)|(u & reads & w & -> & Hd & Hr)].
  { pose proof (failed_stream_read [] e ltac:(constructor)) as Hread.
    destruct (scan _) as [lines se]. cbv iota. destruct (stream_lines _ _ _) as [evs' r]. destruct Hread as [-> Hr].
    destruct r as [res|e1]; [destruct se as [se|]; [|by destruct Hr as [[]|]]|]; cbn [wp];
      exists []; (split_and!; [done|by left|left; eauto]). }
  assert (did_ok (run_did u)) as Hok.
  { destruct Hran as [|(sb & v & Hv & _ & file & rc & _ & _ & _ & Ho)]; [done|]. by injection Hv as <-. }
  rewrite Hd in Hok. destruct Hok as [Hreads Hw]. pose proof (drain_chunks (ac_MaxOutputBytes acfg) reads Hreads) as Hev.
  destruct Hr as [-> Hr]. destruct r as [raw|e].
  - destruct (delivered_stream_read _ raw Hev) as (lines & Hl & Hs); [by eapply built_in_range; [exact Hw|split; [reflexivity|exact Hr]]|].
    rewrite Hl. cbv iota. rewrite Hs. exists [u]. split_and!; [done|done|]. right. exists u, reads, w.
    split_and!; [done|done|]. split; [done|]. right. by exists raw.
  - pose proof (failed_stream_read _ e Hev) as Hread.
    destruct (scan _) as [lines se]. cbv iota. destruct (stream_lines _ _ _) as [evs' r]. destruct Hread as [-> Hrr].
    destruct r as [res|e1]; [destruct se as [se|]; [|by destruct Hrr as [[]|]]|]; cbn [wp];
      exists [u]; (split_and!; [done|done|]); right; exists u, reads, w; (split_and!; [done|done|split; [done|left; eauto]]).
Qed.

(** ** The router *)

Lemma heard_read (evs : list (string * string)) : map event_of (heard evs) = map event_of evs.
Proof.
  unfold heard. rewrite map_map. apply map_ext. intros [t d]. unfold event_of. cbn [fst snd]. by rewrite ToValidUTF8_idem.
Qed.

(** How a stream ended after the events [evs]. *)
Definition ended (body : ExecRequestBody) (us : list Run) (evs : list (string * string)) (last : StreamEnd) : Prop :=
  (evs = [] /\ exists msg, last = EndError msg) \/
  exists u reads waitErr, us = [u] /\ run_did u = Streaming reads waitErr /\
    evs = ds_events (drain (ac_MaxOutputBytes acfg) reads) /\
    ((exists msg, last = EndError msg) \/
     exists raw, stream_result acfg (exec_timeout body) reads waitErr evs (inl raw) /\
       last = EndExit (ex_ExitCode raw) (ex_TimedOut raw)).

(** A request that was answered: refused without running anything; or a stream,
    of which every line decodes, from the session that was picked. At most one
    command ran, the posted one in the jail of that session; the events are all
    that [drain] made of its reads, unless the stream ends with an error before
    any; and if it ends with an exit event, that is how the command ended. *)
Definition stream_done (body : ExecRequestBody) (r : RResponse) (l : list (string * Run)) : Prop :=
  (l = [] /\ rs_code r <> 200) \/
  exists id s created us evs last,
    let url := controllerURLFromSession cfg s +:+ "/v1/exec/stream" in
    picked (received body) id s created /\ rs_code r = 200 /\ rs_session r = Some (id, created) /\
    l = map (pair url) us /\
    (us = [] \/ exists sb u env, us = [u] /\ reg url !! ToValidUTF8 (ss_SessionID (se_Spec s)) = Some sb /\
       env ≡ₚ map valid_entry (er_Env body) /\
       jailed_run acfg sb (ToValidUTF8 (er_Command body)) (map ToValidUTF8 (er_Args body)) env (exec_timeout body) u) /\
    read_events (hr_Body (render r)) = map Some (map event_of evs ++ [last_of last]) /\ ended body us evs last.

Lemma handleSessionExecStream_linked (user : option UserInfo) (d : Decoded ExecRequestBody) (body : ExecRequestBody) :
  (forall b, d = Body b -> b = received body) -> fits body ->
  wp linked (handleSessionExecStream cfg user d) [] (stream_done body).
Proof.
  intros Hd Hf. unfold handleSessionExecStream, in_slot. cbn [bind call wp]. intros [] ? ->; [|by left].
  eapply wp_bind_spec; [|intros r l Hr; cbn [bind call wp]; intros ? ? ->; exact Hr].
  apply exec_session_linked; [by left|]. intros b id s created Hb Hpick. apply Hd in Hb as ->.
  eapply wp_bind_spec; [apply ClientExecStream_linked, (exec_request_fits s body Hf)|].
  change (received (exec_request _ _ _)) with (seen s body). set (url := controllerURLFromSession cfg s +:+ "/v1/exec/stream").
  destruct (seen_fields s body) as (H1 & H2 & H3 & H4 & H5).
  assert (used_timeout (seen s body) = exec_timeout body) as Ht by (unfold used_timeout; by rewrite H5).
  intros [evs x] l (us & -> & Hran & Hx). unfold ran in Hran. rewrite H1, H2, H3, Ht in Hran. rewrite Ht in Hx. cbn [app fst snd] in *.
  assert (us = [] \/ exists sb u env, us = [u] /\ reg url !! ToValidUTF8 (ss_SessionID (se_Spec s)) = Some sb /\
       env ≡ₚ map valid_entry (er_Env body) /\
       jailed_run acfg sb (ToValidUTF8 (er_Command body)) (map ToValidUTF8 (er_Args body)) env (exec_timeout body) u) as Hjail.
  { destruct Hran as [?|(sb & u & ? & ? & ?)]; [by left|]. right. exists sb, u, (xr_Env (seen s body)). by split_and!. }
  assert (forall last, reply_fits (RStream evs last) -> (exists evs0, evs = heard evs0 /\ ended body us evs0 last) ->
    stream_done body {| rs_code := 200; rs_session := Some (id, created); rs_body := RStream evs last |} (map (pair url) us)) as Hdone.
  { intros last Hl (evs0 & Hh & He). right. exists id, s, created, us, evs0, last. split_and!; try done.
    cbn [render hr_Body rs_body]. rewrite stream_reply_read by done. by rewrite Hh, heard_read. }
  destruct x as [res|err]; cbn [bind call wp].
  - intros ? ? ->. apply Hdone; destruct Hx as [[_ [e ?]]|(u & reads & w & -> & Hdid & -> & [[e ?]|(raw & Hr & [= ->])])]; try done.
    + cbn. eapply built_in_range; [|exact Hr]. destruct Hran as [|(sb & v & [= <-] & _ & file & rc & _ & _ & _ & Ho)]; [done|].
      rewrite Hdid in Ho. apply Ho.
    + eexists. split; [done|]. right. exists u, reads, w. split_and!; [done..|]. right. by exists raw.
  - apply Hdone; [done|]. destruct Hx as [[-> _]|(u & reads & w & -> & Hdid & -> & _)].
    + exists []. split; [done|]. left. eauto.
    + eexists. split; [done|]. right. exists u, reads, w. split_and!; [done..|]. left. eauto.
Qed.


End chain.

(** ** A streamed exec that can be run *)

Definition stream_http : HttpRequest :=
  {| hq_Method := "POST"; hq_Path := "/v1/sessions/exec/stream"; hq_RawQuery := ""; hq_Authorization := "Bearer dev";
     hq_SandboxId := ""; hq_SessionId := ""; hq_Body := MarshalText echo_body; hq_Overlong := false |}.

Definition streamed : Answer * list (string * Run) :=
  @run KSig _ _ (linked_run (U := ascii_only) (M := true) echo_reg echo_out echo_reads dev_router echo_ctrl sample_cfg echo_session)
    (ServeHTTP dev_router no_mcp mcp_refusal true None stream_http) [].

