(* ===== verification/Startup.v ===== *)
(** * The three programs

    [main] of the controller, the router and the operator, with the goroutines
    they start, as programs over the calls of [Process].  A goroutine only runs
    once its [Go] was performed; what it does is [thread_body].  The theorems say
    when a program serves at all, what it leaves behind when it stops, and who
    can reach the controller's API. *)
From S2P Require Import Prelude Prog GoStrings GoMux GoJson GoCodec ApiTypes ApiCodec AdapterConfig Adapter CtrlMetrics.
From S2P Require Import Controller Kube CtrlClient Wire SessionReconciler Auth EnvConfig RouterServer Mcp RouterHttp Process.
Open Scope boxy_scope.

(** ** Goroutines *)

(** [err != nil && err != http.ErrServerClosed]. *)
Definition serve_failed (err : error) : bool :=
  match err with
  | None => false
  | Some (ErrMsg m) => negb (m =?s "http: Server closed")
  | Some _ => true
  end.

(** What the servers and the cache do; a failure of the API server or of the
    cache ends the program through [stop]. *)
Definition thread_body (t : Thread) : proc unit :=
  match t with
  | MetricsThread s => sys (ListenAndServe s) ;;; Ret tt
  | ApiThread s tls =>
      err <- (if tls then sys (ListenAndServeTLS s) else sys (ListenAndServe s)) ;;
      if serve_failed err then sys Stop else Ret tt
  | CacheThread =>
      err <- sys CacheStart ;;
      match err with Some _ => sys Stop | None => Ret tt end
  | EvictThread _ | ScaleDownThread => Ret tt
  end.

(** ** The controller *)

Definition port_addr (port : Z) : string := ":" +:+ pretty port.

Definition read_header_timeout : Z := 10 * Second.

Section programs.
Context (getenv : string -> string) (AppendCertsFromPEM : string -> bool) (lib : SchemeLibrary).

Section controller.
Context (gathered : Request -> Response).

(** [tp.MetricsHandler()]. *)
Definition MetricsHandler (tp : Provider) : Request -> Response :=
  if pv_gathers tp then gathered else fun _ => {| resp_code := 200; resp_body := BText "" |}.

Definition api_server (cfg : config) (tp : Provider) (tls : option ServerTLS) : HttpServer :=
  {| sv_Addr := port_addr (cc_port cfg);
     sv_Patterns := map fst (routes (O := NsjailOps (cc_adapterConfig cfg)) (M := true) cfg (Some (MetricsHandler tp)));
     sv_TLS := tls; sv_ReadHeaderTimeout := read_header_timeout |}.

(** The plain-text server for scrapes. *)
Definition metrics_server (cfg : config) : option HttpServer :=
  if (0 <? cc_metricsPort cfg) && negb (cc_metricsPort cfg =? cc_port cfg) then
    Some {| sv_Addr := port_addr (cc_metricsPort cfg); sv_Patterns := ["GET /healthz"; "GET /metrics"];
            sv_TLS := None; sv_ReadHeaderTimeout := read_header_timeout |}
  else None.

Definition controller_tls (cfg : config) : proc (option ServerTLS + Err) :=
  if cc_mtlsDisabled cfg then Ret (inl None)
  else
    t <- buildTLSConfig AppendCertsFromPEM (cc_tlsCertPath cfg) (cc_tlsKeyPath cfg) (cc_tlsCAPath cfg) ;;
    Ret (match t with inl t => inl (Some t) | inr err => inr err end).

(** From the servers on. *)
Definition controller_serve (cfg : config) (tp : Provider) (tls : option ServerTLS) : proc Exit :=
  let httpSrv := api_server cfg tp tls in
  match metrics_server cfg with Some s => sys (Go (MetricsThread s)) | None => Ret tt end ;;;
  sys (Go (ApiThread httpSrv (negb (cc_mtlsDisabled cfg)))) ;;;
  sys Done ;;;
  match metrics_server cfg with Some s => sys (ShutdownServer s) ;;; Ret tt | None => Ret tt end ;;;
  sys (ShutdownServer httpSrv) ;;;
  Ret Returned.

Definition controller_main : proc Exit :=
  let cfg := configFromEnv getenv in
  sys NotifyContext ;;;
  deferred (sys Stop)
    (tp <- Init getenv {| op_ServiceName := "boxy-controller"; op_Registerer := false |} ;;
     match tp with
     | inr _ => Ret (Exited 1)
     | inl tp =>
         deferred (flush tp)
           (or_exit (newControllerMetrics "boxy.dev/boxy/controller")
              (tls <- controller_tls cfg ;;
               match tls with
               | inr _ => Ret (Exited 1)
               | inl tls => controller_serve cfg tp tls
               end))
     end).

End controller.

(** ** The router *)

Section router.
Context (badJSON : Err) (mcp_call : HttpRequest -> option ToolCall)
  (mcp_page : HttpRequest -> RResponse) (gathered : HttpRequest -> RResponse).

(** [json.Unmarshal] of the default sandbox. *)
Definition unmarshal_body (raw : string) : SandboxCreateBody + Err :=
  match UnmarshalText raw with Some body => inl body | None => inr badJSON end.

Definition router_client_config (cfg : Config) : ClientConfig :=
  {| kc_MTLSDisabled := cf_MTLSDisabled cfg; kc_CACertPath := cf_TLSCAPath cfg;
     kc_ClientCert := cf_TLSClientCertPath cfg; kc_ClientKey := cf_TLSClientKeyPath cfg;
     kc_ControllerToken := cf_ControllerToken cfg |}.

(** What [NewServer] adds to its arguments: the client's transport, and whether
    there are metrics; the right is a panic. *)
Definition NewServer (cfg : Config) : proc (Transport * bool + Msg) :=
  sys (Go (EvictThread (cache_ttl cfg))) ;;;
  client <- NewClient AppendCertsFromPEM (router_client_config cfg) ;;
  match client with
  | inr msg => Ret (inr msg)
  | inl t =>
      err <- newRouterMetrics "boxy.dev/boxy/router" ;;
      Ret (inl (t, match err with None => true | Some _ => false end))
  end.

Definition router_server (cfg : Config) (tp : Provider) (metrics : bool) : HttpServer :=
  let page := if pv_gathers tp then gathered else fun _ => reply 200 (RText "") in
  {| sv_Addr := cf_ListenAddr cfg;
     sv_Patterns := map fst (http_routes cfg mcp_call mcp_page (if metrics then Some page else None));
     sv_TLS := None; sv_ReadHeaderTimeout := read_header_timeout |}.

(** From the cache on. *)
Definition router_serve (cfg : Config) (tp : Provider) : proc Exit :=
  sys (Go CacheThread) ;;;
  synced <- sys WaitForCacheSync ;;
  if negb synced then Ret (Exited 1)
  else
    srv <- NewServer cfg ;;
    match srv with
    | inr msg => Ret (Panicked msg)
    | inl (_, metrics) =>
        let httpSrv := router_server cfg tp metrics in
        sys EnsureDefault ;;;
        sys (Go (ApiThread httpSrv false)) ;;;
        sys Done ;;;
        sys (ShutdownServer httpSrv) ;;;
        Ret Returned
    end.

Definition router_main : proc Exit :=
  match ConfigFromEnv getenv unmarshal_body with
  | inr _ => Ret (Exited 1)
  | inl cfg =>
      let scheme := NewScheme lib in
      or_exit (BuildK8sCache getenv scheme (cf_SandboxNamespace cfg))
        (or_exit (BuildK8sClient getenv scheme)
           (or_exit (BuildClientset getenv)
              (sys NotifyContext ;;;
               deferred (sys Stop)
                 (tp <- Init getenv {| op_ServiceName := "boxy-router"; op_Registerer := false |} ;;
                  match tp with
                  | inr _ => Ret (Exited 1)
                  | inl tp => deferred (flush tp) (router_serve cfg tp)
                  end))))
  end.

End router.

(** ** The operator *)

Definition operator_client_config : ClientConfig :=
  {| kc_MTLSDisabled := op_envBool getenv "BOXY_MTLS_DISABLED" false;
     kc_CACertPath := op_envStr getenv "BOXY_TLS_CA_PATH" "/tls/ca.crt";
     kc_ClientCert := op_envStr getenv "BOXY_TLS_CLIENT_CERT_PATH" "/tls/tls.crt";
     kc_ClientKey := op_envStr getenv "BOXY_TLS_CLIENT_KEY_PATH" "/tls/tls.key";
     kc_ControllerToken := op_envStr getenv "BOXY_CONTROLLER_TOKEN" "" |}.

Definition manager_options : ManagerOptions :=
  let ns := op_envStr getenv "BOXY_NAMESPACE" "default" in
  {| mo_Scheme := NewScheme lib; mo_LeaderElection := true; mo_LeaderElectionID := "boxy-operator-leader";
     mo_LeaderElectionNamespace := ns; mo_HealthProbeBindAddress := ":8081";
     mo_MetricsBindAddress := op_envStr getenv "BOXY_METRICS_ADDR" ":8080"; mo_Namespaces := [ns] |}.

(** [SetupWithManager] of the three reconcilers. *)
Definition SessionReconciler_SetupWithManager : proc error :=
  sys (SetupController {| cs_Name := "session"; cs_For := "Session"; cs_Watches := [] |}).

Definition SandboxConfigReconciler_SetupWithManager : proc error :=
  sys (SetupController {| cs_Name := "sandboxconfig"; cs_For := "Sandbox"; cs_Watches := [] |}).

Definition ControllerPoolReconciler_SetupWithManager : proc error :=
  sys (SetupController {| cs_Name := "controllerpool"; cs_For := "ControllerPool"; cs_Watches := ["Session"] |}).

(** From the reconcilers on. *)
Definition operator_start : proc Exit :=
  or_exit SessionReconciler_SetupWithManager
    (or_exit SandboxConfigReconciler_SetupWithManager
       (or_exit ControllerPoolReconciler_SetupWithManager
          (or_exit (sys (AddHealthzCheck "healthz"))
             (or_exit (sys (AddReadyzCheck "readyz"))
                (sys NotifyContext ;;;
                 sys (Go ScaleDownThread) ;;;
                 or_exit (sys MgrStart) (Ret Returned)))))).

Definition operator_main : proc Exit :=
  tp <- Init getenv {| op_ServiceName := "boxy-operator"; op_Registerer := true |} ;;
  match tp with
  | inr _ => Ret (Exited 1)
  | inl tp =>
      deferred (flush tp)
        (or_exit (NewOperatorMetrics "boxy.dev/boxy/operator")
           (cfg <- sys GetConfig ;;
            match cfg with
            | inr _ => Ret (Exited 1)
            | inl cfg =>
                or_exit (sys (NewManager cfg manager_options))
                  (cc <- NewClient AppendCertsFromPEM operator_client_config ;;
                   match cc with
                   | inr msg => Ret (Panicked msg)
                   | inl _ => operator_start
                   end)
            end))
  end.

End programs.

(** ** A run of a program *)

Inductive Exporter : Type := MeterProvider | OtlpExporter.

Record Run := {
  ru_failed : bool;
  ru_threads : list Thread;
  ru_closed : list HttpServer;
  ru_open : list Exporter;
}.

Definition fresh_run : Run := {| ru_failed := false; ru_threads := []; ru_closed := []; ru_open := [] |}.

Definition fail (s : Run) : Run :=
  {| ru_failed := true; ru_threads := ru_threads s; ru_closed := ru_closed s; ru_open := ru_open s |}.

Definition failed_if (b : bool) (s : Run) : Run := if b then fail s else s.

Definition started (t : Thread) (s : Run) : Run :=
  {| ru_failed := ru_failed s; ru_threads := ru_threads s ++ [t]; ru_closed := ru_closed s; ru_open := ru_open s |}.

Definition closed (v : HttpServer) (s : Run) : Run :=
  {| ru_failed := ru_failed s; ru_threads := ru_threads s; ru_closed := ru_closed s ++ [v]; ru_open := ru_open s |}.

Definition with_open (l : list Exporter) (s : Run) : Run :=
  {| ru_failed := ru_failed s; ru_threads := ru_threads s; ru_closed := ru_closed s; ru_open := l |}.

Definition still_open (x : Exporter) (l : list Exporter) : list Exporter :=
  List.filter (fun y => match x, y with MeterProvider, MeterProvider | OtlpExporter, OtlpExporter => false | _, _ => true end) l.

Definition is_err (err : error) : bool := match err with Some _ => true | None => false end.

Definition is_right {A B} (x : A + B) : bool := match x with inr _ => true | inl _ => false end.

(** Where [strict], a program cannot do without an instrument; a file is read
    for the certificates in it. *)
Definition run_env (AppendCertsFromPEM : string -> bool) (strict : bool) : @env PSig Run := fun e s =>
  match e return PAnswer e -> Run -> Prop with
  | ReadFile _ => fun x s' => s' = failed_if (match x with inl d => negb (AppendCertsFromPEM d) | inr _ => true end) s
  | LoadX509KeyPair _ _ => fun x s' => s' = failed_if (is_right x) s
  | BuildConfigFromFlags _ | InClusterConfig | GetConfig => fun x s' => s' = failed_if (is_right x) s
  | ResourceNew _ => fun x s' => s' = failed_if (match x with (false, Some _) => true | _ => false end) s
  | OtlpNew => fun x s' => s' = (if is_err x then fail s else with_open (ru_open s ++ [OtlpExporter]) s)
  | SetMeterProvider noop => fun _ s' => s' = (if noop : bool then s else with_open (ru_open s ++ [MeterProvider]) s)
  | MeterShutdown => fun _ s' => s' = with_open (still_open MeterProvider (ru_open s)) s
  | OtlpShutdown => fun _ s' => s' = with_open (still_open OtlpExporter (ru_open s)) s
  | NewInstrument _ _ | RegisterCallback _ _ => fun x s' => s' = failed_if (strict && is_err x) s
  | PrometheusNew _ | NewCache _ _ _ | NewK8sClient _ _ | NewForConfig _ | NewManager _ _ | SetupController _
  | AddHealthzCheck _ | AddReadyzCheck _ | MgrStart => fun x s' => s' = failed_if (is_err x) s
  | WaitForCacheSync => fun x s' => s' = failed_if (negb x) s
  | Go t => fun _ s' => s' = started t s
  | ShutdownServer v => fun _ s' => s' = closed v s
  | _ => fun _ s' => s' = s
  end.

(** The servers among the goroutines. *)
Definition servers (l : list Thread) : list HttpServer :=
  omap (fun t => match t with MetricsThread s | ApiThread s _ => Some s | _ => None end) l.

(** A program that returns had no failure, has shut down what it served, in the
    order it was started, and its exporters; one that ends otherwise had a
    failure (or a [bad] configuration) and has served nothing. *)
Definition orderly (bad : Prop) (r : Exit) (s : Run) : Prop :=
  match r with
  | Returned => ru_failed s = false /\ ru_closed s = servers (ru_threads s) /\ ru_open s = []
  | Exited code => code = 1 /\ (ru_failed s = true \/ bad) /\ servers (ru_threads s) = []
  | Panicked _ => ru_failed s = true /\ servers (ru_threads s) = [] /\ ru_open s = []
  end.

(** ** Rules *)

Lemma wp_deferred {S} (R : @env PSig S) (d : proc unit) (body : proc Exit) (s : S) (Q : Exit -> S -> Prop) :
  wp R body s (fun r s' => match r with Exited _ => Q r s' | _ => wp R d s' (fun _ s'' => Q r s'') end) ->
  wp R (deferred d body) s Q.
Proof.
  intros Hb. unfold deferred. eapply wp_bind_spec; [exact Hb|]. intros [] s' Hr; [done|..];
    (eapply wp_bind_spec; [exact Hr|done]).
Qed.

(** A deferred call that changes nothing. *)
Lemma wp_deferred_stay {S} (R : @env PSig S) (d : proc unit) (body : proc Exit) (s : S) (Q : S -> Prop) :
  (forall s, wp R d s (fun _ s' => s' = s)) -> wp R body s (fun _ s' => Q s') -> wp R (deferred d body) s (fun _ s' => Q s').
Proof.
  intros Hd Hb. apply wp_deferred. eapply wp_mono; [|exact Hb]. intros [] s' Hq; [done|..];
    (eapply wp_mono; [|apply Hd]); by intros ? ? ->.
Qed.

Section runs.
Context (getenv : string -> string) (AppendCertsFromPEM : string -> bool) (lib : SchemeLibrary) (strict : bool).

Abbreviation run := (run_env AppendCertsFromPEM strict).

(** A step that fails exactly when it returns an error. *)
Definition attempts (p : proc error) : Prop :=
  forall s, wp run p s (fun err s' => s' = failed_if (is_err err) s).

Lemma wp_or_exit (step : proc error) (rest : proc Exit) (s : Run) (Q : Exit -> Run -> Prop) :
  attempts step -> Q (Exited 1) (fail s) -> wp run rest s Q -> wp run (or_exit step rest) s Q.
Proof.
  intros Hs Hq Hr. unfold or_exit. eapply wp_bind_spec; [apply Hs|]. by intros [err|] ? ->.
Qed.

Lemma first_error_attempts (steps : list (proc error)) : Forall attempts steps -> attempts (first_error steps).
Proof.
  induction 1 as [|p steps Hp _ IH]; intros s; [done|]. cbn [first_error].
  eapply wp_bind_spec; [apply Hp|]. intros [err|] ? ->; [done|]. apply IH.
Qed.

Lemma BuildConfig_attempts (s : Run) :
  wp run (BuildConfig getenv) s (fun cfg s' => s' = failed_if (is_right cfg) s).
Proof.
  unfold BuildConfig. destruct (negb _); cbn [wp bind sys]; [done|]. intros [home|err] ? ->; cbn [wp bind sys]; [|done].
  intros [err|] ? ->; by cbn [wp sys].
Qed.

Lemma kube_attempts (ns : string) (scheme : Scheme) :
  attempts (BuildK8sCache getenv scheme ns) /\ attempts (BuildK8sClient getenv scheme) /\ attempts (BuildClientset getenv).
Proof.
  unfold BuildK8sCache, BuildK8sClient, BuildClientset.
  split_and!; intros s; (eapply wp_bind_spec; [apply BuildConfig_attempts|]); intros [cfg|err] ? ->; by cbn [wp sys].
Qed.

Definition exporters (tp : Provider) : list Exporter :=
  (if pv_otlp tp then [OtlpExporter] else []) ++ (if pv_noop tp then [] else [MeterProvider]).

Lemma Init_run (opts : Options) (s : Run) :
  op_ServiceName opts = "boxy-controller" \/ op_ServiceName opts = "boxy-router" \/ op_ServiceName opts = "boxy-operator" ->
  wp run (Init getenv opts) s (fun r s' => match r with
    | inl tp => s' = with_open (ru_open s ++ exporters tp) s /\ (pv_noop tp = true -> pv_otlp tp = false)
    | inr _ => s' = fail s
    end).
Proof.
  intros Hn. unfold Init. assert ((TrimSpace (op_ServiceName opts) =?s "") = false) as -> by by destruct Hn as [->|[->| ->]].
  destruct (disabled getenv).
  { cbn [wp bind sys]. intros _ ? ->. cbn [exporters pv_otlp pv_noop app]. rewrite app_nil_r. by destruct s. }
  cbn [wp bind sys]. intros [usable err] s1 ->.
  assert (forall s2 : Run, s2 = s -> wp run
    (err0 <- sys (PrometheusNew (negb (op_Registerer opts))) ;;
     match err0 with
     | Some err0 => Ret (inr (ErrWrap "telemetry: prometheus exporter: " err0 ""))
     | None =>
         otlp <- init_otlp getenv ;;
         match otlp with
         | inl otlp => sys (SetMeterProvider false) ;;;
             Ret (inl {| pv_noop := false; pv_gathers := negb (op_Registerer opts); pv_otlp := otlp |})
         | inr err0 => Ret (inr err0)
         end
     end) s2 (fun r s' => match r with
    | inl tp => s' = with_open (ru_open s ++ exporters tp) s /\ (pv_noop tp = true -> pv_otlp tp = false)
    | inr _ => s' = fail s
    end)) as Hrest; [|destruct usable, err; by try apply Hrest].
  intros s2 ->. cbn [wp bind sys]. intros [e|] ? ->; [done|]. unfold init_otlp.
  destruct (endpointConfigured getenv); cbn [wp bind sys].
  - intros [e|] ? ->; [done|]. cbn [wp bind sys]. intros _ ? ->. split; [|done]. unfold with_open, exporters. simpl.
    by rewrite <- app_assoc.
  - by intros _ ? ->.
Qed.

Lemma flush_run (tp : Provider) (s : Run) :
  (pv_noop tp = true -> pv_otlp tp = false) -> ru_open s = exporters tp ->
  wp run (flush tp) s (fun _ s' => s' = with_open [] s).
Proof.
  intros Hn Ho. unfold flush, Shutdown, exporters in *. destruct tp as [[] g []]; simpl in *;
    try (by specialize (Hn eq_refl)).
  - destruct s; simpl in *. by subst.
  - intros _ ? -> _ ? ->. destruct s; simpl in *. by subst.
  - intros _ ? ->. destruct s; simpl in *. by subst.
Qed.

Lemma metrics_attempts (m : string) :
  strict = true -> attempts (newControllerMetrics m) /\ attempts (NewOperatorMetrics m).
Proof.
  intros Hs. assert (forall kind name unit buckets, attempts (instrument m kind name unit buckets)) as Hi.
  { intros kind name unit buckets s. cbn [instrument wp sys]. intros x ? ->. by rewrite Hs. }
  unfold newControllerMetrics, NewOperatorMetrics, registerPodResourceGauges.
  split; apply first_error_attempts; repeat (apply Forall_cons; split; [apply Hi|]); [|apply Forall_nil_2].
  apply Forall_singleton, first_error_attempts. repeat (apply Forall_cons; split; [apply Hi|]).
  apply Forall_singleton. intros s. cbn [wp sys]. intros x ? ->. by rewrite Hs.
Qed.

Lemma NewClient_run (cfg : ClientConfig) (s : Run) :
  wp run (NewClient AppendCertsFromPEM cfg) s (fun t s' => s' = failed_if (is_right t) s).
Proof.
  unfold NewClient. destruct (kc_MTLSDisabled cfg); [done|]. unfold buildMTLSTransport. cbn [wp bind sys].
  intros [ca|err] ? ->; [|done]. destruct (AppendCertsFromPEM ca); cbn [negb]; [|done].
  cbn [wp bind sys]. by intros [cert|err] ? ->.
Qed.

Lemma controller_tls_run (cfg : config) (s : Run) :
  wp run (controller_tls AppendCertsFromPEM cfg) s (fun t s' => s' = failed_if (is_right t) s).
Proof.
  unfold controller_tls. destruct (cc_mtlsDisabled cfg); [done|]. unfold buildTLSConfig. cbn [wp bind sys].
  intros [cert|err] ? ->; [|done]. cbn [wp bind sys].
  intros [ca|err] ? ->; [|done]. by destruct (AppendCertsFromPEM ca).
Qed.

End runs.

(** ** Properties *)

Section properties.
Context (getenv : string -> string) (AppendCertsFromPEM : string -> bool) (lib : SchemeLibrary).

Lemma controller_orderly (gathered : Request -> Response) :
  wp (run_env AppendCertsFromPEM true) (controller_main getenv AppendCertsFromPEM gathered) fresh_run (orderly False).
Proof.
  unfold controller_main. cbn [bind sys wp]. intros _ ? ->. apply wp_deferred.
  eapply wp_bind_spec; [apply Init_run; auto|]. intros [tp|err] s; [|intros ->; split_and!; auto].
  intros [-> Hn]. apply wp_deferred. destruct (metrics_attempts AppendCertsFromPEM true "boxy.dev/boxy/controller" eq_refl) as [Hm _].
  apply wp_or_exit; [done|split_and!; auto|].
  eapply wp_bind_spec; [apply controller_tls_run|]. intros [tls|err] ? ->; [|split_and!; auto].
  unfold controller_serve. destruct (metrics_server _) as [ms|]; cbn [bind sys wp].
  - intros _ ? -> _ ? -> _ ? -> _ ? -> _ ? ->. eapply wp_mono; [|by apply flush_run]. intros _ ? ->. cbn [wp sys].
    by intros _ ? ->.
  - intros _ ? -> _ ? -> _ ? ->. eapply wp_mono; [|by apply flush_run]. intros _ ? ->. cbn [wp sys]. by intros _ ? ->.
Qed.

Lemma router_metrics_stay (m : string) (s : Run) :
  wp (run_env AppendCertsFromPEM false) (newRouterMetrics m) s (fun _ s' => s' = s).
Proof.
  unfold newRouterMetrics, instrument. cbn [first_error bind sys wp].
  by repeat (intros [] ? ->; cbn [first_error bind sys wp]; [done|]).
Qed.

Lemma router_orderly (badJSON : Err) mcp_call mcp_page gathered :
  wp (run_env AppendCertsFromPEM false)
    (router_main getenv AppendCertsFromPEM lib badJSON mcp_call mcp_page gathered) fresh_run
    (orderly (exists err, ConfigFromEnv getenv (unmarshal_body badJSON) = inr err)).
Proof.
  unfold router_main. destruct (ConfigFromEnv _ _) as [cfg|err] eqn:Hcfg; [|split_and!; eauto].
  destruct (kube_attempts getenv AppendCertsFromPEM false (cf_SandboxNamespace cfg) (NewScheme lib)) as (H1 & H2 & H3).
  do 3 (apply wp_or_exit; [done|split_and!; auto|]).
  cbn [bind sys wp]. intros _ ? ->. apply wp_deferred.
  eapply wp_bind_spec; [apply Init_run; auto|]. intros [tp|err] s; [|intros ->; split_and!; auto].
  intros [-> Hn]. apply wp_deferred. unfold router_serve. cbn [bind sys wp]. intros _ ? -> [] ? ->; cbn [negb]; [|split_and!; auto].
  unfold NewServer. cbn [bind sys wp]. intros _ ? ->. apply wp_bind.
  eapply wp_bind_spec; [apply NewClient_run|]. intros [t|msg] ? ->.
  - eapply wp_bind_spec; [apply router_metrics_stay|]. intros m ? ->. cbn [bind sys wp].
    intros _ ? -> _ ? -> _ ? -> _ ? ->. eapply wp_mono; [|by apply flush_run]. intros _ ? ->. cbn [wp sys]. by intros _ ? ->.
  - cbn [wp]. eapply wp_mono; [|by apply flush_run]. intros _ ? ->. cbn [wp sys]. by intros _ ? ->.
Qed.

(** A single call. *)
Ltac attempt := let s := fresh in intros s; cbn [wp sys]; by intros ? ? ->.

Lemma operator_orderly :
  wp (run_env AppendCertsFromPEM true) (operator_main getenv AppendCertsFromPEM lib) fresh_run (orderly False).
Proof.
  unfold operator_main. eapply wp_bind_spec; [apply Init_run; auto|]. intros [tp|err] s; [|intros ->; split_and!; auto].
  intros [-> Hn]. apply wp_deferred. destruct (metrics_attempts AppendCertsFromPEM true "boxy.dev/boxy/operator" eq_refl) as [_ Hm].
  apply wp_or_exit; [done|split_and!; auto|]. cbn [bind sys wp]. intros [cfg|err] ? ->; [|split_and!; auto].
  apply wp_or_exit; [attempt|split_and!; auto|].
  eapply wp_bind_spec; [apply NewClient_run|]. intros [t|msg] ? ->.
  - unfold operator_start. do 5 (apply wp_or_exit; [attempt|split_and!; auto|]).
    cbn [bind sys wp]. intros _ ? -> _ ? ->. apply wp_or_exit; [attempt|split_and!; auto|].
    cbn [wp]. eapply wp_mono; [|by apply flush_run]. by intros _ ? ->.
  - cbn [wp]. eapply wp_mono; [|by apply flush_run]. by intros _ ? ->.
Qed.


(** *** Who reaches the controller *)

(** A client with the certificate [client] can send a request for [pat] to the
    server that [e] starts. *)
Definition exposes (verify : string -> Certificate -> bool) (client : option Certificate) (pat : string) (e : PEvent) : Prop :=
  match e with
  | ListenAndServe s => pat ∈ sv_Patterns s
  | ListenAndServeTLS s =>
      pat ∈ sv_Patterns s /\ match sv_TLS s with Some t => handshake verify t client = true | None => False end
  | _ => False
  end.

(** The files read, and the goroutines started. *)
Definition started_env : @env PSig (list (string * string) * list Thread) := fun e s =>
  match e return PAnswer e -> _ -> Prop with
  | ReadFile p => fun x s' => s' = (match x with inl d => [(p, d)] | inr _ => [] end ++ s.1, s.2)
  | Go t => fun _ s' => s' = (s.1, s.2 ++ [t])
  | _ => fun _ s' => s' = s
  end.

Definition neutral (e : PEvent) : Prop :=
  match e with ReadFile _ | Go _ | ListenAndServe _ | ListenAndServeTLS _ => False | _ => True end.

Lemma neutral_started {A} (p : proc A) s : only neutral p -> wp started_env p s (fun _ s' => s' = s).
Proof. intros Hp. apply (wp_stay started_env neutral); [done|]. by intros [] x s'. Qed.

Lemma Init_neutral (opts : Options) : only neutral (Init getenv opts).
Proof.
  unfold Init, init_otlp. repeat first [done | progress cbn [only bind sys] | case_match | split | intros ?].
Qed.

Lemma first_error_neutral (steps : list (proc error)) : Forall (only neutral) steps -> only neutral (first_error steps).
Proof. induction 1 as [|p l Hp _ IH]; [done|]. apply only_bind; [done|]. by intros []. Qed.

Lemma newControllerMetrics_neutral (m : string) : only neutral (newControllerMetrics m).
Proof.
  assert (forall kind name unit buckets, only neutral (instrument m kind name unit buckets)) as Hi by done.
  unfold newControllerMetrics, registerPodResourceGauges.
  apply first_error_neutral. repeat (apply Forall_cons; split; [apply Hi|]). apply Forall_singleton, first_error_neutral.
  repeat (apply Forall_cons; split; [apply Hi|]). by apply Forall_singleton.
Qed.

Definition guarded (cfg : config) (verify : string -> Certificate -> bool) (files : list (string * string)) (t : Thread) : Prop :=
  forall client pat, only (fun e => exposes verify client pat e ->
    pat ∈ ["GET /healthz"; "GET /metrics"] \/ cc_mtlsDisabled cfg = true \/
    exists cert ca, client = Some cert /\ (cc_tlsCAPath cfg, ca) ∈ files /\ AppendCertsFromPEM ca = true /\
      verify ca cert = true) (thread_body t).

Lemma metrics_guarded (cfg : config) verify files (s : HttpServer) :
  metrics_server cfg = Some s -> guarded cfg verify files (MetricsThread s).
Proof.
  unfold metrics_server. destruct (_ && _); [|done]. intros [= <-] client pat. cbn [thread_body only bind sys]. by split; [left|].
Qed.

Lemma api_guarded gathered (cfg : config) (tp : Provider) verify files (tls : option ServerTLS) :
  match tls with
  | Some t => st_ClientAuth t = RequireAndVerifyClientCert /\ (cc_tlsCAPath cfg, st_ClientCAs t) ∈ files /\
              AppendCertsFromPEM (st_ClientCAs t) = true
  | None => True
  end -> guarded cfg verify files (ApiThread (api_server gathered cfg tp tls) (negb (cc_mtlsDisabled cfg))).
Proof.
  intros Ht client pat. cbn [thread_body]. apply only_bind.
  - destruct (cc_mtlsDisabled cfg) eqn:Hd; cbn [negb only sys]; (split; [|done]); [by auto|].
    cbn [exposes sv_TLS api_server]. intros [_ Hh]. right. right. destruct tls as [t|]; [|done].
    destruct Ht as (Ha & Hf & Hv). unfold handshake in Hh. rewrite Ha in Hh. destruct client as [c|]; [|done].
    by exists c, (st_ClientCAs t).
  - intros err. destruct (serve_failed err); [|done]. by cbn [only sys].
Qed.

Lemma controller_tls_started (cfg : config) (s : list (string * string) * list Thread) :
  wp started_env (controller_tls AppendCertsFromPEM cfg) s (fun r s' => s'.2 = s.2 /\
    match r with
    | inl (Some t) => st_ClientAuth t = RequireAndVerifyClientCert /\ (cc_tlsCAPath cfg, st_ClientCAs t) ∈ s'.1 /\
                      AppendCertsFromPEM (st_ClientCAs t) = true
    | _ => True
    end).
Proof.
  unfold controller_tls. destruct (cc_mtlsDisabled cfg); [done|]. unfold buildTLSConfig. cbn [wp bind sys].
  intros [cert|err] ? ->; [|done]. cbn [wp bind sys]. intros [ca|err] ? ->; [|done].
  destruct (AppendCertsFromPEM ca) eqn:Hca; cbn [negb wp bind]; [|done]. split_and!; [done..|left|done].
Qed.

Lemma flush_neutral (tp : Provider) : only neutral (flush tp).
Proof. unfold flush, Shutdown. destruct (pv_noop tp), (pv_otlp tp); by cbn [only bind sys]. Qed.

Lemma controller_serve_guarded gathered (cfg : config) (tp : Provider) verify (tls : option ServerTLS) files :
  match tls with
  | Some t => st_ClientAuth t = RequireAndVerifyClientCert /\ (cc_tlsCAPath cfg, st_ClientCAs t) ∈ files /\
              AppendCertsFromPEM (st_ClientCAs t) = true
  | None => True
  end ->
  wp started_env (controller_serve gathered cfg tp tls) (files, []) (fun _ s => Forall (guarded cfg verify s.1) s.2).
Proof.
  intros Ht. pose proof (api_guarded gathered cfg tp verify files tls Ht) as Hapi.
  pose proof (metrics_guarded cfg verify files) as Hm. unfold controller_serve.
  destruct (metrics_server cfg) as [ms|]; cbn [bind sys wp].
  - intros _ ? -> _ ? -> _ ? -> _ ? -> _ ? ->. apply Forall_cons. split; [by apply Hm|]. by apply Forall_singleton.
  - intros _ ? -> _ ? -> _ ? ->. by apply Forall_singleton.
Qed.

Lemma controller_guarded (gathered : Request -> Response) (verify : string -> Certificate -> bool) :
  wp started_env (controller_main getenv AppendCertsFromPEM gathered) ([], [])
    (fun _ s => Forall (guarded (configFromEnv getenv) verify s.1) s.2).
Proof.
  unfold controller_main. cbn [bind sys wp]. intros _ ? ->.
  apply (wp_deferred_stay started_env _ _ _ (fun s => Forall (guarded (configFromEnv getenv) verify s.1) s.2)).
  { intros s. by apply neutral_started. }
  eapply wp_bind_spec; [apply neutral_started, Init_neutral|]. intros [tp|err] ? ->; [|apply Forall_nil_2].
  apply (wp_deferred_stay started_env _ _ _ (fun s => Forall (guarded (configFromEnv getenv) verify s.1) s.2)).
  { intros s. apply neutral_started, flush_neutral. }
  eapply wp_bind_spec; [apply neutral_started, newControllerMetrics_neutral|]. intros [err|] ? ->; [apply Forall_nil_2|].
  eapply wp_bind_spec; [apply controller_tls_started|]. intros [tls|err] [files ts] [Hts Htls]; simpl in Hts; subst ts.
  - apply controller_serve_guarded. by destruct tls.
  - apply Forall_nil_2.
Qed.

Lemma controller_listens_not (gathered : Request -> Response) (verify : string -> Certificate -> bool) :
  only (fun e => forall client pat, ~ exposes verify client pat e) (controller_main getenv AppendCertsFromPEM gathered).
Proof.
  apply (@only_mono PSig) with (P := fun e => match e with ListenAndServe _ | ListenAndServeTLS _ => False | _ => True end).
  { intros [] He client pat; try done; intros []. }
  set (P := fun e : PEvent => match e with ListenAndServe _ | ListenAndServeTLS _ => False | _ => True end).
  assert (forall A (p : proc A), only neutral p -> only P p) as Hn by (intros A p; apply (@only_mono PSig); by intros []).
  unfold controller_main, deferred, or_exit, controller_tls, buildTLSConfig, controller_serve. cbn [only bind sys]. split; [done|]. intros _.
  apply only_bind; [|by intros []; cbn [only bind sys]].
  apply only_bind; [apply Hn, Init_neutral|]. intros [tp|]; [|done].
  apply only_bind; [|by intros []; [|apply only_bind; [apply Hn, flush_neutral|]..]].
  apply only_bind; [apply Hn, newControllerMetrics_neutral|]. intros [|]; [done|].
  apply only_bind; [destruct (cc_mtlsDisabled _); [done|]; repeat first [done | progress cbn [only bind sys] | case_match | split | intros ?]|].
  intros [tls|]; [|done]. destruct (metrics_server _); by cbn [only bind sys].
Qed.

(** C17: Whatever the environment variables and the answers of the system: unless
    mutual TLS is switched off, nobody without a certificate that leads to a
    certificate of the configured CA file reaches anything of the controller but
    its health and metrics pages, on any port it opens. *)
Theorem controller_api_guarded (gathered : Request -> Response) (verify : string -> Certificate -> bool) :
  wp started_env (controller_main getenv AppendCertsFromPEM gathered) ([], []) (fun _ s =>
    forall t client pat, t ∈ s.2 -> only (fun e => exposes verify client pat e ->
      pat ∈ ["GET /healthz"; "GET /metrics"] \/ cc_mtlsDisabled (configFromEnv getenv) = true \/
      exists cert ca, client = Some cert /\ (cc_tlsCAPath (configFromEnv getenv), ca) ∈ s.1 /\
        AppendCertsFromPEM ca = true /\ verify ca cert = true) (thread_body t)) /\
  only (fun e => forall client pat, ~ exposes verify client pat e) (controller_main getenv AppendCertsFromPEM gathered).
Proof.
  split; [|apply controller_listens_not].
  eapply wp_mono; [|apply (controller_guarded gathered verify)]. intros r s Hs t client pat Ht.
  rewrite Forall_forall in Hs. exact (Hs t Ht client pat).
Qed.

(** *** The controller's clients *)

(** C9: A request of the router or of the operator reaches the controller's
    handler it is meant for.  Started with the controller's environment, either
    of them builds a client whose requests carry the controller's token and use
    TLS exactly if its own setting says so, and such a request is dispatched to
    the handler of its kind with the body that was sent. *)
Theorem request_reaches_handler {O : AdapterOps} {M : CtrlMetrics} (page : option (Request -> Response)) (badJSON : Err)
    (rcfg : Config) (kc : ClientConfig) (r : CtrlReq) :
  let cfg := configFromEnv getenv in
  ConfigFromEnv getenv (unmarshal_body badJSON) = inl rcfg ->
  kc = router_client_config rcfg \/ kc = operator_client_config getenv ->
  ValidHeaderFieldValue (cc_controllerToken cfg) = true -> request_fits r ->
  always (NewClient AppendCertsFromPEM kc) [] (fun client _ =>
    match client with
    | inl t => exists token tls, RoundTrip t "" = Some (token, tls) /\ (tls = None <-> kc_MTLSDisabled kc = true) /\
        handler cfg page (receive (wire_method r) (wire_path r) token (wire_body r)) =
          Handled (request_pattern r) (request_handler cfg r) []
    | inr _ => kc_MTLSDisabled kc = false
    end).
Proof.
  intros cfg Hr Hk Hv Hf. pose proof (request_dispatched cfg page r Hf) as Hd.
  assert (kc_ControllerToken kc = cc_controllerToken cfg) as Htok.
  { destruct (env_helpers_agree getenv "BOXY_CONTROLLER_TOKEN" "" 0 false) as (Hc & Ho & _). subst cfg.
    cbn [cc_controllerToken configFromEnv]. rewrite Hc. destruct Hk as [->| ->]; [|exact Ho].
    unfold ConfigFromEnv in Hr. destruct (default_sandbox _ _); by simplify_eq. }
  rewrite <- Htok in Hv, Hd. clear Hr Hk.
  assert (forall base, (forall tok, ValidHeaderFieldValue tok = true -> exists tls, RoundTrip base tok = Some (tok, tls) /\
    (tls = None <-> kc_MTLSDisabled kc = true)) -> exists token tls,
    RoundTrip (if negb (kc_ControllerToken kc =?s "") then TokenTransport (kc_ControllerToken kc) base else base) "" =
      Some (token, tls) /\ (tls = None <-> kc_MTLSDisabled kc = true) /\
    handler cfg page (receive (wire_method r) (wire_path r) token (wire_body r)) =
      Handled (request_pattern r) (request_handler cfg r) []) as Hbase.
  { intros base Hb. destruct (Hb _ Hv) as (tls & Hrt & Htls). exists (kc_ControllerToken kc), tls.
    split; [|by split]. destruct (kc_ControllerToken kc =?s "") eqn:He; [|done].
    apply String.eqb_eq in He. by rewrite He in Hrt |- *. }
  unfold always, NewClient. destruct (kc_MTLSDisabled kc); cbn [bind wp].
  - apply Hbase. intros tok Ht. cbn [RoundTrip]. rewrite Ht. by exists None.
  - unfold buildMTLSTransport. cbn [bind sys wp]. intros [ca|err] ? _; [|done].
    destruct (AppendCertsFromPEM ca); cbn [negb bind sys wp]; [|done]. intros [cert|err] ? _; [|done].
    cbn [bind wp]. apply Hbase. intros tok Ht. cbn [RoundTrip]. rewrite Ht. by eexists.
Qed.

End properties.

(** ** Instances of the theorems *)

Definition sample_env (key : string) : string :=
  if key =?s "BOXY_CONTROLLER_TOKEN" then " secret " else if key =?s "BOXY_MTLS_DISABLED" then "yes" else "".

Lemma request_reaches_handler_witness :
  always (NewClient (fun _ => true) (operator_client_config sample_env)) [] (fun client _ =>
    match client with
    | inl t => exists token tls, RoundTrip t "" = Some (token, tls) /\
        (tls = None <-> kc_MTLSDisabled (operator_client_config sample_env) = true) /\
        handler (O := NsjailOps AdapterConfig.sample_cfg) (M := true) (configFromEnv sample_env) None
          (receive "POST" "/v1/exec" token (wire_body (CRExec sample_exec))) =
          Handled "POST /v1/exec" (handleExec (O := NsjailOps AdapterConfig.sample_cfg) (M := true) (configFromEnv sample_env)
            (Some {| xr_SandboxID := "s1"; xr_Command := "echo"; xr_Args := ["<hi>"];
                     xr_Env := [("A", "1"); ("B", "2")]; xr_TimeoutSeconds := 5; xr_PTY := false |})) []
    | inr _ => kc_MTLSDisabled (operator_client_config sample_env) = false
    end).
Proof.
  destruct (ConfigFromEnv sample_env (unmarshal_body (ErrMsg ""))) as [rcfg|err] eqn:Hc; [|vm_compute in Hc; discriminate].
  apply (request_reaches_handler sample_env (fun _ => true) (O := NsjailOps AdapterConfig.sample_cfg) (M := true)
    None (ErrMsg "") rcfg (operator_client_config sample_env) (CRExec sample_exec)).
  - exact Hc.
  - right. reflexivity.
  - vm_compute. reflexivity.
  - apply sample_exec_fits.
Defined.
