(* ===== verification/EndToEnd.v ===== *)
(** * From the public API to the jail

    The path of a sandbox configuration through the three programs: the router
    stores the posted body as a Sandbox object ([createSandboxFromBody]), the
    operator turns the object into a request to a controller
    ([reconcileCreating]), the controller hands it to the adapter
    ([handleCreate]), and the adapter prints it as the configuration of each
    command's jail ([buildNsjailConfig], [ToTextProto]). *)
From S2P Require Import Prelude Prog GoStrings ApiTypes Validate NsjailConfig AdapterConfig Adapter Controller Kube.
From S2P Require Import GoJson GoCodec ApiCodec GoMux CtrlMetrics CtrlClient Wire SessionReconciler EnvConfig RouterServer Cluster.

Open Scope boxy_scope.

(** What the adapter of a controller keeps for session [s] of a posted sandbox. *)
Definition jailed (cfg : Config) (acfg : AdapterConfig) (s : Session) (body : SandboxCreateBody) : sandbox :=
  new_sandbox acfg (create_body (create_request s (sandbox_of_body cfg body))).


(** ** The controllers the cluster counts on *)

Definition has (m : gmap string sandbox) (id : string) : bool := bool_decide (is_Some (m !! id)).

Lemma has_insert (m : gmap string sandbox) (id : string) (sb : sandbox) : has (<[id := sb]> m) id = true.
Proof. unfold has. rewrite lookup_insert_eq. by apply (bool_decide_eq_true_2 _). Qed.

Lemma has_none (m : gmap string sandbox) (id : string) : m !! id = None -> has m id = false.
Proof. intros Hm. unfold has. rewrite Hm. apply (bool_decide_eq_false_2 _). by intros []. Qed.

(** The contract that [Cluster] states for a request and its sandbox; the other
    sandboxes stay as they are. *)
Definition honoured (contract : bool -> Z -> bool -> Prop) (id : string) (m : gmap string sandbox) (resp : Response)
    (m' : gmap string sandbox) : Prop :=
  contract (has m id) (resp_code resp) (has m' id) /\ forall id', id' <> id -> m' !! id' = m !! id'.

Section contract.
Context (ctrl : config) {O : AdapterOps} {M : CtrlMetrics} {L : AdapterLaws O}.

Lemma refusal_honoured (id : string) (m : gmap string sandbox) (resp : Response) :
  300 <= resp_code resp -> resp_code resp <> 404 ->
  honoured create_contract id m resp m /\ honoured delete_contract id m resp m.
Proof.
  intros Hc Hn. unfold honoured, create_contract, delete_contract. by rewrite (proj2 (Z.ltb_ge _ _)) by lia.
Qed.

Lemma create_honoured (q : CreateSandboxReq) (m : gmap string sandbox) :
  wp reg_env (handleCreate ctrl (Some q)) m (honoured create_contract (cr_SandboxID q) m).
Proof.
  unfold handleCreate. destruct (_ =?s ""); [by apply refusal_honoured|].
  eapply wp_bind_spec; [apply law_Count|]. intros n m' [-> ->]. case_goal; [by apply refusal_honoured|].
  eapply wp_bind_spec; [apply law_Create|]. intros [err|] m'.
  - intros [-> Hc]. apply refusal_honoured; rewrite adapter_failed_code; lia.
  - intros [Hk [sb ->]]. eapply wp_bind_spec; [by apply measures_reg, (metrics_measure "" "" 0 0)|].
    intros _ m' ->. split; [by rewrite has_insert, has_none|]. intros id' Hne. by rewrite lookup_insert_ne.
Qed.

Lemma delete_honoured (q : DeleteSandboxReq) (m : gmap string sandbox) :
  wp reg_env (handleDelete (Some q)) m (honoured delete_contract (dr_SandboxID q) m).
Proof.
  unfold handleDelete. destruct (_ =?s ""); [by apply refusal_honoured|].
  eapply wp_bind_spec; [apply law_Delete|]. intros [err|] m' [-> Hr].
  - destruct Hr as [Hc Hk]. rewrite delete_id by done. split; [|done]. unfold delete_contract.
    rewrite adapter_failed_code, Hc. split; [done|]. intros _. by apply has_none.
  - eapply wp_bind_spec; [by apply measures_reg, (metrics_measure "" "" 0 0)|].
    intros _ m' ->. split; [|intros id' Hne; by rewrite lookup_delete_ne]. apply has_none, lookup_delete_eq.
Qed.

(** C25: The controllers are what the operator's theorems take them for. A
    request to create or to delete a sandbox, as the operator's client puts it on
    the wire, is answered by the controller as the contract of [Cluster] says,
    whatever token comes with it and whatever the operating system does: a
    success creates a sandbox that was not there, or leaves none; any other
    answer changes nothing, and only a deletion that finds no sandbox is answered
    404; all other sandboxes stay as they are. *)
Theorem controllers_honour_contract (page : option (Request -> Response)) (r : CtrlReq) (token pat : string)
    (p : @prog ASig Response) (vs : list string) (m : gmap string sandbox) :
  request_fits r ->
  handler ctrl page (receive (wire_method r) (wire_path r) token (wire_body r)) = Handled pat p vs ->
  match r with
  | CRCreate q => wp reg_env p m (honoured create_contract (ToValidUTF8 (cr_SandboxID q)) m)
  | CRDelete q => wp reg_env p m (honoured delete_contract (ToValidUTF8 (dr_SandboxID q)) m)
  | _ => True
  end.
Proof.
  intros Hf Hh. apply handler_reached in Hh; [|done]. destruct r as [q| | | | | |q]; try done.
  - destruct Hh as [-> | ->]; [by apply refusal_honoured|].
    pose proof (create_honoured (received (C := Client.CreateSandboxReq_codec) q) m) as H. by destruct q.
  - destruct Hh as [-> | ->]; [by apply refusal_honoured|].
    pose proof (delete_honoured (received (C := Client.DeleteSandboxReq_codec) q) m) as H. by destruct q.
Qed.

End contract.

(** The sandbox [s1] is deleted. *)
Definition delete_s1 : CtrlReq := CRDelete {| dr_SandboxID := "s1" |}.

Lemma controllers_honour_contract_witness :
  exists p, handler (O := NsjailOps sample_cfg) (M := true) sample_config None
      (receive (wire_method delete_s1) (wire_path delete_s1) "secret" (wire_body delete_s1)) =
    Handled "DELETE /v1/sandboxes" p [] /\
  wp reg_env p {[ "s1" := sample_sandbox ]} (honoured delete_contract (ToValidUTF8 "s1") {[ "s1" := sample_sandbox ]}).
Proof.
  assert (request_fits delete_s1) as Hf by (vm_compute; done).
  eexists. split; [exact (request_dispatched (O := NsjailOps sample_cfg) (M := true) sample_config None delete_s1 Hf)|].
  exact (controllers_honour_contract (O := NsjailOps sample_cfg) (M := true) sample_config None delete_s1 "secret" _ _ _
    {[ "s1" := sample_sandbox ]} Hf
    (request_dispatched (O := NsjailOps sample_cfg) (M := true) sample_config None delete_s1 Hf)).
Defined.
