(* ===== verification/Findings.v ===== *)
(** * Behaviours that deserve attention

    Facts about the code, proved on its definitions, that differ from what its
    comments, documentation or evident intent say.  Each is a theorem about the
    components as they are modelled in the other files: a general statement
    where one holds, otherwise an execution. *)
From S2P Require Import Prelude Prog GoStrings ApiTypes Validate AdapterConfig Output Adapter Kube CtrlClient.
From S2P Require Import GoJson Wire SessionReconciler SessionProofs Lifecycle Auth EnvConfig RouterServer Mcp RouterAccess.

Open Scope boxy_scope.

(** ** Operator *)

(** A session whose sandbox was created but whose status write was lost stays in
    Creating: the controller answers 409 to every further attempt, and no
    reconciliation changes anything. *)
Theorem conflict_keeps_creating (cfg : ReconcilerConfig) (ns name : string) (w : ClusterState) (s : Session)
    (sb : Sandbox) (n : nat) :
  cl_session w = Some s -> not_deleted (se_Meta s) = true -> phase_of s = SandboxPhaseCreating ->
  find_sandbox (ss_SandboxID (se_Spec s)) (cl_sandboxes w) = Some sb -> ss_SessionID (se_Spec s) ∈ cl_held w ->
  Nat.iter n (reconcile_once cfg ns name) w = w.
Proof.
  intros Hs Hd Hp Hsb Hin. assert (reconcile_once cfg ns name w = w) as Hfix.
  { unfold reconcile_once, Reconcile. cbn [run bind call cluster_step]. rewrite Hs, Hd, Hp. cbn [negb].
    change (SandboxPhaseCreating =?s "") with false. change (SandboxPhaseCreating =?s SandboxPhasePending) with false.
    change (SandboxPhaseCreating =?s SandboxPhaseCreating) with true. cbn [orb].
    unfold reconcileCreating, fetchSandboxConfig. cbn [run bind call cluster_step]. rewrite Hsb.
    unfold CreateSandbox, send. cbn [run bind call cluster_step]. unfold answer_create. cbn [cr_SandboxID create_request].
    by rewrite decide_True by done. }
  induction n as [|n IH]; [done|]. simpl. by rewrite IH, Hfix.
Qed.

(** The sessions of a pod are counted in the manager's cache, which follows the
    operator's own writes with a delay.  With a list that does not show them yet,
    the third session is placed on a pod that has room for two. *)
Definition pending_session (name : string) : Session :=
  {| se_Meta := sample_meta name; se_Spec := {| ss_SessionID := name; ss_SandboxID := "demo"; ss_Owner := "" |};
     se_Status := sample_status SandboxPhasePending "" "" None |}.

Definition lagging_cache (e : KEvent) (log : list (string * string)) : KAnswer e * list (string * string) :=
  match e return KAnswer e * list (string * string) with
  | GetSession _ name => (inl (pending_session name), log)
  | ListSandboxes _ _ => (inl [sample_sandbox_cr], log)
  | ListSessions _ _ => (inl [], log)
  | ListPods _ _ => (inl [sample_pod "ctrl-0"], log)
  | StatusUpdateSession s => (inl s, log ++ [(name_of s, st_ControllerPod (se_Status s))])
  | e => (unavailable e, log)
  end.

Theorem lagging_cache_overfills :
  rc_MaxSandboxesPerCtrl (NewSessionReconciler sample_rcfg) = 2 /\
  fold_left (fun log name => (run lagging_cache (Reconcile (NewSessionReconciler sample_rcfg) "boxy" name) log).2)
    ["s1"; "s2"; "s3"] [] = [("s1", "ctrl-0"); ("s2", "ctrl-0"); ("s3", "ctrl-0")].
Proof. by vm_compute. Qed.

(** Scaling down looks for any idle pod but lowers the replica count, which
    removes the pod with the highest ordinal: with ctrl-0 idle and ctrl-1 in
    use, the count goes to 1. *)
Definition scale_world (e : KEvent) (log : list Z) : KAnswer e * list Z :=
  match e return KAnswer e * list Z with
  | GetStatefulSet _ _ => (inl (sample_sts 2), log)
  | ListPods _ _ => (inl [sample_pod "ctrl-0"; sample_pod "ctrl-1"], log)
  | ListSessions _ _ => (inl [sample_session SandboxPhaseRunning "ctrl-1" "ctrl-1.hl.boxy.svc" None], log)
  | Now => (10 * Minute, log)
  | UpdateStatefulSet sts => (inl sts, log ++ [current_replicas sts])
  | e => (unavailable e, log)
  end.

Theorem scale_down_hits_busy_pod : (run scale_world (tryScaleDown sample_rcfg) []).2 = [1].
Proof. by vm_compute. Qed.

(** ** Router *)

(** The API accepts a configuration the controllers always refuse: the session
    never leaves Creating. *)
Definition refused_body : SandboxCreateBody :=
  {| cb_SandboxID := "demo"; cb_TTLSeconds := 60; cb_Env := []; cb_AllowedBinaries := ["../sh"];
     cb_VM := None; cb_Network := None; cb_Volumes := []; cb_Patches := []; cb_SetupScript := "";
     cb_TeardownScript := ""; cb_ScriptEnv := [] |}.

Theorem accepted_but_refused :
  ValidateSandboxCreate (Some refused_body) 86400 = None /\ validateCreateRequest sample_cfg refused_body <> None.
Proof. by vm_compute. Qed.

(** An update keeps the stored scripts and their environment whatever the body
    says about them. *)
Theorem update_keeps_scripts (body : SandboxCreateBody) (sb : Sandbox) :
  let sp := sb_Spec (updated_sandbox body sb) in
  sp_SetupScript sp = sp_SetupScript (sb_Spec sb) /\ sp_TeardownScript sp = sp_TeardownScript (sb_Spec sb) /\
  sp_ScriptEnv sp = sp_ScriptEnv (sb_Spec sb).
Proof. done. Qed.

(** The scripted cluster of the executions below: the sessions found by label
    and by name, whether a new session's name is taken, the rights granted, and
    a log of the commands sent and the sandboxes created. *)
Record Script := {
  sc_listed : list Session;
  sc_named : option Session;
  sc_sandboxes : list Sandbox;
  sc_rights : list (string * string);
  sc_log : list (string * string);
}.

Definition with_log (w : Script) (what id : string) : Script :=
  {| sc_listed := sc_listed w; sc_named := sc_named w; sc_sandboxes := sc_sandboxes w; sc_rights := sc_rights w;
     sc_log := sc_log w ++ [(what, id)] |}.

Definition script_step (e : KEvent) (w : Script) : KAnswer e * Script :=
  match e return KAnswer e * Script with
  | SlotTryAcquire => (true, w)
  | ListSessions _ _ => (inl (sc_listed w), w)
  | ListSandboxes _ _ => (inl (sc_sandboxes w), w)
  | CreateSession _ => (Some (ErrK8s AlreadyExists "exists"), w)
  | GetSession _ _ => (match sc_named w with Some s => inl s | None => inr no_session end, w)
  | SubjectAccessReview q =>
      (inl {| as_Allowed := existsb (fun r => (r.1 =?s aq_Verb q) && (r.2 =?s aq_Resource q)) (sc_rights w);
              as_Reason := "" |}, w)
  | CreateSandboxCR sb => (None, with_log w "create" (sp_SandboxID (sb_Spec sb)))
  | Http _ (CRExec r) => (HttpResponse 200 None (inl empty_result), with_log w "exec" (xr_SandboxID r))
  | e => (unavailable e, w)
  end.

Definition exec_body : ExecRequestBody :=
  {| er_SandboxID := "mine"; er_SessionID := "s1"; er_Owner := ""; er_Command := "id"; er_Args := []; er_Env := [];
     er_TimeoutSeconds := 5; er_PTY := false |}.

Definition mine : Sandbox :=
  {| sb_Meta := sample_meta "mine"; sb_Spec := sb_Spec (sandbox_of_body sample_router (with_id "mine" refused_body)) |}.

(** A name that is taken is not an error when a session is created, and the
    session read back is not compared with the request: a command for sandbox
    [mine] runs in a session of sandbox [demo]. *)
Theorem taken_name_runs_elsewhere :
  let other := sample_session SandboxPhaseRunning "ctrl-0" "ctrl-0.hl.boxy.svc" None in
  let '(r, w) := run script_step (handleSessionExec sample_router (Some alice) (Body exec_body))
    {| sc_listed := []; sc_named := Some other; sc_sandboxes := [mine];
       sc_rights := [("get", "sandboxes"); ("create", "sessions")]; sc_log := [] |} in
  rs_code r = 200 /\ sc_log w = [("exec", "s1")] /\ ss_SandboxID (se_Spec other) = "demo".
Proof. by vm_compute. Qed.

(** Two sandboxes whose ids agree in their first 55 bytes share one session, and
    the tool does not notice: with X-Sandbox-Id of the second the command runs in
    the session of the first. *)
Definition long_id (tail : string) : string :=
  "tenant-0123456789-0123456789-0123456789-0123456789-abcd" +:+ tail.

Definition shared_by_first : Session :=
  {| se_Meta := sample_meta (shared_session_id (long_id "-a"));
     se_Spec := {| ss_SessionID := shared_session_id (long_id "-a"); ss_SandboxID := long_id "-a"; ss_Owner := "system" |};
     se_Status := sample_status SandboxPhaseRunning "ctrl-0" "ctrl-0.hl.boxy.svc" None |}.

Definition second : Sandbox :=
  {| sb_Meta := sample_meta (long_id "-b"); sb_Spec := sb_Spec (sandbox_of_body sample_router (with_id (long_id "-b") refused_body)) |}.

Theorem prefix_shares_session :
  let '(r, w) := run script_step
    (call_tool sample_router (Some alice) (long_id "-b") "" (CallBash false {| bp_Command := "id"; bp_TimeoutSeconds := 5 |}))
    {| sc_listed := [shared_by_first]; sc_named := None; sc_sandboxes := [second];
       sc_rights := [("get", "sandboxes"); ("update", "sessions")]; sc_log := [] |} in
  tr_IsError r = false /\ sc_log w = [("exec", ss_SessionID (se_Spec shared_by_first))] /\
  ss_SandboxID (se_Spec shared_by_first) <> long_id "-b".
Proof. by vm_compute. Qed.

(** The default sandbox is created for a user who may only read it. *)
Definition default_router : Config :=
  {| cf_ListenAddr := ":8080"; cf_DevToken := ""; cf_AuthCacheTTL := 30 * Second; cf_SandboxNamespace := "boxy";
     cf_MaxBodyBytes := 0; cf_MaxOutputBytes := 0; cf_MaxTimeoutSec := 3600; cf_MaxArgs := 256; cf_MaxEnvKeys := 64;
     cf_MaxConcurrency := 100; cf_MaxSandboxTTLSec := 86400; cf_MTLSDisabled := true; cf_TLSCAPath := "";
     cf_TLSClientCertPath := ""; cf_TLSClientKeyPath := ""; cf_ControllerToken := ""; cf_ControllerPort := 8080;
     cf_DefaultSandboxEnabled := true; cf_DefaultSandboxConfig := Some refused_body; cf_CreateTimeout := 30 * Second |}.

Theorem default_created_with_get :
  sc_log (run script_step
    (call_tool default_router (Some alice) "" "" (CallBash false {| bp_Command := "id"; bp_TimeoutSeconds := 5 |}))
    {| sc_listed := []; sc_named := None; sc_sandboxes := []; sc_rights := [("get", "sandboxes")]; sc_log := [] |}).2
  = [("create", "demo")].
Proof. by vm_compute. Qed.

(** The limit on timeouts applies to the exec endpoints only: the bash tool sends
    any positive timeout. *)
Theorem bash_timeout_not_limited (s : Session) (p : bashParams) :
  0 < bp_TimeoutSeconds p -> xr_TimeoutSeconds (bash_request s p) = bp_TimeoutSeconds p.
Proof. intros H. simpl. by rewrite (proj2 (Z.leb_gt _ _) H). Qed.

(** A stream that ends without an exit event counts as success. *)
Theorem cut_stream_is_success (url : string) (req : ExecReq) :
  run (fun e (_ : unit) => match e return KAnswer e * unit with
                           | Http _ (CRExecStream _) => (HttpResponse 200 None ([], None), tt)
                           | e => (unavailable e, tt)
                           end) (ClientExecStream url req) tt = (([], inl empty_result), tt) /\
  xs_ExitCode empty_result = 0.
Proof. by vm_compute. Qed.

(** A long life of cached reviews overflows the period of the eviction ticker:
    the router panics as soon as the loop starts. *)
Theorem long_cache_life_panics (n : nat) :
  let getenv key := if key =?s "BOXY_AUTH_CACHE_TTL_SECONDS" then "5000000000" else "" in
  exists cfg, ConfigFromEnv getenv (fun _ => inr (ErrMsg "")) = inl cfg /\ 0 < cache_ttl cfg /\
    evictLoop (reviewer cfg) n = Ret (Some Panicked).
Proof. eexists. split; [vm_compute; reflexivity|]. split; [by vm_compute|]. reflexivity. Qed.

(** ** Adapter *)

(** A character whose bytes arrive in two reads is lost to the listener of a
    stream: each part is replaced on its own, although the output was valid. *)
Theorem split_character_replaced :
  let evs := ds_events (drain 100 [(Stdout, String "195" ""); (Stdout, String "169" "")]) in
  Valid (String "195" (String "169" "")) = true /\
  str_join "" (map snd evs) = String "195" (String "169" "") /\
  let replacement := String "239" (String "191" (String "189" "")) in
  heard evs = [("stdout", replacement); ("stdout", replacement)].
Proof. by vm_compute. Qed.

(** Opening a terminal never closes what it opened, on any path. *)
Definition not_a_close (e : AEvent) : Prop := match e with PtyClose _ => False | _ => True end.

Theorem openPTY_closes_nothing : @only ASig _ not_a_close openPTY.
Proof. unfold openPTY. only_tac. Qed.

(** The truncation event is sent for an output of exactly the limit, of which
    nothing was cut. *)
Theorem full_output_reported_truncated :
  ds_events (drain 5 [(Stdout, "hello")]) = [("stdout", "hello"); ("truncated", "")].
Proof. by vm_compute. Qed.
